(** * grove daemon: a shallow embedding of the supervisor and its helpers

    The development follows the Go sources of the repository:

    - [internal/envfile]            the dotenv loader ([Envfile.Load]);
    - [internal/proto]              states, requests, responses, attach frames;
    - [internal/daemon/daemon.go]   the registry and the ID allocator;
    - [internal/daemon/handlers.go] one handler per request type;
    - the reload of persisted instances and the resilient writer.

    Go strings are byte strings: they are modelled by [string], whose
    characters ([ascii]) are the bytes.  Go maps are [gmap]s.  Handlers are
    state-passing functions over the daemon, the client connection and the
    files they touch; what they do to the outside world is recorded, in
    order, in a trace of events. *)

From Stdlib Require Import ZArith Lia List String Ascii Sorted Permutation.
From Stdlib.Strings Require Import Byte.
From stdpp Require Import gmap strings list fin_maps sorting.
Import ListNotations.
Open Scope string_scope.
Open Scope list_scope.

(* ===================================================================== *)
(** * Pieces of the Go standard library the program calls                 *)
(* ===================================================================== *)

Module GoStrings.

(** Bytes by their decimal code. *)
Definition byteString (codes : list nat) : string :=
  string_of_list_ascii (map ascii_of_nat codes).

Definition code (c : ascii) : nat := nat_of_ascii c.

(** [s[n:]] for [n <= len(s)]. *)
Fixpoint skip (n : nat) (s : string) : string :=
  match n, s with
  | O, _ => s
  | S k, String _ r => skip k r
  | S _, EmptyString => EmptyString
  end.

Fixpoint rev_append (s acc : string) : string :=
  match s with
  | EmptyString => acc
  | String c r => rev_append r (String c acc)
  end.

Definition rev (s : string) : string := rev_append s EmptyString.

(** [strings.HasPrefix]. *)
Fixpoint HasPrefix (s prefix : string) : bool :=
  match prefix, s with
  | EmptyString, _ => true
  | String p ps, String c cs => Ascii.eqb c p && HasPrefix cs ps
  | String _ _, EmptyString => false
  end.

(** [strings.Cut]: split around the first instance of [sep]. *)
Fixpoint Cut (s sep : string) : string * string * bool :=
  if HasPrefix s sep then (EmptyString, skip (String.length sep) s, true)
  else match s with
       | EmptyString => (s, EmptyString, false)
       | String c r =>
           match Cut r sep with
           | (before, after, true) => (String c before, after, true)
           | (_, _, false) => (s, EmptyString, false)
           end
       end.

(** ** White space, as [unicode.IsSpace] sees it through UTF-8

    The one-byte runes are the six ASCII spaces.  U+0085 and U+00A0 take
    two bytes; U+1680, U+2000..U+200A, U+2028, U+2029, U+202F, U+205F and
    U+3000 take three.  A byte sequence that is not valid UTF-8 decodes to
    the error rune, which is not a space. *)

Definition space1 (c : ascii) : bool :=
  let n := code c in
  (Nat.leb 9 n && Nat.leb n 13) || Nat.eqb n 32.

Definition space2 (c1 c2 : ascii) : bool :=
  Nat.eqb (code c1) 194 && (Nat.eqb (code c2) 133 || Nat.eqb (code c2) 160).

Definition space3 (c1 c2 c3 : ascii) : bool :=
  let a := code c1 in let b := code c2 in let c := code c3 in
  (Nat.eqb a 225 && Nat.eqb b 154 && Nat.eqb c 128)
  || (Nat.eqb a 226 && Nat.eqb b 128
      && ((Nat.leb 128 c && Nat.leb c 138)
          || Nat.eqb c 168 || Nat.eqb c 169 || Nat.eqb c 175))
  || (Nat.eqb a 226 && Nat.eqb b 129 && Nat.eqb c 159)
  || (Nat.eqb a 227 && Nat.eqb b 128 && Nat.eqb c 128).

Section Strip.
(** Remove the runes of a class from the front of a string; the class
    is given by its one-, two- and three-byte members. *)
Variable p1 : ascii -> bool.
Variable p2 : ascii -> ascii -> bool.
Variable p3 : ascii -> ascii -> ascii -> bool.

(** What is left after one leading rune of the class, if there is one. *)
Definition leading (s : string) : option string :=
  match s with
  | EmptyString => None
  | String c1 r1 =>
      if p1 c1 then Some r1
      else match r1 with
           | EmptyString => None
           | String c2 r2 =>
               if p2 c1 c2 then Some r2
               else match r2 with
                    | EmptyString => None
                    | String c3 r3 => if p3 c1 c2 c3 then Some r3 else None
                    end
           end
  end.

Fixpoint strip (s : string) : string :=
  match s with
  | EmptyString => EmptyString
  | String c1 r1 =>
      if p1 c1 then strip r1
      else match r1 with
           | EmptyString => s
           | String c2 r2 =>
               if p2 c1 c2 then strip r2
               else match r2 with
                    | EmptyString => s
                    | String c3 r3 => if p3 c1 c2 c3 then strip r3 else s
                    end
           end
  end.

(** A string made of runes of the class only. *)
Inductive Runes : string -> Prop :=
| Runes_nil : Runes EmptyString
| Runes_1 c s : p1 c = true -> Runes s -> Runes (String c s)
| Runes_2 c1 c2 s : p2 c1 c2 = true -> Runes s -> Runes (String c1 (String c2 s))
| Runes_3 c1 c2 c3 s :
    p3 c1 c2 c3 = true -> Runes s -> Runes (String c1 (String c2 (String c3 s))).
End Strip.

(** A byte below 128 that is no space is part of no space: trimming
    never removes it. *)
Definition plain (c : ascii) : Prop := code c < 128 /\ space1 c = false.

(** A byte that continues no space. *)
Definition starts (c : ascii) : Prop := code c < 128 \/ 176 <= code c.

(** The two- and three-byte spaces read back to front. *)
Definition space2r (a b : ascii) : bool := space2 b a.
Definition space3r (a b c : ascii) : bool := space3 c b a.

(** White space only; a string that starts, or ends, with a space. *)
Definition WhiteSpace (s : string) : Prop := Runes space1 space2 space3 s.

Definition startsWithSpace (s : string) : bool :=
  match leading space1 space2 space3 s with Some _ => true | None => false end.

Definition endsWithSpace (s : string) : bool :=
  match leading space1 space2r space3r (rev s) with Some _ => true | None => false end.

(** [strings.TrimLeftFunc(s, unicode.IsSpace)]. *)
Definition TrimLeftSpace (s : string) : string := strip space1 space2 space3 s.

(** [strings.TrimRightFunc(s, unicode.IsSpace)]: the same scan over the
    reversed string, each rune read back to front. *)
Definition TrimRightSpace (s : string) : string :=
  rev (strip space1 space2r space3r (rev s)).

(** [strings.TrimSpace]: its ASCII fast path and its fall-back agree with
    trimming on the left and then on the right. *)
Definition TrimSpace (s : string) : string := TrimRightSpace (TrimLeftSpace s).

(** [strings.ReplaceAll(s, old, new)] for a non-empty [old]: the
    non-overlapping instances of [old] are replaced from left to right.
    [pending] counts the bytes of a matched instance still to be dropped.
    (For an empty [old] Go inserts [new] around every rune; the program
    never calls it that way and this model then leaves [s] unchanged.) *)
Fixpoint replaceFrom (old new : string) (pending : nat) (s : string) : string :=
  match s with
  | EmptyString => EmptyString
  | String c r =>
      match pending with
      | S k => replaceFrom old new k r
      | O =>
          if HasPrefix s old
          then new +:+ replaceFrom old new (String.length old - 1) r
          else String c (replaceFrom old new 0 r)
      end
  end.

Definition ReplaceAll (s old new : string) : string :=
  match old with
  | EmptyString => s
  | _ => replaceFrom old new 0 s
  end.

(** [strings.Contains]. *)
Fixpoint Contains (s sub : string) : bool :=
  HasPrefix s sub
  || match s with
     | EmptyString => false
     | String _ r => Contains r sub
     end.

End GoStrings.

Module Bufio.
Import GoStrings.

(** [bufio.MaxScanTokenSize]: the largest buffer a default scanner grows. *)
Definition MaxScanTokenSize : N := 64 * 1024.

Definition newline : ascii := "010"%char.
Definition carriageReturn : ascii := "013"%char.

(** [dropCR] on a line kept back to front: one trailing carriage return
    is removed. *)
Definition dropCR (revLine : string) : string :=
  match revLine with
  | String c r => if Ascii.eqb c carriageReturn then rev r else rev revLine
  | EmptyString => EmptyString
  end.

(** The tokens a [bufio.Scanner] with the default split function
    ([ScanLines]) and the default buffer delivers over [data], in order.

    [pending] holds, back to front, the bytes read since the last line
    end and [n] is their number.  A line end closes the token.  When the
    buffer is full ([MaxScanTokenSize] bytes) and holds no line end,
    [Scan] fails with [ErrTooLong] and returns false for good: no further
    token is delivered.  At the end of the data a non-empty rest is a
    last, unterminated line. *)
Fixpoint scanLines (data pending : string) (n : N) : list string :=
  match data with
  | EmptyString =>
      match pending with
      | EmptyString => []
      | _ => [dropCR pending]
      end
  | String c rest =>
      if Ascii.eqb c newline then dropCR pending :: scanLines rest EmptyString 0
      else if (MaxScanTokenSize <=? N.succ n)%N then []
      else scanLines rest (String c pending) (N.succ n)
  end.

(** [for scanner.Scan() { ... scanner.Text() ... }]. *)
Definition Lines (data : string) : list string := scanLines data EmptyString 0.

(** A line as the scanner hands it out: without one trailing carriage
    return. *)
Definition chomp (line : string) : string := dropCR (rev line).

(** A file made of lines, each ended by a line feed. *)
Fixpoint joinLines (lines : list string) : string :=
  match lines with
  | [] => EmptyString
  | line :: rest => line +:+ String newline (joinLines rest)
  end.

(** A line the scanner can hold: no line feed inside, and shorter than
    the scanner's buffer. *)
Definition fits (line : string) : Prop :=
  Contains line (String newline EmptyString) = false
  /\ (N.of_nat (String.length line) < MaxScanTokenSize)%N.

End Bufio.

(* ===================================================================== *)
(** * internal/envfile                                                     *)
(* ===================================================================== *)

Module Envfile.
Import GoStrings.

(** The body of the scanning loop of [Load], for one line. *)
Definition loadLine (env : gmap string string) (text : string) : gmap string string :=
  let line := TrimSpace text in
  if String.eqb line "" || HasPrefix line "#" then env
  else match Cut line "=" with
       | (k, v, true) => <[TrimSpace k := TrimSpace v]> env
       | (_, _, false) => env
       end.

(** [Load]: [file] is what [os.Open] and the reads give, [None] when the
    file cannot be opened. *)
Definition Load (file : option string) : gmap string string :=
  match file with
  | None => ∅
  | Some data => fold_left loadLine (Bufio.Lines data) ∅
  end.

End Envfile.

(* ===================================================================== *)
(** * Time                                                                 *)
(* ===================================================================== *)

Module GoTime.
Local Open Scope Z_scope.

(** A [time.Time] is its distance in nanoseconds from the Unix epoch. *)
Definition Time : Type := Z.

(** [time.Second], a [time.Duration] in nanoseconds. *)
Definition Second : Z := 1000000000.

(** [time.Time{}], January 1 of year 1. *)
Definition zero : Time := (-62135596800) * Second.

Definition IsZero (t : Time) : bool := Z.eqb t zero.

(** [time.Unix(sec, 0)] and [t.Unix()]. *)
Definition Unix (sec : Z) : Time := sec * Second.
Definition toUnix (t : Time) : Z := t / Second.

(** [t.Sub(u)]: a [Duration] is an int64 and the difference saturates. *)
Definition maxDuration : Z := 2 ^ 63 - 1.
Definition minDuration : Z := - 2 ^ 63.
Definition Sub (t u : Time) : Z := Z.max minDuration (Z.min maxDuration (t - u)).

End GoTime.

(* ===================================================================== *)
(** * internal/proto                                                       *)
(* ===================================================================== *)

Module Proto.

(** Modelled from the spec: the state tags of section 4.2 ([messages.go]
    is not among the sources; the CLI's [colorState] spells the same
    eight tags). *)
Definition StateRunning : string := "RUNNING".
Definition StateWaiting : string := "WAITING".
Definition StateAttached : string := "ATTACHED".
Definition StateChecking : string := "CHECKING".
Definition StateExited : string := "EXITED".
Definition StateCrashed : string := "CRASHED".
Definition StateKilled : string := "KILLED".
Definition StateFinished : string := "FINISHED".

(** Modelled from the spec: [IsTerminal] of [messages.go], "Terminal:
    EXITED, CRASHED, KILLED, FINISHED". *)
Definition IsTerminal (state : string) : bool :=
  String.eqb state StateExited || String.eqb state StateCrashed
  || String.eqb state StateKilled || String.eqb state StateFinished.

Module InstanceInfo.
(** The public summary of an instance, also its persisted record. *)
Record t : Type := Build {
  ID : string;
  Project : string;
  Branch : string;
  WorktreeDir : string;
  ContainerID : string;
  ComposeProject : string;
  CreatedAt : Z;   (* int64, epoch seconds *)
  EndedAt : Z;     (* int64, epoch seconds; 0 when not ended *)
  State : string
}.
End InstanceInfo.

Module Request.
Record t : Type := Build {
  Type_ : string;
  Project : string;
  Branch : string;
  InstanceID : string;
  AgentEnv : gmap string string
}.
End Request.

Module Response.
Record t : Type := Build {
  OK : bool;
  Error : string;
  InstanceID : string;
  Instances : list InstanceInfo.t;
  InitPath : string;
  WorktreeDir : string;
  Branch : string
}.

(** [proto.Response{OK: true}] and friends: unset fields are zero. *)
Definition ok : t := Build true "" "" [] "" "" "".
Definition error (msg : string) : t := Build false msg "" [] "" "" "".
Definition finished (worktreeDir branch : string) : t :=
  Build true "" "" [] "" worktreeDir branch.
Definition list (infos : list InstanceInfo.t) : t :=
  Build true "" "" infos "" "" "".
End Response.

(** ** Attach frames *)

Definition byteOfN (n : N) : byte :=
  match Byte.of_N (n mod 256) with
  | Some b => b
  | None => x00
  end.

(** [binary.BigEndian.PutUint32] of [uint32(n)]. *)
Definition putUint32 (n : N) : list byte :=
  let u := (n mod 2 ^ 32)%N in
  [byteOfN (u / 2 ^ 24); byteOfN (u / 2 ^ 16); byteOfN (u / 2 ^ 8); byteOfN u].

(** [binary.BigEndian.Uint32]. *)
Definition uint32 (b0 b1 b2 b3 : byte) : N :=
  (((Byte.to_N b0 * 256 + Byte.to_N b1) * 256 + Byte.to_N b2) * 256 + Byte.to_N b3)%N.

(** Modelled from the spec: [WriteFrame] of [messages.go], "one type byte
    followed by a big-endian 32-bit length followed by the payload".  The
    writer is the byte buffer the frame is appended to. *)
Definition WriteFrame (w : list byte) (frameType : byte) (payload : list byte) : list byte :=
  w ++ frameType :: putUint32 (N.of_nat (length payload)) ++ payload.

(** Modelled from the spec: [ReadFrame] of [messages.go].  The five header
    bytes are read in full, then as many payload bytes as the header
    announces; a reader that runs dry is an error ([None]).  The result
    holds the frame and what is left in the reader. *)
Definition ReadFrame (r : list byte) : option (byte * list byte * list byte) :=
  match r with
  | frameType :: b0 :: b1 :: b2 :: b3 :: rest =>
      let n := N.to_nat (uint32 b0 b1 b2 b3) in
      if Nat.leb n (length rest)
      then Some (frameType, firstn n rest, skipn n rest)
      else None
  | _ => None
  end.

End Proto.

(* ===================================================================== *)
(** * The project configuration, as far as the handlers read it           *)
(* ===================================================================== *)

Module Config.

(** [Project] of [project.go] (not among the sources): the fields the
    handlers below use. *)
Record Project : Type := Build {
  Name : string;
  Repo : string;
  Start : list string;
  Check : list string;
  Finish : list string
}.

End Config.

(* ===================================================================== *)
(** * internal/daemon                                                      *)
(* ===================================================================== *)

Module Daemon.
Import GoStrings GoTime.
Import Proto(StateRunning, StateWaiting, StateAttached, StateChecking,
             StateExited, StateCrashed, StateKilled, StateFinished, IsTerminal).

(** ** The registry *)

(** [Instance] of [instance.go] (not among the sources), by the fields
    the handlers, the reload and the tests name.  [processDone] is the
    channel the exit observer closes: [None] is the nil channel of an
    instance that was never started by this daemon, [Some false] an open
    channel (the child runs), [Some true] a closed one (the child is
    gone). *)
Record Instance : Type := mkInstance {
  ID : string;
  Project : string;
  Branch : string;
  WorktreeDir : string;
  CreatedAt : Time;
  LogFile : string;
  state : string;
  endedAt : Time;
  InstancesDir : string;
  ContainerID : string;
  ComposeProject : string;
  lastOutputTime : Time;
  finishRequest : bool;
  killed : bool;
  processDone : option bool
}.

Definition setState (s : string) (i : Instance) : Instance :=
  mkInstance (ID i) (Project i) (Branch i) (WorktreeDir i) (CreatedAt i) (LogFile i)
    s (endedAt i) (InstancesDir i) (ContainerID i) (ComposeProject i)
    (lastOutputTime i) (finishRequest i) (killed i) (processDone i).

Definition setEndedAt (t : Time) (i : Instance) : Instance :=
  mkInstance (ID i) (Project i) (Branch i) (WorktreeDir i) (CreatedAt i) (LogFile i)
    (state i) t (InstancesDir i) (ContainerID i) (ComposeProject i)
    (lastOutputTime i) (finishRequest i) (killed i) (processDone i).

Definition setLastOutputTime (t : Time) (i : Instance) : Instance :=
  mkInstance (ID i) (Project i) (Branch i) (WorktreeDir i) (CreatedAt i) (LogFile i)
    (state i) (endedAt i) (InstancesDir i) (ContainerID i) (ComposeProject i)
    t (finishRequest i) (killed i) (processDone i).

Definition setFinishRequest (b : bool) (i : Instance) : Instance :=
  mkInstance (ID i) (Project i) (Branch i) (WorktreeDir i) (CreatedAt i) (LogFile i)
    (state i) (endedAt i) (InstancesDir i) (ContainerID i) (ComposeProject i)
    (lastOutputTime i) b (killed i) (processDone i).

Definition setKilled (b : bool) (i : Instance) : Instance :=
  mkInstance (ID i) (Project i) (Branch i) (WorktreeDir i) (CreatedAt i) (LogFile i)
    (state i) (endedAt i) (InstancesDir i) (ContainerID i) (ComposeProject i)
    (lastOutputTime i) (finishRequest i) b (processDone i).

Definition setProcessDone (p : option bool) (i : Instance) : Instance :=
  mkInstance (ID i) (Project i) (Branch i) (WorktreeDir i) (CreatedAt i) (LogFile i)
    (state i) (endedAt i) (InstancesDir i) (ContainerID i) (ComposeProject i)
    (lastOutputTime i) (finishRequest i) (killed i) p.

(** The child of the instance is running. *)
Definition childAlive (i : Instance) : bool :=
  match processDone i with
  | Some false => true
  | _ => false
  end.

(** [Daemon]: the data root and the instances, keyed by instance ID. *)
Record Daemon : Type := mkDaemon {
  rootDir : string;
  instances : gmap string Instance
}.

(** The elements of a path: what stands between its slashes.  [cur] is
    the element being read, last byte first. *)
Fixpoint splitSlash (path cur : string) : list string :=
  match path with
  | EmptyString => [rev cur]
  | String c r =>
      if Ascii.eqb c "/"%char then rev cur :: splitSlash r EmptyString
      else splitSlash r (String c cur)
  end.

(** [strings.Join(elems, "/")]. *)
Fixpoint joinSlash (elems : list string) : string :=
  match elems with
  | [] => ""
  | [e] => e
  | e :: rest => e +:+ "/" +:+ joinSlash rest
  end.

(** One element in the loop of [filepath.Clean] (Unix).  [kept] holds
    the elements written so far, the last one first.  An empty element
    and [.] are dropped; [..] takes back the last element written, is
    dropped at the root, and is written itself when a relative path has
    nothing left to take back. *)
Definition cleanStep (rooted : bool) (kept : list string) (e : string) : list string :=
  if String.eqb e "" || String.eqb e "." then kept
  else if String.eqb e ".."
  then match kept with
       | top :: below => if String.eqb top ".." then e :: kept else below
       | [] => if rooted then [] else [e]
       end
  else e :: kept.

(** [filepath.Clean] (Unix). *)
Definition Clean (path : string) : string :=
  match path with
  | EmptyString => "."
  | String c _ =>
      let rooted := Ascii.eqb c "/"%char in
      let kept := fold_left (cleanStep rooted) (splitSlash path EmptyString) [] in
      let body := joinSlash (List.rev kept) in
      if rooted then "/" +:+ body
      else if String.eqb body "" then "." else body
  end.

(** [filepath.Join] (Unix): the elements from the first one that is not
    empty on, joined by slashes, and the result cleaned; the empty
    string when every element is empty. *)
Fixpoint Join (elems : list string) : string :=
  match elems with
  | [] => ""
  | e :: rest => if String.eqb e "" then Join rest else Clean (joinSlash elems)
  end.

(** [filepath.Ext]: the suffix from the last dot of the last path
    element on, empty without a dot.  [found] is the candidate seen so
    far. *)
Fixpoint extFrom (path : string) (found : string) : string :=
  match path with
  | EmptyString => found
  | String c r =>
      if Ascii.eqb c "/"%char then extFrom r ""
      else if Ascii.eqb c "."%char then extFrom r path
      else extFrom r found
  end.

Definition Ext (path : string) : string := extFrom path "".

(** ** ID allocation ([daemon.go]) *)

Definition idAlphabet : list string :=
  ["1"; "2"; "3"; "4"; "5"; "6"; "7"; "8"; "9";
   "a"; "b"; "c"; "d"; "e"; "f"; "g"; "h"; "i"; "j"; "k"; "l"; "m";
   "n"; "o"; "p"; "q"; "r"; "s"; "t"; "u"; "v"; "w"; "x"; "y"; "z"].

(** [hex.EncodeToString]. *)
Definition hexDigit (n : N) : ascii :=
  nth (N.to_nat n) (list_ascii_of_string "0123456789abcdef") "0"%char.

Fixpoint EncodeToString (b : list byte) : string :=
  match b with
  | [] => ""
  | x :: r =>
      String (hexDigit (Byte.to_N x / 16)) (String (hexDigit (Byte.to_N x mod 16))
        (EncodeToString r))
  end.

(** One [for _, id := range ids] loop that returns the first [id] the
    registry does not hold. *)
Fixpoint firstFree (taken : gmap string Instance) (ids : list string) : option string :=
  match ids with
  | [] => None
  | id :: rest =>
      match taken !! id with
      | None => Some id
      | Some _ => firstFree taken rest
      end
  end.

(** The nested loops over [a] and [b] with [id := a + b]. *)
Fixpoint firstFreePair (taken : gmap string Instance) (outer inner : list string)
  : option string :=
  match outer with
  | [] => None
  | a :: rest =>
      match firstFree taken (map (fun b => a +:+ b) inner) with
      | Some id => Some id
      | None => firstFreePair taken rest inner
      end
  end.

(** [nextInstanceID]; [random] is what [rand.Read] puts into the four
    bytes of [b]. *)
Definition nextInstanceID (d : Daemon) (random : byte * byte * byte * byte) : string :=
  match firstFree (instances d) idAlphabet with
  | Some id => id
  | None =>
      match firstFreePair (instances d) idAlphabet idAlphabet with
      | Some id => id
      | None => let '(b0, b1, b2, b3) := random in EncodeToString [b0; b1; b2; b3]
      end
  end.

(** A run of allocations: each step allocates an ID and registers an
    instance under it (as [handleStart] does, and the test of the
    allocator) before the next step allocates. *)
Fixpoint allocations (d : Daemon) (steps : list (byte * byte * byte * byte * Instance))
  : list string :=
  match steps with
  | [] => []
  | (random, inst) :: rest =>
      let id := nextInstanceID d random in
      id :: allocations (mkDaemon (rootDir d) (<[id := inst]> (instances d))) rest
  end.

(** The daemon after such a run. *)
Fixpoint allocated (d : Daemon) (steps : list (byte * byte * byte * byte * Instance))
  : Daemon :=
  match steps with
  | [] => d
  | (random, inst) :: rest =>
      let id := nextInstanceID d random in
      allocated (mkDaemon (rootDir d) (<[id := inst]> (instances d))) rest
  end.

(** The registry holds exactly the first [k] entries of the alphabet. *)
Definition holdsFirst (k : nat) (taken : gmap string Instance) : Prop :=
  forall id, is_Some (taken !! id) <-> id ∈ take k idAlphabet.

(** ** Reload of the persisted instances *)

(** A directory entry of [instances/] with what [os.ReadFile] gives for
    it ([None]: the read fails). *)
Record DirEntry : Type := mkDirEntry {
  Name : string;
  IsDir : bool;
  contents : option string
}.

(** What the handlers do to the world around the daemon, in order. *)
Inductive Event : Type :=
| Respond (r : Proto.Response.t) (delivered : bool)
    (* respond(conn, r): one JSON line written to the connection *)
| ConnWrite (data : string) (delivered : bool)
    (* conn.Write(data) *)
| LogWrite (path : string) (data : string)
    (* a write to the open log file of an instance *)
| PersistMeta (dir : string) (inst : Instance)
    (* inst.persistMeta(dir), with the instance as it is then *)
| Signal (id : string)
    (* the terminating signal sent to the child of an instance *)
| Run (argv : list string)
    (* exec.Command(argv...) run to completion *)
| RemoveFile (path : string).

Section Reload.
(** [json.Unmarshal] into a [proto.InstanceInfo]; [None] is an error. *)
Variable unmarshal : string -> option Proto.InstanceInfo.t.
(** [time.Now()]. *)
Variable now : Time.

Definition reloadEntry (acc : Daemon * list Event) (e : DirEntry) : Daemon * list Event :=
  let '(d, trace) := acc in
  let instancesDir := Join [rootDir d; "instances"] in
  if IsDir e || negb (String.eqb (Ext (Name e)) ".json") then acc
  else match contents e with
       | None => acc
       | Some data =>
           match unmarshal data with
           | None => acc
           | Some info =>
               let state0 := Proto.InstanceInfo.State info in
               let endedAt0 :=
                 if (0 <? Proto.InstanceInfo.EndedAt info)%Z
                 then Unix (Proto.InstanceInfo.EndedAt info) else zero in
               let lost :=
                 String.eqb state0 StateRunning || String.eqb state0 StateWaiting
                 || String.eqb state0 StateAttached in
               let state1 := if lost then StateCrashed else state0 in
               let endedAt1 := if lost then now else endedAt0 in
               let inst :=
                 mkInstance (Proto.InstanceInfo.ID info)
                   (Proto.InstanceInfo.Project info)
                   (Proto.InstanceInfo.Branch info)
                   (Proto.InstanceInfo.WorktreeDir info)
                   (Unix (Proto.InstanceInfo.CreatedAt info))
                   (Join [rootDir d; "logs"; Proto.InstanceInfo.ID info +:+ ".log"])
                   state1 endedAt1 instancesDir
                   (Proto.InstanceInfo.ContainerID info)
                   (Proto.InstanceInfo.ComposeProject info)
                   zero false false None in
               (mkDaemon (rootDir d) (<[Proto.InstanceInfo.ID info := inst]> (instances d)),
                trace ++ (if String.eqb state1 state0 then []
                          else [PersistMeta instancesDir inst]))
           end
       end.

(** [loadPersistedInstances]: [entries] is what [os.ReadDir] gives for
    the instances directory, [None] when it fails (the daemon is then
    left as it is and the error returned). *)
Definition loadPersistedInstances (d : Daemon) (entries : option (list DirEntry))
  : Daemon * list Event * bool :=
  match entries with
  | None => (d, [], false)
  | Some es => (fold_left reloadEntry es (d, []), true)
  end.

(** [New], after the directories exist: an empty registry filled by the
    reload, whose error is only logged. *)
Definition New (root : string) (entries : option (list DirEntry)) : Daemon :=
  fst (fst (loadPersistedInstances (mkDaemon root ∅) entries)).
End Reload.

(** The state an accepted record is registered with. *)
Definition reloadedState (state0 : string) : string :=
  if String.eqb state0 StateRunning || String.eqb state0 StateWaiting
     || String.eqb state0 StateAttached
  then StateCrashed else state0.


(** ** The world around a handler *)

(** The client connection: [writesLeft] writes go through before the
    peer is gone; every later [conn.Write] fails. *)
Record Conn : Type := mkConn { writesLeft : nat }.

(** What a handler finds outside the daemon while it runs.  These are
    the collaborators whose code is not among the sources, each by the
    result it hands back. *)
Record World : Type := mkWorld {
(** [loadProject(rootDir, name)]: an error message or the project. *)
loadProject : string -> string -> string + Config.Project;
(** [loadInRepoConfig(p)]: the project with [grove.yaml] laid over it
    (its error is only logged). *)
loadInRepoConfig : Config.Project -> Config.Project;
(** [docker exec container sh -c cmd], the [k]-th command a handler
    runs: the chunks it writes to its output and the error of [Run]. *)
dockerExec : nat -> string -> string -> list string * option string;
(** [os.OpenFile] of a log file for appending succeeds. *)
openLog : string -> bool;
(** The exit status of the child of an instance, once it exits. *)
exitStatus : string -> Z;
(** [inst.startAgent]: [None] when the agent was spawned. *)
startAgent : string -> option string;
(** [time.Now()]. *)
clock : Time
}.

(** A handler step: it reads and changes the daemon and the connection
    and leaves a trace. *)
Definition M (A : Type) : Type := Daemon -> Conn -> A * Daemon * Conn * list Event.

Definition ret {A : Type} (a : A) : M A := fun d c => (a, d, c, []).

Definition bind {A B : Type} (m : M A) (f : A -> M B) : M B :=
  fun d c =>
    let '(a, d1, c1, t1) := m d c in
    let '(b, d2, c2, t2) := f a d1 c1 in
    (b, d2, c2, t1 ++ t2).

(** The parts of the result of a run. *)
Definition daemonOf {A : Type} (r : A * Daemon * Conn * list Event) : Daemon := r.1.1.2.
Definition connOf {A : Type} (r : A * Daemon * Conn * list Event) : Conn := r.1.2.
Definition traceOf {A : Type} (r : A * Daemon * Conn * list Event) : list Event := r.2.
Definition valueOf {A : Type} (r : A * Daemon * Conn * list Event) : A := r.1.1.1.

#[global] Instance M_ret : MRet M := @ret.
#[global] Instance M_bind : MBind M := fun A B f m => bind m f.

Definition emit (e : Event) : M unit := fun d c => (tt, d, c, [e]).

(** [d.getInstance(id)]. *)
Definition getInstance (id : string) : M (option Instance) :=
  fun d c => (instances d !! id, d, c, []).

(** A write through the pointer [getInstance] returned: the instance
    registered under [id] changes in place. *)
Definition update (id : string) (f : Instance -> Instance) : M unit :=
  fun d c => (tt, mkDaemon (rootDir d) (alter f id (instances d)), c, []).

Definition getRootDir : M string := fun d c => (rootDir d, d, c, []).

(** [conn.Write]: whether the write went through. *)
Definition connSend (mk : bool -> Event) : M bool :=
  fun d c =>
    match writesLeft c with
    | O => (false, d, c, [mk false])
    | S k => (true, d, mkConn k, [mk true])
    end.

(** [respond(conn, r)]: the error of the write is dropped. *)
Definition respond (r : Proto.Response.t) : M unit :=
  _ ← connSend (Respond r); mret tt.

(** ** The instance runtime ([instance.go], not among the sources) *)

(** Modelled from the spec: [persistMeta], which writes the metadata
    record of the instance as it is at that moment. *)
Definition persistMeta (id dir : string) : M unit :=
  o ← getInstance id;
  match o with
  | Some inst => emit (PersistMeta dir inst)
  | None => mret tt
  end.

(** Modelled from the spec: [destroy], section 4.3 "Kill / destroy":
    the kill is recorded as requested and a terminating signal goes to
    the child if there is one; a missing process is no error. *)
Definition destroy (id : string) : M unit :=
  o ← getInstance id;
  match o with
  | Some inst =>
      update id (setKilled true);;
      (if childAlive inst then emit (Signal id) else mret tt)
  | None => mret tt
  end.

(** Modelled from the spec: the state the exit observer gives, section
    4.3 "Exit observation", rules 1 to 4. *)
Definition exitState (inst : Instance) (status : Z) : string :=
  if finishRequest inst then StateFinished
  else if killed inst then StateKilled
  else if (status =? 0)%Z then StateExited
  else StateCrashed.

(** Modelled from the spec: the exit observer.  The state is set by
    [exitState], ended-at is recorded, the done channel is closed and
    the metadata persisted. *)
Definition observeExit (now : Time) (status : Z) (inst : Instance) : Instance :=
  setProcessDone (Some true) (setEndedAt now (setState (exitState inst status) inst)).

Definition childExited (w : World) (id : string) : M unit :=
  o ← getInstance id;
  match o with
  | Some inst =>
      if childAlive inst
      then update id (observeExit (clock w) (exitStatus w id));;
           persistMeta id (InstancesDir inst)
      else mret tt
  | None => mret tt
  end.

(** Modelled from the spec: a successful spawn, section 4.3 "Spawn":
    the state is RUNNING and a child runs. *)
Definition spawned (inst : Instance) : Instance :=
  setProcessDone (Some false) (setState StateRunning inst).

(** Modelled from the spec: the attach session, section 4.2: ATTACHED
    from RUNNING or WAITING, back to RUNNING on detach while the child
    is alive; and the output reader, which stamps the last output. *)
Definition attached (inst : Instance) : Instance :=
  if String.eqb (state inst) StateRunning || String.eqb (state inst) StateWaiting
  then setState StateAttached inst else inst.

Definition detached (inst : Instance) : Instance :=
  if String.eqb (state inst) StateAttached && childAlive inst
  then setState StateRunning inst else inst.

(** The idle threshold of section 4.2: two seconds. *)
Definition idleThreshold : Z := (2 * Second)%Z.

(** Modelled from the spec: [Info], the public summary.  RUNNING is
    published as WAITING when the last output is more than two seconds
    old; every other state is published as it is. *)
Definition Info (now : Time) (inst : Instance) : Proto.InstanceInfo.t :=
  Proto.InstanceInfo.Build (ID inst) (Project inst) (Branch inst) (WorktreeDir inst)
    (ContainerID inst) (ComposeProject inst)
    (toUnix (CreatedAt inst))
    (if IsZero (endedAt inst) then 0%Z else toUnix (endedAt inst))
    (if String.eqb (state inst) StateRunning
        && (idleThreshold <? Sub now (lastOutputTime inst))%Z
     then StateWaiting else state inst).

(** ** The resilient writer *)

(** [resilientWriter]: [log] is the open log file, by its path, or nil;
    the connection is the one the handler holds. *)
Record resilientWriter : Type := mkResilientWriter {
  log : option string;
  connOK : bool
}.

Definition newResilientWriter (log : option string) : resilientWriter :=
  mkResilientWriter log true.

(** [Write]: the connection gets the bytes while it is good and is given
    up at its first error; the log, when there is one, gets them always.
    The call itself never fails. *)
Definition Write (rw : resilientWriter) (p : string) : M resilientWriter :=
  rw1 ← (if connOK rw
         then ok ← connSend (ConnWrite p);
              mret (if ok : bool then rw else mkResilientWriter (log rw) false)
         else mret rw);
  match log rw with
  | Some path => emit (LogWrite path p)
  | None => mret tt
  end;;
  mret rw1.

Fixpoint writeAll (rw : resilientWriter) (chunks : list string) : M resilientWriter :=
  match chunks with
  | [] => mret rw
  | p :: rest => rw1 ← Write rw p; writeAll rw1 rest
  end.

Definition nl : string := String Bufio.newline "".

(** ** Containers *)

(** [execInContainer], as the [k]-th command of a handler: the output of
    the command goes to [w] as it comes. *)
Definition execInContainer (w : World) (k : nat) (containerName cmd : string)
    (rw : resilientWriter) : M (resilientWriter * option string) :=
  emit (Run ["docker"; "exec"; containerName; "sh"; "-c"; cmd]);;
  let '(chunks, err) := dockerExec w k containerName cmd in
  rw1 ← writeAll rw chunks;
  mret (rw1,
        match err with
        | Some e => Some ("exec in container " +:+ containerName +:+ ": " +:+ e)
        | None => None
        end).

Definition stopContainer (containerName composeProject : string) : M unit :=
  if negb (String.eqb composeProject "")
  then emit (Run ["docker"; "compose"; "-p"; composeProject; "down"; "-v"])
  else emit (Run ["docker"; "stop"; containerName]);;
       emit (Run ["docker"; "rm"; containerName]).

(** ** Handlers ([handlers.go]) *)

Definition notFound (id : string) : Proto.Response.t :=
  Proto.Response.error ("instance not found: " +:+ id).

Section List.
(** The order in which [range] visits a map is not fixed, and
    [sort.Slice] is not stable: both are left open here. *)
Variable rangeOrder : gmap string Instance -> list Instance.
Variable sortSlice : forall A : Type, (A -> A -> bool) -> list A -> list A.

Definition handleList (w : World) : M unit :=
  fun d c =>
    let infos := map (Info (clock w)) (rangeOrder (instances d)) in
    let sorted :=
      sortSlice _ (fun a b => (Proto.InstanceInfo.CreatedAt a
                               <? Proto.InstanceInfo.CreatedAt b)%Z) infos in
    respond (Proto.Response.list sorted) d c.
End List.

Definition handleStop (req : Proto.Request.t) : M unit :=
  let id := Proto.Request.InstanceID req in
  o ← getInstance id;
  match o with
  | None => respond (notFound id)
  | Some _ => destroy id;; respond Proto.Response.ok
  end.

Definition handleDrop (req : Proto.Request.t) : M unit :=
  let id := Proto.Request.InstanceID req in
  o ← getInstance id;
  match o with
  | None => respond (notFound id)
  | Some inst =>
      destroy id;;
      stopContainer (ContainerID inst) (ComposeProject inst);;
      root ← getRootDir;
      let mainDir := Join [root; "projects"; Project inst; "main"] in
      emit (Run ["git"; "-C"; mainDir; "worktree"; "remove"; "--force"; WorktreeDir inst]);;
      emit (Run ["git"; "-C"; mainDir; "branch"; "-D"; Branch inst]);;
      (fun d c => (tt, mkDaemon (rootDir d) (delete id (instances d)), c, []));;
      emit (RemoveFile (Join [root; "instances"; id +:+ ".json"]));;
      respond Proto.Response.ok
  end.

(** The loop over [p.Finish]: it ends at the first command that fails. *)
Fixpoint runFinish (w : World) (containerID branch : string) (cmds : list string)
    (k : nat) (rw : resilientWriter) : M unit :=
  match cmds with
  | [] => mret tt
  | cmdStr :: rest =>
      let expanded := ReplaceAll cmdStr "{{branch}}" branch in
      rw1 ← Write rw ("$ " +:+ expanded +:+ nl);
      r ← execInContainer w k containerID expanded rw1;
      match snd r with
      | Some e => _ ← Write (fst r) ("error: command failed: " +:+ e +:+ nl); mret tt
      | None => runFinish w containerID branch rest (S k) (fst r)
      end
  end.

(** [handleFinish] from the persisting of the state on. *)
Definition finishTail (w : World) (id : string) (inst : Instance) : M unit :=
  root ← getRootDir;
  persistMeta id (Join [root; "instances"]);;
  respond (Proto.Response.finished (WorktreeDir inst) (Branch inst));;
  match loadProject w root (Project inst) with
  | inl err =>
      _ ← connSend (ConnWrite ("warning: could not load project to run finish commands: "
                                +:+ err +:+ nl));
      mret tt
  | inr p0 =>
      let p := loadInRepoConfig w p0 in
      match Config.Finish p with
      | [] => mret tt
      | cmds =>
          let logFd := if openLog w (LogFile inst) then Some (LogFile inst) else None in
          runFinish w (ContainerID inst) (Branch inst) cmds 0 (newResilientWriter logFd)
      end
  end.

Definition handleFinish (w : World) (req : Proto.Request.t) : M unit :=
  let id := Proto.Request.InstanceID req in
  o ← getInstance id;
  match o with
  | None => respond (notFound id)
  | Some inst =>
      let st := state inst in
      if String.eqb st StateExited || String.eqb st StateCrashed
         || String.eqb st StateKilled
      then
        (* Process already dead; transition to FINISHED directly. *)
        update id (setState StateFinished);;
        finishTail w id inst
      else if String.eqb st StateFinished
      then
        (* Already finished; respond and skip finish commands. *)
        respond (Proto.Response.finished (WorktreeDir inst) (Branch inst))
      else
        (* Agent is alive; request finish and wait for the child to exit. *)
        update id (setFinishRequest true);;
        destroy id;;
        match processDone inst with
        | Some false => childExited w id   (* <-processDone *)
        | _ => mret tt
        end;;
        finishTail w id inst
  end.

(** The check commands.  The program starts one goroutine per command
    and waits for all of them; their writes interleave freely.  The
    commands are run here one after the other, which is one of the
    schedules. *)
Fixpoint runCheck (w : World) (containerID : string) (cmds : list string)
    (k : nat) (rw : resilientWriter) : M unit :=
  match cmds with
  | [] => mret tt
  | cmd :: rest =>
      rw1 ← Write rw ("$ " +:+ cmd +:+ nl);
      r ← execInContainer w k containerID cmd rw1;
      rw3 ← match snd r with
            | Some e => Write (fst r) ("error: check command failed: " +:+ e +:+ nl)
            | None => mret (fst r)
            end;
      runCheck w containerID rest (S k) rw3
  end.

(** The deferred function of [handleCheck]. *)
Definition checkDone (inst : Instance) : Instance :=
  if String.eqb (state inst) StateChecking then setState StateWaiting inst else inst.

(** [handleCheck] between the move to CHECKING and the deferred function:
    the project is loaded and the commands are run. *)
Definition checkBody (w : World) (inst : Instance) : M unit :=
  root ← getRootDir;
  match loadProject w root (Project inst) with
  | inl err => respond (Proto.Response.error err)
  | inr p0 =>
      let p := loadInRepoConfig w p0 in
      match Config.Check p with
      | [] => respond (Proto.Response.error "no check commands defined in grove.yaml")
      | cmds =>
          respond Proto.Response.ok;;
          let logFd :=
            if openLog w (LogFile inst) then Some (LogFile inst) else None in
          runCheck w (ContainerID inst) cmds 0 (newResilientWriter logFd)
      end
  end.

Definition handleCheck (w : World) (req : Proto.Request.t) : M unit :=
  let id := Proto.Request.InstanceID req in
  o ← getInstance id;
  match o with
  | None => respond (notFound id)
  | Some inst =>
      let st := state inst in
      if IsTerminal st || String.eqb st StateChecking
      then respond (Proto.Response.error ("cannot check: instance is " +:+ st))
      else
        update id (setState StateChecking);;
        checkBody w inst;;
        update id checkDone
  end.

(** [handleCheck] beside the rest of the daemon.  The handler holds the
    lock of the instance only to move it to CHECKING and again in its
    deferred function; in between, the agent of the instance runs on and
    other connections are served.  [others] is what they do to the
    registry before the deferred function runs. *)
Definition handleCheckAmid (w : World) (others : Daemon -> Daemon)
    (req : Proto.Request.t) : M unit :=
  let id := Proto.Request.InstanceID req in
  o ← getInstance id;
  match o with
  | None => respond (notFound id)
  | Some inst =>
      let st := state inst in
      if IsTerminal st || String.eqb st StateChecking
      then respond (Proto.Response.error ("cannot check: instance is " +:+ st))
      else
        update id (setState StateChecking);;
        checkBody w inst;;
        (fun d c => (tt, others d, c, []));;
        update id checkDone
  end.

(** "Reset mutable state before restarting." *)
Definition resetForRestart (inst : Instance) : Instance :=
  setKilled false (setFinishRequest false (setEndedAt zero inst)).

Definition handleRestart (w : World) (req : Proto.Request.t) : M unit :=
  let id := Proto.Request.InstanceID req in
  o ← getInstance id;
  match o with
  | None => respond (notFound id)
  | Some inst =>
      let st := state inst in
      if negb (IsTerminal st)
      then respond (Proto.Response.error ("cannot restart: instance is " +:+ st))
      else
        root ← getRootDir;
        match loadProject w root (Project inst) with
        | inl err => respond (Proto.Response.error err)
        | inr _ =>
            update id resetForRestart;;
            match startAgent w id with
            | Some err => respond (Proto.Response.error err)
            | None =>
                update id spawned;;
                persistMeta id (Join [root; "instances"]);;
                respond Proto.Response.ok
            end
        end
  end.

(** The instance [handleStart] builds once the setup went through, and
    its registration after the agent was started. *)
Definition newInstance (d : Daemon)
    (instanceID project branch worktreeDir containerName composeProject : string)
    (now : Time) : Instance :=
  mkInstance instanceID project branch worktreeDir now
    (Join [rootDir d; "logs"; instanceID +:+ ".log"])
    StateRunning zero (Join [rootDir d; "instances"]) containerName composeProject
    zero false false None.

Definition register (d : Daemon) (inst : Instance) : Daemon :=
  mkDaemon (rootDir d) (<[ID inst := inst]> (instances d)).

(** The [docker exec] a handler runs for a command. *)
Definition dockerArgv (containerID cmd : string) : list string :=
  ["docker"; "exec"; containerID; "sh"; "-c"; cmd].

(** A finish command with the branch filled in. *)
Definition expand (branch cmdStr : string) : string :=
  ReplaceAll cmdStr "{{branch}}" branch.

(** The command at position [k] of a run succeeds in the world [w]. *)
Definition succeeds (w : World) (containerID : string) (k : nat) (cmd : string) : Prop :=
  (dockerExec w k containerID cmd).2 = None.

(** What a command at position [k] puts on the writer: its prompt line
    and its output. *)
Definition shown (w : World) (containerID : string) (k : nat) (cmd : string)
  : list string :=
  ("$ " +:+ cmd +:+ nl) :: (dockerExec w k containerID cmd).1.

(** The commands of a finish run that are started: each one up to and
    including the first that fails, the branch filled in. *)
Fixpoint started (w : World) (containerID branch : string) (cmds : list string)
    (k : nat) : list string :=
  match cmds with
  | [] => []
  | cmdStr :: rest =>
      let cmd := expand branch cmdStr in
      cmd :: match (dockerExec w k containerID cmd).2 with
             | Some _ => []
             | None => started w containerID branch rest (S k)
             end
  end.

(** The line that ends a finish run at a failed command. *)
Definition failureLine (containerID err : string) : string :=
  "error: command failed: " +:+ ("exec in container " +:+ containerID +:+ ": " +:+ err)
  +:+ nl.

(** What a finish run writes to its writer, write by write: for every
    command it starts the prompt line and the output of the command, and
    after the first command that fails the error line, which ends the
    run. *)
Fixpoint finishOutput (w : World) (containerID branch : string) (cmds : list string)
    (k : nat) : list string :=
  match cmds with
  | [] => []
  | cmdStr :: rest =>
      let cmd := expand branch cmdStr in
      ("$ " +:+ cmd +:+ nl)
      :: (dockerExec w k containerID cmd).1
      ++ match (dockerExec w k containerID cmd).2 with
         | Some e => [failureLine containerID e]
         | None => finishOutput w containerID branch rest (S k)
         end
  end.

(** The writes a writer still gets through to the connection: those the
    connection takes, and none once the writer has given it up. *)
Definition budget (rw : resilientWriter) (c : Conn) : nat :=
  if connOK rw then writesLeft c else 0.

(** More than two seconds have passed since the last output. *)
Definition idle (now : Time) (inst : Instance) : Prop :=
  (2 * Second < now - lastOutputTime inst)%Z.

(** What [handleList] asks of [range] and of [sort.Slice]: every entry is
    visited once, and the slice comes back rearranged so that no element
    is less than one before it. *)
Definition visitsAll (rangeOrder : gmap string Instance -> list Instance) : Prop :=
  forall m, Permutation (rangeOrder m) (map_to_list m).*2.

Definition sortsByKey (sortSlice : forall A : Type, (A -> A -> bool) -> list A -> list A)
  : Prop :=
  forall (A : Type) (key : A -> Z) (l : list A),
    Permutation (sortSlice A (fun a b => (key a <? key b)%Z) l) l
    /\ StronglySorted (fun a b => (key a <= key b)%Z)
         (sortSlice A (fun a b => (key a <? key b)%Z) l).

(** A handler answered with an error. *)
Definition rejected (trace : list Event) : Prop :=
  exists r delivered, Respond r delivered ∈ trace /\ Proto.Response.OK r = false.

(** What a trace holds, by kind. *)
Definition commandsRun (trace : list Event) : list (list string) :=
  omap (fun e => match e with Run argv => Some argv | _ => None end) trace.

Definition logWrites (trace : list Event) : list string :=
  omap (fun e => match e with LogWrite _ data => Some data | _ => None end) trace.

Definition connDelivered (trace : list Event) : list string :=
  omap (fun e => match e with ConnWrite data true => Some data | _ => None end) trace.

Definition responses (trace : list Event) : list Proto.Response.t :=
  omap (fun e => match e with Respond r _ => Some r | _ => None end) trace.

End Daemon.

(* ===================================================================== *)
(** * Sample data for the examples below                                  *)
(* ===================================================================== *)

Module Samples.
Import Daemon.

Definition root : string := "/home/dev/.grove".

(** An instance as [handleStart] registers it. *)
Definition running (id : string) : Instance :=
  spawned (newInstance (mkDaemon root ∅) id "my-app" "feature" 
             (Join [root; "projects"; "my-app"; "worktrees"; id])
             ("grove-" +:+ id) "" (GoTime.Unix 1700000000)).

Definition random : byte * byte * byte * byte := (x00, x01, xa2, xff).

(** A registry in which every one- and two-character ID is taken. *)
Definition exhausted : Daemon :=
  allocated (mkDaemon root ∅) (replicate 1260 (random, running "x")).

(** A persisted record and a decoder that knows its file. *)
Definition record (id state : string) (endedAt : Z) : Proto.InstanceInfo.t :=
  Proto.InstanceInfo.Build id "my-app" "feature"
    (Join [root; "projects"; "my-app"; "worktrees"; id]) ("grove-" +:+ id) ""
    1700000000 endedAt state.

Definition checkingFile : string := "{id:1,state:CHECKING}".
Definition runningFile : string := "{id:2,state:RUNNING}".
Definition killedFile : string := "{id:3,state:KILLED}".

Definition unmarshal (data : string) : option Proto.InstanceInfo.t :=
  if String.eqb data checkingFile then Some (record "1" Proto.StateChecking 0)
  else if String.eqb data runningFile then Some (record "2" Proto.StateRunning 0)
  else if String.eqb data killedFile then Some (record "3" Proto.StateKilled 1700000600)
  else None.

Definition instancesDir : list DirEntry :=
  [mkDirEntry "1.json" false (Some checkingFile);
   mkDirEntry "2.json" false (Some runningFile);
   mkDirEntry "3.json" false (Some killedFile);
   mkDirEntry "notes.txt" false (Some "hello")].

Definition restartTime : GoTime.Time := GoTime.Unix 1700003600.

Definition project (check finish : list string) : Config.Project :=
  Config.Build "my-app" "git@github.com:org/my-app.git" [] check finish.

(** A world in which the project loads as [p] and the [k]-th command of a
    handler behaves as [execs k] says. *)
Definition world (p : string + Config.Project)
    (execs : nat -> list string * option string) : World :=
  mkWorld (fun _ _ => p) (fun q => q) (fun k _ _ => execs k) (fun _ => true)
    (fun _ => 0%Z) (fun _ => None) restartTime.

Definition daemonWith (inst : Instance) : Daemon :=
  register (mkDaemon root ∅) inst.

Definition request (id : string) : Proto.Request.t :=
  Proto.Request.Build "" "" "" id ∅.

Definition client : Conn := mkConn 1000.

(** A line of 64 KiB, one byte more than the scanner can hold. *)
Definition longLine : string := Pos.iter (String "x"%char) EmptyString 65536.

(** One way [range] may visit the registry and one way [sort.Slice] may
    sort: in key order, and by a merge sort. *)
Definition rangeOrder (m : gmap string Instance) : list Instance :=
  (map_to_list m).*2.

Definition sortSlice (A : Type) (less : A -> A -> bool) (l : list A) : list A :=
  @merge_sort A (fun a b => less b a = false)
    (fun x y => decide (less y x = false)) l.

(** Two instances, the younger one registered first; the first has been
    silent for an hour, the second has just written. *)
Definition old : Instance :=
  setLastOutputTime (GoTime.Unix 1700000000)
    (spawned (newInstance (mkDaemon root ∅) "2" "my-app" "old" "/w/2" "grove-2" ""
                (GoTime.Unix 1600000000))).

Definition young : Instance :=
  setLastOutputTime restartTime
    (spawned (newInstance (mkDaemon root ∅) "1" "my-app" "young" "/w/1" "grove-1" ""
                (GoTime.Unix 1700000000))).

Definition twoInstances : Daemon := register (register (mkDaemon root ∅) young) old.

End Samples.

(* ===================================================================== *)
(** * cmd/grove: the daemon log ([cmd_daemon.go])                          *)
(* ===================================================================== *)

Module DaemonLog.
Import GoStrings Bufio.

(** A [bufio.Scanner] with the split function [ScanLines] and a buffer
    that grows up to [max] bytes ([scanner.Buffer(buf, max)]): the tokens
    it delivers over [data], and whether it stopped with [ErrTooLong].
    [pending] is the line read so far, last byte first, and [n] its
    length. *)
Fixpoint scanTokens (max : N) (data pending : string) (n : N) : list string * bool :=
  match data with
  | EmptyString =>
      (match pending with
       | EmptyString => []
       | _ => [dropCR pending]
       end, false)
  | String c rest =>
      if Ascii.eqb c newline
      then let '(tokens, tooLong) := scanTokens max rest EmptyString 0 in
           (dropCR pending :: tokens, tooLong)
      else if (max <=? N.succ n)%N then ([], true)
      else scanTokens max rest (String c pending) (N.succ n)
  end.

(** What [os.Open] gives: the bytes of the file, or why it did not open. *)
Inductive Opened : Type :=
| NotExist
| OpenError (err : string)
| File (data : string).

(** How a call ends: with a run-time panic, with the fatal error of a
    runtime that is out of memory, or by returning an error or nil;
    [written] is what went to the writer [w], call by call. *)
Inductive Outcome : Type :=
| Panicked
| OutOfMemory
| Returned (err : option string) (written : list string).

(** The limit [printLastLines] gives its scanner. *)
Definition maxLine : N := 1024 * 1024.

(** The scanning loop: [ring[count%n] = scanner.Text(); count++]. *)
Definition record (n : nat) (acc : list string * nat) (text : string)
  : list string * nat :=
  let '(ring, count) := acc in (<[count mod n := text]> ring, S count).

(** The output loop: [fmt.Fprintln(w, ring[(start+i)%n])] for
    [i < lines]. *)
Definition emitLines (n : nat) (ring : list string) (start lines : nat) : list string :=
  map (fun i => ring !!! ((start + i) mod n) +:+ String newline "") (seq 0 lines).

(** The longest slice of strings [make] agrees to: a string header has
    16 bytes and the runtime allocates at most 2^48 bytes at once (64-bit
    platforms). *)
Definition maxStrings : Z := 2 ^ 44.

(** [printLastLines(path, n, w)].  [make([]string, n)] panics for a
    negative [n] and for one beyond [maxStrings]; for a length it agrees
    to, the runtime finds the memory or dies, which [allocates] tells.
    [n = 0] makes [count%n] panic at the first line of the file. *)
Definition printLastLines (allocates : Z -> bool) (file : Opened) (path : string) (n : Z)
  : Outcome :=
  match file with
  | NotExist => Returned (Some ("daemon log not found at " +:+ path)) []
  | OpenError err => Returned (Some ("open daemon log: " +:+ err)) []
  | File data =>
      if (n <? 0)%Z || (maxStrings <? n)%Z then Panicked
      else if negb (allocates n) then OutOfMemory
      else
        let '(tokens, tooLong) := scanTokens maxLine data EmptyString 0 in
        match Z.to_nat n, tokens with
        | O, _ :: _ => Panicked
        | k, _ =>
            let '(ring, count) := fold_left (record k) tokens (replicate k EmptyString, 0) in
            if tooLong
            then Returned (Some "read daemon log: bufio.Scanner: token too long") []
            else
              let start := if Nat.ltb k count then count mod k else 0 in
              let lines := if Nat.ltb k count then k else count in
              Returned None (emitLines k ring start lines)
        end
  end.

(** A line the scanner of [printLastLines] can hold. *)
Definition fitsLine (line : string) : Prop :=
  Contains line (String newline EmptyString) = false
  /\ (N.of_nat (String.length line) < maxLine)%N.

(** The lines of a file: those ended by a line feed and, when it is not
    empty, the rest after the last line feed. *)
Definition linesOf (lines : list string) (last : string) : list string :=
  lines ++ (if String.eqb last EmptyString then [] else [last]).

(** The last [n] elements of a list. *)
Definition lastN {A : Type} (n : nat) (l : list A) : list A := drop (length l - n) l.

End DaemonLog.

(* ===================================================================== *)
(** * More of the [strings] package                                        *)
(* ===================================================================== *)

Module GoText.
Import GoStrings.

(** [strings.Split(s, sep)] for a non-empty [sep]: the pieces between the
    non-overlapping instances of [sep], found from left to right; there
    is always at least one piece.  [cur] is the piece read so far, last
    byte first, and [pending] counts the bytes of a matched separator
    still to be dropped.  (For an empty [sep] Go splits after every rune;
    the program never calls it that way and this model then gives [s] as
    the only piece.) *)
Fixpoint splitFrom (sep : string) (pending : nat) (cur s : string) : list string :=
  match s with
  | EmptyString => [rev cur]
  | String c r =>
      match pending with
      | S k => splitFrom sep k cur r
      | O =>
          if HasPrefix s sep
          then rev cur :: splitFrom sep (String.length sep - 1) EmptyString r
          else splitFrom sep 0 (String c cur) r
      end
  end.

Definition Split (s sep : string) : list string :=
  match sep with
  | EmptyString => [s]
  | _ => splitFrom sep 0 EmptyString s
  end.

(** [strings.Join(elems, sep)]. *)
Fixpoint JoinSep (elems : list string) (sep : string) : string :=
  match elems with
  | [] => EmptyString
  | [e] => e
  | e :: rest => e +:+ sep +:+ JoinSep rest sep
  end.

End GoText.

(* ===================================================================== *)
(** * cmd/grove: colours and credentials                                   *)
(* ===================================================================== *)

Module Cli.
Import GoStrings GoText Bufio.

Definition esc : string := String (ascii_of_nat 27) EmptyString.

Definition colorBold : string := esc +:+ "[1m".
Definition colorDim : string := esc +:+ "[2m".
Definition colorRed : string := esc +:+ "[31m".
Definition colorGreen : string := esc +:+ "[32m".
Definition colorYellow : string := esc +:+ "[33m".
Definition colorCyan : string := esc +:+ "[36m".
Definition colorReset : string := esc +:+ "[0m".

Definition nl : string := String newline EmptyString.

(** A request to the daemon, by its type and the instance it names. *)
Inductive Asked : Type :=
| AskList
| AskDrop (instanceID : string).

(** What a command does to the world around it, in order. *)
Inductive Effect : Type :=
| Stdout (text : string)
| Stderr (text : string)
| MkdirAll (path : string)
| WriteFile (path content : string)
| AppendFile (path content : string)
| Ask (request : Asked)
| Exit (status : Z).

(** What [cmdToken] finds: the data root ([rootDir()]), the bytes of
    [<root>/env] ([None]: the file cannot be read), what standard input
    holds, and the errors of [os.MkdirAll] and [os.WriteFile]. *)
Record TokenWorld : Type := mkTokenWorld {
  root : string;
  envFile : option string;
  stdin : string;
  mkdirError : option string;
  writeError : option string
}.

Definition tokenKey : string := "CLAUDE_CODE_OAUTH_TOKEN".

(** [scanner.Scan()] once on a fresh scanner, then [scanner.Text()]. *)
Definition firstLine (input : string) : option string := head (Lines input).

Definition blank (line : string) : bool := String.eqb (TrimSpace line) EmptyString.

(** [for len(kept) > 0 && strings.TrimSpace(kept[len(kept)-1]) == ""]:
    the loop over the lines, last line first. *)
Fixpoint dropBlank (reversed : list string) : list string :=
  match reversed with
  | [] => []
  | line :: rest => if blank line then dropBlank rest else reversed
  end.

(** The new contents of the env file: the old lines but those that set
    the token, without trailing blank lines, and the new token line. *)
Definition rewriteEnv (existing token : string) : string :=
  let kept :=
    List.filter (fun line => negb (HasPrefix (TrimSpace line) (tokenKey +:+ "=")))
      (Split existing nl) in
  let kept := List.rev (dropBlank (List.rev kept)) in
  let kept := kept ++ [tokenKey +:+ "=" +:+ token] in
  JoinSep kept nl +:+ nl.

(** [cmdToken]. *)
Definition cmdToken (w : TokenWorld) : list Effect :=
  let envPath := Daemon.Join [root w; "env"] in
  let loaded := Envfile.Load (envFile w) in
  [ Stdout (if negb (String.eqb (default EmptyString (loaded !! tokenKey)) EmptyString)
            then nl +:+ colorBold +:+ "Current token:" +:+ colorReset
                 +:+ " CLAUDE_CODE_OAUTH_TOKEN is set" +:+ nl +:+ nl
            else nl +:+ colorDim +:+ "No token currently set." +:+ colorReset
                 +:+ nl +:+ nl);
    Stdout ("Generate a new token by running:" +:+ nl +:+ nl);
    Stdout ("    " +:+ colorCyan +:+ "claude setup-token" +:+ colorReset +:+ nl +:+ nl);
    Stdout (colorBold +:+ "New token" +:+ colorReset +:+ " (or Enter to cancel): ") ]
  ++ match firstLine (stdin w) with
     | None => []
     | Some text =>
         let token := TrimSpace text in
         if String.eqb token EmptyString
         then [Stdout (colorDim +:+ "cancelled" +:+ colorReset +:+ nl)]
         else
           let content := rewriteEnv (default EmptyString (envFile w)) token in
           MkdirAll (root w)
           :: match mkdirError w with
              | Some err => [Stderr ("grove: " +:+ err +:+ nl); Exit 1]
              | None =>
                  WriteFile envPath content
                  :: match writeError w with
                     | Some err => [Stderr ("grove: " +:+ err +:+ nl); Exit 1]
                     | None =>
                         [Stdout (nl +:+ colorGreen +:+ colorBold +:+ "✓  Token saved"
                                  +:+ colorReset +:+ " " +:+ colorDim +:+ envPath
                                  +:+ colorReset +:+ nl +:+ nl)]
                     end
              end
     end.

(** The files a run writes, with their contents. *)
Definition filesWritten (trace : list Effect) : list (string * string) :=
  omap (fun e => match e with WriteFile path content => Some (path, content) | _ => None end)
    trace.

End Cli.

Module CliSamples.
Import Cli.

(** An env file with an old token, and a user who types a new one. *)
Definition tokenWorld : TokenWorld :=
  mkTokenWorld "/home/dev/.grove"
    (Some ("A=1" +:+ nl +:+ "CLAUDE_CODE_OAUTH_TOKEN=old" +:+ nl +:+ nl))
    ("  fresh-token " +:+ nl) None None.

End CliSamples.

(* ===================================================================== *)
(** * cmd/grove: the credentials of the agent                              *)
(* ===================================================================== *)

Module Credentials.
Import GoStrings GoText Bufio Cli.

(** What [ensureAgentCredentials] finds: the data root, the agent
    command [detectAgentCommand] reads from the project's [grove.yaml]
    (empty when there is none), the bytes of [<root>/env], the
    environment of the process, standard input, and whether the env file
    opens for appending. *)
Record CredWorld : Type := mkCredWorld {
  root : string;
  agentCommand : string;
  envFile : option string;
  getenv : string -> string;
  stdin : string;
  appendOpens : bool
}.

Definition apiKey : string := "ANTHROPIC_API_KEY".

(** [m[k]] of a Go map: the zero value for a missing key. *)
Definition index (m : gmap string string) (k : string) : string :=
  default EmptyString (m !! k).

(** The line the prompt appends to the env file. *)
Definition tokenLine (token : string) : string := tokenKey +:+ "=" +:+ token +:+ nl.

(** The map built from the environment of the process. *)
Definition fromEnvironment (w : CredWorld) : gmap string string :=
  let agentEnv : gmap string string := ∅ in
  let agentEnv :=
    if negb (String.eqb (getenv w tokenKey) EmptyString)
    then <[tokenKey := getenv w tokenKey]> agentEnv else agentEnv in
  if negb (String.eqb (getenv w apiKey) EmptyString)
  then <[apiKey := getenv w apiKey]> agentEnv else agentEnv.

(** [ensureAgentCredentials(project)]: the map it returns ([None] is
    nil) and what it does. *)
Definition ensureAgentCredentials (w : CredWorld)
  : option (gmap string string) * list Effect :=
  let agentCmd := agentCommand w in
  if negb (String.eqb agentCmd EmptyString) && negb (String.eqb agentCmd "claude")
  then (None, [])
  else
    let loaded := Envfile.Load (envFile w) in
    if negb (String.eqb (index loaded tokenKey) EmptyString)
       || negb (String.eqb (index loaded apiKey) EmptyString)
    then (None, [])
    else
      let agentEnv := fromEnvironment w in
      if Nat.ltb 0 (size agentEnv) then (Some agentEnv, [])
      else
        let prompt :=
          [ Stdout (nl +:+ colorYellow +:+ colorBold +:+ "Claude authentication required."
                    +:+ colorReset +:+ nl +:+ nl);
            Stdout ("Generate a long-lived token by running:" +:+ nl +:+ nl);
            Stdout ("    " +:+ colorCyan +:+ "claude setup-token" +:+ colorReset
                    +:+ nl +:+ nl);
            Stdout ("Then paste the token below." +:+ nl +:+ nl);
            Stdout (colorBold +:+ "Token" +:+ colorReset +:+ " (or Enter to skip): ") ] in
        match firstLine (stdin w) with
        | None => (None, prompt)
        | Some text =>
            let token := TrimSpace text in
            if String.eqb token EmptyString then (None, prompt)
            else
              let envPath := Daemon.Join [root w; "env"] in
              (Some {[ tokenKey := token ]},
               prompt ++
               (if appendOpens w
                then [ AppendFile envPath (tokenLine token);
                       Stdout (nl +:+ colorGreen +:+ "✓  Saved to " +:+ envPath
                               +:+ colorReset +:+ nl +:+ nl) ]
                else []))
        end.

(** The bytes a run appends to files. *)
Definition appended (trace : list Effect) : list (string * string) :=
  omap (fun e => match e with AppendFile path content => Some (path, content) | _ => None end)
    trace.

(** The env file after the bytes appended to it. *)
Definition afterAppend (w : CredWorld) (trace : list Effect) : string :=
  fold_left (fun data e => data +:+ e.2) (appended trace) (default EmptyString (envFile w)).

End Credentials.

Module CredentialsSamples.
Import Cli Credentials.

(** No credential anywhere, a user who types one, and an env file that
    ends in a line feed or does not. *)
Definition promptWorld (env : string) : CredWorld :=
  mkCredWorld "/home/dev/.grove" "claude" (Some env) (fun _ => EmptyString)
    (" tok-123 " +:+ nl) true.

End CredentialsSamples.

(* ===================================================================== *)
(** * What a loaded env map looks like                                     *)
(* ===================================================================== *)

Module EnvShape.
Import GoStrings Bufio.

(** A key and its value as the loader stores them: both trimmed, neither
    with a line feed, the key without [=] and not starting with [#]. *)
Definition clean (k v : string) : Prop :=
  TrimSpace k = k /\ TrimSpace v = v
  /\ Contains k "=" = false /\ HasPrefix k "#" = false
  /\ Contains k (String newline EmptyString) = false
  /\ Contains v (String newline EmptyString) = false.

Definition allClean (env : gmap string string) : Prop :=
  forall k v, env !! k = Some v -> clean k v.

End EnvShape.

(* ===================================================================== *)
(** * cmd/grove: the LaunchAgent plist ([cmd_daemon_darwin.go])            *)
(* ===================================================================== *)

Module Plist.
Import GoStrings.

(** [xmlEscape]. *)
Definition xmlEscape (s : string) : string :=
  let s := ReplaceAll s "&" "&amp;" in
  let s := ReplaceAll s "<" "&lt;" in
  let s := ReplaceAll s ">" "&gt;" in
  s.

(** The entity of a byte, for the three bytes that have one. *)
Definition entity (c : ascii) : string :=
  if Ascii.eqb c "&" then "&amp;"
  else if Ascii.eqb c "<" then "&lt;"
  else if Ascii.eqb c ">" then "&gt;"
  else String c EmptyString.

(** Each byte of a string replaced by what [f] gives for it. *)
Fixpoint expandBytes (f : ascii -> string) (s : string) : string :=
  match s with
  | EmptyString => EmptyString
  | String c r => f c +:+ expandBytes f r
  end.

End Plist.

(* ===================================================================== *)
(** * cmd/grove: formatting and arguments                                  *)
(* ===================================================================== *)

Module Format.
Import GoStrings.

(** [s[:n]] for [0 <= n <= len(s)]. *)
Fixpoint slice (n : nat) (s : string) : string :=
  match n, s with
  | S k, String c r => String c (slice k r)
  | _, _ => EmptyString
  end.

(** [truncate(s, n)]: [n] is a Go [int], [len(s)] counts bytes. *)
Definition truncate (s : string) (n : Z) : string :=
  if (n <=? 0)%Z then EmptyString
  else if (Z.of_nat (String.length s) <=? n)%Z then s
  else if (n <=? 3)%Z then slice (Z.to_nat n) s
  else slice (Z.to_nat (n - 3)) s +:+ "...".

End Format.

Module Args.

(** [stripBoolFlag(args, short, long)]: the loop over [args], with the
    slice [out] and the variable [found]. *)
Definition isFlag (short long a : string) : bool :=
  String.eqb a ("-" +:+ short) || String.eqb a ("--" +:+ short)
  || String.eqb a ("-" +:+ long) || String.eqb a ("--" +:+ long).

Definition stripStep (short long : string) (acc : list string * bool) (a : string)
  : list string * bool :=
  let '(out, found) := acc in
  if isFlag short long a then (out, true) else (out ++ [a], found).

Definition stripBoolFlag (args : list string) (short long : string)
  : list string * bool :=
  fold_left (stripStep short long) args ([], false).

End Args.

(* ===================================================================== *)
(** * cmd/grove: prune ([cmd_instance.go])                                 *)
(* ===================================================================== *)

From Stdlib Require Import DecimalString.

Module Prune.
Import GoStrings Cli.
Import Proto(StateExited, StateCrashed, StateKilled, StateFinished).

(** What [cmdPrune] finds.  [answer k a] is what [mustRequest] gets for
    the [k]-th request of the run: the response, or, when the daemon
    cannot be reached or answers with an error, the lines [mustRequest]
    prints to standard error before it exits with status 1. *)
Record PruneWorld : Type := mkPruneWorld {
  answer : nat -> Asked -> list string + Proto.Response.t;
  stdin : string
}.

(** [reader.ReadString('\n')]: the input up to and including the first
    line feed, or all of it when there is none. *)
Fixpoint readString (input : string) : string :=
  match input with
  | EmptyString => EmptyString
  | String c rest =>
      if Ascii.eqb c Bufio.newline then String c EmptyString
      else String c (readString rest)
  end.

(** The [switch inst.State] of the selecting loop. *)
Definition isDead (includeFinished : bool) (inst : Proto.InstanceInfo.t) : bool :=
  let st := Proto.InstanceInfo.State inst in
  if String.eqb st StateExited || String.eqb st StateCrashed || String.eqb st StateKilled
  then true
  else if String.eqb st StateFinished then includeFinished
  else false.

(** [%d] of a length. *)
Definition decimal (n : nat) : string := NilZero.string_of_uint (Nat.to_uint n).

(** What is printed for one instance to be dropped. *)
Definition describe (inst : Proto.InstanceInfo.t) : list Effect :=
  [ Stdout ("  " +:+ colorBold +:+ Proto.InstanceInfo.ID inst +:+ colorReset +:+ nl);
    Stdout ("    " +:+ colorDim +:+ "Project:" +:+ colorReset +:+ "   " +:+ colorCyan
            +:+ Proto.InstanceInfo.Project inst +:+ colorReset +:+ nl);
    Stdout ("    " +:+ colorDim +:+ "Worktree:" +:+ colorReset +:+ "  " +:+ colorCyan
            +:+ Proto.InstanceInfo.WorktreeDir inst +:+ colorReset +:+ nl);
    Stdout ("    " +:+ colorDim +:+ "Branch:" +:+ colorReset +:+ "    " +:+ colorCyan
            +:+ Proto.InstanceInfo.Branch inst +:+ colorReset +:+ nl);
    Stdout ("    " +:+ colorDim +:+ "State:" +:+ colorReset +:+ "     "
            +:+ Proto.InstanceInfo.State inst +:+ nl +:+ nl) ].

(** The dropping loop; [k] numbers the requests. *)
Fixpoint dropAll (w : PruneWorld) (k : nat) (dead : list Proto.InstanceInfo.t)
  : list Effect :=
  match dead with
  | [] => [Stdout nl]
  | inst :: rest =>
      let id := Proto.InstanceInfo.ID inst in
      Ask (AskDrop id)
      :: match answer w k (AskDrop id) with
         | inl errors => map Stderr errors ++ [Exit 1]
         | inr _ =>
             Stdout (colorGreen +:+ colorBold +:+ "✓  Dropped" +:+ colorReset +:+ " "
                     +:+ colorCyan +:+ id +:+ colorReset +:+ nl)
             :: dropAll w (S k) rest
         end
  end.

(** [cmdPrune], after its flags are parsed: [includeFinished] is the
    value of [--finished]. *)
Definition cmdPrune (w : PruneWorld) (includeFinished : bool) : list Effect :=
  Ask AskList
  :: match answer w 0 AskList with
     | inl errors => map Stderr errors ++ [Exit 1]
     | inr resp =>
         let dead := List.filter (isDead includeFinished) (Proto.Response.Instances resp) in
         match dead with
         | [] => [Stdout (colorDim +:+ "nothing to prune" +:+ colorReset +:+ nl)]
         | _ =>
             Stdout (nl +:+ colorYellow +:+ colorBold +:+ "⚠  Prune" +:+ colorReset
                     +:+ " — the following instance(s) and their worktrees will be removed:"
                     +:+ nl +:+ nl)
             :: concat (map describe dead)
             ++ [ Stdout ("  This will drop " +:+ decimal (length dead)
                          +:+ " instance(s) and their worktrees." +:+ nl +:+ nl);
                  Stdout (colorBold +:+ "Continue?" +:+ colorReset +:+ " [y/N] ") ]
             ++ (let reply := TrimSpace (readString (stdin w)) in
                 if negb (String.eqb reply "y") && negb (String.eqb reply "Y")
                 then [Stdout (colorDim +:+ "aborted" +:+ colorReset +:+ nl)]
                 else dropAll w 1 dead)
         end
     end.

(** The instances a run asks the daemon to drop, in order. *)
Definition drops (trace : list Effect) : list string :=
  omap (fun e => match e with Ask (AskDrop id) => Some id | _ => None end) trace.

(** The user said yes. *)
Definition confirmed (w : PruneWorld) : Prop :=
  TrimSpace (readString (stdin w)) = "y" \/ TrimSpace (readString (stdin w)) = "Y".

End Prune.

(* ===================================================================== *)
(** * internal/daemon: more of the registry and its helpers                *)
(* ===================================================================== *)

Module DaemonMore.
Import GoStrings GoText Daemon.

(** The writes to the connection that failed. *)
Definition connFailed (trace : list Event) : list string :=
  omap (fun e => match e with ConnWrite data false => Some data | _ => None end) trace.

(** The order in which [nextInstanceID] tries the IDs: the alphabet, then
    the pairs [a + b], [a] in the outer loop and [b] in the inner one. *)
Definition idPairs : list string :=
  flat_map (fun a => map (fun b => a +:+ b) idAlphabet) idAlphabet.

Definition idOrder : list string := idAlphabet ++ idPairs.

(** [logAgentCredentials(instanceID, agentEnv)]: the line it hands to
    [log.Printf]. *)
Definition credentialKeys : list string := ["CLAUDE_CODE_OAUTH_TOKEN"; "ANTHROPIC_API_KEY"].

Definition logAgentCredentials (instanceID : string) (agentEnv : gmap string string)
  : string :=
  let found :=
    List.filter (fun k => negb (String.eqb (default EmptyString (agentEnv !! k)) EmptyString))
      credentialKeys in
  if Nat.ltb 0 (length found)
  then "instance " +:+ instanceID +:+ ": claude credentials present: "
       +:+ JoinSep found ", "
  else "instance " +:+ instanceID
       +:+ ": WARNING no claude credentials found — agent will show login screen".

End DaemonMore.

(* ===================================================================== *)
(** * internal/daemon: following the log ([handleLogsFollow])              *)
(* ===================================================================== *)

Module Follow.
Import GoStrings Daemon.
Import Proto(IsTerminal).

(** How the handler ends: the client is gone (a write failed), the
    instance is done and drained, or the handler is still in its loop
    when the ticks looked at run out. *)
Inductive FollowEnd : Type := Gone | Drained | Waiting.

(** The loop over the ticker.  Each tick comes with what the handler
    reads under the lock of the instance at that moment: its state and
    its log buffer.  [offset] counts the bytes sent so far. *)
Fixpoint followLoop (offset : nat) (ticks : list (string * string)) : M FollowEnd :=
  match ticks with
  | [] => mret Waiting
  | (state, logBuf) :: rest =>
      (* Clamp offset if logBuf was trimmed. *)
      let offset := if Nat.ltb (String.length logBuf) offset then 0 else offset in
      let newData := skip offset logBuf in
      let offset := offset + String.length newData in
      if Nat.ltb 0 (String.length newData)
      then ok ← connSend (ConnWrite newData);
           if ok : bool
           then if IsTerminal state && Nat.eqb (String.length newData) 0
                then mret Drained else followLoop offset rest
           else mret Gone
      else if IsTerminal state && Nat.eqb (String.length newData) 0
           then mret Drained else followLoop offset rest
  end.

(** The handler after its answer: the snapshot [initial] of the log
    buffer is sent, then the loop runs. *)
Definition followFrom (initial : string) (ticks : list (string * string)) : M FollowEnd :=
  if Nat.ltb 0 (String.length initial)
  then ok ← connSend (ConnWrite initial);
       if ok : bool then followLoop (String.length initial) ticks else mret Gone
  else followLoop (String.length initial) ticks.

(** [handleLogsFollow]: [initial] is the log buffer of the instance when
    the handler takes its snapshot. *)
Definition handleLogsFollow (initial : string) (ticks : list (string * string))
    (req : Proto.Request.t) : M (option FollowEnd) :=
  let id := Proto.Request.InstanceID req in
  o ← getInstance id;
  match o with
  | None => respond (notFound id);; mret None
  | Some _ =>
      respond Proto.Response.ok;;
      e ← followFrom initial ticks;
      mret (Some e)
  end.

(** The log buffer only grows over the ticks. *)
Fixpoint grows (buf : string) (ticks : list (string * string)) : Prop :=
  match ticks with
  | [] => True
  | (_, next) :: rest => (exists more, next = buf +:+ more) /\ grows next rest
  end.

(** Where a follower of a growing buffer stops: at the first tick that
    finds the instance terminal and nothing new, with the buffer of that
    tick; or, still waiting, with the buffer of the last tick. *)
Fixpoint followed (buf : string) (ticks : list (string * string)) : string * FollowEnd :=
  match ticks with
  | [] => (buf, Waiting)
  | (state, next) :: rest =>
      if IsTerminal state && String.eqb next buf then (next, Drained)
      else followed next rest
  end.

(** The text that reached the client. *)
Definition received (trace : list Event) : string :=
  fold_right append EmptyString (connDelivered trace).

End Follow.

(* ===================================================================== *)
(** * internal/daemon: containers ([docker.go])                            *)
(* ===================================================================== *)

Module Docker.
Import GoStrings GoText Daemon.

(** [Project] of [project.go] (not among the sources), by what the start
    path reads of it: the fields of its [Container] and [Agent] parts
    and the results of its methods [MainDir], [containerWorkdir] and
    [containerService]. *)
Record Project : Type := mkProject {
  base : Config.Project;
  MainDir : string;
  Image : string;
  Compose : string;
  Mounts : list string;
  Workdir : string;
  Service : string;
  AgentCommand : string;
  AgentArgs : list string
}.

(** What the container code finds on the host.  [docker k argv] is what
    the [k]-th external command of a handler does when it is run with
    [argv]: the chunks it writes to its output and the error of [Run].
    [pathJoin] is [filepath.Join] and [quoted] is the [%q] verb
    ([strconv.Quote]); both are left open. *)
Record Host : Type := mkHost {
  home : option string;
  stat : string -> bool;
  pathJoin : list string -> string;
  quoted : string -> string;
  docker : nat -> list string -> list string * option string;
  createTemp : string + string;
  writeTemp : option string;
  claudeConfig : option string;
  jsonValid : string -> bool
}.

Definition nl : string := String Bufio.newline EmptyString.
Definition dq : string := String (ascii_of_nat 34) EmptyString.

(** [os.UserHomeDir()] with its error dropped. *)
Definition homeDir (h : Host) : string := default EmptyString (home h).

(** [resolveMountPath(m, home)]. *)
Definition resolveMountPath (h : Host) (m home : string) : string * string :=
  if String.eqb m "~" then (home, "/root")
  else if HasPrefix m "~/"
  then let rel := skip 2 m in (pathJoin h [home; rel], "/root/" +:+ rel)
  else (m, m).

(** [agentCredentialMounts(agentCmd, home)]. *)
Definition agentCredentialMounts (h : Host) (agentCmd home : string)
  : list (string * string) :=
  if String.eqb agentCmd "claude" then [(pathJoin h [home; ".claude"], "/root/.claude")]
  else if String.eqb agentCmd "aider" then [(pathJoin h [home; ".aider"], "/root/.aider")]
  else [].

(** The two loops of [buildMounts]: the mounts gathered and the lines
    written to [w]. *)
Definition credentialStep (h : Host) (acc : list (string * string) * list string)
    (pair : string * string) : list (string * string) * list string :=
  let '(mounts, written) := acc in
  if stat h pair.1
  then (mounts ++ [pair],
        written ++ ["Mounting credentials: " +:+ pair.1 +:+ " → " +:+ pair.2 +:+ nl])
  else acc.

Definition mountStep (h : Host) (home : string)
    (acc : list (string * string) * list string) (m : string)
  : list (string * string) * list string :=
  let '(mounts, written) := acc in
  let '(src, tgt) := resolveMountPath h m home in
  if stat h src
  then (mounts ++ [(src, tgt)],
        written ++ ["Mounting: " +:+ src +:+ " → " +:+ tgt +:+ nl])
  else (mounts,
        written ++ ["Warning: skipping mount " +:+ quoted h m
                    +:+ " — path not found on host" +:+ nl]).

(** [buildMounts(p, w)]. *)
Definition buildMounts (h : Host) (p : Project) : list (string * string) * list string :=
  let home := homeDir h in
  let acc := fold_left (credentialStep h) (agentCredentialMounts h (AgentCommand p) home)
               ([], []) in
  fold_left (mountStep h home) (Mounts p) acc.

(** What a call of this file does, in order. *)
Inductive Action : Type :=
| Say (text : string)
    (* one write to the writer [w] *)
| Exec (argv : list string)
    (* exec.Command(argv...) run to completion *)
| WriteTemp (path content : string)
    (* the compose override written to its temporary file *)
| Remove (path : string).
    (* os.Remove(path) *)

(** A call of this file: its result, what it did, and the number of the
    next command. *)
Definition Call (A : Type) : Type := A * list Action * nat.

(** [startSingleContainer]. *)
Definition startSingleContainer (h : Host) (k : nat) (p : Project)
    (instanceID worktreeDir : string) : Call (string + string) :=
  let name := "grove-" +:+ instanceID in
  let workdir := Workdir p in
  let image := Image p in
  let '(mounts, mountLines) := buildMounts h p in
  let args :=
    ["run"; "-d"; "--name"; name; "-v"; worktreeDir +:+ ":" +:+ workdir; "-w"; workdir]
    ++ flat_map (fun m : string * string => ["-v"; m.1 +:+ ":" +:+ m.2]) mounts
    ++ [image; "sleep"; "infinity"] in
  let '(chunks, err) := docker h k ("docker" :: args) in
  let out := fold_right append EmptyString chunks in
  (match err with
   | Some e => inl ("docker run: " +:+ e)
   | None => inr name
   end,
   map Say mountLines
   ++ [ Say ("Starting container " +:+ name +:+ " (image: " +:+ image +:+ ") …" +:+ nl);
        Exec ("docker" :: args) ]
   ++ (if Nat.ltb 0 (String.length out) then [Say out] else []),
   S k).

(** The volumes block of the compose override. *)
Definition bindVolume (source target : string) : string :=
  "      - type: bind" +:+ nl +:+ "        source: " +:+ source +:+ nl
  +:+ "        target: " +:+ target +:+ nl.

(** [startComposeContainer]. *)
Definition startComposeContainer (h : Host) (k : nat) (p : Project)
    (instanceID worktreeDir : string) : Call (string + string) :=
  let project := "grove-" +:+ instanceID in
  let service := Service p in
  let workdir := Workdir p in
  let composeFile := Compose p in
  let '(mounts, mountLines) := buildMounts h p in
  let volumes :=
    fold_left (fun v (m : string * string) => v +:+ bindVolume m.1 m.2) mounts
      (bindVolume worktreeDir workdir) in
  let overrideContent :=
    "services:" +:+ nl +:+ "  " +:+ service +:+ ":" +:+ nl +:+ "    volumes:" +:+ nl
    +:+ volumes in
  match createTemp h with
  | inl e => (inl ("create compose override: " +:+ e), map Say mountLines, k)
  | inr overridePath =>
      match writeTemp h with
      | Some e =>
          (inl ("write compose override: " +:+ e),
           map Say mountLines
           ++ [WriteTemp overridePath overrideContent; Remove overridePath], k)
      | None =>
          let argv :=
            ["docker"; "compose"; "-p"; project; "-f"; composeFile; "-f"; overridePath;
             "up"; "-d"] in
          let '(chunks, err) := docker h k argv in
          (match err with
           | Some e => inl ("docker compose up: " +:+ e)
           | None => inr (project +:+ "-" +:+ service +:+ "-1")
           end,
           map Say mountLines
           ++ [ WriteTemp overridePath overrideContent;
                Say ("Starting compose stack " +:+ project +:+ " (compose: " +:+ composeFile
                     +:+ ", service: " +:+ service +:+ ") …" +:+ nl);
                Exec argv ]
           ++ map Say chunks
           ++ [Remove overridePath], S k)
      end
  end.

(** [startContainer]. *)
Definition startContainer (h : Host) (k : nat) (p : Project)
    (instanceID worktreeDir : string) : Call (string + string) :=
  if negb (String.eqb (Compose p) EmptyString)
  then startComposeContainer h k p instanceID worktreeDir
  else if String.eqb (Image p) EmptyString
  then (inl ("no container configured in " +:+ pathJoin h [MainDir p; "grove.yaml"] +:+ nl
             +:+ "add a 'container:' section, e.g.:" +:+ nl +:+ nl
             +:+ "  container:" +:+ nl +:+ "    image: ubuntu:24.04" +:+ nl),
        [], k)
  else startSingleContainer h k p instanceID worktreeDir.

(** The scripts of [ensureAgentInstalled]. *)
Definition claudeInstall : string :=
  "set -e" +:+ nl +:+
  "export HOME=/root" +:+ nl +:+
  "export PATH=/root/.local/bin:$PATH" +:+ nl +:+
  "if command -v apk >/dev/null 2>&1; then" +:+ nl +:+
  "  apk add --no-cache libgcc libstdc++ ripgrep curl" +:+ nl +:+
  "elif ! command -v curl >/dev/null 2>&1; then" +:+ nl +:+
  "  if command -v apt-get >/dev/null 2>&1; then" +:+ nl +:+
  "    apt-get update -qq && apt-get install -y -qq curl" +:+ nl +:+
  "  else" +:+ nl +:+
  "    echo " +:+ dq
    +:+ "Cannot install Claude: curl not found and no supported package manager."
    +:+ dq +:+ " >&2" +:+ nl +:+
  "    exit 1" +:+ nl +:+
  "  fi" +:+ nl +:+
  "fi" +:+ nl +:+
  "curl -fsSL https://claude.ai/install.sh | bash" +:+ nl +:+
  "if [ -f /root/.local/bin/claude ] && [ ! -e /usr/local/bin/claude ]; then" +:+ nl +:+
  "  ln -sf /root/.local/bin/claude /usr/local/bin/claude" +:+ nl +:+
  "fi".

Definition claudeSnippet : string :=
  "  start:" +:+ nl +:+
  "    - curl -fsSL https://claude.ai/install.sh | bash" +:+ nl +:+
  "    - ln -sf /root/.local/bin/claude /usr/local/bin/claude".

Definition aiderInstall : string :=
  "set -e" +:+ nl +:+
  "if ! command -v pip >/dev/null 2>&1 && ! command -v pip3 >/dev/null 2>&1; then" +:+ nl +:+
  "  if command -v apt-get >/dev/null 2>&1; then" +:+ nl +:+
  "    apt-get update -qq && apt-get install -y -qq python3 python3-pip" +:+ nl +:+
  "  elif command -v apk >/dev/null 2>&1; then" +:+ nl +:+
  "    apk add --no-cache python3 py3-pip" +:+ nl +:+
  "  else" +:+ nl +:+
  "    echo " +:+ dq +:+ "pip not found and no supported package manager available"
    +:+ dq +:+ " >&2" +:+ nl +:+
  "    exit 1" +:+ nl +:+
  "  fi" +:+ nl +:+
  "fi" +:+ nl +:+
  "pip install aider-chat 2>/dev/null || pip3 install aider-chat".

Definition aiderSnippet : string :=
  "  start:" +:+ nl +:+
  "    - pip install aider-chat".

(** The [switch agentCmd]: the install script and the snippet for the
    error message, for the agents the daemon knows. *)
Definition installerOf (agentCmd : string) : option (string * string) :=
  if String.eqb agentCmd "claude" then Some (claudeInstall, claudeSnippet)
  else if String.eqb agentCmd "aider" then Some (aiderInstall, aiderSnippet)
  else None.

(** The command that looks for the agent in the container. *)
Definition lookFor (agentCmd containerName : string) : list string :=
  ["docker"; "exec"; containerName; "sh"; "-c";
   "command -v " +:+ agentCmd +:+ " >/dev/null 2>&1"].

(** [ensureAgentInstalled]: [None] is nil. *)
Definition ensureAgentInstalled (h : Host) (k : nat) (agentCmd containerName : string)
  : Call (option string) :=
  let check := lookFor agentCmd containerName in
  match (docker h k check).2 with
  | None => (None, [Exec check], S k)
  | Some _ =>
      match installerOf agentCmd with
      | None =>
          (Some ("agent command " +:+ quoted h agentCmd +:+ " not found in container "
                 +:+ containerName +:+ nl
                 +:+ "install it in your container image or add it to 'start:' in grove.yaml"),
           [Exec check], S k)
      | Some (installScript, startSnippet) =>
          let install := ["docker"; "exec"; containerName; "sh"; "-c"; installScript] in
          let announce :=
            "Agent " +:+ quoted h agentCmd
            +:+ " not found — auto-installing (this runs once per container)…" +:+ nl in
          let '(chunks, err) := docker h (S k) install in
          match err with
          | Some e =>
              (Some ("auto-install of " +:+ quoted h agentCmd +:+ " failed: " +:+ e +:+ nl
                     +:+ "to install it yourself, add to grove.yaml:" +:+ nl
                     +:+ startSnippet),
               [Exec check; Say announce; Exec install] ++ map Say chunks, S (S k))
          | None =>
              match (docker h (S (S k)) check).2 with
              | Some _ =>
                  (Some ("auto-install of " +:+ quoted h agentCmd
                         +:+ " appeared to succeed but the command is still not in PATH"
                         +:+ nl
                         +:+ "check that the install placed the binary in a directory on $PATH inside the container"),
                   [Exec check; Say announce; Exec install] ++ map Say chunks
                   ++ [Exec check], S (S (S k)))
              | None =>
                  (None,
                   [Exec check; Say announce; Exec install] ++ map Say chunks
                   ++ [ Exec check;
                        Say ("Agent " +:+ quoted h agentCmd +:+ " installed successfully."
                             +:+ nl) ],
                   S (S (S k)))
              end
          end
      end
  end.

(** [seedClaudeConfig]: the commands it runs. *)
Definition seedClaudeConfig (h : Host) (k : nat) (containerName : string)
  : list Action * nat :=
  match home h with
  | None => ([], k)
  | Some dir =>
      let src := pathJoin h [dir; ".claude.json"] in
      match claudeConfig h with
      | None => ([], k)
      | Some data =>
          if jsonValid h data
          then ([Exec ["docker"; "cp"; src; containerName +:+ ":/root/.claude.json"]], S k)
          else ([], k)
      end
  end.

(** The parts of a call: its result, what it wrote to [w], what it did
    besides, and the number of the next command. *)
Definition resultOf {A : Type} (r : Call A) : A := r.1.1.
Definition stepsOf {A : Type} (r : Call A) : list Action := r.1.2.
Definition nextOf {A : Type} (r : Call A) : nat := r.2.

Definition written (steps : list Action) : list string :=
  omap (fun a => match a with Say text => Some text | _ => None end) steps.

Definition done (steps : list Action) : list Action :=
  List.filter (fun a => match a with Say _ => false | _ => true end) steps.

(** The number of commands among the steps. *)
Definition executions (steps : list Action) : nat :=
  length (List.filter (fun a => match a with Exec _ => true | _ => false end) steps).

Definition writtenBy {A : Type} (r : Call A) : list string := written (stepsOf r).
Definition actionsOf {A : Type} (r : Call A) : list Action := done (stepsOf r).

End Docker.
(* ===================================================================== *)
(** * internal/daemon: starting an instance ([handleStart])                *)
(* ===================================================================== *)

Module Start.
Import GoStrings Daemon.

(** What [handleStart] finds outside the daemon.  The functions of
    [project.go] and [instance.go] (not among the sources) are each left
    open, by what they write to the setup writer and what they return. *)
Record StartWorld : Type := mkStartWorld {
(** The host of the container code. *)
host : Docker.Host;
(** What [rand.Read] gives [nextInstanceID]. *)
random : byte * byte * byte * byte;
(** [loadProject(rootDir, name)]: an error message or the project. *)
loadProject : string -> string -> string + Docker.Project;
(** [os.OpenFile] of the log file gives a file. *)
openLog : string -> bool;
(** [ensureMainCheckout(p, w)]: what it writes and its error. *)
ensureMainCheckout : Docker.Project -> list string * option string;
(** [pullMain(p, w)]. *)
pullMain : Docker.Project -> list string * option string;
(** [loadInRepoConfig(p)]: the project with [grove.yaml] laid over it
    and whether the file was found (its error is only logged). *)
loadInRepoConfig : Docker.Project -> Docker.Project * bool;
(** [createWorktree(p, id, branch, w)]: what it writes, and an error or
    the directory of the worktree. *)
createWorktree : Docker.Project -> string -> string -> list string * (string + string);
(** [runStart(p, containerName, w)]. *)
runStart : Docker.Project -> string -> list string * option string;
(** [inst.startAgent(agentCmd, args, env)]: [None] when the agent was
    spawned. *)
startAgent : Instance -> string -> list string -> gmap string string -> option string;
(** The contents of a file ([None]: it cannot be opened). *)
readFile : string -> option string;
(** [time.Now()] when the instance is built. *)
now : GoTime.Time
}.

(** What [handleStart] does, in order. *)
Inductive Step : Type :=
| Handler (e : Event)
    (* a response, a write to the connection or to the log file, the
       metadata record, a command of [stopContainer] *)
| Buffer (text : string)
    (* a write to [outputBuf] *)
| Host (a : Docker.Action)
    (* what the container code does on the host *)
| EnsureMainCheckout
| PullMain
| CreateWorktree (instanceID branch : string)
| RemoveWorktree (instanceID branch : string)
| RunStart (containerName : string)
| StartAgent (inst : Instance) (agentCmd : string) (args : list string)
    (env : gmap string string).

(** Writes to [setupW]: each goes to the buffer and then, when the log
    file could be opened, to the log file. *)
Definition toLog (logFd : bool) (logFile : string) (texts : list string) : list Step :=
  flat_map (fun text =>
              Buffer text :: (if logFd then [Handler (LogWrite logFile text)] else []))
    texts.

(** A call of the container code with [setupW] as its writer. *)
Definition narrate (logFd : bool) (logFile : string) (steps : list Docker.Action)
  : list Step :=
  flat_map (fun a =>
              match a with
              | Docker.Say text => toLog logFd logFile [text]
              | _ => [Host a]
              end) steps.

(** [respond(conn, r)] as steps of the handler. *)
Definition answer (r : Proto.Response.t) (d : Daemon) (c : Conn) : Conn * list Step :=
  let '(_, _, c1, t) := respond r d c in (c1, map Handler t).

(** The deferred rollback: the cleanups run last first. *)
Definition unwind (rollbacks : list (list Step)) : list Step := List.concat (List.rev rollbacks).

(** A failed setup: the error goes to the client, then the deferred
    rollback runs. *)
Definition failed (d : Daemon) (c : Conn) (before : list Step) (r : Proto.Response.t)
    (rollbacks : list (list Step)) : Daemon * Conn * list Step :=
  let '(c1, t) := answer r d c in (d, c1, before ++ t ++ unwind rollbacks).

(** [handleStart]. *)
Definition handleStart (w : StartWorld) (req : Proto.Request.t) (d : Daemon) (c : Conn)
  : Daemon * Conn * list Step :=
  let project := Proto.Request.Project req in
  let branch := Proto.Request.Branch req in
  if String.eqb project EmptyString
  then failed d c [] (Proto.Response.error "project name required") []
  else if String.eqb branch EmptyString
  then failed d c [] (Proto.Response.error "branch name required") []
  else
  match loadProject w (rootDir d) project with
  | inl err => failed d c [] (Proto.Response.error err) []
  | inr p0 =>
  let instanceID := nextInstanceID d (random w) in
  let logFile := Join [rootDir d; "logs"; instanceID +:+ ".log"] in
  let logFd := openLog w logFile in
  let '(out1, err1) := ensureMainCheckout w p0 in
  let t1 := EnsureMainCheckout :: toLog logFd logFile out1 in
  match err1 with
  | Some err => failed d c t1 (Proto.Response.error err) []
  | None =>
  let '(out2, _) := pullMain w p0 in
  let t2 := t1 ++ PullMain :: toLog logFd logFile out2 in
  let '(p, inRepoFound) := loadInRepoConfig w p0 in
  if negb inRepoFound
  then failed d c t2
         (Proto.Response.Build false ("no grove.yaml found in " +:+ project) EmptyString []
            (Docker.MainDir p) EmptyString EmptyString) []
  else
  let '(out3, worktree) := createWorktree w p instanceID branch in
  let t3 := t2 ++ CreateWorktree instanceID branch :: toLog logFd logFile out3 in
  match worktree with
  | inl err => failed d c t3 (Proto.Response.error err) []
  | inr worktreeDir =>
  let rollbacks1 := [[RemoveWorktree instanceID branch]] in
  let '(container, steps4, k4) :=
    Docker.startContainer (host w) 0 p instanceID worktreeDir in
  let t4 := t3 ++ narrate logFd logFile steps4 in
  match container with
  | inl err => failed d c t4 (Proto.Response.error err) rollbacks1
  | inr containerName =>
  let composeProject :=
    if negb (String.eqb (Docker.Compose p) EmptyString)
    then "grove-" +:+ instanceID else EmptyString in
  let rollbacks2 :=
    rollbacks1
    ++ [map Handler (traceOf (stopContainer containerName composeProject d c))] in
  let '(steps5, k5) :=
    if String.eqb (Docker.AgentCommand p) "claude"
       || String.eqb (Docker.AgentCommand p) EmptyString
    then Docker.seedClaudeConfig (host w) k4 containerName
    else ([], k4) in
  let t5 := t4 ++ map Host steps5 in
  let '(out6, err6) := runStart w p containerName in
  let t6 := t5 ++ RunStart containerName :: toLog logFd logFile out6 in
  match err6 with
  | Some err => failed d c t6 (Proto.Response.error err) rollbacks2
  | None =>
  let agentCmd :=
    if String.eqb (Docker.AgentCommand p) EmptyString then "sh"
    else Docker.AgentCommand p in
  let '(err7, steps7, _) :=
    Docker.ensureAgentInstalled (host w) k5 agentCmd containerName in
  let t7 := t6 ++ narrate logFd logFile steps7 in
  match err7 with
  | Some err => failed d c t7 (Proto.Response.error err) rollbacks2
  | None =>
  let inst :=
    newInstance d instanceID project branch worktreeDir containerName composeProject
      (now w) in
  let agentEnv :=
    Proto.Request.AgentEnv req ∪ Envfile.Load (readFile w (Join [rootDir d; "env"])) in
  let t8 := t7 ++ [StartAgent inst agentCmd (Docker.AgentArgs p) agentEnv] in
  match startAgent w inst agentCmd (Docker.AgentArgs p) agentEnv with
  | Some err => failed d c t8 (Proto.Response.error err) rollbacks2
  | None =>
  let running := spawned inst in
  let d1 := register d running in
  let output :=
    fold_right append EmptyString
      (out1 ++ out2 ++ out3 ++ Docker.written steps4 ++ out6 ++ Docker.written steps7) in
  let '(c1, t9) :=
    answer (Proto.Response.Build true EmptyString instanceID [] EmptyString EmptyString
              EmptyString) d1 c in
  let '(_, _, c2, t10) :=
    (if Nat.ltb 0 (String.length output)
     then _ ← connSend (ConnWrite output); mret tt
     else mret tt) d1 c1 in
  (d1, c2,
   t8 ++ [Handler (PersistMeta (Join [rootDir d; "instances"]) running)] ++ t9
   ++ map Handler t10)
  end end end end end end end.

(** The parts of a run of the handler. *)
Definition after (r : Daemon * Conn * list Step) : Daemon := r.1.1.
Definition steps (r : Daemon * Conn * list Step) : list Step := r.2.

(** The responses a run sent, the other writes to the connection, and
    the writes to the log file. *)
Definition answers (trace : list Step) : list Proto.Response.t :=
  omap (fun s => match s with Handler (Respond r _) => Some r | _ => None end) trace.

Definition streamed (trace : list Step) : list string :=
  omap (fun s => match s with Handler (ConnWrite data _) => Some data | _ => None end)
    trace.

Definition logged (trace : list Step) : list string :=
  omap (fun s => match s with Handler (LogWrite _ data) => Some data | _ => None end)
    trace.

Definition buffered (trace : list Step) : list string :=
  omap (fun s => match s with Buffer text => Some text | _ => None end) trace.

(** The launches of the agent in a run. *)
Definition launches (trace : list Step)
  : list (Instance * string * list string * gmap string string) :=
  omap (fun s =>
          match s with
          | StartAgent inst agentCmd args env => Some (inst, agentCmd, args, env)
          | _ => None
          end) trace.

(** The number of commands the container code has run in a trace; the
    next one is the command of that number for [Docker.docker]. *)
Definition executions (trace : list Step) : nat :=
  length (List.filter (fun s => match s with Host (Docker.Exec _) => true | _ => false end)
            trace).

(** A step that is a write of the setup output and nothing else. *)
Definition setupOutput (s : Step) : Prop :=
  match s with
  | Buffer _ | Handler (LogWrite _ _) => True
  | _ => False
  end.

(** The commands of [stopContainer], as steps of the handler. *)
Definition stopSteps (containerName composeProject : string) : list Step :=
  if negb (String.eqb composeProject EmptyString)
  then [Handler (Run ["docker"; "compose"; "-p"; composeProject; "down"; "-v"])]
  else [Handler (Run ["docker"; "stop"; containerName]);
        Handler (Run ["docker"; "rm"; containerName])].

(** The steps after the response. *)
Fixpoint afterAnswer (trace : list Step) : list Step :=
  match trace with
  | [] => []
  | Handler (Respond _ _) :: rest => rest
  | _ :: rest => afterAnswer rest
  end.

End Start.

Module StartSamples.
Import Daemon Start.

(** A host without credentials to mount, on which every docker command
    ends as [ran] says. *)
Definition host (ran : option string) : Docker.Host :=
  Docker.mkHost (Some "/home/dev") (fun _ => false) Join (fun s => s)
    (fun _ _ => ([], ran)) (inr "/tmp/grove-compose-override-1.yml") None None
    (fun _ => true).

(** A project with an image and the claude agent. *)
Definition project : Docker.Project :=
  Docker.mkProject (Samples.project [] []) "/home/dev/.grove/projects/app/main"
    "ubuntu:24.04" "" [] "/app" "app" "claude" [].

(** A world in which the checkout, the configuration, the worktree and
    the agent are fine, and docker is as [ran] says. *)
Definition world (ran : option string) : StartWorld :=
  mkStartWorld (host ran) Samples.random (fun _ _ => inr project) (fun _ => true)
    (fun _ => (["Cloning" +:+ nl], None)) (fun _ => ([], None))
    (fun p => (p, true))
    (fun _ id _ => ([], inr ("/home/dev/.grove/projects/app/worktrees/" +:+ id)))
    (fun _ _ => ([], None)) (fun _ _ _ _ => None)
    (fun _ => Some ("ANTHROPIC_API_KEY=file" +:+ nl +:+ "TERM=xterm" +:+ nl))
    (GoTime.Unix 1700000000).

Definition request : Proto.Request.t :=
  Proto.Request.Build "start" "app" "feature" "" {[ "ANTHROPIC_API_KEY" := "request" ]}.

Definition empty : Daemon := mkDaemon Samples.root ∅.

(** The instance of the first start on the empty daemon. *)
Definition first : Instance :=
  newInstance empty "1" "app" "feature" "/home/dev/.grove/projects/app/worktrees/1"
    "grove-1" "" (GoTime.Unix 1700000000).

End StartSamples.
(* ===================================================================== *)
(** * cmd/grove: the attach client ([cmd_attach.go])                       *)
(* ===================================================================== *)

Module AttachClient.

(** One [os.Stdin.Read(buf)]: the bytes it put into [buf] and whether it
    returned an error. *)
Record Read : Type := mkRead {
  bytes : list byte;
  err : bool
}.

(** What the stdin goroutine of [doAttach] hands to [proto.WriteFrame]. *)
Inductive Frame : Type :=
| DataFrame (payload : list byte)
    (* proto.WriteFrame(conn, proto.AttachFrameData, buf[:n]) *)
| DetachFrame.
    (* proto.WriteFrame(conn, proto.AttachFrameDetach, nil) *)

(** Ctrl-]. *)
Definition detachKey : byte := x1d.

Definition holdsDetachKey (buf : list byte) : bool :=
  existsb (Byte.eqb detachKey) buf.

(** The stdin goroutine of [doAttach], over the reads it makes: the
    frames it sends, and whether it has signalled [done] and returned
    ([false]: it waits in the next read). *)
Fixpoint stdinLoop (reads : list Read) : list Frame * bool :=
  match reads with
  | [] => ([], false)
  | read :: rest =>
      if Nat.ltb 0 (length (bytes read))
      then
        if holdsDetachKey (bytes read) then ([DetachFrame], true)
        else if err read then ([DataFrame (bytes read)], true)
        else let '(frames, returned) := stdinLoop rest in
             (DataFrame (bytes read) :: frames, returned)
      else if err read then ([], true)
      else stdinLoop rest
  end.

(** The bytes of the data frames, in order. *)
Definition forwarded (frames : list Frame) : list byte :=
  flat_map (fun f => match f with DataFrame payload => payload | DetachFrame => [] end)
    frames.

(** A read that neither ends the loop nor holds the detach key. *)
Definition passes (read : Read) : Prop :=
  err read = false /\ holdsDetachKey (bytes read) = false.

End AttachClient.

(* ===================================================================== *)
(** * Properties                                                           *)
(* ===================================================================== *)

(** ** The ID allocator *)

Module AllocatorProofs.
Import Daemon.

Section Allocator.
Implicit Types (taken : gmap string Instance) (ids : list string).

Lemma firstFree_lowest taken pre id post :
  Forall (fun x => is_Some (taken !! x)) pre ->
  taken !! id = None ->
  firstFree taken (pre ++ id :: post) = Some id.
Proof.
  induction 1 as [|x pre [v Hx] _ IH]; intros Hid; simpl.
  - by rewrite Hid.
  - rewrite Hx. by apply IH.
Qed.

Lemma firstFree_None taken ids :
  firstFree taken ids = None <-> Forall (fun x => is_Some (taken !! x)) ids.
Proof.
  induction ids as [|x ids IH]; simpl.
  - split; [constructor | done].
  - destruct (taken !! x) as [v|] eqn:Hx.
    + rewrite IH. split.
      * intros. constructor; [by exists v | done].
      * by inversion 1.
    + split; [done |]. inversion 1 as [|? ? [? Hs]]. congruence.
Qed.

Lemma firstFree_Some taken ids id :
  firstFree taken ids = Some id -> id ∈ ids /\ taken !! id = None.
Proof.
  induction ids as [|x ids IH]; simpl; [done |].
  destruct (taken !! x) eqn:Hx.
  - intros H. destruct (IH H). split; [by right | done].
  - intros [= <-]. split; [by left | done].
Qed.

Lemma firstFreePair_Some taken outer inner id :
  firstFreePair taken outer inner = Some id ->
  exists a b, a ∈ outer /\ b ∈ inner /\ id = a +:+ b /\ taken !! id = None.
Proof.
  induction outer as [|a outer IH]; simpl; [done |].
  destruct (firstFree taken (map (fun b => a +:+ b) inner)) as [x|] eqn:Hf.
  - intros [= <-]. apply firstFree_Some in Hf as [Hin Hfree].
    apply list_elem_of_fmap in Hin as (b & -> & Hb).
    exists a, b. repeat split; [by left | done | done].
  - intros H. destruct (IH H) as (a' & b & ? & ? & ? & ?).
    exists a', b. repeat split; [by right | done..].
Qed.

Lemma firstFreePair_None taken outer inner :
  (forall a b, a ∈ outer -> b ∈ inner -> is_Some (taken !! (a +:+ b))) ->
  firstFreePair taken outer inner = None.
Proof.
  induction outer as [|a outer IH]; intros H; simpl; [done |].
  replace (firstFree taken (map (fun b => a +:+ b) inner)) with (@None string).
  - apply IH. intros a' b Ha Hb. apply H; [by right | done].
  - symmetry. apply firstFree_None, Forall_forall.
    intros x Hx. apply list_elem_of_fmap in Hx as (b & -> & Hb).
    apply H; [by left | done].
Qed.

Lemma idAlphabet_NoDup : NoDup idAlphabet.
Proof. apply (bool_decide_unpack _). vm_compute. exact I. Qed.

Lemma idAlphabet_length : length idAlphabet = 35.
Proof. reflexivity. Qed.

Lemma idAlphabet_single id : id ∈ idAlphabet -> String.length id = 1.
Proof.
  intros H. apply list_elem_of_In in H. simpl in H.
  repeat (destruct H as [<- | H]; [reflexivity |]). destruct H.
Qed.

Lemma length_append (a b : string) :
  String.length (a +:+ b) = String.length a + String.length b.
Proof. induction a as [|c a IH]; simpl; [done | by rewrite IH]. Qed.

Lemma holdsFirst_next k taken id random root :
  holdsFirst k taken -> idAlphabet !! k = Some id ->
  nextInstanceID (mkDaemon root taken) random = id.
Proof.
  intros Hk Hid. unfold nextInstanceID. cbn [instances].
  rewrite <- (take_drop_middle _ _ _ Hid).
  rewrite firstFree_lowest; [done | |].
  - apply Forall_forall. intros x Hx. by apply Hk.
  - destruct (taken !! id) eqn:E; [| done].
    assert (Hin : id ∈ take k idAlphabet) by (apply Hk; eauto).
    apply list_elem_of_lookup in Hin as [j Hj].
    assert (j < k) by (apply lookup_lt_Some in Hj; rewrite length_take in Hj; lia).
    rewrite lookup_take_lt in Hj by done.
    pose proof (NoDup_lookup _ _ _ _ idAlphabet_NoDup Hj Hid). lia.
Qed.

Lemma holdsFirst_insert k taken id inst :
  holdsFirst k taken -> idAlphabet !! k = Some id ->
  holdsFirst (S k) (<[id := inst]> taken).
Proof.
  intros Hk Hid x. rewrite (take_S_r _ _ _ Hid), elem_of_app, list_elem_of_singleton.
  rewrite lookup_insert. case_decide; subst.
  - split; [by right | by eauto].
  - rewrite (Hk x). split; [by left | by intros [|]].
Qed.

Lemma allocations_from k taken root steps :
  holdsFirst k taken -> k + length steps <= 35 ->
  allocations (mkDaemon root taken) steps = take (length steps) (drop k idAlphabet).
Proof.
  revert k taken. induction steps as [|[random inst] steps IH]; intros k taken Hk Hlen.
  - done.
  - simpl in Hlen.
    destruct (idAlphabet !! k) as [id|] eqn:Hid.
    2:{ apply lookup_ge_None in Hid. rewrite idAlphabet_length in Hid. lia. }
    cbn [allocations length]. rewrite (holdsFirst_next k taken id) by done.
    rewrite (drop_S _ _ _ Hid). cbn [take rootDir instances]. f_equal.
    apply (IH (S k)); [by apply holdsFirst_insert | lia].
Qed.
End Allocator.

Section Allocator2.
Implicit Types (taken : gmap string Instance) (ids : list string).

Lemma firstFreePair_None_inv taken outer inner :
  firstFreePair taken outer inner = None ->
  forall a b, a ∈ outer -> b ∈ inner -> is_Some (taken !! (a +:+ b)).
Proof.
  induction outer as [|a0 outer IH]; simpl; intros H a b Ha Hb.
  - by apply elem_of_nil in Ha.
  - destruct (firstFree taken (map (fun b => a0 +:+ b) inner)) eqn:Hf; [done |].
    apply elem_of_cons in Ha as [-> | Ha]; [| by apply IH].
    apply firstFree_None in Hf. rewrite Forall_forall in Hf.
    apply Hf, list_elem_of_fmap. by exists b.
Qed.

Lemma EncodeToString_length b : String.length (EncodeToString b) = 2 * length b.
Proof. induction b as [|x b IH]; simpl; [done | rewrite IH; lia]. Qed.

Lemma allocations_app d steps1 steps2 :
  allocations d (steps1 ++ steps2)
  = allocations d steps1 ++ allocations (allocated d steps1) steps2.
Proof.
  revert d. induction steps1 as [|[random inst] steps1 IH]; intros d; simpl; [done |].
  by rewrite IH.
Qed.

Lemma allocations_length d steps : length (allocations d steps) = length steps.
Proof.
  revert d. induction steps as [|[random inst] steps IH]; intros d; simpl; [done |].
  by rewrite IH.
Qed.

Lemma allocated_holdsFirst k taken root steps :
  holdsFirst k taken -> k + length steps <= 35 ->
  holdsFirst (k + length steps) (instances (allocated (mkDaemon root taken) steps)).
Proof.
  revert k taken. induction steps as [|[random inst] steps IH]; intros k taken Hk Hlen.
  - simpl. by rewrite Nat.add_0_r.
  - simpl in Hlen.
    destruct (idAlphabet !! k) as [id|] eqn:Hid.
    2:{ apply lookup_ge_None in Hid. rewrite idAlphabet_length in Hid. lia. }
    cbn [allocated length]. rewrite (holdsFirst_next k taken id) by done.
    cbn [rootDir instances].
    replace (k + S (length steps)) with (S k + length steps) by lia.
    apply IH; [by apply holdsFirst_insert | lia].
Qed.

Lemma holdsFirst_empty : holdsFirst 0 (∅ : gmap string Instance).
Proof.
  intros id. rewrite lookup_empty. simpl. split.
  - by intros [? ?].
  - by intros ?%elem_of_nil.
Qed.
End Allocator2.

(** C4.  Starting from an empty registry, with every allocated ID
    registered before the next allocation: a run of at most 35
    allocations yields the alphabet ["1".."9","a".."z"] in order; the
    36th ID has length 2.  In any registry the allocator returns the
    lowest unused entry of the alphabet; when all entries are taken, an
    unused two-character product of the alphabet; and when those are all
    taken too, the hex encoding of the four random bytes (8 digits). *)
Theorem nextInstanceID_allocation :
  (forall root steps,
      length steps <= 35 ->
      allocations (mkDaemon root ∅) steps = take (length steps) idAlphabet)
  /\ (forall root steps,
      length steps = 36 ->
      exists id, allocations (mkDaemon root ∅) steps !! 35 = Some id
                 /\ String.length id = 2)
  /\ (forall d random pre id post,
      idAlphabet = pre ++ id :: post ->
      (forall x, x ∈ pre -> is_Some (instances d !! x)) ->
      instances d !! id = None ->
      nextInstanceID d random = id)
  /\ (forall d random,
      (forall x, x ∈ idAlphabet -> is_Some (instances d !! x)) ->
      (exists a b, a ∈ idAlphabet /\ b ∈ idAlphabet /\ instances d !! (a +:+ b) = None) ->
      exists a b, a ∈ idAlphabet /\ b ∈ idAlphabet
                  /\ nextInstanceID d random = a +:+ b
                  /\ instances d !! (a +:+ b) = None
                  /\ String.length (nextInstanceID d random) = 2)
  /\ (forall d b0 b1 b2 b3,
      (forall x, x ∈ idAlphabet -> is_Some (instances d !! x)) ->
      (forall a b, a ∈ idAlphabet -> b ∈ idAlphabet -> is_Some (instances d !! (a +:+ b))) ->
      nextInstanceID d (b0, b1, b2, b3) = EncodeToString [b0; b1; b2; b3]
      /\ String.length (nextInstanceID d (b0, b1, b2, b3)) = 8).
Proof.
  assert (Hpair : forall d random,
      (forall x, x ∈ idAlphabet -> is_Some (instances d !! x)) ->
      (exists a b, a ∈ idAlphabet /\ b ∈ idAlphabet /\ instances d !! (a +:+ b) = None) ->
      exists a b, a ∈ idAlphabet /\ b ∈ idAlphabet
                  /\ nextInstanceID d random = a +:+ b
                  /\ instances d !! (a +:+ b) = None
                  /\ String.length (nextInstanceID d random) = 2).
  { intros d random Hall (a0 & b0 & Ha0 & Hb0 & Hfree).
    unfold nextInstanceID.
    replace (firstFree (instances d) idAlphabet) with (@None string)
      by (symmetry; by apply firstFree_None, Forall_forall).
    destruct (firstFreePair (instances d) idAlphabet idAlphabet) as [id|] eqn:Hp.
    - apply firstFreePair_Some in Hp as (a & b & Ha & Hb & -> & Hnone).
      exists a, b. repeat split; try done.
      rewrite length_append, (idAlphabet_single a Ha), (idAlphabet_single b Hb). done.
    - pose proof (firstFreePair_None_inv _ _ _ Hp a0 b0 Ha0 Hb0) as [v Hv]. congruence. }
  split; [| split; [| split; [| split]]].
  - intros root steps Hlen.
    by rewrite (allocations_from 0 ∅ root steps holdsFirst_empty).
  - intros root steps Hlen.
    destruct (lookup_lt_is_Some_2 steps 35) as [[random inst] Hlast]; [lia |].
    rewrite <- (take_drop_middle _ _ _ Hlast).
    assert (Hlen35 : length (take 35 steps) = 35) by (rewrite length_take; lia).
    rewrite allocations_app. cbn [allocations].
    set (d35 := allocated _ _).
    exists (nextInstanceID d35 random). split.
    + rewrite lookup_app_r; rewrite allocations_length, Hlen35; [| done].
      by rewrite Nat.sub_diag.
    + assert (H35 : holdsFirst 35 (instances d35)).
      { pose proof (allocated_holdsFirst 0 ∅ root (take 35 steps) holdsFirst_empty) as H.
        rewrite Hlen35 in H. apply H. lia. }
      destruct (Hpair d35 random) as (a & b & _ & _ & _ & _ & Hl); [| | done].
      * intros x Hx. apply H35. by rewrite take_ge by (rewrite idAlphabet_length; lia).
      * exists "1", "1". split; [by left | split; [by left |]].
        destruct (instances d35 !! ("1" +:+ "1")) eqn:E; [| done].
        assert (Hin : "11" ∈ take 35 idAlphabet) by (apply H35; eauto).
        apply elem_of_take in Hin as (j & Hj & _).
        apply list_elem_of_lookup_2, idAlphabet_single in Hj. done.
  - intros d random pre id post Halpha Hpre Hid.
    unfold nextInstanceID. rewrite Halpha.
    rewrite firstFree_lowest; [done | by apply Forall_forall | done].
  - exact Hpair.
  - intros d b0 b1 b2 b3 Hall Hpairs.
    assert (nextInstanceID d (b0, b1, b2, b3) = EncodeToString [b0; b1; b2; b3]) as ->.
    { unfold nextInstanceID.
      replace (firstFree (instances d) idAlphabet) with (@None string)
        by (symmetry; by apply firstFree_None, Forall_forall).
      by rewrite firstFreePair_None. }
    split; [done | by rewrite EncodeToString_length].
Qed.

Lemma nextInstanceID_allocation_witness :
  allocations (mkDaemon Samples.root ∅)
    [(Samples.random, Samples.running "p"); (Samples.random, Samples.running "q");
     (Samples.random, Samples.running "r")]
  = ["1"; "2"; "3"]
  /\ nextInstanceID Samples.exhausted (x00, x01, xa2, xff) = "0001a2ff".
Proof.
  destruct nextInstanceID_allocation as (Hseq & _ & _ & _ & Hhex).
  split.
  - apply (Hseq Samples.root
             [(Samples.random, Samples.running "p"); (Samples.random, Samples.running "q");
              (Samples.random, Samples.running "r")]).
    simpl. lia.
  - assert (H1 : forallb (fun x => bool_decide (is_Some (instances Samples.exhausted !! x)))
                   idAlphabet = true).
    { vm_compute. reflexivity. }
    assert (H2 : forallb (fun a => forallb (fun b =>
                    bool_decide (is_Some (instances Samples.exhausted !! (a +:+ b))))
                   idAlphabet) idAlphabet = true).
    { vm_compute. reflexivity. }
    apply (Hhex Samples.exhausted x00 x01 xa2 xff).
    + intros x Hx. rewrite forallb_forall in H1.
      apply (bool_decide_eq_true_1 _), H1, list_elem_of_In, Hx.
    + intros a b Ha Hb. rewrite forallb_forall in H2.
      apply list_elem_of_In, H2 in Ha. rewrite forallb_forall in Ha.
      apply (bool_decide_eq_true_1 _), Ha, list_elem_of_In, Hb.
Defined.

End AllocatorProofs.

(** ** Reload of the persisted instances *)

Module ReloadProofs.
Import Daemon.
Import Proto(StateRunning, StateWaiting, StateAttached, StateChecking,
             StateExited, StateCrashed, StateKilled, StateFinished, IsTerminal).

Section Reload.
Variable unmarshal : string -> option Proto.InstanceInfo.t.
Variable now : GoTime.Time.


Lemma reloadedState_terminal s : IsTerminal s = true -> reloadedState s = s.
Proof.
  unfold IsTerminal, reloadedState. intros H.
  repeat (apply orb_prop in H as [H | H]); apply String.eqb_eq in H; by subst.
Qed.

(** What [reloadEntry] does with an entry it accepts. *)
Lemma reloadEntry_accepted d trace e data info :
  IsDir e = false -> Ext (Name e) = ".json" ->
  contents e = Some data -> unmarshal data = Some info ->
  exists inst trace',
    reloadEntry unmarshal now (d, trace) e
    = (mkDaemon (rootDir d) (<[Proto.InstanceInfo.ID info := inst]> (instances d)), trace')
    /\ state inst = reloadedState (Proto.InstanceInfo.State info)
    /\ endedAt inst =
         (if String.eqb (state inst) (Proto.InstanceInfo.State info)
          then if (0 <? Proto.InstanceInfo.EndedAt info)%Z
               then GoTime.Unix (Proto.InstanceInfo.EndedAt info) else GoTime.zero
          else now)
    /\ processDone inst = None.
Proof.
  intros Hdir Hext Hdata Hinfo. unfold reloadEntry.
  rewrite Hdir, Hext, Hdata, Hinfo. cbn [orb negb String.eqb Ascii.eqb Bool.eqb].
  eexists _, _. split; [reflexivity |]. cbn [state endedAt processDone].
  fold (reloadedState (Proto.InstanceInfo.State info)).
  split; [done |]. split; [| done].
  unfold reloadedState.
  destruct (String.eqb_spec (Proto.InstanceInfo.State info) StateRunning) as [-> | H1]; [done |].
  destruct (String.eqb_spec (Proto.InstanceInfo.State info) StateWaiting) as [-> | H2]; [done |].
  destruct (String.eqb_spec (Proto.InstanceInfo.State info) StateAttached) as [-> | H3]; [done |].
  cbn [orb]. by rewrite String.eqb_refl.
Qed.

(** An entry either leaves the daemon alone or registers one instance in a
    reloaded state. *)
Lemma reloadEntry_cases d trace e :
  (reloadEntry unmarshal now (d, trace) e).1 = d
  \/ exists info inst,
       (reloadEntry unmarshal now (d, trace) e).1
       = mkDaemon (rootDir d) (<[Proto.InstanceInfo.ID info := inst]> (instances d))
       /\ state inst = reloadedState (Proto.InstanceInfo.State info)
       /\ processDone inst = None.
Proof.
  unfold reloadEntry.
  destruct (IsDir e || negb (String.eqb (Ext (Name e)) ".json")); [by left |].
  destruct (contents e) as [data|]; [| by left].
  destruct (unmarshal data) as [info|]; [| by left].
  right. eexists info, _. split; [reflexivity |]. split; reflexivity.
Qed.




(** No reloaded instance has a child. *)
Lemma reload_fold_idle es d trace :
  (forall id inst, instances d !! id = Some inst -> processDone inst = None) ->
  forall id inst,
    instances (fold_left (reloadEntry unmarshal now) es (d, trace)).1 !! id = Some inst ->
    processDone inst = None.
Proof.
  revert d trace. induction es as [|e es IH]; intros d trace Hd; [done |].
  cbn [fold_left].
  destruct (reloadEntry unmarshal now (d, trace) e) as [d1 t1] eqn:E.
  apply IH.
  destruct (reloadEntry_cases d trace e) as [H | (info & inst & H & _ & Hp)];
    rewrite E in H; cbn [fst] in H; subst d1; [done |].
  intros id inst'. cbn [instances]. rewrite lookup_insert. case_decide; [| apply Hd].
  by intros [= <-].
Qed.

Lemma New_idle root entries id inst :
  instances (New unmarshal now root entries) !! id = Some inst -> processDone inst = None.
Proof.
  unfold New, loadPersistedInstances. destruct entries as [es|]; cbn [fst].
  - apply reload_fold_idle. intros id' inst'. cbn [instances]. by rewrite lookup_empty.
  - cbn [instances]. by rewrite lookup_empty.
Qed.

(** X2.  A lone record in state RUNNING, WAITING or ATTACHED comes back
    CRASHED, ended at the time of the reload; a record in a terminal
    state comes back in the state it was stored in. *)
Lemma reload_single root name data info :
  Ext name = ".json" -> unmarshal data = Some info ->
  exists inst,
    instances (New unmarshal now root (Some [mkDirEntry name false (Some data)]))
      !! Proto.InstanceInfo.ID info = Some inst
    /\ state inst = reloadedState (Proto.InstanceInfo.State info)
    /\ (Proto.InstanceInfo.State info = StateRunning
        \/ Proto.InstanceInfo.State info = StateWaiting
        \/ Proto.InstanceInfo.State info = StateAttached ->
        state inst = StateCrashed /\ endedAt inst = now)
    /\ (IsTerminal (Proto.InstanceInfo.State info) = true ->
        state inst = Proto.InstanceInfo.State info).
Proof.
  intros Hext Hinfo. unfold New, loadPersistedInstances. cbn [fold_left fst].
  destruct (reloadEntry_accepted (mkDaemon root ∅) [] (mkDirEntry name false (Some data))
              data info eq_refl Hext eq_refl Hinfo) as (inst & trace' & -> & Hst & Hend & _).
  exists inst. cbn [fst instances]. rewrite lookup_insert_eq.
  split; [done |]. split; [done |]. split.
  - intros Hlost. rewrite Hend, Hst.
    destruct Hlost as [-> | [-> | ->]]; by cbn.
  - intros Hterm. by rewrite Hst, reloadedState_terminal.
Qed.

End Reload.

Lemma reload_single_witness :
  exists inst,
    instances (New Samples.unmarshal Samples.restartTime Samples.root
                 (Some [mkDirEntry "2.json" false (Some Samples.runningFile)]))
      !! "2" = Some inst
    /\ state inst = StateCrashed /\ endedAt inst = Samples.restartTime.
Proof.
  destruct (reload_single Samples.unmarshal Samples.restartTime Samples.root
              "2.json" Samples.runningFile (Samples.record "2" StateRunning 0))
    as (inst & Hin & _ & Hlost & _); [reflexivity | reflexivity |].
  exists inst. split; [exact Hin |]. apply Hlost. by left.
Defined.

(** C2, at the input where the code departs from it: a persisted record in
    state CHECKING is registered by the reload in state CHECKING, with no
    ended-at and no child, and is not persisted again; the RUNNING record
    beside it comes back CRASHED, ended at the time of the reload, and the
    KILLED record as it was stored. *)
Theorem reload_leaves_CHECKING :
  let loaded :=
    loadPersistedInstances Samples.unmarshal Samples.restartTime
      (mkDaemon Samples.root ∅) (Some Samples.instancesDir) in
  let d := loaded.1.1 in
  (state <$> instances d !! "1") = Some Proto.StateChecking
  /\ (endedAt <$> instances d !! "1") = Some GoTime.zero
  /\ (processDone <$> instances d !! "1") = Some None
  /\ (state <$> instances d !! "2") = Some Proto.StateCrashed
  /\ (endedAt <$> instances d !! "2") = Some Samples.restartTime
  /\ (state <$> instances d !! "3") = Some Proto.StateKilled
  /\ (exists inst, loaded.1.2 = [PersistMeta (Join [Samples.root; "instances"]) inst]
                   /\ ID inst = "2" /\ state inst = Proto.StateCrashed)
  /\ size (instances d) = 3.
Proof.
  cbv zeta. repeat split; try (vm_compute; reflexivity).
  eexists. split; [vm_compute; reflexivity | split; reflexivity].
Qed.

End ReloadProofs.

(** ** Running handlers *)

Module HandlerProofs.
Import GoStrings GoTime Daemon.
Import Proto(StateRunning, StateWaiting, StateAttached, StateChecking,
             StateExited, StateCrashed, StateKilled, StateFinished, IsTerminal).

(** The monad's operations, unfolded for a run. *)
Lemma run_bind {A B : Type} (m : M A) (f : A -> M B) d c :
  (m ≫= f) d c
  = let r := m d c in
    let r' := f (valueOf r) (daemonOf r) (connOf r) in
    (valueOf r', daemonOf r', connOf r', traceOf r ++ traceOf r').
Proof.
  unfold mbind, M_bind, bind, valueOf, daemonOf, connOf, traceOf.
  destruct (m d c) as [[[a d1] c1] t1]. cbn.
  by destruct (f a d1 c1) as [[[b d2] c2] t2].
Qed.

Lemma daemonOf_bind {A B : Type} (m : M A) (f : A -> M B) d c :
  daemonOf ((m ≫= f) d c)
  = daemonOf (f (valueOf (m d c)) (daemonOf (m d c)) (connOf (m d c))).
Proof. by rewrite run_bind. Qed.

Lemma traceOf_bind {A B : Type} (m : M A) (f : A -> M B) d c :
  traceOf ((m ≫= f) d c)
  = traceOf (m d c) ++ traceOf (f (valueOf (m d c)) (daemonOf (m d c)) (connOf (m d c))).
Proof. by rewrite run_bind. Qed.

Lemma connOf_bind {A B : Type} (m : M A) (f : A -> M B) d c :
  connOf ((m ≫= f) d c)
  = connOf (f (valueOf (m d c)) (daemonOf (m d c)) (connOf (m d c))).
Proof. by rewrite run_bind. Qed.

Lemma valueOf_bind {A B : Type} (m : M A) (f : A -> M B) d c :
  valueOf ((m ≫= f) d c)
  = valueOf (f (valueOf (m d c)) (daemonOf (m d c)) (connOf (m d c))).
Proof. by rewrite run_bind. Qed.

Lemma daemonOf_mret {A : Type} (a : A) d c : daemonOf (@mret M _ A a d c) = d.
Proof. reflexivity. Qed.

Lemma traceOf_mret {A : Type} (a : A) d c : traceOf (@mret M _ A a d c) = [].
Proof. reflexivity. Qed.

Lemma connOf_mret {A : Type} (a : A) d c : connOf (@mret M _ A a d c) = c.
Proof. reflexivity. Qed.

Lemma valueOf_mret {A : Type} (a : A) d c : valueOf (@mret M _ A a d c) = a.
Proof. reflexivity. Qed.

Lemma daemonOf_emit e d c : daemonOf (emit e d c) = d.
Proof. reflexivity. Qed.

Lemma connOf_emit e d c : connOf (emit e d c) = c.
Proof. reflexivity. Qed.

Lemma traceOf_emit e d c : traceOf (emit e d c) = [e].
Proof. reflexivity. Qed.

(** [respond] and [conn.Write] leave the daemon alone and put one event
    on the trace. *)
Lemma daemonOf_connSend mk d c : daemonOf (connSend mk d c) = d.
Proof. unfold connSend. by destruct (writesLeft c). Qed.

Lemma traceOf_connSend mk d c :
  traceOf (connSend mk d c) = [mk (valueOf (connSend mk d c))].
Proof. unfold connSend. by destruct (writesLeft c). Qed.

Lemma daemonOf_respond r d c : daemonOf (respond r d c) = d.
Proof. unfold respond. rewrite daemonOf_bind. cbn. apply daemonOf_connSend. Qed.

Lemma traceOf_respond r d c :
  exists delivered, traceOf (respond r d c) = [Respond r delivered].
Proof.
  unfold respond. rewrite traceOf_bind, traceOf_connSend. cbn. eauto.
Qed.

Lemma setState_setState s1 s2 inst : setState s1 (setState s2 inst) = setState s1 inst.
Proof. by destruct inst. Qed.

Lemma state_setState s inst : state (setState s inst) = s.
Proof. by destruct inst. Qed.

Create Rewrite HintDb run.
#[local] Hint Rewrite @daemonOf_bind @daemonOf_mret daemonOf_emit daemonOf_connSend
  daemonOf_respond : run.

(** The resilient writer and the commands never touch the daemon. *)
Lemma daemonOf_Write rw p d c : daemonOf (Write rw p d c) = d.
Proof.
  unfold Write. destruct (log rw), (connOK rw); by autorewrite with run.
Qed.
#[local] Hint Rewrite daemonOf_Write : run.

Lemma daemonOf_writeAll chunks rw d c : daemonOf (writeAll rw chunks d c) = d.
Proof.
  revert rw d c. induction chunks as [|p chunks IH]; intros rw d c; [done |].
  cbn [writeAll]. by rewrite daemonOf_bind, IH, daemonOf_Write.
Qed.
#[local] Hint Rewrite daemonOf_writeAll : run.

Lemma daemonOf_execInContainer w k cid cmd rw d c :
  daemonOf (execInContainer w k cid cmd rw d c) = d.
Proof.
  unfold execInContainer. destruct (dockerExec w k cid cmd) as [chunks err].
  by autorewrite with run.
Qed.
#[local] Hint Rewrite daemonOf_execInContainer : run.

Lemma daemonOf_runCheck w cid cmds k rw d c :
  daemonOf (runCheck w cid cmds k rw d c) = d.
Proof.
  revert k rw d c. induction cmds as [|cmd cmds IH]; intros k rw d c; [done |].
  cbn [runCheck]. rewrite !daemonOf_bind, IH.
  destruct (valueOf (execInContainer _ _ _ _ _ _ _)).2; by autorewrite with run.
Qed.
#[local] Hint Rewrite daemonOf_runCheck : run.

Lemma daemonOf_runFinish w cid branch cmds k rw d c :
  daemonOf (runFinish w cid branch cmds k rw d c) = d.
Proof.
  revert k rw d c. induction cmds as [|cmd cmds IH]; intros k rw d c; [done |].
  cbn [runFinish]. rewrite !daemonOf_bind.
  destruct (valueOf (execInContainer _ _ _ _ _ _ _)).2.
  - by autorewrite with run.
  - rewrite IH. by autorewrite with run.
Qed.
#[local] Hint Rewrite daemonOf_runFinish : run.

(** While the check commands run, the daemon is as the handler left it. *)
Lemma daemonOf_checkBody w inst d c : daemonOf (checkBody w inst d c) = d.
Proof.
  unfold checkBody. rewrite daemonOf_bind. cbn [getRootDir valueOf daemonOf connOf fst snd].
  destruct (loadProject w (rootDir d) (Project inst)) as [err | p0].
  - apply daemonOf_respond.
  - destruct (Config.Check (loadInRepoConfig w p0)) as [|cmd cmds].
    + apply daemonOf_respond.
    + by autorewrite with run.
Qed.
#[local] Hint Rewrite daemonOf_checkBody : run.

(** The writer and the commands answer no request. *)
Lemma responses_app t1 t2 : responses (t1 ++ t2) = responses t1 ++ responses t2.
Proof. apply omap_app. Qed.

Lemma responses_Respond r delivered t :
  responses (Respond r delivered :: t) = r :: responses t.
Proof. reflexivity. Qed.

Lemma responses_Write rw p d c : responses (traceOf (Write rw p d c)) = [].
Proof.
  unfold Write. rewrite !traceOf_bind, !responses_app.
  destruct (connOK rw), (log rw); cbn; rewrite ?traceOf_bind, ?traceOf_connSend; done.
Qed.

Lemma responses_writeAll chunks rw d c : responses (traceOf (writeAll rw chunks d c)) = [].
Proof.
  revert rw d c. induction chunks as [|p chunks IH]; intros rw d c; [done |].
  cbn [writeAll]. by rewrite traceOf_bind, responses_app, IH, responses_Write.
Qed.

Lemma responses_execInContainer w k cid cmd rw d c :
  responses (traceOf (execInContainer w k cid cmd rw d c)) = [].
Proof.
  unfold execInContainer. destruct (dockerExec w k cid cmd) as [chunks err].
  rewrite !traceOf_bind, !responses_app, responses_writeAll. done.
Qed.

Lemma responses_runCheck w cid cmds k rw d c :
  responses (traceOf (runCheck w cid cmds k rw d c)) = [].
Proof.
  revert k rw d c. induction cmds as [|cmd cmds IH]; intros k rw d c; [done |].
  cbn [runCheck]. rewrite !traceOf_bind, !responses_app, IH, responses_Write,
    responses_execInContainer.
  destruct (valueOf (execInContainer _ _ _ _ _ _ _)).2; by rewrite ?responses_Write.
Qed.

Lemma responses_runFinish w cid branch cmds k rw d c :
  responses (traceOf (runFinish w cid branch cmds k rw d c)) = [].
Proof.
  revert k rw d c. induction cmds as [|cmd cmds IH]; intros k rw d c; [done |].
  cbn [runFinish]. rewrite !traceOf_bind, !responses_app, responses_Write,
    responses_execInContainer.
  destruct (valueOf (execInContainer _ _ _ _ _ _ _)).2.
  - by rewrite traceOf_bind, responses_app, responses_Write.
  - by rewrite IH.
Qed.

Lemma alter_known {A : Type} (f : A -> A) (m : gmap string A) id x :
  m !! id = Some x -> alter f id m = <[id := f x]> m.
Proof.
  intros H. apply map_eq. intros k. destruct (decide (k = id)) as [-> | Hne].
  - by rewrite lookup_alter_eq, lookup_insert_eq, H.
  - by rewrite lookup_alter_ne, lookup_insert_ne.
Qed.

Lemma alter_twice {A : Type} (f g : A -> A) (m : gmap string A) id :
  alter f id (alter g id m) = alter (fun x => f (g x)) id m.
Proof.
  apply map_eq. intros k. destruct (decide (k = id)) as [-> | Hne].
  - rewrite !lookup_alter_eq. by destruct (m !! id).
  - by rewrite !lookup_alter_ne.
Qed.

(** ** CHECK *)

Section Check.
Variable w : World.
Variable req : Proto.Request.t.
Variables (d : Daemon) (c : Conn) (inst : Instance).
Let id := Proto.Request.InstanceID req.
Hypothesis registered : instances d !! id = Some inst.

(** The guard of [handleCheck] on the state of the instance. *)
Let guard : bool := IsTerminal (state inst) || String.eqb (state inst) StateChecking.

Lemma handleCheck_refused :
  guard = true ->
  handleCheck w req d c
  = respond (Proto.Response.error ("cannot check: instance is " +:+ state inst)) d c.
Proof.
  intros Hg. unfold handleCheck. fold id. rewrite run_bind.
  cbn [getInstance valueOf daemonOf connOf traceOf fst snd]. rewrite registered.
  fold guard. rewrite Hg. cbn [app].
  by destruct (respond _ d c) as [[[? ?] ?] ?].
Qed.

Lemma handleCheck_passed :
  guard = false ->
  handleCheck w req d c
  = (update id (setState StateChecking) ≫= fun _ =>
     checkBody w inst ≫= fun _ => update id checkDone) d c.
Proof.
  intros Hg. unfold handleCheck. fold id. rewrite run_bind.
  cbn [getInstance valueOf daemonOf connOf traceOf fst snd]. rewrite registered.
  fold guard. rewrite Hg. cbn [app].
  by destruct ((update id (setState StateChecking) ≫= _) d c) as [[[? ?] ?] ?].
Qed.

Lemma handleCheck_passed_daemon :
  guard = false ->
  daemonOf (handleCheck w req d c)
  = mkDaemon (rootDir d) (<[id := setState StateWaiting inst]> (instances d)).
Proof.
  intros Hg. rewrite handleCheck_passed by done. autorewrite with run.
  cbn [update daemonOf valueOf connOf fst snd rootDir instances]. f_equal.
  apply map_eq. intros k. destruct (decide (k = id)) as [-> | Hne].
  - rewrite !lookup_alter_eq, lookup_insert_eq, registered. cbn [fmap option_fmap option_map].
    by destruct inst.
  - by rewrite !lookup_alter_ne, lookup_insert_ne.
Qed.

Lemma handleCheck_passed_trace :
  guard = false ->
  traceOf (handleCheck w req d c)
  = traceOf (checkBody w inst
       (mkDaemon (rootDir d) (alter (setState StateChecking) id (instances d))) c).
Proof.
  intros Hg. rewrite handleCheck_passed by done. rewrite !traceOf_bind.
  cbn [update daemonOf valueOf connOf traceOf fst snd app]. by rewrite app_nil_r.
Qed.

End Check.

(** What [checkBody] answers, by what it finds. *)
Lemma checkBody_trace w inst d c :
  match loadProject w (rootDir d) (Project inst) with
  | inl err =>
      exists delivered,
        traceOf (checkBody w inst d c) = [Respond (Proto.Response.error err) delivered]
  | inr p0 =>
      match Config.Check (loadInRepoConfig w p0) with
      | [] =>
          exists delivered,
            traceOf (checkBody w inst d c)
            = [Respond (Proto.Response.error "no check commands defined in grove.yaml")
                 delivered]
      | _ :: _ =>
          exists delivered rest,
            traceOf (checkBody w inst d c) = Respond Proto.Response.ok delivered :: rest
            /\ responses rest = []
      end
  end.
Proof.
  unfold checkBody. rewrite traceOf_bind.
  cbn [getRootDir valueOf daemonOf connOf traceOf fst snd app].
  destruct (loadProject w (rootDir d) (Project inst)) as [err | p0].
  - apply traceOf_respond.
  - destruct (Config.Check (loadInRepoConfig w p0)) as [|cmd cmds].
    + apply traceOf_respond.
    + rewrite traceOf_bind.
      destruct (traceOf_respond Proto.Response.ok d c) as [delivered ->].
      eexists delivered, _. split; [reflexivity |]. apply responses_runCheck.
Qed.

Lemma guard_false st :
  IsTerminal st || String.eqb st StateChecking = false
  <-> IsTerminal st = false /\ st <> StateChecking.
Proof.
  rewrite orb_false_iff. split; intros [H1 H2]; (split; [done |]).
  - by apply String.eqb_neq.
  - by apply String.eqb_neq.
Qed.

Lemma guard_true st :
  IsTerminal st || String.eqb st StateChecking = true
  <-> IsTerminal st = true \/ st = StateChecking.
Proof. by rewrite orb_true_iff, String.eqb_eq. Qed.

(** C10.  A CHECK that passes the state guard and then fails before any
    command runs -- the project does not load, or it has no check
    commands -- answers with an error and leaves the instance in state
    WAITING: the state it had before (RUNNING or ATTACHED, say) is not
    put back. *)
Theorem handleCheck_failure_leaves_WAITING w req d c inst :
  instances d !! Proto.Request.InstanceID req = Some inst ->
  IsTerminal (state inst) = false -> state inst <> StateChecking ->
  (exists err, loadProject w (rootDir d) (Project inst) = inl err)
  \/ (exists p, loadProject w (rootDir d) (Project inst) = inr p
                /\ Config.Check (loadInRepoConfig w p) = []) ->
  let r := handleCheck w req d c in
  (exists msg delivered, traceOf r = [Respond (Proto.Response.error msg) delivered])
  /\ commandsRun (traceOf r) = []
  /\ instances (daemonOf r) !! Proto.Request.InstanceID req
     = Some (setState StateWaiting inst)
  /\ (state inst <> StateWaiting ->
      (state <$> instances (daemonOf r) !! Proto.Request.InstanceID req)
      <> Some (state inst)).
Proof.
  intros Hreg Hterm Hchk Hfail r.
  assert (Hg : IsTerminal (state inst) || String.eqb (state inst) StateChecking = false)
    by (by apply guard_false).
  assert (Htrace : exists msg delivered,
             traceOf r = [Respond (Proto.Response.error msg) delivered]).
  { subst r. rewrite (handleCheck_passed_trace w req d c inst Hreg Hg).
    pose proof (checkBody_trace w inst
      (mkDaemon (rootDir d)
         (alter (setState StateChecking) (Proto.Request.InstanceID req) (instances d))) c)
      as H.
    cbn [rootDir] in H.
    destruct Hfail as [[err Herr] | (p & Hp & Hnone)].
    - rewrite Herr in H. destruct H as [delivered H]. eauto.
    - rewrite Hp, Hnone in H. destruct H as [delivered H]. eauto. }
  assert (Hd : instances (daemonOf r) !! Proto.Request.InstanceID req
               = Some (setState StateWaiting inst)).
  { subst r. rewrite (handleCheck_passed_daemon w req d c inst Hreg Hg).
    cbn [instances]. apply lookup_insert_eq. }
  split; [done |]. split.
  - destruct Htrace as (msg & delivered & ->). done.
  - split; [done |]. intros Hne. rewrite Hd. cbn [fmap option_fmap option_map].
    rewrite state_setState. congruence.
Qed.

Lemma handleCheck_failure_leaves_WAITING_witness :
  let inst := attached (Samples.running "1") in
  let r := handleCheck (Samples.world (inr (Samples.project [] [])) (fun _ => ([], None)))
             (Samples.request "1") (Samples.daemonWith inst) Samples.client in
  state inst = StateAttached
  /\ instances (daemonOf r) !! "1" = Some (setState StateWaiting inst)
  /\ (state <$> instances (daemonOf r) !! "1") <> Some StateAttached.
Proof.
  intros inst r.
  destruct (handleCheck_failure_leaves_WAITING
              (Samples.world (inr (Samples.project [] [])) (fun _ => ([], None)))
              (Samples.request "1") (Samples.daemonWith inst) Samples.client inst)
    as (_ & _ & Hstate & Hchanged).
  - apply lookup_insert_eq.
  - reflexivity.
  - discriminate.
  - right. eexists. split; reflexivity.
  - split; [reflexivity |]. split; [exact Hstate |]. apply Hchanged. discriminate.
Defined.

(** [handleCheck] is [handleCheckAmid] with nothing else going on. *)
Lemma handleCheckAmid_alone w req d c :
  handleCheckAmid w (fun d1 => d1) req d c = handleCheck w req d c.
Proof.
  unfold handleCheckAmid, handleCheck. unfold mbind, M_bind, bind.
  cbn [getInstance].
  destruct (instances d !! Proto.Request.InstanceID req) as [inst|]; [| done].
  destruct (IsTerminal (state inst) || String.eqb (state inst) StateChecking); [done |].
  cbn [update].
  destruct (checkBody w inst _ c) as [[[[] d1] c1] t1]. cbn [app]. done.
Qed.

Section CheckAmid.
Variable w : World.
Variable others : Daemon -> Daemon.
Variable req : Proto.Request.t.
Variables (d : Daemon) (c : Conn) (inst : Instance).
Let id := Proto.Request.InstanceID req.
Hypothesis registered : instances d !! id = Some inst.

Let guard : bool := IsTerminal (state inst) || String.eqb (state inst) StateChecking.

Lemma handleCheckAmid_refused :
  guard = true ->
  handleCheckAmid w others req d c
  = respond (Proto.Response.error ("cannot check: instance is " +:+ state inst)) d c.
Proof.
  intros Hg. unfold handleCheckAmid. fold id. rewrite run_bind.
  cbn [getInstance valueOf daemonOf connOf traceOf fst snd]. rewrite registered.
  fold guard. rewrite Hg. cbn [app].
  by destruct (respond _ d c) as [[[? ?] ?] ?].
Qed.

(** Past the guard: the instance is CHECKING when the lock is released,
    the body runs, and the deferred function meets the registry as the
    others have left it. *)
Lemma handleCheckAmid_passed :
  guard = false ->
  let checking :=
    mkDaemon (rootDir d) (<[id := setState StateChecking inst]> (instances d)) in
  traceOf (handleCheckAmid w others req d c) = traceOf (checkBody w inst checking c)
  /\ daemonOf (handleCheckAmid w others req d c)
     = mkDaemon (rootDir (others checking))
         (alter checkDone id (instances (others checking))).
Proof.
  intros Hg checking. unfold handleCheckAmid. fold id. unfold mbind, M_bind, bind.
  cbn [getInstance]. rewrite registered. fold guard. rewrite Hg.
  cbn [update rootDir instances]. rewrite (alter_known _ _ _ _ registered).
  fold checking.
  pose proof (daemonOf_checkBody w inst checking c) as Hbody.
  destruct (checkBody w inst checking c) as [[[[] d1] c1] t1].
  cbn [daemonOf fst snd] in Hbody. subst d1.
  cbn [traceOf daemonOf fst snd app]. by rewrite !app_nil_r.
Qed.

End CheckAmid.

(** The claim C5 as stated fails twice.  A RUNNING instance whose
    project has no check commands is answered with an error, though its
    state is neither terminal nor CHECKING.  And an accepted check whose
    agent exits while the commands run does not come back to WAITING:
    the deferred function finds the state the exit observer has set and
    leaves it. *)
Lemma handleCheck_claim_fails :
  ~ (forall w req d c inst,
        instances d !! Proto.Request.InstanceID req = Some inst ->
        (rejected (traceOf (handleCheck w req d c))
         <-> IsTerminal (state inst) = true \/ state inst = StateChecking))
  /\ ~ (forall w others req d c inst,
          instances d !! Proto.Request.InstanceID req = Some inst ->
          IsTerminal (state inst) = false -> state inst <> StateChecking ->
          (state <$> instances (daemonOf (handleCheckAmid w others req d c))
                       !! Proto.Request.InstanceID req)
          = Some StateWaiting).
Proof.
  split.
  - intros H.
    specialize (H (Samples.world (inr (Samples.project [] [])) (fun _ => ([], None)))
                  (Samples.request "1") (Samples.daemonWith (Samples.running "1"))
                  Samples.client (Samples.running "1") (lookup_insert_eq _ _ _)).
    destruct H as [H _].
    assert (Hrej : rejected (traceOf (handleCheck
              (Samples.world (inr (Samples.project [] [])) (fun _ => ([], None)))
              (Samples.request "1") (Samples.daemonWith (Samples.running "1"))
              Samples.client))).
    { exists (Proto.Response.error "no check commands defined in grove.yaml"), true.
      split; [| reflexivity]. vm_compute. by left. }
    destruct (H Hrej) as [Ht | Hc]; discriminate.
  - intros H.
    pose (w := Samples.world (inr (Samples.project ["go test ./..."] []))
                 (fun _ => (["ok"], None))).
    specialize (H w (fun d1 => daemonOf (childExited w "1" d1 Samples.client))
                  (Samples.request "1") (Samples.daemonWith (Samples.running "1"))
                  Samples.client (Samples.running "1") (lookup_insert_eq _ _ _)
                  eq_refl).
    assert (Hne : state (Samples.running "1") <> StateChecking) by discriminate.
    specialize (H Hne). vm_compute in H. discriminate H.
Qed.

(** C5, amended.  For an existing instance the state guard of CHECK
    answers "cannot check: instance is <state>" and changes nothing when
    the state is terminal or CHECKING.  Otherwise the instance is moved
    to CHECKING and the request is answered once: OK exactly when the
    project loads and has a check command, and with an error otherwise.
    When the handler returns its deferred function meets the registry as
    the rest of the daemon has left it meanwhile, and puts the instance
    back to WAITING only if its state is still CHECKING; any other state
    is kept.  With nothing else going on the instance ends WAITING. *)
Theorem handleCheck_guard w others req d c inst :
  instances d !! Proto.Request.InstanceID req = Some inst ->
  let id := Proto.Request.InstanceID req in
  let r := handleCheckAmid w others req d c in
  let checking :=
    mkDaemon (rootDir d) (<[id := setState StateChecking inst]> (instances d)) in
  (IsTerminal (state inst) = true \/ state inst = StateChecking ->
     (exists delivered,
         traceOf r = [Respond (Proto.Response.error
                                 ("cannot check: instance is " +:+ state inst)) delivered])
     /\ daemonOf r = d)
  /\ (IsTerminal (state inst) = false /\ state inst <> StateChecking ->
      (exists resp, responses (traceOf r) = [resp])
      /\ (responses (traceOf r) = [Proto.Response.ok]
          <-> exists p, loadProject w (rootDir d) (Project inst) = inr p
                        /\ Config.Check (loadInRepoConfig w p) <> [])
      /\ rootDir (daemonOf r) = rootDir (others checking)
      /\ (forall other, other <> id ->
            instances (daemonOf r) !! other = instances (others checking) !! other)
      /\ (forall cur, instances (others checking) !! id = Some cur ->
            instances (daemonOf r) !! id
            = Some (if String.eqb (state cur) StateChecking
                    then setState StateWaiting cur else cur))
      /\ (others checking = checking ->
          instances (daemonOf r) !! id = Some (setState StateWaiting inst))).
Proof.
  intros Hreg id r checking. change (instances d !! id = Some inst) in Hreg. split.
  - intros Hg%guard_true. subst r.
    rewrite (handleCheckAmid_refused w others req d c inst Hreg Hg).
    split; [apply traceOf_respond | apply daemonOf_respond].
  - intros Hg%guard_false.
    destruct (handleCheckAmid_passed w others req d c inst Hreg Hg) as [Ht Hd].
    fold id checking in Ht, Hd. fold r in Ht, Hd.
    assert (Hcur : forall cur, instances (others checking) !! id = Some cur ->
               instances (daemonOf r) !! id
               = Some (if String.eqb (state cur) StateChecking
                       then setState StateWaiting cur else cur)).
    { intros cur Hcur. rewrite Hd. cbn [instances].
      by rewrite lookup_alter_eq, Hcur. }
    assert (Hresp : (exists resp, responses (traceOf r) = [resp])
              /\ (responses (traceOf r) = [Proto.Response.ok]
                  <-> exists p, loadProject w (rootDir d) (Project inst) = inr p
                                /\ Config.Check (loadInRepoConfig w p) <> [])).
    { rewrite Ht. pose proof (checkBody_trace w inst checking c) as H.
      cbn [rootDir checking] in H.
      destruct (loadProject w (rootDir d) (Project inst)) as [err | p0].
      + destruct H as [delivered ->]. split; [by eexists |].
        split; [discriminate | by intros (p & [=] & _)].
      + destruct (Config.Check (loadInRepoConfig w p0)) as [|cmd cmds] eqn:Hc.
        * destruct H as [delivered ->]. split; [by eexists |].
          split; [discriminate |]. intros (p & [= <-] & Hne). by rewrite Hc in Hne.
        * destruct H as (delivered & rest & -> & Hrest). rewrite responses_Respond, Hrest.
          split; [by eexists |]. split; [| done].
          intros _. exists p0. by rewrite Hc. }
    destruct Hresp as [Hone Hok].
    split; [exact Hone |]. split; [exact Hok |].
    split; [by rewrite Hd |].
    split. { intros other Hother. rewrite Hd. cbn [instances]. by rewrite lookup_alter_ne. }
    split; [exact Hcur |].
    intros Halone. rewrite (Hcur (setState StateChecking inst)).
    + cbn [state setState]. by rewrite String.eqb_refl, setState_setState.
    + rewrite Halone. apply lookup_insert_eq.
Qed.

Lemma handleCheck_guard_witness :
  let w := Samples.world (inr (Samples.project ["go test ./..."] []))
             (fun _ => (["ok"], None)) in
  let r := handleCheckAmid w (fun d1 => d1) (Samples.request "1")
             (Samples.daemonWith (Samples.running "1")) Samples.client in
  instances (daemonOf r) !! "1" = Some (setState StateWaiting (Samples.running "1"))
  /\ responses (traceOf r) = [Proto.Response.ok].
Proof.
  intros w r.
  destruct (handleCheck_guard w (fun d1 => d1) (Samples.request "1")
              (Samples.daemonWith (Samples.running "1")) Samples.client
              (Samples.running "1") (lookup_insert_eq _ _ _)) as [_ Hpass].
  destruct Hpass as (_ & Hok & _ & _ & _ & Hstate).
  - split; [reflexivity | discriminate].
  - split; [by apply Hstate |]. apply Hok. eexists. split; [reflexivity | discriminate].
Defined.

(** ** FINISH *)

Lemma commandsRun_app t1 t2 : commandsRun (t1 ++ t2) = commandsRun t1 ++ commandsRun t2.
Proof. apply omap_app. Qed.

Lemma logWrites_app t1 t2 : logWrites (t1 ++ t2) = logWrites t1 ++ logWrites t2.
Proof. apply omap_app. Qed.

(** One [Write]: the log, when there is one, gets the bytes whatever the
    connection does, and stays open. *)
Lemma log_Write rw p d c : log (valueOf (Write rw p d c)) = log rw.
Proof.
  unfold Write. rewrite !valueOf_bind. cbn [mret M_ret ret valueOf fst].
  destruct (connOK rw); [| done]. rewrite valueOf_bind. cbn [mret M_ret ret valueOf fst].
  by destruct (valueOf (connSend _ d c)).
Qed.

Lemma logWrites_Write rw p d c :
  logWrites (traceOf (Write rw p d c))
  = match log rw with Some _ => [p] | None => [] end.
Proof.
  unfold Write. rewrite !traceOf_bind, !logWrites_app.
  destruct (connOK rw), (log rw); cbn [mret M_ret ret traceOf snd emit];
    rewrite ?traceOf_bind, ?traceOf_connSend; done.
Qed.

Lemma commandsRun_Write rw p d c : commandsRun (traceOf (Write rw p d c)) = [].
Proof.
  unfold Write. rewrite !traceOf_bind, !commandsRun_app.
  destruct (connOK rw), (log rw); cbn [mret M_ret ret traceOf snd emit];
    rewrite ?traceOf_bind, ?traceOf_connSend; done.
Qed.

Lemma log_writeAll chunks rw d c : log (valueOf (writeAll rw chunks d c)) = log rw.
Proof.
  revert rw d c. induction chunks as [|p chunks IH]; intros rw d c; [done |].
  cbn [writeAll]. by rewrite valueOf_bind, IH, log_Write.
Qed.

Lemma logWrites_writeAll chunks rw d c path :
  log rw = Some path -> logWrites (traceOf (writeAll rw chunks d c)) = chunks.
Proof.
  revert rw d c. induction chunks as [|p chunks IH]; intros rw d c Hlog; [done |].
  cbn [writeAll]. rewrite traceOf_bind, logWrites_app, logWrites_Write, Hlog.
  rewrite IH; [done | by rewrite log_Write].
Qed.

Lemma commandsRun_writeAll chunks rw d c :
  commandsRun (traceOf (writeAll rw chunks d c)) = [].
Proof.
  revert rw d c. induction chunks as [|p chunks IH]; intros rw d c; [done |].
  cbn [writeAll]. by rewrite traceOf_bind, commandsRun_app, IH, commandsRun_Write.
Qed.

(** One command in the container. *)
Lemma execInContainer_result w k cid cmd rw d c :
  (valueOf (execInContainer w k cid cmd rw d c)).2
  = match (dockerExec w k cid cmd).2 with
    | Some e => Some ("exec in container " +:+ cid +:+ ": " +:+ e)
    | None => None
    end
  /\ log (valueOf (execInContainer w k cid cmd rw d c)).1 = log rw
  /\ commandsRun (traceOf (execInContainer w k cid cmd rw d c)) = [dockerArgv cid cmd]
  /\ (forall path, log rw = Some path ->
       logWrites (traceOf (execInContainer w k cid cmd rw d c))
       = (dockerExec w k cid cmd).1).
Proof.
  unfold execInContainer. destruct (dockerExec w k cid cmd) as [chunks err].
  rewrite !valueOf_bind, !traceOf_bind, !commandsRun_app.
  cbn [emit valueOf daemonOf connOf traceOf fst snd mret M_ret ret].
  rewrite commandsRun_writeAll, log_writeAll. repeat split.
  intros path Hlog. rewrite !logWrites_app. cbn [logWrites omap app].
  rewrite (logWrites_writeAll _ _ _ _ path Hlog). by rewrite app_nil_r.
Qed.

(** The commands a finish run starts. *)
Lemma commandsRun_runFinish w cid branch cmds k rw d c :
  commandsRun (traceOf (runFinish w cid branch cmds k rw d c))
  = map (dockerArgv cid) (started w cid branch cmds k).
Proof.
  revert k rw d c. induction cmds as [|cmd cmds IH]; intros k rw d c; [done |].
  cbn [runFinish started]. rewrite !traceOf_bind, !commandsRun_app, commandsRun_Write.
  fold (expand branch cmd).
  match goal with |- context [execInContainer w k cid ?x ?rw1 ?d1 ?c1] =>
    destruct (execInContainer_result w k cid x rw1 d1 c1) as (Hres & _ & Hrun & _) end.
  rewrite Hrun, Hres. cbn [app map].
  destruct (dockerExec w k cid (expand branch cmd)).2 as [e|].
  - by rewrite traceOf_bind, commandsRun_app, commandsRun_Write.
  - by rewrite IH.
Qed.

Lemma started_all w cid branch cmds k :
  (forall i x, cmds !! i = Some x -> succeeds w cid (k + i) (expand branch x)) ->
  started w cid branch cmds k = map (expand branch) cmds.
Proof.
  revert k. induction cmds as [|cmd cmds IH]; intros k Hall; [done |].
  cbn [started map]. pose proof (Hall 0 cmd eq_refl) as H0.
  unfold succeeds in H0. rewrite Nat.add_0_r in H0. rewrite H0. f_equal.
  apply IH. intros i x Hx. replace (S k + i) with (k + S i) by lia. by apply Hall.
Qed.

Lemma started_until w cid branch pre x post e k :
  (forall i y, pre !! i = Some y -> succeeds w cid (k + i) (expand branch y)) ->
  (dockerExec w (k + length pre) cid (expand branch x)).2 = Some e ->
  started w cid branch (pre ++ x :: post) k = map (expand branch) (pre ++ [x]).
Proof.
  revert k. induction pre as [|cmd pre IH]; intros k Hpre Hx.
  - cbn [app started map length] in *. rewrite Nat.add_0_r in Hx. by rewrite Hx.
  - cbn [app started map]. pose proof (Hpre 0 cmd eq_refl) as H0.
    unfold succeeds in H0. rewrite Nat.add_0_r in H0. rewrite H0. f_equal.
    apply IH.
    + intros i y Hy. replace (S k + i) with (k + S i) by lia. by apply Hpre.
    + by replace (S k + length pre) with (k + length (cmd :: pre)) by (cbn; lia).
Qed.

(** What a finish run leaves in the log. *)
Lemma logWrites_runFinish_all w cid branch cmds k rw d c path :
  log rw = Some path ->
  (forall i x, cmds !! i = Some x -> succeeds w cid (k + i) (expand branch x)) ->
  logWrites (traceOf (runFinish w cid branch cmds k rw d c))
  = concat (imap (fun i x => shown w cid (k + i) (expand branch x)) cmds).
Proof.
  revert k rw d c. induction cmds as [|cmd cmds IH]; intros k rw d c Hlog Hall; [done |].
  cbn [runFinish imap concat]. rewrite !traceOf_bind, !logWrites_app, logWrites_Write, Hlog.
  fold (expand branch cmd).
  match goal with |- context [execInContainer w k cid ?x ?rw1 ?d1 ?c1] =>
    destruct (execInContainer_result w k cid x rw1 d1 c1) as (Hres & Hl & _ & Hout) end.
  rewrite log_Write in Hl. rewrite (Hout path) by (by rewrite log_Write). rewrite Hres.
  pose proof (Hall 0 cmd eq_refl) as H0. unfold succeeds in H0.
  rewrite Nat.add_0_r in H0 |- *. rewrite H0.
  rewrite (IH (S k)); [| by rewrite Hl |].
  - unfold shown at 2. cbn [app]. do 3 f_equal.
    apply imap_ext. intros i x _. unfold compose. f_equal. lia.
  - intros i x Hx. replace (S k + i) with (k + S i) by lia. by apply Hall.
Qed.

Lemma logWrites_runFinish_until w cid branch pre x post e k rw d c path :
  log rw = Some path ->
  (forall i y, pre !! i = Some y -> succeeds w cid (k + i) (expand branch y)) ->
  (dockerExec w (k + length pre) cid (expand branch x)).2 = Some e ->
  logWrites (traceOf (runFinish w cid branch (pre ++ x :: post) k rw d c))
  = concat (imap (fun i y => shown w cid (k + i) (expand branch y)) pre)
    ++ shown w cid (k + length pre) (expand branch x) ++ [failureLine cid e].
Proof.
  revert k rw d c. induction pre as [|cmd pre IH]; intros k rw d c Hlog Hpre Hx.
  - cbn [app runFinish imap concat length]. rewrite Nat.add_0_r in Hx |- *.
    rewrite !traceOf_bind, !logWrites_app, logWrites_Write, Hlog.
    fold (expand branch x).
    match goal with |- context [execInContainer w k cid ?y ?rw1 ?d1 ?c1] =>
      destruct (execInContainer_result w k cid y rw1 d1 c1) as (Hres & Hl & _ & Hout) end.
    rewrite log_Write in Hl. rewrite (Hout path) by (by rewrite log_Write).
    rewrite Hres, Hx. rewrite traceOf_bind, logWrites_app, logWrites_Write, Hl, Hlog.
    rewrite traceOf_mret. cbn [logWrites omap]. by rewrite app_nil_r.
  - cbn [app runFinish imap concat length].
    rewrite !traceOf_bind, !logWrites_app, logWrites_Write, Hlog.
    fold (expand branch cmd).
    match goal with |- context [execInContainer w k cid ?y ?rw1 ?d1 ?c1] =>
      destruct (execInContainer_result w k cid y rw1 d1 c1) as (Hres & Hl & _ & Hout) end.
    rewrite log_Write in Hl. rewrite (Hout path) by (by rewrite log_Write). rewrite Hres.
    pose proof (Hpre 0 cmd eq_refl) as H0. unfold succeeds in H0.
    rewrite Nat.add_0_r in H0 |- *. rewrite H0.
    rewrite (IH (S k)); [| by rewrite Hl | |].
    + unfold shown at 3. cbn [app]. rewrite <- !app_assoc. f_equal. f_equal.
      replace (k + S (length pre)) with (S k + length pre) by lia.
      do 2 f_equal. apply imap_ext. intros i y _. unfold compose. f_equal. lia.
    + intros i y Hy. replace (S k + i) with (k + S i) by lia. by apply Hpre.
    + by replace (S k + length pre) with (k + S (length pre)) by lia.
Qed.

(** [finishTail]: the state is persisted, the request answered, and only
    then is the project loaded and are the commands run. *)
Lemma daemonOf_persistMeta id dir d c : daemonOf (persistMeta id dir d c) = d.
Proof.
  unfold persistMeta. rewrite daemonOf_bind. cbn [getInstance valueOf daemonOf connOf fst snd].
  by destruct (instances d !! id).
Qed.
#[local] Hint Rewrite daemonOf_persistMeta : run.

Lemma daemonOf_finishTail w id inst d c : daemonOf (finishTail w id inst d c) = d.
Proof.
  unfold finishTail. autorewrite with run. cbn [getRootDir valueOf daemonOf connOf fst snd].
  destruct (loadProject w (rootDir d) (Project inst)) as [err | p0].
  - by autorewrite with run.
  - destruct (Config.Finish (loadInRepoConfig w p0)); by autorewrite with run.
Qed.

Lemma traceOf_finishTail w id inst cur d c :
  instances d !! id = Some cur ->
  exists delivered rest,
    traceOf (finishTail w id inst d c)
    = PersistMeta (Join [rootDir d; "instances"]) cur
      :: Respond (Proto.Response.finished (WorktreeDir inst) (Branch inst)) delivered
      :: rest
    /\ responses rest = []
    /\ match loadProject w (rootDir d) (Project inst) with
       | inl err => commandsRun rest = [] /\ logWrites rest = []
       | inr p0 =>
           exists c',
             rest = traceOf
                      (runFinish w (ContainerID inst) (Branch inst)
                         (Config.Finish (loadInRepoConfig w p0)) 0
                         (newResilientWriter
                            (if openLog w (LogFile inst) then Some (LogFile inst)
                             else None)) d c')
       end.
Proof.
  intros Hcur. unfold finishTail. rewrite !traceOf_bind.
  cbn [getRootDir valueOf daemonOf connOf traceOf fst snd app].
  unfold persistMeta at 1. rewrite traceOf_bind.
  cbn [getInstance valueOf daemonOf connOf traceOf fst snd app]. rewrite Hcur.
  cbn [emit traceOf snd app].
  destruct (traceOf_respond (Proto.Response.finished (WorktreeDir inst) (Branch inst))
              (daemonOf (persistMeta id (Join [rootDir d; "instances"]) d c))
              (connOf (persistMeta id (Join [rootDir d; "instances"]) d c)))
    as [delivered ->].
  cbn [app]. eexists delivered, _. split; [reflexivity |].
  autorewrite with run.
  destruct (loadProject w (rootDir d) (Project inst)) as [err | p0].
  - rewrite traceOf_bind, traceOf_connSend. cbn. done.
  - destruct (Config.Finish (loadInRepoConfig w p0)) as [|cmd cmds] eqn:Hf.
    + split; [done |]. eexists c. by cbn [runFinish].
    + split; [apply responses_runFinish |]. by eexists.
Qed.

Section Finish.
Variable w : World.
Variable req : Proto.Request.t.
Variables (d : Daemon) (c : Conn) (inst : Instance).
Let id := Proto.Request.InstanceID req.
Hypothesis registered : instances d !! id = Some inst.

(** The instance is dead and not yet finished. *)
Let dead : bool :=
  String.eqb (state inst) StateExited || String.eqb (state inst) StateCrashed
  || String.eqb (state inst) StateKilled.

Lemma handleFinish_dead :
  dead = true ->
  handleFinish w req d c
  = (update id (setState StateFinished) ≫= fun _ => finishTail w id inst) d c.
Proof.
  intros Hd. unfold handleFinish. fold id. rewrite run_bind.
  cbn [getInstance valueOf daemonOf connOf traceOf fst snd]. rewrite registered.
  fold dead. rewrite Hd. cbn [app].
  by destruct ((update id (setState StateFinished) ≫= _) d c) as [[[? ?] ?] ?].
Qed.

Lemma handleFinish_finished :
  state inst = StateFinished ->
  handleFinish w req d c
  = respond (Proto.Response.finished (WorktreeDir inst) (Branch inst)) d c.
Proof.
  intros Hs. unfold handleFinish. fold id. rewrite run_bind.
  cbn [getInstance valueOf daemonOf connOf traceOf fst snd]. rewrite registered.
  rewrite Hs. cbn [String.eqb Ascii.eqb Bool.eqb orb StateFinished StateExited
                   StateCrashed StateKilled app].
  by destruct (respond _ d c) as [[[? ?] ?] ?].
Qed.

Lemma handleFinish_live :
  dead = false -> state inst <> StateFinished ->
  handleFinish w req d c
  = (update id (setFinishRequest true) ≫= fun _ =>
     destroy id ≫= fun _ =>
     match processDone inst with
     | Some false => childExited w id
     | _ => mret tt
     end ≫= fun _ => finishTail w id inst) d c.
Proof.
  intros Hd Hs. unfold handleFinish. fold id. rewrite run_bind.
  cbn [getInstance valueOf daemonOf connOf traceOf fst snd]. rewrite registered.
  fold dead. rewrite Hd. apply String.eqb_neq in Hs. rewrite Hs. cbn [app].
  by destruct ((update id (setFinishRequest true) ≫= _) d c) as [[[? ?] ?] ?].
Qed.

End Finish.

Lemma dead_true st :
  String.eqb st StateExited || String.eqb st StateCrashed || String.eqb st StateKilled = true
  <-> st = StateExited \/ st = StateCrashed \/ st = StateKilled.
Proof. rewrite !orb_true_iff, !String.eqb_eq. tauto. Qed.

(** C3.  FINISH on a dead instance -- EXITED, CRASHED or KILLED -- promotes
    it to FINISHED, persists that state, answers OK with the worktree
    directory and the branch, and then runs the configured finish
    commands (each up to the first that fails; all of them when none
    fails).  FINISH on an instance that is FINISHED already answers OK
    with worktree and branch and does nothing else: no command is run. *)
Theorem handleFinish_terminal w req d c inst :
  instances d !! Proto.Request.InstanceID req = Some inst ->
  let id := Proto.Request.InstanceID req in
  let r := handleFinish w req d c in
  let answer := Proto.Response.finished (WorktreeDir inst) (Branch inst) in
  (state inst = StateExited \/ state inst = StateCrashed \/ state inst = StateKilled ->
     daemonOf r = mkDaemon (rootDir d) (<[id := setState StateFinished inst]> (instances d))
     /\ exists delivered rest,
         traceOf r = PersistMeta (Join [rootDir d; "instances"]) (setState StateFinished inst)
                     :: Respond answer delivered :: rest
         /\ responses rest = []
         /\ forall p,
              loadProject w (rootDir d) (Project inst) = inr p ->
              let cmds := Config.Finish (loadInRepoConfig w p) in
              commandsRun rest
              = map (dockerArgv (ContainerID inst))
                  (started w (ContainerID inst) (Branch inst) cmds 0)
              /\ ((forall i x, cmds !! i = Some x ->
                      succeeds w (ContainerID inst) i (expand (Branch inst) x)) ->
                  commandsRun rest
                  = map (fun x => dockerArgv (ContainerID inst) (expand (Branch inst) x))
                      cmds))
  /\ (state inst = StateFinished ->
      daemonOf r = d
      /\ (exists delivered, traceOf r = [Respond answer delivered])
      /\ commandsRun (traceOf r) = []).
Proof.
  intros Hreg id r answer. subst id. split.
  - intros Hdead%dead_true. subst r.
    rewrite (handleFinish_dead w req d c inst Hreg Hdead). split.
    + rewrite daemonOf_bind, daemonOf_finishTail.
      cbn [update daemonOf fst snd]. f_equal. by apply alter_known.
    + rewrite traceOf_bind. cbn [update valueOf daemonOf connOf traceOf fst snd app].
      destruct (traceOf_finishTail w (Proto.Request.InstanceID req) inst
                  (setState StateFinished inst)
                  (mkDaemon (rootDir d)
                     (alter (setState StateFinished) (Proto.Request.InstanceID req)
                        (instances d))) c)
        as (delivered & rest & -> & Hresp & Hrest).
      { cbn [instances]. by rewrite lookup_alter_eq, Hreg. }
      exists delivered, rest. split; [done |]. split; [done |].
      intros p Hp. cbn [rootDir] in Hrest. rewrite Hp in Hrest.
      destruct Hrest as [c' ->]. rewrite commandsRun_runFinish. split; [done |].
      intros Hall. rewrite started_all; [by rewrite map_map | done].
  - intros Hfin. subst r. rewrite (handleFinish_finished w req d c inst Hreg Hfin).
    split; [apply daemonOf_respond |].
    subst answer.
    destruct (traceOf_respond (Proto.Response.finished (WorktreeDir inst) (Branch inst)) d c)
      as [delivered ->].
    split; [by eexists | done].
Qed.

Lemma handleFinish_terminal_witness :
  let inst := setState StateCrashed (Samples.running "1") in
  let w := Samples.world (inr (Samples.project [] ["git push -u origin {{branch}}"]))
             (fun _ => ([], None)) in
  let r := handleFinish w (Samples.request "1") (Samples.daemonWith inst) Samples.client in
  (state <$> instances (daemonOf r) !! "1") = Some StateFinished
  /\ commandsRun (traceOf r)
     = [dockerArgv "grove-1" "git push -u origin feature"].
Proof.
  intros inst w r.
  destruct (handleFinish_terminal w (Samples.request "1") (Samples.daemonWith inst)
              Samples.client inst (lookup_insert_eq _ _ _)) as [Hdead _].
  destruct Hdead as (Hd & delivered & rest & Ht & _ & Hrun).
  - right. by left.
  - split.
    + subst r. rewrite Hd. cbn [instances]. by rewrite lookup_insert_eq.
    + subst r. rewrite Ht.
      destruct (Hrun (Samples.project [] ["git push -u origin {{branch}}"]) eq_refl)
        as [_ Hall].
      change (commandsRun (PersistMeta ?a ?b :: Respond ?x ?y :: rest))
        with (commandsRun rest).
      rewrite Hall; [reflexivity |].
      intros i x _. reflexivity.
Defined.

(** ** The runtime steps on a registered instance *)

Lemma run_destroy id cur d c :
  instances d !! id = Some cur ->
  destroy id d c
  = (tt, mkDaemon (rootDir d) (<[id := setKilled true cur]> (instances d)), c,
     if childAlive cur then [Signal id] else []).
Proof.
  intros H. unfold destroy. rewrite run_bind.
  cbn [getInstance valueOf daemonOf connOf traceOf fst snd]. rewrite H, run_bind.
  cbn [update valueOf daemonOf connOf traceOf fst snd app].
  rewrite (alter_known _ _ _ _ H). by destruct (childAlive cur).
Qed.

Lemma run_childExited w id cur d c :
  instances d !! id = Some cur -> childAlive cur = true ->
  childExited w id d c
  = (tt,
     mkDaemon (rootDir d)
       (<[id := observeExit (clock w) (exitStatus w id) cur]> (instances d)),
     c,
     [PersistMeta (InstancesDir cur) (observeExit (clock w) (exitStatus w id) cur)]).
Proof.
  intros H Halive. unfold childExited. rewrite run_bind.
  cbn [getInstance valueOf daemonOf connOf traceOf fst snd]. rewrite H, Halive, run_bind.
  cbn [update valueOf daemonOf connOf traceOf fst snd app].
  unfold persistMeta. rewrite run_bind.
  cbn [getInstance valueOf daemonOf connOf traceOf fst snd instances].
  rewrite lookup_alter_eq, H. cbn [fmap option_fmap option_map emit valueOf daemonOf connOf
    traceOf fst snd app].
  by rewrite (alter_known _ _ _ _ H).
Qed.

Lemma childExited_idle w id d c :
  (forall cur, instances d !! id = Some cur -> childAlive cur = false) ->
  childExited w id d c = (tt, d, c, []).
Proof.
  intros H. unfold childExited. rewrite run_bind.
  cbn [getInstance valueOf daemonOf connOf traceOf fst snd].
  destruct (instances d !! id) as [cur|] eqn:E; [| done].
  by rewrite (H cur eq_refl).
Qed.

(** The exit observer after a finish request gives FINISHED, after a kill
    request alone KILLED. *)
Lemma exitState_finish inst status : finishRequest inst = true -> exitState inst status = StateFinished.
Proof. unfold exitState. by intros ->. Qed.

Lemma exitState_killed inst status :
  finishRequest inst = false -> killed inst = true -> exitState inst status = StateKilled.
Proof. unfold exitState. by intros -> ->. Qed.

Lemma state_observeExit now status inst :
  state (observeExit now status inst) = exitState inst status.
Proof. by destruct inst. Qed.

Lemma terminal_not_dead st :
  IsTerminal st = false ->
  String.eqb st StateExited || String.eqb st StateCrashed || String.eqb st StateKilled = false
  /\ st <> StateFinished.
Proof.
  unfold IsTerminal. rewrite !orb_false_iff. intros [[[H1 H2] H3] H4].
  rewrite H1, H2, H3. split; [done |]. by apply String.eqb_neq.
Qed.

(** FINISH on an instance whose child runs: the finish is requested, the
    child signalled, its exit awaited and observed, and the tail follows
    with the instance FINISHED. *)
Lemma handleFinish_live_run w req d c inst :
  instances d !! Proto.Request.InstanceID req = Some inst ->
  IsTerminal (state inst) = false -> processDone inst = Some false ->
  let id := Proto.Request.InstanceID req in
  let final := observeExit (clock w) (exitStatus w id)
                 (setKilled true (setFinishRequest true inst)) in
  let d' := mkDaemon (rootDir d) (<[id := final]> (instances d)) in
  state final = StateFinished
  /\ daemonOf (handleFinish w req d c) = d'
  /\ traceOf (handleFinish w req d c)
     = Signal id :: PersistMeta (InstancesDir inst) final
       :: traceOf (finishTail w id inst d' c).
Proof.
  intros Hreg Hterm Hdone id final d'.
  destruct (terminal_not_dead _ Hterm) as [Hdead Hfin].
  assert (Hstate : state final = StateFinished).
  { unfold final. rewrite state_observeExit. apply exitState_finish. by destruct inst. }
  split; [done |].
  rewrite (handleFinish_live w req d c inst Hreg Hdead Hfin). fold id. rewrite Hdone.
  rewrite run_bind. cbn [update valueOf daemonOf connOf traceOf fst snd app].
  rewrite (alter_known _ _ _ _ Hreg). rewrite run_bind.
  erewrite run_destroy by (cbn [instances]; apply lookup_insert_eq).
  cbn [valueOf daemonOf connOf traceOf fst snd rootDir instances].
  rewrite insert_insert_eq. rewrite run_bind.
  erewrite run_childExited; [| cbn [instances]; apply lookup_insert_eq
                               | by destruct inst; cbn in *; subst].
  cbn [valueOf daemonOf connOf traceOf fst snd rootDir instances].
  rewrite insert_insert_eq. fold final. fold d'.
  replace (childAlive (setFinishRequest true inst)) with true
    by (by destruct inst; cbn in *; subst).
  replace (InstancesDir (setKilled true (setFinishRequest true inst)))
    with (InstancesDir inst) by (by destruct inst).
  split; [apply daemonOf_finishTail | done].
Qed.

(** *** What a finish run sends to the connection *)

Lemma connDelivered_app t1 t2 :
  connDelivered (t1 ++ t2) = connDelivered t1 ++ connDelivered t2.
Proof. apply omap_app. Qed.

Lemma Write_conn rw p d c :
  connDelivered (traceOf (Write rw p d c)) = take (budget rw c) [p]
  /\ budget (valueOf (Write rw p d c)) (connOf (Write rw p d c)) = budget rw c - 1.
Proof.
  unfold Write, budget. unfold mbind, M_bind, bind, connSend.
  destruct (connOK rw) eqn:Hok, (writesLeft c) as [|n] eqn:Hn, (log rw);
    cbn; rewrite ?Hok, ?Hn, ?take_nil; split; try done; lia.
Qed.

Lemma writeAll_conn chunks rw d c :
  connDelivered (traceOf (writeAll rw chunks d c)) = take (budget rw c) chunks
  /\ budget (valueOf (writeAll rw chunks d c)) (connOf (writeAll rw chunks d c))
     = budget rw c - length chunks.
Proof.
  revert rw d c. induction chunks as [|p chunks IH]; intros rw d c.
  - cbn. split; [by rewrite take_nil | lia].
  - cbn [writeAll]. rewrite traceOf_bind, valueOf_bind, connOf_bind, connDelivered_app.
    destruct (Write_conn rw p d c) as [Hd Hb].
    destruct (IH (valueOf (Write rw p d c)) (daemonOf (Write rw p d c))
                (connOf (Write rw p d c))) as [Hd' Hb'].
    rewrite Hd, Hd', Hb', Hb. cbn [length]. split; [| lia].
    destruct (budget rw c) as [|n]; [by rewrite !take_0 |].
    replace (S n - 1) with n by lia.
    change (take (S n) [p]) with (p :: take n []). by rewrite take_nil.
Qed.

Lemma execInContainer_conn w k cid cmd rw d c :
  connDelivered (traceOf (execInContainer w k cid cmd rw d c))
  = take (budget rw c) (dockerExec w k cid cmd).1
  /\ budget (valueOf (execInContainer w k cid cmd rw d c)).1
       (connOf (execInContainer w k cid cmd rw d c))
     = budget rw c - length (dockerExec w k cid cmd).1.
Proof.
  unfold execInContainer. destruct (dockerExec w k cid cmd) as [chunks err].
  rewrite !traceOf_bind, !valueOf_bind, !connOf_bind, !connDelivered_app.
  cbn [emit valueOf daemonOf connOf traceOf fst snd mret M_ret ret connDelivered omap app].
  rewrite app_nil_r. apply writeAll_conn.
Qed.

Lemma logWrites_execInContainer w k cid cmd rw d c :
  logWrites (traceOf (execInContainer w k cid cmd rw d c))
  = match log rw with Some _ => (dockerExec w k cid cmd).1 | None => [] end.
Proof.
  destruct (log rw) as [path|] eqn:Hlog.
  - destruct (execInContainer_result w k cid cmd rw d c) as (_ & _ & _ & Hout).
    by apply (Hout path).
  - unfold execInContainer. destruct (dockerExec w k cid cmd) as [chunks err].
    rewrite !traceOf_bind, !logWrites_app.
    cbn [emit valueOf daemonOf connOf traceOf fst snd mret M_ret ret logWrites omap app].
    rewrite app_nil_r. clear err.
    generalize (mkDaemon (rootDir d) (instances d)). intros _.
    revert rw Hlog d c. induction chunks as [|p chunks IH]; intros rw Hlog d c; [done |].
    cbn [writeAll]. rewrite traceOf_bind, logWrites_app, logWrites_Write, Hlog.
    apply IH. by rewrite log_Write.
Qed.

(** A finish run: the commands it starts, what the log gets and what
    gets through to the connection. *)
Lemma runFinish_output w cid branch cmds k rw d c :
  logWrites (traceOf (runFinish w cid branch cmds k rw d c))
  = match log rw with Some _ => finishOutput w cid branch cmds k | None => [] end
  /\ connDelivered (traceOf (runFinish w cid branch cmds k rw d c))
     = take (budget rw c) (finishOutput w cid branch cmds k).
Proof.
  revert k rw d c. induction cmds as [|cmd cmds IH]; intros k rw d c.
  - cbn. split; [by destruct (log rw) | by rewrite take_nil].
  - cbn [runFinish finishOutput]. fold (expand branch cmd).
    set (x := expand branch cmd).
    rewrite !traceOf_bind, !logWrites_app, !connDelivered_app.
    destruct (Write_conn rw ("$ " +:+ x +:+ nl) d c) as [Hd1 Hb1].
    rewrite logWrites_Write, Hd1.
    set (r1 := Write rw ("$ " +:+ x +:+ nl) d c) in *.
    pose proof (log_Write rw ("$ " +:+ x +:+ nl) d c) as Hl1. fold r1 in Hl1.
    destruct (execInContainer_conn w k cid x (valueOf r1) (daemonOf r1) (connOf r1))
      as [Hd2 Hb2].
    destruct (execInContainer_result w k cid x (valueOf r1) (daemonOf r1) (connOf r1))
      as (Hres & Hl2 & _ & _).
    rewrite logWrites_execInContainer, Hd2, Hl1.
    set (r2 := execInContainer w k cid x (valueOf r1) (daemonOf r1) (connOf r1)) in *.
    rewrite Hres. rewrite Hl1 in Hl2.
    assert (Htake : forall (b : nat) (l1 l2 : list string) (s : string),
               take b [s] ++ take (b - 1) l1 ++ take (b - 1 - length l1) l2
               = take b (s :: l1 ++ l2)).
    { intros b l1 l2 s. destruct b as [|b]; [by rewrite !take_0 |].
      replace (S b - 1) with b by lia.
      change (take (S b) [s]) with (s :: take b []). rewrite take_nil.
      change (take (S b) (s :: l1 ++ l2)) with (s :: take b (l1 ++ l2)).
      cbn [app]. f_equal. by rewrite take_app. }
    destruct (dockerExec w k cid x).2 as [e|].
    + rewrite traceOf_bind, logWrites_app, connDelivered_app, logWrites_Write, Hl2.
      destruct (Write_conn (valueOf r2).1
                  ("error: command failed: "
                   +:+ ("exec in container " +:+ cid +:+ ": " +:+ e) +:+ nl)
                  (daemonOf r2) (connOf r2)) as [Hd3 _].
      rewrite Hd3, Hb2, Hb1. rewrite traceOf_mret. cbn [logWrites connDelivered omap].
      rewrite !app_nil_r. split.
      * by destruct (log rw).
      * apply Htake.
    + destruct (IH (S k) (valueOf r2).1 (daemonOf r2) (connOf r2)) as [HL HC].
      rewrite HL, HC, Hl2, Hb2, Hb1. split.
      * by destruct (log rw).
      * apply Htake.
Qed.

Lemma finishOutput_all w cid branch cmds k :
  (forall i x, cmds !! i = Some x -> succeeds w cid (k + i) (expand branch x)) ->
  finishOutput w cid branch cmds k
  = concat (imap (fun i x => shown w cid (k + i) (expand branch x)) cmds).
Proof.
  revert k. induction cmds as [|cmd cmds IH]; intros k Hall; [done |].
  cbn [finishOutput imap concat]. pose proof (Hall 0 cmd eq_refl) as H0.
  unfold succeeds in H0. rewrite Nat.add_0_r in H0 |- *. rewrite H0.
  unfold shown at 1. cbn [app]. do 2 f_equal. rewrite IH.
  - f_equal. apply imap_ext. intros i x _. unfold compose. f_equal. lia.
  - intros i x Hx. replace (S k + i) with (k + S i) by lia. by apply Hall.
Qed.

Lemma finishOutput_until w cid branch pre x post e k :
  (forall i y, pre !! i = Some y -> succeeds w cid (k + i) (expand branch y)) ->
  (dockerExec w (k + length pre) cid (expand branch x)).2 = Some e ->
  finishOutput w cid branch (pre ++ x :: post) k
  = concat (imap (fun i y => shown w cid (k + i) (expand branch y)) pre)
    ++ shown w cid (k + length pre) (expand branch x) ++ [failureLine cid e].
Proof.
  revert k. induction pre as [|cmd pre IH]; intros k Hpre Hx.
  - cbn [app finishOutput imap concat length] in *. rewrite Nat.add_0_r in Hx |- *.
    by rewrite Hx.
  - cbn [app finishOutput imap concat length]. pose proof (Hpre 0 cmd eq_refl) as H0.
    unfold succeeds in H0. rewrite Nat.add_0_r in H0 |- *. rewrite H0.
    unfold shown at 1. cbn [app]. f_equal. rewrite <- app_assoc. f_equal.
    rewrite (IH (S k)).
    + replace (S k + length pre) with (k + S (length pre)) by lia.
      f_equal. f_equal. apply imap_ext. intros i y _. unfold compose. f_equal. lia.
    + intros i y Hy. replace (S k + i) with (k + S i) by lia. by apply Hpre.
    + by replace (S k + length pre) with (k + S (length pre)) by lia.
Qed.

(** FINISH on an instance that is not terminal and has no running child:
    the finish is requested and the kill recorded, nothing is awaited,
    and the tail follows with the state as it was. *)
Lemma handleFinish_childless_run w req d c inst :
  instances d !! Proto.Request.InstanceID req = Some inst ->
  IsTerminal (state inst) = false -> processDone inst <> Some false ->
  let id := Proto.Request.InstanceID req in
  let cur := setKilled true (setFinishRequest true inst) in
  let d' := mkDaemon (rootDir d) (<[id := cur]> (instances d)) in
  daemonOf (handleFinish w req d c) = d'
  /\ traceOf (handleFinish w req d c) = traceOf (finishTail w id inst d' c).
Proof.
  intros Hreg Hterm Hdone id cur d'.
  destruct (terminal_not_dead _ Hterm) as [Hdead Hfin].
  rewrite (handleFinish_live w req d c inst Hreg Hdead Hfin). fold id.
  rewrite run_bind. cbn [update valueOf daemonOf connOf traceOf fst snd app].
  rewrite (alter_known _ _ _ _ Hreg). rewrite run_bind.
  erewrite run_destroy by (cbn [instances]; apply lookup_insert_eq).
  cbn [valueOf daemonOf connOf traceOf fst snd rootDir instances].
  rewrite insert_insert_eq. fold cur. fold d'.
  assert (Hidle : childAlive (setFinishRequest true inst) = false).
  { unfold childAlive. destruct inst as [? ? ? ? ? ? ? ? ? ? ? ? ? ? [[|]|]]; cbn in *; congruence. }
  rewrite Hidle.
  assert (Hwait : match processDone inst with
                  | Some false => childExited w id
                  | _ => mret tt
                  end = mret tt).
  { destruct (processDone inst) as [[|]|]; congruence. }
  rewrite Hwait, run_bind.
  cbn [mret M_ret ret valueOf daemonOf connOf traceOf fst snd app].
  split; [apply daemonOf_finishTail | done].
Qed.

(** C7, at the input where the code departs from it: the CHECKING record
    that the reload keeps has no child.  FINISH on it sets the finish
    request, finds nothing to wait for, persists the record as it is,
    answers OK and runs the finish commands -- and the instance is
    CHECKING when the answer goes out, while the commands run and
    after, not FINISHED.  A second FINISH does the same again. *)
Theorem finish_leaves_CHECKING :
  let d := New Samples.unmarshal Samples.restartTime Samples.root
             (Some Samples.instancesDir) in
  let w := Samples.world (inr (Samples.project [] ["git push origin {{branch}}"]))
             (fun _ => (["pushed"], None)) in
  let r := handleFinish w (Samples.request "1") d Samples.client in
  let again := handleFinish w (Samples.request "1") (daemonOf r) Samples.client in
  (state <$> instances d !! "1") = Some StateChecking
  /\ (processDone <$> instances d !! "1") = Some None
  /\ (exists worktreeDir, responses (traceOf r)
                          = [Proto.Response.finished worktreeDir "feature"])
  /\ commandsRun (traceOf r) = [dockerArgv "grove-1" "git push origin feature"]
  /\ (exists dir persisted rest,
        traceOf r = PersistMeta dir persisted :: rest
        /\ state persisted = StateChecking)
  /\ (state <$> instances (daemonOf r) !! "1") = Some StateChecking
  /\ (finishRequest <$> instances (daemonOf r) !! "1") = Some true
  /\ (state <$> instances (daemonOf again) !! "1") = Some StateChecking
  /\ commandsRun (traceOf again) = [dockerArgv "grove-1" "git push origin feature"].
Proof.
  cbv zeta. repeat split; try (vm_compute; reflexivity).
  - eexists. vm_compute. reflexivity.
  - eexists _, _, _. split; [vm_compute; reflexivity | reflexivity].
Qed.

(** X26.  FINISH on a registered instance that is not FINISHED yet and
    whose project loads answers OK before anything is run, logged or
    written to the client.  Then the finish commands are run in order,
    every {{branch}} replaced by the branch of the instance, up to and
    including the first that fails.  The writer gets, per command, the
    line "$ <cmd>" and the output of the command, and after a failed
    command the error line: the log file gets all of it when it could be
    opened and nothing otherwise; the client gets it write by write until
    its connection fails, whether the log opened or not.  The state is
    FINISHED at the end for an instance that was EXITED, CRASHED or
    KILLED or whose child ran; an instance that is not terminal and has
    no running child keeps its state. *)
Theorem finish_commands_in_order w req d c inst p :
  instances d !! Proto.Request.InstanceID req = Some inst ->
  state inst <> StateFinished ->
  loadProject w (rootDir d) (Project inst) = inr p ->
  let id := Proto.Request.InstanceID req in
  let cmds := Config.Finish (loadInRepoConfig w p) in
  let cid := ContainerID inst in
  let fill := expand (Branch inst) in
  let lines := finishOutput w cid (Branch inst) cmds 0 in
  let r := handleFinish w req d c in
  exists before delivered after,
    traceOf r
    = before ++ Respond (Proto.Response.finished (WorktreeDir inst) (Branch inst)) delivered
             :: after
    /\ commandsRun before = [] /\ logWrites before = [] /\ connDelivered before = []
    /\ commandsRun after = map (dockerArgv cid) (started w cid (Branch inst) cmds 0)
    /\ logWrites after = (if openLog w (LogFile inst) then lines else [])
    /\ connDelivered after = take (writesLeft c - 1) lines
    /\ ((forall i x, cmds !! i = Some x -> succeeds w cid i (fill x)) ->
        started w cid (Branch inst) cmds 0 = map fill cmds
        /\ lines = concat (imap (fun i x => shown w cid i (fill x)) cmds))
    /\ (forall pre x post e,
        cmds = pre ++ x :: post ->
        (forall i y, pre !! i = Some y -> succeeds w cid i (fill y)) ->
        (dockerExec w (length pre) cid (fill x)).2 = Some e ->
        started w cid (Branch inst) cmds 0 = map fill (pre ++ [x])
        /\ lines = concat (imap (fun i y => shown w cid i (fill y)) pre)
                   ++ shown w cid (length pre) (fill x) ++ [failureLine cid e])
    /\ (IsTerminal (state inst) = true \/ processDone inst = Some false ->
        (state <$> instances (daemonOf r) !! id) = Some StateFinished)
    /\ (IsTerminal (state inst) = false -> processDone inst <> Some false ->
        (state <$> instances (daemonOf r) !! id) = Some (state inst)).
Proof.
  intros Hreg Hnotfin Hp id cmds cid fill lines r.
  (* the daemon in which the tail runs, and what came before the tail *)
  assert (Htail : exists d' cur before,
             instances d' !! id = Some cur
             /\ rootDir d' = rootDir d
             /\ daemonOf r = d'
             /\ traceOf r = before ++ traceOf (finishTail w id inst d' c)
             /\ commandsRun before = [] /\ logWrites before = []
             /\ connDelivered before = []
             /\ (IsTerminal (state inst) = true \/ processDone inst = Some false ->
                 state cur = StateFinished)
             /\ (IsTerminal (state inst) = false -> processDone inst <> Some false ->
                 state cur = state inst)).
  { destruct (IsTerminal (state inst)) eqn:Hterm.
    - assert (Hdead : String.eqb (state inst) StateExited
                      || String.eqb (state inst) StateCrashed
                      || String.eqb (state inst) StateKilled = true).
      { unfold IsTerminal in Hterm. apply String.eqb_neq in Hnotfin.
        rewrite Hnotfin, orb_false_r in Hterm. exact Hterm. }
      exists (mkDaemon (rootDir d) (<[id := setState StateFinished inst]> (instances d))),
        (setState StateFinished inst), [].
      subst r. rewrite (handleFinish_dead w req d c inst Hreg Hdead).
      rewrite daemonOf_bind, traceOf_bind, daemonOf_finishTail.
      cbn [update valueOf daemonOf connOf traceOf fst snd app instances rootDir].
      rewrite (alter_known _ _ _ _ Hreg).
      split; [apply lookup_insert_eq |]. by repeat split.
    - destruct (decide (processDone inst = Some false)) as [Hdone | Hdone].
      + destruct (handleFinish_live_run w req d c inst Hreg Hterm Hdone) as (Hst & Hd & Ht).
        exists (mkDaemon (rootDir d)
                  (<[id := observeExit (clock w) (exitStatus w id)
                             (setKilled true (setFinishRequest true inst))]> (instances d))),
          (observeExit (clock w) (exitStatus w id)
             (setKilled true (setFinishRequest true inst))),
          [Signal id;
           PersistMeta (InstancesDir inst)
             (observeExit (clock w) (exitStatus w id)
                (setKilled true (setFinishRequest true inst)))].
        subst r. rewrite Hd, Ht.
        split; [apply lookup_insert_eq |]. repeat split; done.
      + destruct (handleFinish_childless_run w req d c inst Hreg Hterm Hdone) as (Hd & Ht).
        exists (mkDaemon (rootDir d)
                  (<[id := setKilled true (setFinishRequest true inst)]> (instances d))),
          (setKilled true (setFinishRequest true inst)), [].
        subst r. rewrite Hd, Ht.
        split; [apply lookup_insert_eq |]. repeat split; try done.
        all: try (intros [? | ?]; congruence).
        all: try (by destruct inst). }
  destruct Htail as (d' & cur & before & Hcur & Hroot & Hd & Ht & Hb1 & Hb2 & Hb3 & Hfin & Hkeep).
  unfold finishTail in Ht. rewrite !traceOf_bind in Ht.
  cbn [getRootDir valueOf daemonOf connOf traceOf fst snd app] in Ht.
  unfold persistMeta at 1 in Ht. rewrite traceOf_bind in Ht.
  cbn [getInstance valueOf daemonOf connOf traceOf fst snd app] in Ht. rewrite Hcur in Ht.
  cbn [emit traceOf snd app] in Ht. autorewrite with run in Ht.
  rewrite Hroot, Hp in Ht. fold cmds cid in Ht.
  unfold persistMeta in Ht. rewrite !connOf_bind in Ht.
  cbn [getInstance valueOf daemonOf connOf traceOf fst snd] in Ht. rewrite Hcur in Ht.
  cbn [emit connOf fst snd] in Ht.
  set (answer := Proto.Response.finished (WorktreeDir inst) (Branch inst)) in *.
  assert (Hresp : exists delivered,
             traceOf (respond answer d' c) = [Respond answer delivered]
             /\ writesLeft (connOf (respond answer d' c)) = writesLeft c - 1).
  { unfold respond, mbind, M_bind, bind, connSend.
    destruct (writesLeft c) as [|n] eqn:Hn; cbn; rewrite ?Hn; eexists; split; try done; lia. }
  destruct Hresp as (delivered & Hresp & Hleft). rewrite Hresp in Ht.
  set (c1 := connOf (respond answer d' c)) in *.
  set (rw := newResilientWriter
               (if openLog w (LogFile inst) then Some (LogFile inst) else None)) in *.
  assert (Hrest : exists rest,
             traceOf r = (before ++ [PersistMeta (Join [rootDir d; "instances"]) cur])
                         ++ Respond answer delivered :: rest
             /\ rest = traceOf (runFinish w cid (Branch inst) cmds 0 rw d' c1)).
  { destruct cmds as [|cmd cmds'] eqn:Hcmds.
    - exists []. rewrite Ht, <- app_assoc. by cbn.
    - eexists. rewrite Ht, <- app_assoc. by cbn. }
  destruct Hrest as (rest & Htrace & Hrest).
  destruct (runFinish_output w cid (Branch inst) cmds 0 rw d' c1) as [HL HC].
  rewrite <- Hrest in HL, HC.
  exists (before ++ [PersistMeta (Join [rootDir d; "instances"]) cur]), delivered, rest.
  split; [exact Htrace |].
  split. { by rewrite commandsRun_app, Hb1. }
  split. { by rewrite logWrites_app, Hb2. }
  split. { by rewrite connDelivered_app, Hb3. }
  split. { rewrite Hrest. apply commandsRun_runFinish. }
  split. { rewrite HL. unfold rw. cbn [log newResilientWriter].
           by destruct (openLog w (LogFile inst)). }
  split. { rewrite HC. unfold budget, rw. cbn [connOK newResilientWriter]. by rewrite Hleft. }
  split.
  { intros Hall. split.
    - exact (started_all w cid (Branch inst) cmds 0 Hall).
    - exact (finishOutput_all w cid (Branch inst) cmds 0 Hall). }
  split.
  { intros pre x post e Hcmds Hpre Hx. subst lines. rewrite Hcmds. split.
    - exact (started_until w cid (Branch inst) pre x post e 0 Hpre Hx).
    - exact (finishOutput_until w cid (Branch inst) pre x post e 0 Hpre Hx). }
  split.
  - intros Hcase. rewrite Hd, Hcur. cbn [fmap option_fmap option_map]. by rewrite Hfin.
  - intros Hterm Hdone. rewrite Hd, Hcur. cbn [fmap option_fmap option_map].
    by rewrite Hkeep.
Qed.

Lemma finish_commands_in_order_witness :
  let p := Samples.project [] ["make test"; "git push origin {{branch}}"; "echo done"] in
  let w := Samples.world (inr p)
             (fun k => match k with
                       | 1 => (["denied"], Some "exit status 1")
                       | _ => (["ok"], None)
                       end) in
  let r := handleFinish w (Samples.request "1") (Samples.daemonWith (Samples.running "1"))
             Samples.client in
  exists before delivered after,
    traceOf r
    = before ++ Respond (Proto.Response.finished
                           (WorktreeDir (Samples.running "1")) "feature") delivered
             :: after
    /\ commandsRun after
       = [dockerArgv "grove-1" "make test"; dockerArgv "grove-1" "git push origin feature"]
    /\ connDelivered after
       = ["$ make test" +:+ nl; "ok"; "$ git push origin feature" +:+ nl; "denied";
          failureLine "grove-1" "exit status 1"]
    /\ (state <$> instances (daemonOf r) !! "1") = Some StateFinished.
Proof.
  intros p w r.
  destruct (finish_commands_in_order w (Samples.request "1")
              (Samples.daemonWith (Samples.running "1")) Samples.client
              (Samples.running "1") p (lookup_insert_eq _ _ _))
    as (before & delivered & after & Ht & _ & _ & _ & Hrun & _ & Hconn & _ & Hfail & Hst & _).
  - discriminate.
  - reflexivity.
  - exists before, delivered, after. split; [exact Ht |].
    split; [rewrite Hrun; reflexivity |].
    split; [rewrite Hconn; reflexivity |].
    apply Hst. by right.
Defined.

(** ** STOP *)

Lemma handleStop_run req d c inst :
  instances d !! Proto.Request.InstanceID req = Some inst ->
  daemonOf (handleStop req d c)
  = mkDaemon (rootDir d)
      (<[Proto.Request.InstanceID req := setKilled true inst]> (instances d))
  /\ exists delivered,
      traceOf (handleStop req d c)
      = (if childAlive inst then [Signal (Proto.Request.InstanceID req)] else [])
        ++ [Respond Proto.Response.ok delivered].
Proof.
  intros Hreg. unfold handleStop. rewrite run_bind.
  cbn [getInstance valueOf daemonOf connOf traceOf fst snd]. rewrite Hreg, run_bind.
  rewrite (run_destroy _ _ _ _ Hreg).
  cbn [valueOf daemonOf connOf traceOf fst snd app].
  rewrite daemonOf_respond. split; [done |].
  match goal with |- context [traceOf (respond ?r ?d1 ?c1)] =>
    destruct (traceOf_respond r d1 c1) as [delivered ->] end.
  by exists delivered.
Qed.

(** The daemon while a FINISH on a running instance waits for the exit
    of the child: the handler has set the finish request and signalled
    the child. *)
Lemma finish_waiting d c id inst :
  instances d !! id = Some inst ->
  daemonOf ((update id (setFinishRequest true) ≫= fun _ => destroy id) d c)
  = mkDaemon (rootDir d)
      (<[id := setKilled true (setFinishRequest true inst)]> (instances d)).
Proof.
  intros Hreg. rewrite run_bind. cbn [update valueOf daemonOf connOf traceOf fst snd].
  rewrite (alter_known _ _ _ _ Hreg).
  erewrite run_destroy by (cbn [instances]; apply lookup_insert_eq).
  cbn [daemonOf fst snd rootDir instances]. by rewrite insert_insert_eq.
Qed.

(** The claim C1 as stated fails: while a FINISH waits for the child of
    an instance to exit, the child is alive; a STOP on that instance is
    answered OK, and when the child exits the state is FINISHED, not
    KILLED. *)
Lemma stop_while_finish_waits :
  ~ (forall w d c c' req inst,
        instances d !! Proto.Request.InstanceID req = Some inst ->
        childAlive inst = true ->
        (state <$> instances
                     (daemonOf (childExited w (Proto.Request.InstanceID req)
                                  (daemonOf (handleStop req d c)) c'))
                     !! Proto.Request.InstanceID req)
        = Some StateKilled).
Proof.
  intros H.
  pose (waiting := daemonOf ((update "1" (setFinishRequest true) ≫= fun _ => destroy "1")
                               (Samples.daemonWith (Samples.running "1")) Samples.client)).
  specialize (H (Samples.world (inl "unused") (fun _ => ([], None))) waiting
                Samples.client Samples.client (Samples.request "1")
                (setKilled true (setFinishRequest true (Samples.running "1")))).
  assert (Hreg : instances waiting !! "1"
                 = Some (setKilled true (setFinishRequest true (Samples.running "1")))).
  { unfold waiting. rewrite (finish_waiting _ _ _ (Samples.running "1"))
      by apply lookup_insert_eq.
    apply lookup_insert_eq. }
  specialize (H Hreg eq_refl). vm_compute in H. discriminate H.
Qed.

(** C1, amended.  For an instance whose child is alive, STOP records the
    kill, signals the child and answers OK at once: the child still runs
    when the handler returns.  When the child then exits -- whatever
    else has happened to the instance meanwhile, as long as its child
    runs and the kill is still recorded -- the exit observer records the
    end, persists the record and makes the state KILLED if no finish has
    been requested for the instance by then, and FINISHED if one has:
    a FINISH that was waiting when the STOP came, or one that came
    after it. *)
Theorem stop_then_exit_KILLED d c req inst :
  instances d !! Proto.Request.InstanceID req = Some inst ->
  childAlive inst = true ->
  let id := Proto.Request.InstanceID req in
  let r := handleStop req d c in
  (exists delivered, traceOf r = [Signal id; Respond Proto.Response.ok delivered])
  /\ instances (daemonOf r) !! id = Some (setKilled true inst)
  /\ childAlive (setKilled true inst) = true
  /\ killed (setKilled true inst) = true
  /\ finishRequest (setKilled true inst) = finishRequest inst
  /\ forall w d' c' cur,
       instances d' !! id = Some cur ->
       childAlive cur = true -> killed cur = true ->
       let r' := childExited w id d' c' in
       exists final,
         instances (daemonOf r') !! id = Some final
         /\ traceOf r' = [PersistMeta (InstancesDir cur) final]
         /\ state final = (if finishRequest cur then StateFinished else StateKilled)
         /\ endedAt final = clock w
         /\ childAlive final = false.
Proof.
  intros Hreg Halive id r.
  destruct (handleStop_run req d c inst Hreg) as [Hd [delivered Ht]].
  rewrite Halive in Ht. fold id in Hd, Ht.
  split; [by exists delivered |].
  split. { subst r. rewrite Hd. apply lookup_insert_eq. }
  split; [by destruct inst |]. split; [by destruct inst |]. split; [by destruct inst |].
  intros w d' c' cur Hcur Hrun Hkill r'. subst r'.
  rewrite (run_childExited w id _ _ c' Hcur Hrun).
  cbn [daemonOf traceOf fst snd instances]. rewrite lookup_insert_eq.
  eexists. split; [reflexivity |]. split; [reflexivity |].
  split.
  { rewrite state_observeExit. unfold exitState. rewrite Hkill.
    by destruct (finishRequest cur). }
  split; by destruct cur.
Qed.

Lemma stop_then_exit_KILLED_witness :
  let d := Samples.daemonWith (Samples.running "1") in
  let w := Samples.world (inl "unused") (fun _ => ([], None)) in
  let r := handleStop (Samples.request "1") d Samples.client in
  traceOf r = [Signal "1"; Respond Proto.Response.ok true]
  /\ (state <$> instances (daemonOf (childExited w "1" (daemonOf r) Samples.client)) !! "1")
     = Some StateKilled.
Proof.
  intros d w r.
  destruct (stop_then_exit_KILLED d Samples.client (Samples.request "1")
              (Samples.running "1") (lookup_insert_eq _ _ _) eq_refl)
    as (_ & Hreg & Hrun & Hkill & _ & Hexit).
  split; [reflexivity |].
  destruct (Hexit w (daemonOf r) Samples.client _ Hreg Hrun Hkill)
    as (final & Hfinal & _ & Hstate & _).
  etransitivity; [exact (f_equal (fmap state) Hfinal) |].
  cbn [fmap option_fmap option_map]. by rewrite Hstate.
Defined.

End HandlerProofs.

(** ** Attach frames *)

Module FrameProofs.
Import Proto.

Lemma to_N_byteOfN n : Byte.to_N (byteOfN n) = (n mod 256)%N.
Proof.
  unfold byteOfN. destruct (Byte.of_N (n mod 256)) as [b|] eqn:E.
  - by apply Byte.to_of_N.
  - apply Byte.of_N_None_iff in E. pose proof (N.mod_upper_bound n 256). lia.
Qed.

Lemma uint32_putUint32 n b0 b1 b2 b3 :
  putUint32 n = [b0; b1; b2; b3] -> uint32 b0 b1 b2 b3 = (n mod 2 ^ 32)%N.
Proof.
  unfold putUint32, uint32. intros [= <- <- <- <-]. rewrite !to_N_byteOfN.
  set (u := (n mod 2 ^ 32)%N).
  assert (u < 2 ^ 32)%N by (apply N.mod_upper_bound; lia).
  change (2 ^ 24)%N with (256 * 256 * 256)%N. change (2 ^ 16)%N with (256 * 256)%N.
  change (2 ^ 8)%N with 256%N. change (2 ^ 32)%N with 4294967296%N in *.
  rewrite <- !N.Div0.div_div.
  pose proof (N.div_mod u 256). pose proof (N.div_mod (u / 256) 256).
  pose proof (N.div_mod (u / 256 / 256) 256).
  pose proof (N.mod_upper_bound u 256). pose proof (N.mod_upper_bound (u / 256) 256).
  pose proof (N.mod_upper_bound (u / 256 / 256) 256).
  assert (u / 256 / 256 / 256 < 256)%N.
  { rewrite !N.Div0.div_div. apply N.Div0.div_lt_upper_bound. lia. }
  rewrite (N.mod_small (u / 256 / 256 / 256) 256) by done.
  lia.
Qed.

Lemma length_putUint32 n : length (putUint32 n) = 4.
Proof. reflexivity. Qed.

(** A frame read back from the front of a reader. *)
Lemma ReadFrame_WriteFrame frameType payload rest :
  (N.of_nat (length payload) < 2 ^ 32)%N ->
  ReadFrame (WriteFrame [] frameType payload ++ rest) = Some (frameType, payload, rest).
Proof.
  intros Hlen. unfold WriteFrame. cbn [app].
  destruct (putUint32 (N.of_nat (length payload))) as [|b0 [|b1 [|b2 [|b3 [|? ?]]]]] eqn:E;
    try discriminate.
  cbn [app ReadFrame]. rewrite (uint32_putUint32 _ _ _ _ _ E).
  rewrite N.mod_small by done. rewrite Nat2N.id.
  rewrite length_app. destruct (Nat.leb_spec (length payload) (length payload + length rest));
    [| lia].
  by rewrite take_app_length, drop_app_length.
Qed.

(** C9.  A frame is one type byte, the payload length as a big-endian
    32-bit number, and the payload.  For a payload whose length fits that
    number, writing a frame to an empty buffer and reading it back gives
    the type and the payload and leaves the buffer empty; two frames
    written and then read twice come back both, in the order written. *)
Theorem frame_roundtrip frameType1 payload1 frameType2 payload2 :
  (N.of_nat (length payload1) < 2 ^ 32)%N ->
  (N.of_nat (length payload2) < 2 ^ 32)%N ->
  WriteFrame [] frameType1 payload1
  = frameType1 :: putUint32 (N.of_nat (length payload1)) ++ payload1
  /\ ReadFrame (WriteFrame [] frameType1 payload1) = Some (frameType1, payload1, [])
  /\ exists rest,
      ReadFrame (WriteFrame (WriteFrame [] frameType1 payload1) frameType2 payload2)
      = Some (frameType1, payload1, rest)
      /\ ReadFrame rest = Some (frameType2, payload2, []).
Proof.
  intros H1 H2. split; [reflexivity |]. split.
  - rewrite <- (app_nil_r (WriteFrame [] frameType1 payload1)).
    by apply ReadFrame_WriteFrame.
  - exists (WriteFrame [] frameType2 payload2). split.
    + change (WriteFrame (WriteFrame [] frameType1 payload1) frameType2 payload2)
        with (WriteFrame [] frameType1 payload1 ++ WriteFrame [] frameType2 payload2).
      by apply ReadFrame_WriteFrame.
    + rewrite <- (app_nil_r (WriteFrame [] frameType2 payload2)).
      by apply ReadFrame_WriteFrame.
Qed.

Lemma frame_roundtrip_witness :
  ReadFrame (WriteFrame [] x00 [x68; x65; x6c; x6c; x6f])
  = Some (x00, [x68; x65; x6c; x6c; x6f], [])
  /\ exists rest,
      ReadFrame (WriteFrame (WriteFrame [] x00 [x68; x65; x6c; x6c; x6f]) x01
                   [x00; x50; x00; x18])
      = Some (x00, [x68; x65; x6c; x6c; x6f], rest)
      /\ ReadFrame rest = Some (x01, [x00; x50; x00; x18], []).
Proof.
  apply (frame_roundtrip x00 [x68; x65; x6c; x6c; x6f] x01 [x00; x50; x00; x18]).
  - reflexivity.
  - reflexivity.
Defined.

End FrameProofs.

(** ** LIST *)

Module ListProofs.
Import GoTime Daemon.
Import Proto(StateRunning, StateWaiting, StateAttached, StateChecking,
             StateExited, StateCrashed, StateKilled, StateFinished, IsTerminal).

(** The saturation of [Sub] does not move the two-second threshold. *)
Lemma idle_Sub now inst :
  (idleThreshold <? Sub now (lastOutputTime inst))%Z = true <-> idle now inst.
Proof.
  unfold idle, idleThreshold, Sub, maxDuration, minDuration, Second.
  rewrite Z.ltb_lt. lia.
Qed.

(** The state a summary shows. *)
Lemma Info_State now inst :
  (state inst = StateRunning -> idle now inst ->
   Proto.InstanceInfo.State (Info now inst) = StateWaiting)
  /\ (state inst = StateRunning -> ~ idle now inst ->
      Proto.InstanceInfo.State (Info now inst) = StateRunning)
  /\ (state inst <> StateRunning ->
      Proto.InstanceInfo.State (Info now inst) = state inst).
Proof.
  unfold Info. cbn [Proto.InstanceInfo.State].
  destruct (String.eqb_spec (state inst) StateRunning) as [Hr | Hr]; cbn [andb].
  - destruct (idleThreshold <? Sub now (lastOutputTime inst))%Z eqn:E.
    + apply idle_Sub in E. repeat split; intros; first [done | congruence].
    + assert (~ idle now inst) by (rewrite <- idle_Sub; congruence).
      repeat split; intros; first [done | congruence].
  - repeat split; intros; first [done | congruence].
Qed.

Lemma terminal_not_running st : IsTerminal st = true -> st <> StateRunning.
Proof. by intros H ->. Qed.

Lemma StronglySorted_weaken {A : Type} (R R' : A -> A -> Prop) l :
  (forall a b, R a b -> R' a b) -> StronglySorted R l -> StronglySorted R' l.
Proof.
  intros HR. induction 1 as [|a l Hl IH Hall]; constructor; [done |].
  eapply Forall_impl; [exact Hall | auto].
Qed.

(** The sample [range] and [sort.Slice] are as [handleList] needs them. *)
Lemma sample_visitsAll : visitsAll Samples.rangeOrder.
Proof. intros m. reflexivity. Qed.

Lemma sample_sortsByKey : sortsByKey Samples.sortSlice.
Proof.
  intros A key l. unfold Samples.sortSlice.
  set (R := fun a b : A => (key b <? key a)%Z = false).
  assert (HR : forall a b, R a b <-> (key a <= key b)%Z).
  { intros a b. unfold R. rewrite Z.ltb_ge. done. }
  assert (Htrans : Transitive R).
  { intros a b c'. rewrite !HR. lia. }
  assert (Htotal : Total R).
  { intros a b. rewrite !HR. lia. }
  split.
  - apply merge_sort_Permutation.
  - eapply StronglySorted_weaken; [| apply (StronglySorted_merge_sort R)].
    intros a b Hab. by apply HR.
Qed.

(** C6.  Whatever order [range] visits the registry in and however
    [sort.Slice] breaks ties, LIST answers OK with the summaries of all
    registered instances, each once, sorted by creation time ascending.
    A summary shows WAITING in place of RUNNING exactly when the last
    output of the instance is more than two seconds old; every state
    other than RUNNING, the terminal states among them, is shown as it
    is, however long the instance has been silent. *)
Theorem handleList_sorted rangeOrder sortSlice w d c :
  visitsAll rangeOrder -> sortsByKey sortSlice ->
  let r := handleList rangeOrder sortSlice w d c in
  let now := clock w in
  (exists infos delivered,
      traceOf r = [Respond (Proto.Response.list infos) delivered]
      /\ StronglySorted (fun a b => (Proto.InstanceInfo.CreatedAt a
                                     <= Proto.InstanceInfo.CreatedAt b)%Z) infos
      /\ Permutation infos (Info now <$> (map_to_list (instances d)).*2))
  /\ daemonOf r = d
  /\ forall inst,
      (state inst = StateRunning ->
       (Proto.InstanceInfo.State (Info now inst) = StateWaiting <-> idle now inst)
       /\ (Proto.InstanceInfo.State (Info now inst) = StateRunning <-> ~ idle now inst))
      /\ (state inst <> StateRunning ->
          Proto.InstanceInfo.State (Info now inst) = state inst)
      /\ (IsTerminal (state inst) = true ->
          Proto.InstanceInfo.State (Info now inst) = state inst).
Proof.
  intros Hrange Hsort r now. split; [| split].
  - subst r. unfold handleList.
    match goal with |- context [respond ?x d c] =>
      destruct (HandlerProofs.traceOf_respond x d c) as [delivered Ht] end.
    eexists _, delivered. split; [exact Ht |].
    destruct (Hsort _ Proto.InstanceInfo.CreatedAt
                (map (Info (clock w)) (rangeOrder (instances d)))) as [Hperm Hsorted].
    split; [exact Hsorted |]. rewrite Hperm. by apply Permutation_map.
  - subst r. unfold handleList. apply HandlerProofs.daemonOf_respond.
  - intros inst. destruct (Info_State now inst) as (Hw & Hr & Hother).
    split; [| split].
    + intros Hrun. split; split.
      * intros Hs. destruct (Z_lt_dec (2 * Second) (now - lastOutputTime inst)) as [Hi | Hi];
          [done |]. rewrite (Hr Hrun Hi) in Hs. discriminate.
      * by apply Hw.
      * intros Hs Hi. rewrite (Hw Hrun Hi) in Hs. discriminate.
      * by apply Hr.
    + exact Hother.
    + intros Ht. by apply Hother, terminal_not_running.
Qed.

Lemma handleList_sorted_witness :
  let w := Samples.world (inl "unused") (fun _ => ([], None)) in
  let r := handleList Samples.rangeOrder Samples.sortSlice w Samples.twoInstances
             Samples.client in
  (exists infos delivered,
      traceOf r = [Respond (Proto.Response.list infos) delivered]
      /\ StronglySorted (fun a b => (Proto.InstanceInfo.CreatedAt a
                                     <= Proto.InstanceInfo.CreatedAt b)%Z) infos
      /\ Permutation infos
           (map (Info (clock w)) (map_to_list (instances Samples.twoInstances)).*2))
  /\ map (fun resp => map Proto.InstanceInfo.ID (Proto.Response.Instances resp))
       (responses (traceOf r))
     = [["2"; "1"]]
  /\ Proto.InstanceInfo.State (Info (clock w) Samples.old) = StateWaiting
  /\ Proto.InstanceInfo.State (Info (clock w) Samples.young) = StateRunning.
Proof.
  intros w r.
  destruct (handleList_sorted Samples.rangeOrder Samples.sortSlice w Samples.twoInstances
              Samples.client sample_visitsAll sample_sortsByKey) as (Hlist & _ & Hinfo).
  split; [exact Hlist |]. split; [vm_compute; reflexivity |]. split.
  - apply (proj1 (Hinfo Samples.old)); [reflexivity |]. vm_compute. reflexivity.
  - apply (proj1 (Hinfo Samples.young)); [reflexivity |]. vm_compute. discriminate.
Defined.

End ListProofs.

(** ** Strings *)

Module StringProofs.
Import GoStrings.

#[local] Arguments append !s1 s2 / : simpl nomatch.

Lemma append_nil_r s : s +:+ "" = s.
Proof. induction s as [|c s IH]; cbn [append]; [done | by rewrite IH]. Qed.

Lemma append_assoc a b c : (a +:+ b) +:+ c = a +:+ (b +:+ c).
Proof. induction a as [|x a IH]; cbn [append String.length]; [done | by rewrite IH]. Qed.

Lemma append_length a b :
  String.length (a +:+ b) = String.length a + String.length b.
Proof. induction a as [|x a IH]; cbn [append String.length]; [done | by rewrite IH]. Qed.

Lemma rev_append_spec s acc : rev_append s acc = rev s +:+ acc.
Proof.
  unfold rev. revert acc. induction s as [|c s IH]; intros acc; cbn; [done |].
  rewrite IH, (IH (String c "")), append_assoc. done.
Qed.

Lemma rev_cons c s : rev (String c s) = rev s +:+ String c "".
Proof. unfold rev at 1. cbn. apply rev_append_spec. Qed.

Lemma rev_app a b : rev (a +:+ b) = rev b +:+ rev a.
Proof.
  induction a as [|x a IH]; cbn [append].
  - by rewrite append_nil_r.
  - by rewrite !rev_cons, IH, append_assoc.
Qed.

Lemma rev_rev s : rev (rev s) = s.
Proof.
  induction s as [|c s IH]; [done |]. by rewrite rev_cons, rev_app, IH.
Qed.

Lemma length_rev s : String.length (rev s) = String.length s.
Proof.
  induction s as [|c s IH]; [done |]. rewrite rev_cons, append_length, IH. cbn. lia.
Qed.

Section Strip.
Variable p1 : ascii -> bool.
Variable p2 : ascii -> ascii -> bool.
Variable p3 : ascii -> ascii -> ascii -> bool.

Abbreviation leading := (leading p1 p2 p3).
Abbreviation strip := (strip p1 p2 p3).
Abbreviation Runes := (Runes p1 p2 p3).

Lemma strip_unfold s :
  strip s = match leading s with Some r => strip r | None => s end.
Proof.
  destruct s as [|c1 [|c2 [|c3 r3]]]; cbn; try done.
  - by destruct (p1 c1).
  - destruct (p1 c1); [done |]. by destruct (p2 c1 c2).
  - destruct (p1 c1); [done |]. destruct (p2 c1 c2); [done |]. by destruct (p3 c1 c2 c3).
Qed.

(** A leading rune is a prefix of one, two or three bytes. *)
Lemma leading_Some s r :
  leading s = Some r ->
  exists l, s = l +:+ r /\ Runes l /\ String.length r < String.length s.
Proof.
  destruct s as [|c1 r1]; cbn; [done |].
  destruct (p1 c1) eqn:E1.
  { intros [= <-]. exists (String c1 ""). split; [done |]. split; [| cbn; lia].
    by apply Runes_1; [| constructor]. }
  destruct r1 as [|c2 r2]; [done |].
  destruct (p2 c1 c2) eqn:E2.
  { intros [= <-]. exists (String c1 (String c2 "")). split; [done |]. split; [| cbn; lia].
    by apply Runes_2; [| constructor]. }
  destruct r2 as [|c3 r3]; [done |].
  destruct (p3 c1 c2 c3) eqn:E3; [| done].
  intros [= <-]. exists (String c1 (String c2 (String c3 ""))). split; [done |].
  split; [| cbn; lia]. by apply Runes_3; [| constructor].
Qed.

Lemma Runes_app a b : Runes a -> Runes b -> Runes (a +:+ b).
Proof.
  induction 1 as [|c s Hc _ IH|c1 c2 s Hc _ IH|c1 c2 c3 s Hc _ IH]; intros Hb; cbn [append].
  - done.
  - apply Runes_1; auto.
  - apply Runes_2; auto.
  - apply Runes_3; auto.
Qed.

(** [strip] removes a prefix of runes of the class and stops where no
    such rune leads. *)
Lemma strip_spec s :
  exists l, s = l +:+ strip s /\ Runes l /\ leading (strip s) = None.
Proof.
  remember (String.length s) as n eqn:Hn. revert s Hn.
  induction n as [n IH] using lt_wf_ind. intros s ->.
  rewrite strip_unfold. destruct (leading s) as [r|] eqn:E.
  - destruct (leading_Some s r E) as (l & -> & Hl & Hlen).
    destruct (IH _ Hlen r eq_refl) as (l' & Hr & Hl' & Hnone).
    exists (l +:+ l'). rewrite append_assoc, <- Hr. split; [done |].
    split; [by apply Runes_app | done].
  - exists "". split; [done |]. split; [constructor | done].
Qed.

(** A rune that leads a string leads every extension of it. *)
Lemma leading_app s r t : leading s = Some r -> leading (s +:+ t) = Some (r +:+ t).
Proof.
  destruct s as [|c1 r1]; cbn; [done |].
  destruct (p1 c1); [by intros [= <-] |].
  destruct r1 as [|c2 r2]; cbn; [done |].
  destruct (p2 c1 c2); [by intros [= <-] |].
  destruct r2 as [|c3 r3]; cbn; [done |].
  destruct (p3 c1 c2 c3); [by intros [= <-] | done].
Qed.

End Strip.

(** Runes read back to front. *)
Lemma Runes_rev p1 p2 p3 s :
  Runes p1 (fun a b => p2 b a) (fun a b c => p3 c b a) s -> Runes p1 p2 p3 (rev s).
Proof.
  induction 1 as [|c s Hc _ IH|c1 c2 s Hc _ IH|c1 c2 c3 s Hc _ IH].
  - constructor.
  - rewrite rev_cons. apply Runes_app; [done |]. by apply Runes_1; [| constructor].
  - rewrite !rev_cons, append_assoc. apply Runes_app; [done |].
    by apply Runes_2; [| constructor].
  - rewrite !rev_cons, !append_assoc. apply Runes_app; [done |].
    by apply Runes_3; [| constructor].
Qed.

(** What [TrimSpace] returns: the string between a prefix and a suffix of
    white space, with no space left at either end. *)
Section Deterministic.
(** Classes in which the first byte of a rune tells its length. *)
Variable p1 : ascii -> bool.
Variable p2 : ascii -> ascii -> bool.
Variable p3 : ascii -> ascii -> ascii -> bool.
Hypothesis two_bytes : forall c1 c2, p2 c1 c2 = true -> p1 c1 = false.
Hypothesis three_bytes :
  forall c1 c2 c3, p3 c1 c2 c3 = true -> p1 c1 = false /\ p2 c1 c2 = false.

Lemma strip_Runes_app l s :
  Runes p1 p2 p3 l -> strip p1 p2 p3 (l +:+ s) = strip p1 p2 p3 s.
Proof.
  induction 1 as [|c r Hc _ IH|c1 c2 r Hc _ IH|c1 c2 c3 r Hc _ IH].
  - done.
  - cbn [append strip]. by rewrite Hc.
  - cbn [append strip]. by rewrite (two_bytes _ _ Hc), Hc.
  - cbn [append strip]. destruct (three_bytes _ _ _ Hc) as [-> ->]. by rewrite Hc.
Qed.

End Deterministic.

Lemma TrimSpace_spec s :
  exists l r,
    s = l +:+ TrimSpace s +:+ r /\ WhiteSpace l /\ WhiteSpace r
    /\ startsWithSpace (TrimSpace s) = false /\ endsWithSpace (TrimSpace s) = false.
Proof.
  unfold TrimSpace, TrimLeftSpace, TrimRightSpace.
  destruct (strip_spec space1 space2 space3 s) as (l & Hs & Hl & Hlead).
  set (t := strip space1 space2 space3 s) in *.
  destruct (strip_spec space1 space2r space3r (rev t)) as (r' & Ht & Hr & Htrail).
  set (u := strip space1 space2r space3r (rev t)) in *.
  assert (Ht' : t = rev u +:+ rev r').
  { rewrite <- (rev_rev t), Ht, rev_app. done. }
  exists l, (rev r'). split; [by rewrite <- Ht' |]. split; [done |].
  split; [by apply Runes_rev |]. split.
  - unfold startsWithSpace.
    destruct (leading space1 space2 space3 (rev u)) as [x|] eqn:E; [| done].
    apply (leading_app _ _ _ _ _ (rev r')) in E. rewrite <- Ht' in E. congruence.
  - unfold endsWithSpace. by rewrite rev_rev, Htrail.
Qed.

(** ** [Contains] and [Cut] for a one-byte separator *)

Lemma HasPrefix_byte s c :
  HasPrefix s (String c "") = match s with String x _ => Ascii.eqb x c | "" => false end.
Proof. destruct s as [|x [|y r]]; cbn; by rewrite ?andb_true_r. Qed.

Lemma Contains_app_byte a b c :
  Contains (a +:+ b) (String c "") = Contains a (String c "") || Contains b (String c "").
Proof.
  induction a as [|x a IH].
  - cbn [append]. rewrite (HasPrefix_byte "" c) at 1. by destruct b.
  - cbn [append Contains]. rewrite !HasPrefix_byte, IH. by rewrite orb_assoc.
Qed.

Lemma Cut_found s sep : (Cut s sep).2 = Contains s sep.
Proof.
  induction s as [|x s IH]; cbn [Cut Contains].
  - destruct (HasPrefix "" sep); done.
  - destruct (HasPrefix (String x s) sep); [done |]. rewrite <- IH.
    by destruct (Cut s sep) as [[? ?] []].
Qed.

(** [Cut] splits at the first separator. *)
Lemma Cut_first k v c :
  Contains k (String c "") = false ->
  Cut (k +:+ String c v) (String c "") = (k, v, true).
Proof.
  induction k as [|x k IH]; intros Hk.
  - cbn [append Cut]. rewrite HasPrefix_byte, Ascii.eqb_refl. done.
  - cbn [Contains] in Hk. rewrite HasPrefix_byte in Hk. apply orb_false_iff in Hk as [Hx Hk].
    cbn [append Cut]. rewrite HasPrefix_byte, Hx, (IH Hk). done.
Qed.

Lemma Cut_split s c :
  Contains s (String c "") = true ->
  exists k v, s = k +:+ String c v /\ Contains k (String c "") = false.
Proof.
  induction s as [|x s IH]; [done |]. cbn [Contains]. rewrite HasPrefix_byte.
  destruct (Ascii.eqb_spec x c) as [-> | Hx].
  - intros _. by exists "", s.
  - cbn [orb]. intros Hs. destruct (IH Hs) as (k & v & -> & Hk).
    exists (String x k), v. split; [done |]. cbn [Contains]. rewrite HasPrefix_byte, Hk.
    by apply Ascii.eqb_neq in Hx as ->.
Qed.

End StringProofs.

(** ** The line scanner *)

Module ScannerProofs.
Import GoStrings Bufio StringProofs.

#[local] Arguments append !s1 s2 / : simpl nomatch.

Lemma scanLines_line line pending n rest :
  Contains line (String newline "") = false ->
  (n + N.of_nat (String.length line) < MaxScanTokenSize)%N ->
  scanLines (line +:+ String newline rest) pending n
  = dropCR (rev_append line pending) :: scanLines rest "" 0.
Proof.
  revert pending n. induction line as [|c line IH]; intros pending n Hnl Hlen.
  - cbn [append scanLines rev_append]. by rewrite Ascii.eqb_refl.
  - cbn [Contains] in Hnl. rewrite HasPrefix_byte in Hnl.
    apply orb_false_iff in Hnl as [Hc Hnl].
    cbn [append scanLines rev_append]. rewrite Hc.
    cbn [String.length] in Hlen.
    destruct (N.leb_spec MaxScanTokenSize (N.succ n)) as [Hfull | _]; [lia |].
    apply IH; [done | lia].
Qed.

(** The scanner hands out the lines of a file, each without its trailing
    carriage return, as long as every line fits its buffer. *)
Lemma Lines_joinLines lines :
  Forall fits lines -> Lines (joinLines lines) = map chomp lines.
Proof.
  unfold Lines. induction 1 as [|line lines [Hnl Hlen] _ IH]; [done |].
  cbn [joinLines map]. rewrite scanLines_line; [| done | by rewrite N.add_0_l].
  by rewrite IH.
Qed.

(** A line that does not fit ends the scan: neither it nor any later line
    is handed out. *)
Lemma scanLines_too_long line pending n rest :
  Contains line (String newline "") = false ->
  (n < MaxScanTokenSize)%N ->
  (MaxScanTokenSize <= n + N.of_nat (String.length line))%N ->
  scanLines (line +:+ rest) pending n = [].
Proof.
  revert pending n. induction line as [|c line IH]; intros pending n Hnl Hn Hlen.
  - cbn [String.length] in Hlen. lia.
  - cbn [Contains] in Hnl. rewrite HasPrefix_byte in Hnl.
    apply orb_false_iff in Hnl as [Hc Hnl].
    cbn [append scanLines]. rewrite Hc.
    destruct (N.leb_spec MaxScanTokenSize (N.succ n)) as [Hfull | Hroom]; [done |].
    apply IH; [done | done |]. cbn [String.length] in Hlen. lia.
Qed.

End ScannerProofs.

(** ** The dotenv loader *)

Module EnvfileProofs.
Import GoStrings Bufio Envfile StringProofs ScannerProofs.

#[local] Arguments append !s1 s2 / : simpl nomatch.

(** The first byte tells the one-, two- and three-byte spaces apart. *)
Lemma space2_first c1 c2 : space2 c1 c2 = true -> code c1 = 194.
Proof. unfold space2. intros [H _]%andb_true_iff. by apply Nat.eqb_eq. Qed.

Lemma space3_first c1 c2 c3 :
  space3 c1 c2 c3 = true -> code c1 = 225 \/ code c1 = 226 \/ code c1 = 227.
Proof.
  unfold space3. cbv zeta. rewrite !orb_true_iff, !andb_true_iff, !Nat.eqb_eq. tauto.
Qed.

Lemma space1_high c : 128 <= code c -> space1 c = false.
Proof.
  unfold space1. cbv zeta. intros H.
  apply orb_false_iff. split.
  - apply andb_false_iff. right. apply Nat.leb_gt. lia.
  - apply Nat.eqb_neq. lia.
Qed.

Lemma space2_not_194 c1 c2 : code c1 <> 194 -> space2 c1 c2 = false.
Proof. unfold space2. intros H. apply Nat.eqb_neq in H. by rewrite H. Qed.

(** White space is trimmed away entirely. *)
Lemma TrimLeftSpace_WhiteSpace s : WhiteSpace s -> TrimLeftSpace s = "".
Proof.
  unfold WhiteSpace, TrimLeftSpace.
  induction 1 as [|c s Hc _ IH|c1 c2 s Hc _ IH|c1 c2 c3 s Hc _ IH].
  - done.
  - cbn [strip]. by rewrite Hc.
  - cbn [strip]. rewrite Hc.
    rewrite space1_high by (rewrite (space2_first _ _ Hc); lia). done.
  - cbn [strip]. rewrite Hc.
    pose proof (space3_first _ _ _ Hc) as H1.
    rewrite space1_high by lia. rewrite space2_not_194 by lia. done.
Qed.

Lemma TrimSpace_WhiteSpace s : WhiteSpace s -> TrimSpace s = "".
Proof. intros H. unfold TrimSpace. by rewrite TrimLeftSpace_WhiteSpace. Qed.


Lemma space2_low x c : code c < 128 -> space2 x c = false /\ space2 c x = false.
Proof.
  unfold space2. intros H. split.
  - destruct (Nat.eqb_spec (code x) 194); [| done]. cbn [andb].
    apply orb_false_iff. split; apply Nat.eqb_neq; lia.
  - destruct (Nat.eqb_spec (code c) 194); [lia | done].
Qed.

Lemma space3_low_last x y c : code c < 128 -> space3 x y c = false.
Proof.
  unfold space3. cbv zeta. intros H.
  assert (H1 : Nat.eqb (code c) 128 = false) by (apply Nat.eqb_neq; lia).
  assert (H2 : Nat.leb 128 (code c) = false) by (apply Nat.leb_gt; lia).
  assert (H3 : Nat.eqb (code c) 168 = false) by (apply Nat.eqb_neq; lia).
  assert (H4 : Nat.eqb (code c) 169 = false) by (apply Nat.eqb_neq; lia).
  assert (H5 : Nat.eqb (code c) 175 = false) by (apply Nat.eqb_neq; lia).
  assert (H6 : Nat.eqb (code c) 159 = false) by (apply Nat.eqb_neq; lia).
  rewrite H1, H2, H3, H4, H5, H6. cbn [andb orb]. by rewrite !andb_false_r.
Qed.

Lemma space3_low_first c y z : code c < 128 -> space3 c y z = false.
Proof.
  intros H. destruct (space3 c y z) eqn:E; [| done].
  apply space3_first in E. lia.
Qed.

Lemma TrimLeftSpace_plain c s : plain c -> TrimLeftSpace (String c s) = String c s.
Proof.
  intros [Hlow Hsp]. unfold TrimLeftSpace. cbn [strip]. rewrite Hsp.
  destruct s as [|c2 [|c3 s]]; [done | |].
  - by rewrite (proj2 (space2_low c2 c Hlow)).
  - by rewrite (proj2 (space2_low c2 c Hlow)), space3_low_first.
Qed.

Lemma leading_plain_last a c :
  plain c ->
  leading space1 space2r space3r (a +:+ String c "")
  = match leading space1 space2r space3r a with
    | Some r => Some (r +:+ String c "")
    | None => None
    end.
Proof.
  intros [Hlow Hsp]. unfold space2r, space3r.
  destruct a as [|c1 [|c2 [|c3 a]]]; cbn [append leading].
  - by rewrite Hsp.
  - destruct (space1 c1); [done |]. by rewrite (proj2 (space2_low c1 c Hlow)).
  - destruct (space1 c1); [done |]. destruct (space2 c2 c1); [done |].
    by rewrite space3_low_first.
  - by destruct (space1 c1), (space2 c2 c1), (space3 c3 c2 c1).
Qed.

Lemma strip_plain_last a c :
  plain c ->
  strip space1 space2r space3r (a +:+ String c "")
  = strip space1 space2r space3r a +:+ String c "".
Proof.
  intros Hc. remember (String.length a) as n eqn:Hn. revert a Hn.
  induction n as [n IH] using lt_wf_ind. intros a ->.
  rewrite (strip_unfold _ _ _ (a +:+ String c "")), (strip_unfold _ _ _ a).
  rewrite leading_plain_last by done.
  destruct (leading space1 space2r space3r a) as [r|] eqn:E; [| done].
  destruct (leading_Some _ _ _ _ _ E) as (_ & _ & _ & Hlen).
  by apply (IH _ Hlen).
Qed.

(** A line that starts with a plain byte keeps it when trimmed. *)
Lemma TrimSpace_plain c s :
  plain c -> exists t, TrimSpace (String c s) = String c t.
Proof.
  intros Hc. unfold TrimSpace. rewrite TrimLeftSpace_plain by done.
  unfold TrimRightSpace. rewrite rev_cons, strip_plain_last by done.
  rewrite rev_app. change (rev (String c "")) with (String c "").
  by exists (rev (strip space1 space2r space3r (rev s))).
Qed.

Lemma plain_hash : plain "#"%char.
Proof. split; [vm_compute; lia | reflexivity]. Qed.

(** No space holds a byte below 128 that is not itself a space. *)
Lemma WhiteSpace_no_plain s c :
  plain c -> WhiteSpace s -> Contains s (String c "") = false.
Proof.
  intros [Hlow Hsp]. unfold WhiteSpace.
  assert (Hne : forall x, 128 <= code x \/ space1 x = true -> Ascii.eqb x c = false).
  { intros x Hx. apply Ascii.eqb_neq. intros ->. destruct Hx; [lia | congruence]. }
  induction 1 as [|c1 s Hc _ IH|c1 c2 s Hc _ IH|c1 c2 c3 s Hc _ IH].
  - done.
  - cbn [Contains]. rewrite HasPrefix_byte, IH, Hne by auto. done.
  - cbn [Contains]. rewrite !HasPrefix_byte, IH.
    unfold space2 in Hc. apply andb_true_iff in Hc as [H1 H2].
    apply Nat.eqb_eq in H1. apply orb_true_iff in H2. rewrite !Nat.eqb_eq in H2.
    rewrite !Hne by (left; lia). done.
  - cbn [Contains]. rewrite !HasPrefix_byte, IH.
    unfold space3 in Hc. cbv zeta in Hc.
    repeat (rewrite orb_true_iff in Hc || rewrite andb_true_iff in Hc).
    rewrite !Nat.eqb_eq, !Nat.leb_le in Hc.
    rewrite !Hne by (left; lia). done.
Qed.

(** The bytes of the spaces. *)
Lemma space2_bytes c1 c2 : space2 c1 c2 = true -> code c1 = 194 /\ 128 <= code c2 <= 175.
Proof.
  unfold space2. rewrite andb_true_iff, orb_true_iff, !Nat.eqb_eq. lia.
Qed.

Lemma space3_bytes c1 c2 c3 :
  space3 c1 c2 c3 = true ->
  225 <= code c1 <= 227 /\ 128 <= code c2 <= 154 /\ 128 <= code c3 <= 175.
Proof.
  unfold space3. cbv zeta. intros Hc.
  repeat (rewrite orb_true_iff in Hc || rewrite andb_true_iff in Hc).
  rewrite !Nat.eqb_eq, !Nat.leb_le in Hc. lia.
Qed.

Lemma space1_low c : space1 c = true -> code c <= 32.
Proof.
  unfold space1. cbv zeta.
  rewrite orb_true_iff, andb_true_iff, Nat.eqb_eq, !Nat.leb_le. lia.
Qed.

Lemma space_two_bytes c1 c2 : space2 c1 c2 = true -> space1 c1 = false.
Proof. intros [H _]%space2_bytes. apply space1_high. lia. Qed.

Lemma space_three_bytes c1 c2 c3 :
  space3 c1 c2 c3 = true -> space1 c1 = false /\ space2 c1 c2 = false.
Proof.
  intros (H & _ & _)%space3_bytes. split; [apply space1_high | apply space2_not_194]; lia.
Qed.

Lemma space_two_bytes_r c1 c2 : space2r c1 c2 = true -> space1 c1 = false.
Proof. unfold space2r. intros [_ H]%space2_bytes. apply space1_high. lia. Qed.

Lemma space_three_bytes_r c1 c2 c3 :
  space3r c1 c2 c3 = true -> space1 c1 = false /\ space2r c1 c2 = false.
Proof.
  unfold space3r, space2r. intros (_ & H2 & H3)%space3_bytes.
  split; [apply space1_high | apply space2_not_194]; lia.
Qed.


Lemma space2_starts x c : starts c -> space2 x c = false.
Proof.
  intros Hc. destruct (space2 x c) eqn:E; [| done]. apply space2_bytes in E. unfold starts in Hc. lia.
Qed.

Lemma space3_starts_mid x c y : starts c -> space3 x c y = false.
Proof.
  intros Hc. destruct (space3 x c y) eqn:E; [| done]. apply space3_bytes in E. unfold starts in Hc. lia.
Qed.

Lemma space3_starts_last x y c : starts c -> space3 x y c = false.
Proof.
  intros Hc. destruct (space3 x y c) eqn:E; [| done]. apply space3_bytes in E. unfold starts in Hc. lia.
Qed.

Lemma WhiteSpace_starts r :
  WhiteSpace r -> r = "" \/ exists x r', r = String x r' /\ starts x.
Proof.
  unfold WhiteSpace, starts. destruct 1 as [|c s Hc _|c1 c2 s Hc _|c1 c2 c3 s Hc _].
  - by left.
  - right. exists c, s. split; [done |]. apply space1_low in Hc. lia.
  - right. eexists _, _. split; [done |]. apply space2_bytes in Hc. lia.
  - right. eexists _, _. split; [done |]. apply space3_bytes in Hc. lia.
Qed.

(** White space around a string does not change what trimming leaves. *)
Lemma TrimLeftSpace_app_l l s : WhiteSpace l -> TrimLeftSpace (l +:+ s) = TrimLeftSpace s.
Proof.
  apply strip_Runes_app; [apply space_two_bytes | apply space_three_bytes].
Qed.

Lemma TrimSpace_app_l l s : WhiteSpace l -> TrimSpace (l +:+ s) = TrimSpace s.
Proof. intros Hl. unfold TrimSpace. by rewrite TrimLeftSpace_app_l. Qed.

Lemma TrimRightSpace_app_r s r : WhiteSpace r -> TrimRightSpace (s +:+ r) = TrimRightSpace s.
Proof.
  intros Hr. unfold TrimRightSpace. rewrite rev_app. f_equal.
  apply strip_Runes_app; [apply space_two_bytes_r | apply space_three_bytes_r |].
  apply (Runes_rev space1 space2r space3r). exact Hr.
Qed.

Lemma leading_None_app t r :
  t <> "" -> leading space1 space2 space3 t = None -> WhiteSpace r ->
  leading space1 space2 space3 (t +:+ r) = None.
Proof.
  intros Ht Hlead Hr.
  destruct (WhiteSpace_starts r Hr) as [-> | (x & r' & -> & Hx)].
  { by rewrite append_nil_r. }
  destruct t as [|c1 [|c2 [|c3 t]]]; [done | | |].
  - cbn [leading] in Hlead. cbn [append leading].
    destruct (space1 c1); [done |]. rewrite space2_starts by done.
    destruct r' as [|y r'']; [done |]. by rewrite space3_starts_mid.
  - cbn [leading] in Hlead. cbn [append leading].
    destruct (space1 c1); [done |]. destruct (space2 c1 c2); [done |].
    by rewrite space3_starts_last.
  - cbn [leading] in Hlead. cbn [append leading].
    destruct (space1 c1); [done |]. destruct (space2 c1 c2); [done |].
    by destruct (space3 c1 c2 c3).
Qed.

Lemma TrimSpace_app_r s r : WhiteSpace r -> TrimSpace (s +:+ r) = TrimSpace s.
Proof.
  intros Hr. unfold TrimSpace.
  destruct (strip_spec space1 space2 space3 s) as (l & Hs & Hl & Hlead).
  fold (TrimLeftSpace s) in Hs, Hlead.
  rewrite Hs at 1. rewrite append_assoc, TrimLeftSpace_app_l by done.
  destruct (TrimLeftSpace s) as [|c t] eqn:E.
  - cbn [append]. by rewrite TrimLeftSpace_WhiteSpace.
  - rewrite <- E in Hlead |- *.
    assert (Hnone : leading space1 space2 space3 (TrimLeftSpace s +:+ r) = None).
    { apply leading_None_app; [by rewrite E | done | done]. }
    unfold TrimLeftSpace at 1. rewrite strip_unfold, Hnone.
    by apply TrimRightSpace_app_r.
Qed.

(** The scanner's dropping of a carriage return makes no difference to
    the loader, which trims the line anyway. *)
Lemma chomp_cases line :
  chomp line = line \/ line = chomp line +:+ String carriageReturn "".
Proof.
  unfold chomp, dropCR. destruct (rev line) as [|c r] eqn:E.
  - left. by rewrite <- (rev_rev line), E.
  - destruct (Ascii.eqb_spec c carriageReturn) as [-> | _].
    + right. by rewrite <- (rev_rev line), E, rev_cons.
    + left. by rewrite <- E, rev_rev.
Qed.

Lemma TrimSpace_chomp line : TrimSpace (chomp line) = TrimSpace line.
Proof.
  destruct (chomp_cases line) as [-> | H]; [done |].
  rewrite H at 2. symmetry. apply TrimSpace_app_r.
  by apply Runes_1; [| constructor].
Qed.

Lemma loadLine_TrimSpace env a b : TrimSpace a = TrimSpace b -> loadLine env a = loadLine env b.
Proof. intros H. unfold loadLine. by rewrite H. Qed.

Lemma loadLine_chomp env line : loadLine env (chomp line) = loadLine env line.
Proof. apply loadLine_TrimSpace, TrimSpace_chomp. Qed.

Lemma fold_loadLine_chomp lines env :
  fold_left loadLine (map chomp lines) env = fold_left loadLine lines env.
Proof.
  revert env. induction lines as [|line lines IH]; intros env; [done |].
  cbn [map fold_left]. by rewrite loadLine_chomp, IH.
Qed.

(** ** Lines of a file *)

Lemma scanLines_last last pending n :
  Contains last (String newline "") = false ->
  (n + N.of_nat (String.length last) < MaxScanTokenSize)%N ->
  scanLines last pending n = scanLines "" (rev_append last pending) 0.
Proof.
  revert pending n. induction last as [|c last IH]; intros pending n Hnl Hlen; [done |].
  cbn [Contains] in Hnl. rewrite HasPrefix_byte in Hnl.
  apply orb_false_iff in Hnl as [Hc Hnl].
  cbn [scanLines rev_append]. rewrite Hc. cbn [String.length] in Hlen.
  destruct (N.leb_spec MaxScanTokenSize (N.succ n)) as [Hfull | _]; [lia |].
  apply IH; [done | lia].
Qed.

Lemma joinLines_cons_app line lines rest :
  joinLines (line :: lines) +:+ rest = line +:+ String newline (joinLines lines +:+ rest).
Proof. cbn [joinLines]. by rewrite append_assoc. Qed.

Lemma Lines_file lines last :
  Forall fits lines -> fits last ->
  Lines (joinLines lines +:+ last) = map chomp lines ++ scanLines "" (rev last) 0.
Proof.
  unfold Lines. intros Hlines [Hnl Hlen].
  induction Hlines as [|line lines [Hnl1 Hlen1] _ IH].
  - cbn [joinLines append map app]. rewrite scanLines_last; [done | done | by rewrite N.add_0_l].
  - rewrite joinLines_cons_app, scanLines_line; [| done | by rewrite N.add_0_l].
    cbn [map app]. by rewrite IH.
Qed.

Lemma Lines_too_long good long rest :
  Forall fits good ->
  Contains long (String newline "") = false ->
  (MaxScanTokenSize <= N.of_nat (String.length long))%N ->
  Lines (joinLines good +:+ long +:+ rest) = map chomp good.
Proof.
  unfold Lines. intros Hgood Hnl Hlen.
  induction Hgood as [|line lines [Hnl1 Hlen1] _ IH].
  - cbn [joinLines append map]. apply scanLines_too_long; [done | done | by rewrite N.add_0_l].
  - rewrite joinLines_cons_app, scanLines_line; [| done | by rewrite N.add_0_l].
    cbn [map]. by rewrite IH.
Qed.

(** Every file is made of lines. *)
Lemma file_lines data :
  exists lines last,
    data = joinLines lines +:+ last
    /\ Forall (fun line => Contains line (String newline "") = false) lines
    /\ Contains last (String newline "") = false.
Proof.
  induction data as [|c data (lines & last & -> & Hlines & Hlast)].
  { by exists [], "". }
  destruct (Ascii.eqb_spec c newline) as [-> | Hc].
  { exists ("" :: lines), last. split; [done |]. split; [by constructor | done]. }
  assert (Hcons : forall s, Contains s (String newline "") = false ->
                            Contains (String c s) (String newline "") = false).
  { intros s Hs. cbn [Contains]. rewrite HasPrefix_byte, Hs.
    by apply Ascii.eqb_neq in Hc as ->. }
  destruct lines as [|line lines].
  - exists [], (String c last). split; [done |]. split; [done | by apply Hcons].
  - exists (String c line :: lines), last. split; [done |].
    inversion Hlines; subst. split; [constructor; auto | done].
Qed.

(** ** One line *)

Lemma plain_equals : plain "="%char.
Proof. split; [vm_compute; lia | reflexivity]. Qed.

Lemma loadLine_blank env text : WhiteSpace text -> loadLine env text = env.
Proof. intros H. unfold loadLine. by rewrite TrimSpace_WhiteSpace. Qed.

Lemma comment_line text :
  HasPrefix (TrimSpace text) "#" = true
  <-> exists l t, WhiteSpace l /\ text = l +:+ "#" +:+ t.
Proof.
  split.
  - intros H. destruct (TrimSpace_spec text) as (l & r & Htext & Hl & _).
    rewrite HasPrefix_byte in H. destruct (TrimSpace text) as [|x t]; [done |].
    apply Ascii.eqb_eq in H as ->. exists l, (t +:+ r). split; [done |].
    rewrite Htext. done.
  - intros (l & t & Hl & ->). rewrite TrimSpace_app_l by done.
    destruct (TrimSpace_plain "#" t plain_hash) as [t' Ht'].
    change ("#" +:+ t) with (String "#" t). rewrite Ht'. apply HasPrefix_byte.
Qed.

Lemma loadLine_comment env l t : WhiteSpace l -> loadLine env (l +:+ "#" +:+ t) = env.
Proof.
  intros Hl. unfold loadLine.
  rewrite (proj2 (comment_line (l +:+ "#" +:+ t))) by eauto.
  by rewrite orb_true_r.
Qed.

Lemma loadLine_no_equals env text : Contains text "=" = false -> loadLine env text = env.
Proof.
  intros H. unfold loadLine. cbv zeta.
  destruct (String.eqb (TrimSpace text) "" || HasPrefix (TrimSpace text) "#"); [done |].
  destruct (TrimSpace_spec text) as (l & r & Htext & _).
  rewrite Htext, !Contains_app_byte in H.
  apply orb_false_iff in H as [_ [H _]%orb_false_iff].
  rewrite <- Cut_found in H. by destruct (Cut (TrimSpace text) "=") as [[? ?] []].
Qed.

Lemma split_left k v l x c :
  k +:+ String c v = l +:+ x -> Contains l (String c "") = false ->
  exists k', k = l +:+ k' /\ x = k' +:+ String c v.
Proof.
  revert k. induction l as [|y l IH]; intros k Heq Hl.
  - by exists k.
  - cbn [Contains] in Hl. rewrite HasPrefix_byte in Hl.
    apply orb_false_iff in Hl as [Hy Hl]. apply Ascii.eqb_neq in Hy.
    destruct k as [|z k]; cbn [append] in Heq; injection Heq as -> Heq; [done |].
    destruct (IH k Heq Hl) as (k' & -> & ->). by exists k'.
Qed.

Lemma split_right a r k v c :
  a +:+ r = k +:+ String c v -> Contains r (String c "") = false ->
  exists v', v = v' +:+ r /\ a = k +:+ String c v'.
Proof.
  revert a. induction k as [|z k IH]; intros a Heq Hr.
  - destruct a as [|y a]; cbn [append] in Heq.
    + subst r. cbn [Contains] in Hr. by rewrite HasPrefix_byte, Ascii.eqb_refl in Hr.
    + injection Heq as -> <-. by exists a.
  - destruct a as [|y a]; cbn [append] in Heq.
    + subst r. change (String z (k +:+ String c v)) with (String z k +:+ String c v) in Hr.
      rewrite Contains_app_byte in Hr. apply orb_false_iff in Hr as [_ Hr].
      cbn [Contains] in Hr. by rewrite HasPrefix_byte, Ascii.eqb_refl in Hr.
    + injection Heq as -> Heq. destruct (IH a Heq Hr) as (v' & -> & ->). by exists v'.
Qed.

Lemma loadLine_entry env k v :
  Contains k "=" = false ->
  (forall l t, WhiteSpace l -> k +:+ "=" +:+ v <> l +:+ "#" +:+ t) ->
  loadLine env (k +:+ "=" +:+ v) = <[TrimSpace k := TrimSpace v]> env.
Proof.
  intros Hk Hcomment.
  assert (Hhash : HasPrefix (TrimSpace (k +:+ "=" +:+ v)) "#" = false).
  { destruct (HasPrefix (TrimSpace (k +:+ "=" +:+ v)) "#") eqn:E; [| done].
    apply comment_line in E as (l & t & Hl & E). by destruct (Hcomment l t Hl). }
  destruct (TrimSpace_spec (k +:+ "=" +:+ v)) as (l & r & Htext & Hl & Hr & _).
  destruct (split_left k v l _ "=" Htext) as (k' & -> & Hrest).
  { by apply WhiteSpace_no_plain; [apply plain_equals |]. }
  destruct (split_right _ r k' v "=" Hrest) as (v' & -> & Htrim).
  { by apply WhiteSpace_no_plain; [apply plain_equals |]. }
  rewrite Contains_app_byte in Hk. apply orb_false_iff in Hk as [_ Hk'].
  unfold loadLine. cbv zeta. rewrite Hhash, Htrim.
  replace (String.eqb (k' +:+ String "=" v') "") with false by (by destruct k').
  cbn [orb].
  rewrite (Cut_first k' v' "=" Hk').
  by rewrite TrimSpace_app_l, TrimSpace_app_r.
Qed.

(** ** The loader *)

Lemma loadLine_empty env : loadLine env "" = env.
Proof. done. Qed.

Lemma fold_last last env :
  fold_left loadLine (scanLines "" (rev last) 0) env = loadLine env last.
Proof.
  cbn [scanLines]. destruct (rev last) as [|c r] eqn:E.
  - by rewrite <- (rev_rev last), E.
  - rewrite <- E. cbn [fold_left]. apply loadLine_chomp.
Qed.

Lemma Load_file lines last :
  Forall fits lines -> fits last ->
  Load (Some (joinLines lines +:+ last)) = fold_left loadLine (lines ++ [last]) ∅.
Proof.
  intros Hlines Hlast. unfold Load. rewrite Lines_file by done.
  by rewrite !fold_left_app, fold_loadLine_chomp, fold_last.
Qed.

Lemma Load_too_long good long rest :
  Forall fits good ->
  Contains long (String newline "") = false ->
  (MaxScanTokenSize <= N.of_nat (String.length long))%N ->
  Load (Some (joinLines good +:+ long +:+ rest)) = fold_left loadLine good ∅.
Proof.
  intros Hgood Hnl Hlen. unfold Load. rewrite Lines_too_long by done.
  apply fold_loadLine_chomp.
Qed.

(** C8, amended.  The dotenv loader gives the empty map for a file that
    cannot be opened.  For a file whose lines are all shorter than the
    scanner's 64 KiB buffer it is the left-to-right fold of the one-line
    step over the lines, an unterminated last line included; a line that
    does not fit the buffer ends the loading, so that it and all later
    lines yield nothing.  The one-line step leaves the map alone for a
    line of white space only, for a line whose first byte after leading
    white space is #, and for a line without =; any other line
    [k = v], [k] being the text before the first =, binds the trimmed
    [k] to the trimmed [v]. *)
Theorem Load_lines :
  Load None = ∅
  /\ (forall lines last,
        Forall fits lines -> fits last ->
        Load (Some (joinLines lines +:+ last)) = fold_left loadLine (lines ++ [last]) ∅)
  /\ (forall good long rest,
        Forall fits good ->
        Contains long (String newline "") = false ->
        (MaxScanTokenSize <= N.of_nat (String.length long))%N ->
        Load (Some (joinLines good +:+ long +:+ rest)) = fold_left loadLine good ∅)
  /\ (forall env text, WhiteSpace text -> loadLine env text = env)
  /\ (forall env l t, WhiteSpace l -> loadLine env (l +:+ "#" +:+ t) = env)
  /\ (forall env text, Contains text "=" = false -> loadLine env text = env)
  /\ (forall env k v,
        Contains k "=" = false ->
        (forall l t, WhiteSpace l -> k +:+ "=" +:+ v <> l +:+ "#" +:+ t) ->
        loadLine env (k +:+ "=" +:+ v) = <[TrimSpace k := TrimSpace v]> env).
Proof.
  split; [done |].
  split; [apply Load_file |].
  split; [apply Load_too_long |].
  split; [apply loadLine_blank |].
  split; [apply loadLine_comment |].
  split; [apply loadLine_no_equals | apply loadLine_entry].
Qed.

Lemma Load_lines_witness :
  Load (Some (joinLines ["A=1"; "# note"; ""; "plain"; "A = 3"] +:+ " B = 2 "))
  = fold_left loadLine (["A=1"; "# note"; ""; "plain"; "A = 3"] ++ [" B = 2 "]) ∅
  /\ Load (Some (joinLines ["A=1"] +:+ Samples.longLine +:+ String newline "B=2")) = fold_left loadLine ["A=1"] ∅
  /\ loadLine ∅ " " = ∅
  /\ loadLine ∅ (" " +:+ "#" +:+ "A=1") = ∅
  /\ loadLine ∅ "plain" = ∅
  /\ loadLine ∅ (" B " +:+ "=" +:+ " 2 = 3 ") = <[TrimSpace " B " := TrimSpace " 2 = 3 "]> ∅.
Proof.
  destruct Load_lines as (_ & Hfile & Hlong & Hblank & Hcomment & Hplain & Hentry).
  split; [| split; [| split; [| split; [| split]]]].
  - apply Hfile; repeat constructor.
  - apply Hlong; [repeat constructor | vm_compute; reflexivity | vm_compute; discriminate].
  - apply Hblank. by apply Runes_1; [| constructor].
  - apply Hcomment. by apply Runes_1; [| constructor].
  - apply Hplain. reflexivity.
  - apply Hentry; [reflexivity |]. intros l t Hl E.
    assert (H : HasPrefix (TrimSpace (" B " +:+ "=" +:+ " 2 = 3 ")) "#" = true).
    { apply comment_line. eauto. }
    vm_compute in H. discriminate.
Defined.

(** The claim C8 as stated fails.  The line [ #A=1] does not start with
    #, is not blank and has an =, yet yields no entry: the test for # is
    made on the trimmed line.  And a line of 64 KiB or more yields no
    entry, whatever it holds: the scanner gives up on it. *)
Lemma Load_skips_more_lines :
  let stated (line k v : string) :=
    Contains line (String newline "") = false ->
    HasPrefix line "#" = false ->
    ~ WhiteSpace line ->
    line = k +:+ "=" +:+ v ->
    Contains k "=" = false ->
    Load (Some line) = {[TrimSpace k := TrimSpace v]} in
  ~ stated " #A=1" " #A" "1"
  /\ ~ stated ("A=" +:+ Samples.longLine) "A" Samples.longLine.
Proof.
  assert (Hwhite : forall s, Contains s "=" = true -> ~ WhiteSpace s).
  { intros s Hs Hw. apply (WhiteSpace_no_plain s "=" plain_equals) in Hw. congruence. }
  cbv zeta. split; intros H.
  - assert (Hempty : Load (Some " #A=1") = ∅) by (vm_compute; reflexivity).
    rewrite H in Hempty; [| reflexivity | reflexivity | by apply Hwhite | reflexivity | reflexivity].
    by apply map_non_empty_singleton in Hempty.
  - assert (Hempty : Load (Some ("A=" +:+ Samples.longLine)) = ∅) by (vm_compute; reflexivity).
    rewrite H in Hempty;
      [| vm_compute; reflexivity | reflexivity | apply Hwhite; vm_compute; reflexivity
       | reflexivity | reflexivity].
    by apply map_non_empty_singleton in Hempty.
Qed.

End EnvfileProofs.

(** ** The tail of the daemon log *)

Module DaemonLogProofs.
Import GoStrings Bufio DaemonLog StringProofs.

#[local] Arguments append !s1 s2 / : simpl nomatch.

(** With the default limit the scanner is the one of the dotenv loader. *)
Lemma scanTokens_scanLines data pending n :
  (scanTokens MaxScanTokenSize data pending n).1 = scanLines data pending n.
Proof.
  revert pending n. induction data as [|c data IH]; intros pending n; [done |].
  cbn [scanTokens scanLines]. destruct (Ascii.eqb c newline).
  - rewrite <- IH. by destruct (scanTokens MaxScanTokenSize data "" 0).
  - destruct (MaxScanTokenSize <=? N.succ n)%N; [done | apply IH].
Qed.

Lemma scanTokens_line max line pending n rest :
  Contains line (String newline "") = false ->
  (n + N.of_nat (String.length line) < max)%N ->
  scanTokens max (line +:+ String newline rest) pending n
  = (dropCR (rev_append line pending) :: (scanTokens max rest "" 0).1,
     (scanTokens max rest "" 0).2).
Proof.
  revert pending n. induction line as [|c line IH]; intros pending n Hnl Hlen.
  - cbn [append scanTokens rev_append]. rewrite Ascii.eqb_refl.
    by destruct (scanTokens max rest "" 0).
  - cbn [Contains] in Hnl. rewrite HasPrefix_byte in Hnl.
    apply orb_false_iff in Hnl as [Hc Hnl].
    cbn [append scanTokens rev_append]. rewrite Hc.
    cbn [String.length] in Hlen.
    destruct (N.leb_spec max (N.succ n)) as [Hfull | _]; [lia |].
    apply IH; [done | lia].
Qed.

Lemma scanTokens_last max last pending n :
  Contains last (String newline "") = false ->
  (n + N.of_nat (String.length last) < max)%N ->
  scanTokens max last pending n
  = (match rev_append last pending with "" => [] | p => [dropCR p] end, false).
Proof.
  revert pending n. induction last as [|c last IH]; intros pending n Hnl Hlen.
  { cbn [scanTokens rev_append]. by destruct pending. }
  cbn [Contains] in Hnl. rewrite HasPrefix_byte in Hnl.
  apply orb_false_iff in Hnl as [Hc Hnl].
  cbn [scanTokens rev_append]. rewrite Hc. cbn [String.length] in Hlen.
  destruct (N.leb_spec max (N.succ n)) as [Hfull | _]; [lia |].
  apply IH; [done | lia].
Qed.

Lemma scanTokens_too_long max line pending n rest :
  Contains line (String newline "") = false ->
  (n < max)%N ->
  (max <= n + N.of_nat (String.length line))%N ->
  scanTokens max (line +:+ rest) pending n = ([], true).
Proof.
  revert pending n. induction line as [|c line IH]; intros pending n Hnl Hn Hlen.
  - cbn [String.length] in Hlen. lia.
  - cbn [Contains] in Hnl. rewrite HasPrefix_byte in Hnl.
    apply orb_false_iff in Hnl as [Hc Hnl].
    cbn [append scanTokens]. rewrite Hc.
    destruct (N.leb_spec max (N.succ n)) as [Hfull | Hroom]; [done |].
    apply IH; [done | done |]. cbn [String.length] in Hlen. lia.
Qed.

(** The tokens of a file whose lines fit. *)
Lemma scanTokens_file lines last :
  Forall fitsLine lines -> fitsLine last ->
  scanTokens maxLine (joinLines lines +:+ last) "" 0
  = (map chomp (linesOf lines last), false).
Proof.
  intros Hlines [Hnl Hlen]. unfold linesOf.
  induction Hlines as [|line lines [Hnl1 Hlen1] _ IH].
  - cbn [joinLines append app]. rewrite scanTokens_last; [| done | by rewrite N.add_0_l].
    rewrite rev_append_spec, append_nil_r.
    destruct (String.eqb_spec last "") as [-> | Hne]; [done |].
    destruct (rev last) as [|c r] eqn:E.
    + destruct Hne. by rewrite <- (rev_rev last), E.
    + by rewrite <- E.
  - cbn [joinLines]. rewrite append_assoc. cbn [append].
    rewrite scanTokens_line; [| done | by rewrite N.add_0_l].
    rewrite IH. cbn [fst snd app map]. by rewrite rev_append_spec, append_nil_r.
Qed.

Lemma scanTokens_long_line good long rest :
  Forall fitsLine good ->
  Contains long (String newline "") = false ->
  (maxLine <= N.of_nat (String.length long))%N ->
  (scanTokens maxLine (joinLines good +:+ long +:+ rest) "" 0).2 = true.
Proof.
  intros Hgood Hnl Hlen.
  induction Hgood as [|line lines [Hnl1 Hlen1] _ IH].
  - cbn [joinLines append]. rewrite scanTokens_too_long; [done | done | done |].
    by rewrite N.add_0_l.
  - cbn [joinLines]. rewrite append_assoc. cbn [append].
    rewrite scanTokens_line; [| done | by rewrite N.add_0_l]. exact IH.
Qed.

(** Two indices less than [n] apart fall into different slots. *)
Lemma mod_apart n i j : i < j -> j < i + n -> i mod n <> j mod n.
Proof.
  intros Hij Hwin Heq.
  assert (Hn : n <> 0) by lia.
  pose proof (Nat.div_mod i n Hn) as Hi. pose proof (Nat.div_mod j n Hn) as Hj.
  rewrite Heq in Hi.
  assert (Hle : i / n <= j / n) by (apply Nat.Div0.div_le_mono; lia).
  destruct (decide (i / n = j / n)) as [Hq | Hq].
  - rewrite Hq in Hi. lia.
  - assert (Hs : i / n + 1 <= j / n) by lia.
    assert (n * (i / n) + n <= n * (j / n)) by nia. lia.
Qed.

(** The ring after the scanning loop: slot [i mod n] holds line [i], for
    the last [n] lines. *)
Lemma record_fold n tokens ring count seen :
  0 < n -> length ring = n -> count = length seen ->
  (forall i, i < count -> count <= i + n -> ring !! (i mod n) = seen !! i) ->
  let r := fold_left (record n) tokens (ring, count) in
  length r.1 = n /\ r.2 = length (seen ++ tokens)
  /\ forall i, i < r.2 -> r.2 <= i + n -> r.1 !! (i mod n) = (seen ++ tokens) !! i.
Proof.
  intros Hn. revert ring count seen.
  induction tokens as [|text tokens IH]; intros ring count seen Hlen Hcount Hring.
  - cbn. rewrite app_nil_r. done.
  - cbn [fold_left record].
    replace (seen ++ text :: tokens) with ((seen ++ [text]) ++ tokens)
      by (by rewrite <- app_assoc).
    apply IH.
    + by rewrite length_insert.
    + rewrite length_app. cbn. lia.
    + intros i Hi Hwin.
      destruct (decide (i = count)) as [-> | Hne].
      * rewrite list_lookup_insert_eq by (rewrite Hlen; apply Nat.mod_upper_bound; lia).
        rewrite lookup_app_r by lia. by rewrite Hcount, Nat.sub_diag.
      * assert (Hlt : i < count) by lia.
        rewrite list_lookup_insert_ne by (apply not_eq_sym, mod_apart; lia).
        rewrite lookup_app_l by lia. apply Hring; lia.
Qed.

Lemma lookup_nth {A : Type} (d : A) (l : list A) i :
  i < length l -> l !! i = Some (nth i l d).
Proof.
  intros Hi. destruct (lookup_lt_is_Some_2 l i Hi) as [x Hx].
  rewrite Hx. f_equal. symmetry. by apply nth_lookup_Some.
Qed.

Lemma emitLines_spec n ring start lines (f : nat -> string) :
  (forall i, i < lines -> ring !! ((start + i) mod n) = Some (f i)) ->
  emitLines n ring start lines = map (fun i => f i +:+ String newline "") (seq 0 lines).
Proof.
  intros H. unfold emitLines. apply map_ext_in. intros i Hi%in_seq.
  assert (Hlook : ring !! ((start + i) mod n) = Some (f i)) by (apply H; lia).
  apply list_lookup_total_correct in Hlook. by rewrite Hlook.
Qed.

Lemma map_seq_drop {A B : Type} (d : A) (g : A -> B) (l : list A) k :
  k <= length l ->
  map (fun i => g (nth (length l - k + i) l d)) (seq 0 k) = map g (lastN k l).
Proof.
  intros Hk. unfold lastN. set (m := length l - k).
  assert (Hlen : length (drop m l) = k) by (rewrite length_drop; lia).
  rewrite <- Hlen at 1. clear Hlen.
  assert (Hnth : forall i, nth (m + i) l d = nth i (drop m l) d).
  { intros i. rewrite <- (take_drop m l) at 1.
    rewrite app_nth2 by (rewrite length_take; lia).
    f_equal. rewrite length_take. lia. }
  erewrite map_ext by (intros i; rewrite Hnth; reflexivity).
  generalize (drop m l). intros l'. clear.
  induction l' as [|x l' IH]; [done |].
  cbn [length seq map nth]. f_equal. rewrite <- seq_shift, map_map. apply IH.
Qed.

(** The two loops together print the last [n] tokens. *)
Lemma ring_tail n tokens :
  0 < n ->
  let r := fold_left (record n) tokens (replicate n "", 0) in
  emitLines n r.1 (if Nat.ltb n r.2 then r.2 mod n else 0)
                  (if Nat.ltb n r.2 then n else r.2)
  = map (fun t => t +:+ String newline "") (lastN n tokens).
Proof.
  intros Hn.
  destruct (record_fold n tokens (replicate n "") 0 [] Hn) as (Hlen & Hcount & Hring).
  { apply length_replicate. }
  { done. }
  { intros i Hi. lia. }
  cbn [app] in Hcount, Hring. intros r. subst r.
  set (r := fold_left (record n) tokens (replicate n "", 0)) in *.
  rewrite Hcount in *. clear Hcount.
  destruct (Nat.ltb_spec n (length tokens)) as [Hmore | Hfew].
  - rewrite (emitLines_spec _ _ _ _ (fun i => nth (length tokens - n + i) tokens "")).
    + apply (map_seq_drop "" (fun t => t +:+ String newline "")). lia.
    + intros i Hi.
      replace ((length tokens mod n + i) mod n) with ((length tokens - n + i) mod n).
      * rewrite Hring by lia. apply lookup_nth. lia.
      * replace (length tokens) with ((length tokens - n) + 1 * n) at 2 by lia.
        rewrite Nat.Div0.mod_add.
        rewrite (Nat.Div0.add_mod (length tokens - n) i n).
        rewrite (Nat.Div0.add_mod ((length tokens - n) mod n) i n).
        by rewrite Nat.Div0.mod_mod.
  - rewrite (emitLines_spec _ _ _ _ (fun i => nth i tokens "")).
    + unfold lastN. replace (length tokens - n) with 0 by lia. rewrite drop_0.
      clear. induction tokens as [|t tokens IH]; [done |].
      cbn [length seq map nth]. f_equal. rewrite <- seq_shift, map_map. apply IH.
    + intros i Hi. cbn [Nat.add]. rewrite Hring by lia. apply lookup_nth. lia.
Qed.

(** X3.  For a positive [n] and a log file that opens: [printLastLines]
    panics when [n] is more than the 2^44 strings [make] agrees to, and
    dies when the runtime has no memory for its ring of [n] strings.
    With the ring allocated, it fails with the scanner's error and
    prints nothing when a line is too long for its 1 MiB buffer;
    otherwise it returns nil and has printed the last [n] lines the
    scanner delivered (all of them when there are fewer), in order, each
    followed by a line feed.  The lines of a file of which every line is
    shorter than 1 MiB are delivered all, each without its trailing
    carriage return; a line of 1 MiB or more anywhere in the file makes
    the call fail. *)
Theorem printLastLines_tail allocates data path n :
  (0 < n)%Z ->
  let tokens := (scanTokens maxLine data "" 0).1 in
  let r := printLastLines allocates (File data) path n in
  ((maxStrings < n)%Z -> r = Panicked)
  /\ ((n <= maxStrings)%Z -> allocates n = false -> r = OutOfMemory)
  /\ ((n <= maxStrings)%Z -> allocates n = true ->
      r = (if (scanTokens maxLine data "" 0).2
           then Returned (Some "read daemon log: bufio.Scanner: token too long") []
           else Returned None
                  (map (fun t => t +:+ String newline "") (lastN (Z.to_nat n) tokens)))
      /\ (forall lines last,
           data = joinLines lines +:+ last -> Forall fitsLine lines -> fitsLine last ->
           r = Returned None (map (fun l => chomp l +:+ String newline "")
                                (lastN (Z.to_nat n) (linesOf lines last))))
      /\ (forall good long rest,
           data = joinLines good +:+ long +:+ rest -> Forall fitsLine good ->
           Contains long (String newline "") = false ->
           (maxLine <= N.of_nat (String.length long))%N ->
           r = Returned (Some "read daemon log: bufio.Scanner: token too long") [])).
Proof.
  intros Hn tokens r.
  assert (Hneg : (n <? 0)%Z = false) by (apply Z.ltb_ge; lia).
  split; [| split].
  - intros Hbig. subst r. unfold printLastLines. rewrite Hneg.
    by replace (maxStrings <? n)%Z with true by (symmetry; apply Z.ltb_lt; lia).
  - intros Hfit Halloc. subst r. unfold printLastLines. rewrite Hneg, Halloc.
    by replace (maxStrings <? n)%Z with false by (symmetry; apply Z.ltb_ge; lia).
  - intros Hfit Halloc.
    assert (Hmain : r
      = (if (scanTokens maxLine data "" 0).2
         then Returned (Some "read daemon log: bufio.Scanner: token too long") []
         else Returned None
                (map (fun t => t +:+ String newline "") (lastN (Z.to_nat n) tokens)))).
    { subst r. unfold printLastLines. subst tokens. rewrite Hneg, Halloc.
      replace (maxStrings <? n)%Z with false by (symmetry; apply Z.ltb_ge; lia).
      cbn [orb negb].
      destruct (scanTokens maxLine data "" 0) as [toks tooLong]. cbn [fst snd].
      destruct (Z.to_nat n) as [|k] eqn:Ek; [lia |].
      pose proof (ring_tail (S k) toks ltac:(lia)) as Hring. cbv zeta in Hring.
      destruct (fold_left (record (S k)) toks (replicate (S k) "", 0)) as [ring count].
      cbn [fst snd] in Hring. destruct tooLong; [done |]. by rewrite Hring. }
    split; [exact Hmain |]. split.
    + intros lines last -> Hlines Hlast. rewrite Hmain. subst tokens.
      rewrite scanTokens_file by done. cbn [fst snd].
      unfold lastN. by rewrite length_map, skipn_map, map_map.
    + intros good long rest -> Hgood Hnl Hlen. rewrite Hmain.
      by rewrite scanTokens_long_line.
Qed.

Lemma printLastLines_tail_witness :
  printLastLines (fun _ => true) (File (joinLines ["one"; "two"; "three"] +:+ "four"))
    "daemon.log" 2
  = Returned None (map (fun l => chomp l +:+ String newline "")
                     (lastN (Z.to_nat 2) (linesOf ["one"; "two"; "three"] "four"))).
Proof.
  destruct (printLastLines_tail (fun _ => true)
              (joinLines ["one"; "two"; "three"] +:+ "four") "daemon.log" 2
              ltac:(lia)) as (_ & _ & Hok).
  destruct Hok as (_ & Hlines & _); [vm_compute; discriminate | reflexivity |].
  apply Hlines; [reflexivity | |].
  - repeat constructor.
  - split; [reflexivity | vm_compute; reflexivity].
Defined.

End DaemonLogProofs.

(** ** Setting the token *)

Module TokenProofs.
Import GoStrings GoText Bufio Envfile Cli StringProofs ScannerProofs EnvfileProofs.

#[local] Arguments append !s1 s2 / : simpl nomatch.

(** *** Split and Join over line feeds *)

Lemma splitFrom_line cur line rest :
  Contains line nl = false ->
  splitFrom nl 0 cur (line +:+ String newline rest)
  = (rev cur +:+ line) :: splitFrom nl 0 "" rest.
Proof.
  revert cur. induction line as [|c line IH]; intros cur Hnl.
  - cbn [append splitFrom]. unfold nl at 1. rewrite HasPrefix_byte, Ascii.eqb_refl.
    by rewrite append_nil_r.
  - cbn [Contains] in Hnl. unfold nl in Hnl at 1. rewrite HasPrefix_byte in Hnl.
    apply orb_false_iff in Hnl as [Hc Hnl].
    cbn [append splitFrom]. unfold nl at 1. rewrite HasPrefix_byte, Hc.
    rewrite IH by done. by rewrite rev_cons, append_assoc.
Qed.

Lemma splitFrom_last cur last :
  Contains last nl = false -> splitFrom nl 0 cur last = [rev cur +:+ last].
Proof.
  revert cur. induction last as [|c last IH]; intros cur Hnl.
  - cbn [splitFrom]. by rewrite append_nil_r.
  - cbn [Contains] in Hnl. unfold nl in Hnl at 1. rewrite HasPrefix_byte in Hnl.
    apply orb_false_iff in Hnl as [Hc Hnl].
    cbn [splitFrom]. unfold nl at 1. rewrite HasPrefix_byte, Hc.
    rewrite IH by done. by rewrite rev_cons, append_assoc.
Qed.

(** Splitting a file at its line feeds gives its lines and the rest
    after the last line feed. *)
Lemma Split_file lines last :
  Forall (fun line => Contains line nl = false) lines ->
  Contains last nl = false ->
  Split (joinLines lines +:+ last) nl = lines ++ [last].
Proof.
  intros Hlines Hlast. change (Split (joinLines lines +:+ last) nl)
    with (splitFrom nl 0 "" (joinLines lines +:+ last)).
  induction Hlines as [|line lines Hline _ IH].
  - cbn [joinLines append app]. by rewrite splitFrom_last.
  - rewrite joinLines_cons_app, splitFrom_line by done. by rewrite IH.
Qed.

Lemma JoinSep_joinLines lines :
  lines <> [] -> JoinSep lines nl +:+ nl = joinLines lines.
Proof.
  induction lines as [|e [|e' rest] IH]; intros Hne; [done | done |].
  change (JoinSep (e :: e' :: rest) nl) with (e +:+ nl +:+ JoinSep (e' :: rest) nl).
  rewrite !append_assoc, IH by done. done.
Qed.

(** *** Trimming twice *)

Lemma TrimSpace_idem s : TrimSpace (TrimSpace s) = TrimSpace s.
Proof.
  destruct (TrimSpace_spec s) as (_ & _ & _ & _ & _ & Hstart & Hend).
  unfold startsWithSpace, endsWithSpace in Hstart, Hend.
  set (t := TrimSpace s) in *. unfold TrimSpace at 1, TrimLeftSpace, TrimRightSpace.
  rewrite (strip_unfold _ _ _ t).
  destruct (leading space1 space2 space3 t); [done |].
  rewrite (strip_unfold _ _ _ (rev t)).
  destruct (leading space1 space2r space3r (rev t)); [done |].
  apply rev_rev.
Qed.

Lemma TrimSpace_no_byte s c :
  Contains s (String c "") = false -> Contains (TrimSpace s) (String c "") = false.
Proof.
  intros H. destruct (TrimSpace_spec s) as (l & r & Hs & _).
  rewrite Hs, !Contains_app_byte in H.
  by apply orb_false_iff in H as [_ [H _]%orb_false_iff].
Qed.

Lemma length_TrimSpace s : String.length (TrimSpace s) <= String.length s.
Proof.
  destruct (TrimSpace_spec s) as (l & r & Hs & _).
  rewrite Hs at 2. rewrite !append_length. lia.
Qed.

(** *** What the scanner hands out holds no line feed *)

Lemma Contains_rev_byte s c : Contains (rev s) (String c "") = Contains s (String c "").
Proof.
  induction s as [|x s IH]; [done |].
  rewrite rev_cons, Contains_app_byte, IH. cbn [Contains].
  rewrite !HasPrefix_byte. by rewrite !orb_false_r, orb_comm.
Qed.

Lemma dropCR_no_newline pending :
  Contains pending nl = false -> Contains (dropCR pending) nl = false.
Proof.
  unfold dropCR, nl. destruct pending as [|c r]; [done |]. intros H.
  destruct (Ascii.eqb c carriageReturn).
  - rewrite Contains_rev_byte. cbn [Contains] in H. rewrite HasPrefix_byte in H.
    by apply orb_false_iff in H as [_ H].
  - by rewrite Contains_rev_byte.
Qed.

Lemma scanLines_no_newline data pending n :
  Contains pending nl = false ->
  Forall (fun t => Contains t nl = false) (scanLines data pending n).
Proof.
  revert pending n. induction data as [|c data IH]; intros pending n Hp.
  - cbn [scanLines]. destruct pending; [constructor |].
    constructor; [by apply dropCR_no_newline | constructor].
  - cbn [scanLines]. destruct (Ascii.eqb_spec c newline) as [-> | Hc].
    + constructor; [by apply dropCR_no_newline | by apply IH].
    + destruct (MaxScanTokenSize <=? N.succ n)%N; [constructor |].
      apply IH. cbn [Contains]. unfold nl at 1. rewrite HasPrefix_byte.
      apply Ascii.eqb_neq in Hc. by rewrite Hc.
Qed.

Lemma firstLine_no_newline input text :
  firstLine input = Some text -> Contains text nl = false.
Proof.
  unfold firstLine, Lines. intros H.
  pose proof (scanLines_no_newline input "" 0 eq_refl) as Hall.
  destruct (scanLines input "" 0) as [|t ts]; [done |].
  injection H as <-. by inversion Hall.
Qed.

(** *** Lines that leave a key alone *)

Lemma loadLine_agree k e1 e2 line :
  e1 !! k = e2 !! k -> loadLine e1 line !! k = loadLine e2 line !! k.
Proof.
  intros H. unfold loadLine. cbv zeta.
  destruct (String.eqb (TrimSpace line) "" || HasPrefix (TrimSpace line) "#"); [done |].
  destruct (Cut (TrimSpace line) "=") as [[a b] []]; [| done].
  rewrite !lookup_insert. by case_decide.
Qed.

Lemma fold_agree k lines e1 e2 :
  e1 !! k = e2 !! k ->
  fold_left loadLine lines e1 !! k = fold_left loadLine lines e2 !! k.
Proof.
  revert e1 e2. induction lines as [|line lines IH]; intros e1 e2 H; [done |].
  cbn [fold_left]. by apply IH, loadLine_agree.
Qed.

Lemma fold_filter k (keep : string -> bool) lines env :
  (forall line, In line lines -> keep line = false ->
     forall e, loadLine e line !! k = e !! k) ->
  fold_left loadLine (List.filter keep lines) env !! k
  = fold_left loadLine lines env !! k.
Proof.
  revert env. induction lines as [|line lines IH]; intros env Hsilent; [done |].
  cbn [List.filter fold_left]. destruct (keep line) eqn:E.
  - cbn [fold_left]. apply IH. intros l Hl. apply Hsilent. by right.
  - rewrite IH by (intros l Hl; apply Hsilent; by right).
    apply fold_agree. symmetry. apply Hsilent; [by left | done].
Qed.

Lemma loadLine_blank_line env line : blank line = true -> loadLine env line = env.
Proof. unfold blank, loadLine. by intros ->. Qed.

Lemma fold_dropBlank reversed env :
  fold_left loadLine (List.rev (dropBlank reversed)) env
  = fold_left loadLine (List.rev reversed) env.
Proof.
  induction reversed as [|line rest IH]; [done |].
  cbn [dropBlank]. destruct (blank line) eqn:E; [| done].
  rewrite IH. cbn [List.rev]. rewrite fold_left_app. cbn [fold_left].
  by rewrite loadLine_blank_line.
Qed.

Lemma dropBlank_In line reversed : In line (dropBlank reversed) -> In line reversed.
Proof.
  induction reversed as [|x rest IH]; [done |]. cbn [dropBlank].
  destruct (blank x); [| done]. intros H. right. by apply IH.
Qed.

Lemma HasPrefix_split s p : HasPrefix s p = true -> exists rest, s = p +:+ rest.
Proof.
  revert s. induction p as [|c p IH]; intros s H.
  - by exists s.
  - destruct s as [|x s]; [done |]. cbn [HasPrefix] in H.
    apply andb_true_iff in H as [Hx H]. apply Ascii.eqb_eq in Hx as ->.
    destruct (IH s H) as [rest ->]. by exists rest.
Qed.

Lemma TrimSpace_tokenKey : TrimSpace tokenKey = tokenKey.
Proof. vm_compute. reflexivity. Qed.

(** A line of the form [CLAUDE_CODE_OAUTH_TOKEN=v], white space around it
    or not, binds that key to the trimmed [v]. *)
Lemma loadLine_token env line :
  HasPrefix (TrimSpace line) (tokenKey +:+ "=") = true ->
  exists v, loadLine env line = <[tokenKey := v]> env.
Proof.
  intros H. apply HasPrefix_split in H as [rest H].
  unfold loadLine. cbv zeta. rewrite H.
  change ((tokenKey +:+ "=") +:+ rest) with (tokenKey +:+ String "=" rest).
  rewrite (Cut_first tokenKey rest "=" eq_refl).
  change (String.eqb (tokenKey +:+ String "=" rest) "") with false.
  change (HasPrefix (tokenKey +:+ String "=" rest) "#") with false.
  cbn [orb]. rewrite TrimSpace_tokenKey. by eexists.
Qed.

Lemma loadLine_new_token env token :
  loadLine env (tokenKey +:+ "=" +:+ TrimSpace token)
  = <[tokenKey := TrimSpace token]> env.
Proof.
  rewrite loadLine_entry.
  - by rewrite TrimSpace_tokenKey, TrimSpace_idem.
  - reflexivity.
  - intros l t Hl Heq.
    assert (Hc : HasPrefix (TrimSpace (tokenKey +:+ "=" +:+ TrimSpace token)) "#" = true).
    { apply comment_line. eauto. }
    destruct (TrimSpace_plain "C" ("LAUDE_CODE_OAUTH_TOKEN" +:+ "=" +:+ TrimSpace token))
      as [t' Ht']; [split; [vm_compute; lia | reflexivity] |].
    change (String "C" ("LAUDE_CODE_OAUTH_TOKEN" +:+ "=" +:+ TrimSpace token))
      with (tokenKey +:+ "=" +:+ TrimSpace token) in Ht'.
    rewrite Ht' in Hc. discriminate.
Qed.

Lemma joinLines_nonempty line lines : joinLines (line :: lines) <> "".
Proof. cbn [joinLines]. by destruct line. Qed.

(** The loader on the old file, whatever [os.Open] gave. *)
Lemma Load_existing file lines last :
  default "" file = joinLines lines +:+ last ->
  Forall fits lines -> fits last ->
  Load file = fold_left loadLine (lines ++ [last]) ∅.
Proof.
  intros Hfile Hlines Hlast. destruct file as [data|]; simpl in Hfile.
  - subst data. by apply Load_file.
  - destruct lines as [|line lines].
    + cbn [joinLines append] in Hfile. by subst last.
    + exfalso. symmetry in Hfile. cbn [joinLines] in Hfile. by destruct line.
Qed.

(** X4.  [cmdToken] writes no file when standard input gives no line or a
    blank one.  Given a token, and with the directory and the file
    writable, it writes the env file once; when the lines of the old file
    and the new token line fit the loader's scanner, loading the file it
    wrote gives the token under [CLAUDE_CODE_OAUTH_TOKEN] and, under
    every other key, what loading the old file gave. *)
Theorem cmdToken_replaces w :
  (firstLine (stdin w) = None \/
   (exists text, firstLine (stdin w) = Some text /\ TrimSpace text = "") ->
   filesWritten (cmdToken w) = [])
  /\ forall lines last text,
       default "" (envFile w) = joinLines lines +:+ last ->
       Forall fits lines -> fits last ->
       firstLine (stdin w) = Some text -> TrimSpace text <> "" ->
       (N.of_nat (String.length (TrimSpace text)) + 24 < MaxScanTokenSize)%N ->
       mkdirError w = None -> writeError w = None ->
       exists content,
         filesWritten (cmdToken w) = [(Daemon.Join [root w; "env"], content)]
         /\ Load (Some content) !! tokenKey = Some (TrimSpace text)
         /\ forall k, k <> tokenKey -> Load (Some content) !! k = Load (envFile w) !! k.
Proof.
  split.
  - unfold cmdToken. intros [-> | (text & -> & ->)]; reflexivity.
  - intros lines last text Hfile Hlines Hlast Hline Htoken Hlen Hmk Hwr.
    exists (rewriteEnv (default "" (envFile w)) (TrimSpace text)).
    split.
    { unfold cmdToken. rewrite Hline, Hmk, Hwr.
      apply String.eqb_neq in Htoken. rewrite Htoken. reflexivity. }
    rewrite (Load_existing _ _ _ Hfile Hlines Hlast).
    unfold rewriteEnv. rewrite Hfile.
    assert (Hnl : forall l, fits l -> Contains l nl = false) by (by intros l [? _]).
    rewrite Split_file; [| by eapply Forall_impl; [exact Hlines | exact Hnl] | by apply Hnl].
    set (keep := fun line => negb (HasPrefix (TrimSpace line) (tokenKey +:+ "="))).
    set (kept := List.rev (dropBlank (List.rev (List.filter keep (lines ++ [last]))))).
    assert (Hall : Forall fits (lines ++ [last])).
    { apply Forall_app. split; [done | by constructor]. }
    assert (Hkept : Forall fits kept).
    { apply List.Forall_forall. intros l Hl. subst kept.
      apply in_rev, dropBlank_In, in_rev, filter_In in Hl as [Hl _].
      rewrite List.Forall_forall in Hall. by apply Hall. }
    assert (Hnew : fits (tokenKey +:+ "=" +:+ TrimSpace text)).
    { split.
      - change (tokenKey +:+ "=" +:+ TrimSpace text)
          with ((tokenKey +:+ "=") +:+ TrimSpace text).
        rewrite Contains_app_byte.
        rewrite (TrimSpace_no_byte text newline (firstLine_no_newline _ _ Hline)).
        reflexivity.
      - change (tokenKey +:+ "=" +:+ TrimSpace text)
          with ((tokenKey +:+ "=") +:+ TrimSpace text).
        rewrite append_length. change (String.length (tokenKey +:+ "=")) with 24%nat.
        lia. }
    rewrite JoinSep_joinLines by (by destruct kept).
    rewrite <- (append_nil_r (joinLines _)).
    rewrite Load_file; [| apply Forall_app; split; [done | by constructor]
                        | split; [reflexivity | vm_compute; reflexivity]].
    remember (fold_left loadLine (lines ++ [last]) ∅) as old eqn:Hold.
    rewrite !fold_left_app. cbn [fold_left]. rewrite loadLine_empty, loadLine_new_token.
    split; [apply lookup_insert_eq |].
    intros k Hk. rewrite lookup_insert_ne by done.
    subst kept old. rewrite fold_dropBlank, rev_involutive.
    apply fold_filter. intros line _ Hdrop e. subst keep. cbv beta in Hdrop.
    apply negb_false_iff in Hdrop.
    destruct (loadLine_token e line Hdrop) as [v ->].
    by rewrite lookup_insert_ne.
Qed.

Lemma cmdToken_replaces_witness :
  exists content,
    filesWritten (cmdToken CliSamples.tokenWorld) = [("/home/dev/.grove/env", content)]
    /\ Load (Some content) !! tokenKey = Some "fresh-token"
    /\ Load (Some content) !! "A" = Some "1".
Proof.
  destruct (proj2 (cmdToken_replaces CliSamples.tokenWorld)
              ["A=1"; "CLAUDE_CODE_OAUTH_TOKEN=old"; ""] "" ("  fresh-token "))
    as (content & Hwritten & Htoken & Hrest).
  - reflexivity.
  - repeat constructor.
  - split; [reflexivity | vm_compute; reflexivity].
  - reflexivity.
  - vm_compute. discriminate.
  - vm_compute. reflexivity.
  - reflexivity.
  - reflexivity.
  - exists content. split; [exact Hwritten |]. split; [exact Htoken |].
    rewrite Hrest by discriminate. vm_compute. reflexivity.
Defined.

End TokenProofs.

(** ** The credentials of the agent *)

Module CredentialsProofs.
Import GoStrings GoText Bufio Envfile Cli Credentials.
Import StringProofs ScannerProofs EnvfileProofs TokenProofs.

#[local] Arguments append !s1 s2 / : simpl nomatch.

Lemma size_insert_pos (m : gmap string string) k v : Nat.ltb 0 (size (<[k := v]> m)) = true.
Proof.
  apply Nat.ltb_lt. destruct (size (<[k := v]> m)) eqn:E; [| lia].
  apply map_size_empty_inv in E. by apply insert_non_empty in E.
Qed.

Lemma fromEnvironment_entries w k v :
  fromEnvironment w !! k = Some v -> (k = tokenKey \/ k = apiKey) /\ v <> "".
Proof.
  unfold fromEnvironment. cbv zeta.
  destruct (String.eqb_spec (getenv w tokenKey) "") as [Et | Et];
    destruct (String.eqb_spec (getenv w apiKey) "") as [Ea | Ea]; cbn [negb].
  - by rewrite lookup_empty.
  - rewrite lookup_insert. case_decide; [| by rewrite lookup_empty].
    intros [= <-]. subst k. split; [by right | done].
  - rewrite lookup_insert. case_decide; [| by rewrite lookup_empty].
    intros [= <-]. subst k. split; [by left | done].
  - rewrite lookup_insert. case_decide.
    + intros [= <-]. subst k. split; [by right | done].
    + rewrite lookup_insert. case_decide; [| by rewrite lookup_empty].
      intros [= <-]. subst k. split; [by left | done].
Qed.

Lemma fromEnvironment_size w :
  Nat.ltb 0 (size (fromEnvironment w))
  = negb (String.eqb (getenv w tokenKey) "") || negb (String.eqb (getenv w apiKey) "").
Proof.
  unfold fromEnvironment. cbv zeta.
  destruct (String.eqb (getenv w tokenKey) ""), (String.eqb (getenv w apiKey) "");
    cbn [negb orb]; by rewrite ?size_insert_pos, ?map_size_empty.
Qed.

(** X5.  Every entry of the map [ensureAgentCredentials] returns is one
    of the two credential keys with a non-empty value.  It returns nil,
    prompts for nothing and touches no file when the project's agent is
    known and is not claude, and when the env file already holds one of
    the two credentials; with a credential in the environment it does
    not prompt either. *)
Theorem ensureAgentCredentials_result w :
  (forall m k v,
     (ensureAgentCredentials w).1 = Some m -> m !! k = Some v ->
     (k = tokenKey \/ k = apiKey) /\ v <> "")
  /\ (agentCommand w <> "" /\ agentCommand w <> "claude" ->
      ensureAgentCredentials w = (None, []))
  /\ (index (Load (envFile w)) tokenKey <> "" \/ index (Load (envFile w)) apiKey <> "" ->
      ensureAgentCredentials w = (None, []))
  /\ (getenv w tokenKey <> "" \/ getenv w apiKey <> "" ->
      (ensureAgentCredentials w).2 = []).
Proof.
  unfold ensureAgentCredentials. cbv zeta.
  rewrite fromEnvironment_size.
  split; [| split; [| split]].
  - intros m k v.
    destruct (negb (String.eqb (agentCommand w) "")
              && negb (String.eqb (agentCommand w) "claude")); [done |].
    destruct (negb (String.eqb (index (Load (envFile w)) tokenKey) "")
              || negb (String.eqb (index (Load (envFile w)) apiKey) "")); [done |].
    destruct (negb (String.eqb (getenv w tokenKey) "")
              || negb (String.eqb (getenv w apiKey) "")).
    + cbn [fst]. intros [= <-]. apply fromEnvironment_entries.
    + destruct (firstLine (stdin w)) as [text|]; [| done].
      destruct (String.eqb_spec (TrimSpace text) "") as [| Hne]; [done |].
      cbn [fst]. intros [= <-]. rewrite lookup_singleton. case_decide; [| done].
      intros [= <-]. subst k. split; [by left | done].
  - intros [H1 H2]. apply String.eqb_neq in H1, H2. by rewrite H1, H2.
  - intros H.
    destruct (negb (String.eqb (agentCommand w) "")
              && negb (String.eqb (agentCommand w) "claude")); [done |].
    destruct H as [H | H]; apply String.eqb_neq in H; rewrite H; cbn [negb orb];
      by rewrite ?orb_true_r.
  - intros H.
    destruct (negb (String.eqb (agentCommand w) "")
              && negb (String.eqb (agentCommand w) "claude")); [done |].
    destruct (negb (String.eqb (index (Load (envFile w)) tokenKey) "")
              || negb (String.eqb (index (Load (envFile w)) apiKey) "")); [done |].
    destruct H as [H | H]; apply String.eqb_neq in H; rewrite H; cbn [negb orb];
      by rewrite ?orb_true_r.
Qed.

Lemma joinLines_snoc lines line :
  joinLines (lines ++ [line]) = joinLines lines +:+ line +:+ nl.
Proof.
  induction lines as [|l lines IH]; [done |].
  cbn [app joinLines]. by rewrite IH, append_assoc.
Qed.

(** Whether a line [k=v] is a comment does not depend on [v]. *)
Lemma comment_prefix k v v' :
  (forall l t, WhiteSpace l -> k +:+ "=" +:+ v <> l +:+ "#" +:+ t) ->
  forall l t, WhiteSpace l -> k +:+ "=" +:+ v' <> l +:+ "#" +:+ t.
Proof.
  intros H l t Hl Heq.
  destruct (split_left k v' l ("#" +:+ t) "=" Heq) as (k' & -> & Hrest).
  { by apply WhiteSpace_no_plain; [apply plain_equals |]. }
  destruct k' as [|x k']; cbn [append] in Hrest; [done |].
  injection Hrest as <- Ht.
  apply (H l (k' +:+ "=" +:+ v) Hl). by rewrite !append_assoc.
Qed.

(** X6.  When neither the env file nor the environment holds a
    credential and the user types a token, [ensureAgentCredentials]
    returns the token under [CLAUDE_CODE_OAUTH_TOKEN] and appends one
    line [CLAUDE_CODE_OAUTH_TOKEN=<token>] to the env file.  The loader
    then finds the token when every line of the old file ended in a line
    feed.  It does not when the old file ended in an unterminated line
    [k=v]: the new line continues that line, and the token key stays
    unset. *)
Theorem ensureAgentCredentials_saves w text :
  agentCommand w = "" \/ agentCommand w = "claude" ->
  index (Load (envFile w)) tokenKey = "" -> index (Load (envFile w)) apiKey = "" ->
  getenv w tokenKey = "" -> getenv w apiKey = "" ->
  firstLine (stdin w) = Some text -> TrimSpace text <> "" -> appendOpens w = true ->
  let r := ensureAgentCredentials w in
  let token := TrimSpace text in
  r.1 = Some {[ tokenKey := token ]}
  /\ appended r.2 = [(Daemon.Join [root w; "env"], tokenLine token)]
  /\ (forall lines,
        default "" (envFile w) = joinLines lines -> Forall fits lines ->
        (N.of_nat (String.length token) + 24 < MaxScanTokenSize)%N ->
        Load (Some (afterAppend w r.2)) = <[tokenKey := token]> (Load (envFile w)))
  /\ (forall lines k v,
        default "" (envFile w) = joinLines lines +:+ (k +:+ "=" +:+ v) ->
        Forall fits lines ->
        fits (k +:+ "=" +:+ v +:+ tokenKey +:+ "=" +:+ token) ->
        Contains k "=" = false ->
        (forall l t, WhiteSpace l -> k +:+ "=" +:+ v <> l +:+ "#" +:+ t) ->
        TrimSpace k <> tokenKey ->
        index (Load (Some (afterAppend w r.2))) tokenKey = "").
Proof.
  intros Hagent Hfile1 Hfile2 Henv1 Henv2 Hline Htoken Happend r token.
  assert (Hr : r = (Some {[ tokenKey := token ]},
                    [ Stdout (nl +:+ colorYellow +:+ colorBold
                              +:+ "Claude authentication required."
                              +:+ colorReset +:+ nl +:+ nl);
                      Stdout ("Generate a long-lived token by running:" +:+ nl +:+ nl);
                      Stdout ("    " +:+ colorCyan +:+ "claude setup-token" +:+ colorReset
                              +:+ nl +:+ nl);
                      Stdout ("Then paste the token below." +:+ nl +:+ nl);
                      Stdout (colorBold +:+ "Token" +:+ colorReset
                              +:+ " (or Enter to skip): ");
                      AppendFile (Daemon.Join [root w; "env"]) (tokenLine token);
                      Stdout (nl +:+ colorGreen +:+ "✓  Saved to "
                              +:+ Daemon.Join [root w; "env"] +:+ colorReset
                              +:+ nl +:+ nl) ])).
  { subst r token. unfold ensureAgentCredentials. cbv zeta.
    rewrite fromEnvironment_size, Hfile1, Hfile2, Henv1, Henv2, Hline, Happend.
    apply String.eqb_neq in Htoken. rewrite Htoken.
    by destruct Hagent as [-> | ->]. }
  assert (Hmap : r.1 = Some {[ tokenKey := token ]}) by (by rewrite Hr).
  assert (Hbytes : appended r.2 = [(Daemon.Join [root w; "env"], tokenLine token)])
    by (by rewrite Hr).
  assert (Hafter : afterAppend w r.2 = default "" (envFile w) +:+ tokenLine token)
    by (by rewrite Hr).
  clear Hr. split; [exact Hmap |]. split; [exact Hbytes |]. rewrite Hafter.
  clear Hmap Hbytes Hafter.
  assert (Hnew : (N.of_nat (String.length token) + 24 < MaxScanTokenSize)%N ->
                 fits (tokenKey +:+ "=" +:+ token)).
  { intros Hlen. split.
    - change (tokenKey +:+ "=" +:+ token) with ((tokenKey +:+ "=") +:+ token).
      rewrite Contains_app_byte. subst token.
      rewrite (TrimSpace_no_byte text newline (firstLine_no_newline _ _ Hline)).
      reflexivity.
    - change (tokenKey +:+ "=" +:+ token) with ((tokenKey +:+ "=") +:+ token).
      rewrite append_length. change (String.length (tokenKey +:+ "=")) with 24%nat. lia. }
  assert (Hempty : fits "") by (split; [reflexivity | vm_compute; reflexivity]).
  split.
  - intros lines Hold Hlines Hlen.
    rewrite (Load_existing (envFile w) lines "") by (by rewrite ?append_nil_r).
    rewrite Hold. unfold tokenLine.
    replace (joinLines lines +:+ tokenKey +:+ "=" +:+ token +:+ nl)
      with (joinLines (lines ++ [tokenKey +:+ "=" +:+ token]) +:+ "").
    + rewrite Load_file; [| apply Forall_app; split; [done | constructor; auto] | done].
      rewrite !fold_left_app. cbn [fold_left]. rewrite !loadLine_empty.
      subst token. apply loadLine_new_token.
    + by rewrite append_nil_r, joinLines_snoc.
  - intros lines k v Hold Hlines Hglued Hk Hcomment Hkey.
    assert (Hlast : fits (k +:+ "=" +:+ v)).
    { destruct Hglued as [Hnl Hlen].
      replace (k +:+ "=" +:+ v +:+ tokenKey +:+ "=" +:+ token)
        with ((k +:+ "=" +:+ v) +:+ (tokenKey +:+ "=" +:+ token)) in Hnl, Hlen
        by (by rewrite !append_assoc).
      rewrite Contains_app_byte in Hnl. apply orb_false_iff in Hnl as [Hnl _].
      rewrite append_length in Hlen. split; [done | lia]. }
    assert (Hold' : index (fold_left loadLine lines ∅) tokenKey = "").
    { rewrite (Load_existing (envFile w) lines (k +:+ "=" +:+ v)) in Hfile1 by done.
      rewrite fold_left_app in Hfile1. cbn [fold_left] in Hfile1.
      rewrite loadLine_entry in Hfile1 by done.
      unfold index in Hfile1 |- *. by rewrite lookup_insert_ne in Hfile1. }
    rewrite Hold. unfold tokenLine.
    replace ((joinLines lines +:+ k +:+ "=" +:+ v) +:+ tokenKey +:+ "=" +:+ token +:+ nl)
      with (joinLines (lines ++ [k +:+ "=" +:+ v +:+ tokenKey +:+ "=" +:+ token]) +:+ "").
    + rewrite Load_file; [| apply Forall_app; split; [done | constructor; auto] | done].
      rewrite !fold_left_app. cbn [fold_left]. rewrite loadLine_empty.
      rewrite loadLine_entry; [| done | by apply (comment_prefix k v)].
      unfold index in Hold' |- *. by rewrite lookup_insert_ne.
    + rewrite append_nil_r, joinLines_snoc. by rewrite !append_assoc.
Qed.

Lemma ensureAgentCredentials_saves_witness :
  Load (Some (afterAppend (CredentialsSamples.promptWorld ("A=1" +:+ nl))
                (ensureAgentCredentials (CredentialsSamples.promptWorld ("A=1" +:+ nl))).2))
  = <[tokenKey := "tok-123"]> (Load (Some ("A=1" +:+ nl)))
  /\ index (Load (Some (afterAppend (CredentialsSamples.promptWorld "A=1")
                         (ensureAgentCredentials (CredentialsSamples.promptWorld "A=1")).2)))
        tokenKey = "".
Proof.
  split.
  - destruct (ensureAgentCredentials_saves (CredentialsSamples.promptWorld ("A=1" +:+ nl))
                " tok-123 ") as (_ & _ & Hsaved & _);
      [by right | reflexivity | reflexivity | reflexivity | reflexivity | reflexivity
       | vm_compute; discriminate | reflexivity |].
    apply (Hsaved ["A=1"]); [reflexivity | repeat constructor | vm_compute; reflexivity].
  - destruct (ensureAgentCredentials_saves (CredentialsSamples.promptWorld "A=1")
                " tok-123 ") as (_ & _ & _ & Hglued);
      [by right | reflexivity | reflexivity | reflexivity | reflexivity | reflexivity
       | vm_compute; discriminate | reflexivity |].
    apply (Hglued [] "A" "1"); [reflexivity | constructor | | reflexivity | | ].
    + split; [reflexivity | vm_compute; reflexivity].
    + intros l t Hl Heq.
      assert (Hc : HasPrefix (TrimSpace ("A" +:+ "=" +:+ "1")) "#" = true)
        by (apply comment_line; eauto).
      vm_compute in Hc. discriminate.
    + vm_compute. discriminate.
Defined.

End CredentialsProofs.

(** ** The shape of a loaded env map *)

Module EnvShapeProofs.
Import GoStrings GoText Bufio Envfile EnvShape.
Import StringProofs ScannerProofs EnvfileProofs TokenProofs.

#[local] Arguments append !s1 s2 / : simpl nomatch.

(** [Cut] at a byte: the parts around its first instance. *)
Lemma Cut_parts s c a b :
  Cut s (String c "") = (a, b, true) ->
  s = a +:+ String c b /\ Contains a (String c "") = false.
Proof.
  revert a b. induction s as [|x s IH]; intros a b.
  - cbn [Cut]. rewrite HasPrefix_byte. done.
  - cbn [Cut]. rewrite HasPrefix_byte.
    destruct (Ascii.eqb_spec x c) as [-> | Hx].
    + cbn [String.length skip]. intros [= <- <-]. done.
    + destruct (Cut s (String c "")) as [[a' b'] []] eqn:E; [| done].
      intros [= <- <-]. destruct (IH a' b' eq_refl) as [-> Ha].
      split; [done |]. cbn [Contains]. rewrite HasPrefix_byte, Ha.
      by apply Ascii.eqb_neq in Hx as ->.
Qed.

(** Trimming on the right leaves a prefix. *)
Lemma TrimRightSpace_prefix s : exists r, s = TrimRightSpace s +:+ r.
Proof.
  unfold TrimRightSpace.
  destruct (strip_spec space1 space2r space3r (rev s)) as (l & Hs & _).
  exists (rev l). rewrite <- rev_app, <- Hs. by rewrite rev_rev.
Qed.

Lemma TrimSpace_first_byte a t :
  leading space1 space2 space3 (a +:+ t) = None ->
  HasPrefix (a +:+ t) "#" = false -> HasPrefix (TrimSpace a) "#" = false.
Proof.
  intros Hlead Hhash.
  assert (Ha : leading space1 space2 space3 a = None).
  { destruct (leading space1 space2 space3 a) as [r|] eqn:E; [| done].
    by rewrite (leading_app _ _ _ _ _ t E) in Hlead. }
  unfold TrimSpace, TrimLeftSpace. rewrite strip_unfold, Ha.
  destruct (TrimRightSpace_prefix a) as [r Hr].
  destruct (TrimRightSpace a) as [|x u]; [done |].
  rewrite Hr in Hhash. cbn [append] in Hhash.
  rewrite HasPrefix_byte in Hhash |- *. exact Hhash.
Qed.

Lemma loadLine_clean env text :
  Contains text (String newline "") = false ->
  allClean env -> allClean (loadLine env text).
Proof.
  intros Hnl Henv. unfold loadLine. cbv zeta.
  destruct (String.eqb (TrimSpace text) "") eqn:Eempty; [done |].
  destruct (HasPrefix (TrimSpace text) "#") eqn:Ehash; [done |]. cbn [orb].
  destruct (Cut (TrimSpace text) "=") as [[a b] []] eqn:Ecut; [| done].
  destruct (Cut_parts _ _ _ _ Ecut) as [Ht Ha].
  destruct (TrimSpace_spec text) as (_ & _ & _ & _ & _ & Hstart & _).
  pose proof (TrimSpace_no_byte text newline Hnl) as Hnl'.
  rewrite Ht in Hstart, Ehash, Hnl'. rewrite Contains_app_byte in Hnl'.
  apply orb_false_iff in Hnl' as [Hnla Hnlb].
  intros k v. rewrite lookup_insert. case_decide as Hk; [| apply Henv].
  intros [= <-]. subst k. unfold clean.
  split; [apply TrimSpace_idem |]. split; [apply TrimSpace_idem |].
  split; [by apply TrimSpace_no_byte |].
  split.
  { apply (TrimSpace_first_byte a (String "=" b)); [| done].
    unfold startsWithSpace in Hstart.
    by destruct (leading space1 space2 space3 (a +:+ String "=" b)). }
  split; [by apply TrimSpace_no_byte |].
  apply TrimSpace_no_byte. cbn [Contains] in Hnlb. rewrite HasPrefix_byte in Hnlb.
  by apply orb_false_iff in Hnlb as [_ Hnlb].
Qed.

(** X7.  Whatever the file holds, every key and value of the map the
    dotenv loader returns is trimmed and holds no line feed, and no key
    holds an [=] or starts with [#]. *)
Theorem Load_clean file k v : Load file !! k = Some v -> clean k v.
Proof.
  revert k v. change (allClean (Load file)). unfold Load. destruct file as [data|]; [| intros k v; by rewrite lookup_empty].
  unfold Lines. pose proof (scanLines_no_newline data "" 0 eq_refl) as Htokens.
  assert (Hstart : allClean (∅ : gmap string string))
    by (intros k v; by rewrite lookup_empty).
  revert Hstart. generalize (∅ : gmap string string).
  induction Htokens as [|t ts Ht _ IH]; intros env Henv; [done |].
  cbn [fold_left]. apply IH. by apply loadLine_clean.
Qed.

Lemma Load_clean_witness : clean "KEY" "a value".
Proof.
  apply (Load_clean (Some ("# note" +:+ Cli.nl +:+ "  KEY =  a value  " +:+ Cli.nl))).
  vm_compute. reflexivity.
Defined.

End EnvShapeProofs.

(** ** Escaping for the plist *)

Module PlistProofs.
Import GoStrings Plist StringProofs.

#[local] Arguments append !s1 s2 / : simpl nomatch.

(** Replacing one byte replaces it wherever it stands. *)
Lemma ReplaceAll_byte s c new :
  ReplaceAll s (String c "") new
  = expandBytes (fun x => if Ascii.eqb x c then new else String x "") s.
Proof.
  unfold ReplaceAll. induction s as [|x s IH]; [done |].
  cbn [replaceFrom expandBytes]. rewrite HasPrefix_byte.
  cbn [String.length Nat.sub]. rewrite IH. by destruct (Ascii.eqb x c).
Qed.

Lemma expandBytes_app f a b :
  expandBytes f (a +:+ b) = expandBytes f a +:+ expandBytes f b.
Proof.
  induction a as [|x a IH]; [done |].
  cbn [append expandBytes]. by rewrite IH, append_assoc.
Qed.

Lemma expandBytes_compose f g s :
  expandBytes g (expandBytes f s) = expandBytes (fun x => expandBytes g (f x)) s.
Proof.
  induction s as [|x s IH]; [done |].
  cbn [expandBytes]. by rewrite expandBytes_app, IH.
Qed.

Lemma expandBytes_ext f g s :
  (forall x, f x = g x) -> expandBytes f s = expandBytes g s.
Proof.
  intros H. induction s as [|x s IH]; [done |]. cbn [expandBytes]. by rewrite H, IH.
Qed.

Lemma xmlEscape_bytes s : xmlEscape s = expandBytes entity s.
Proof.
  unfold xmlEscape. cbv zeta. rewrite !ReplaceAll_byte, !expandBytes_compose.
  apply expandBytes_ext. intros x. unfold entity.
  destruct (Ascii.eqb_spec x "&") as [-> | Hamp]; [reflexivity |].
  cbn [expandBytes]. rewrite append_nil_r.
  destruct (Ascii.eqb_spec x "<") as [-> | Hlt]; [reflexivity |].
  cbn [expandBytes]. rewrite append_nil_r.
  by destruct (Ascii.eqb_spec x ">") as [-> | Hgt].
Qed.

Lemma entity_no_markup x :
  Contains (entity x) "<" = false /\ Contains (entity x) ">" = false.
Proof.
  unfold entity.
  destruct (Ascii.eqb_spec x "&") as [-> | Hamp]; [done |].
  destruct (Ascii.eqb_spec x "<") as [-> | Hlt]; [done |].
  destruct (Ascii.eqb_spec x ">") as [-> | Hgt]; [done |].
  cbn [Contains]. rewrite !HasPrefix_byte.
  apply Ascii.eqb_neq in Hlt, Hgt. by rewrite Hlt, Hgt.
Qed.

Lemma expandBytes_entity_inj s t :
  expandBytes entity s = expandBytes entity t -> s = t.
Proof.
  revert t. induction s as [|x s IH]; intros [|y t]; cbn [expandBytes]; unfold entity.
  - done.
  - destruct (Ascii.eqb y "&"); [done |]. destruct (Ascii.eqb y "<"); [done |].
    by destruct (Ascii.eqb y ">").
  - destruct (Ascii.eqb x "&"); [done |]. destruct (Ascii.eqb x "<"); [done |].
    by destruct (Ascii.eqb x ">").
  - destruct (Ascii.eqb_spec x "&") as [-> | Hxa];
      [| destruct (Ascii.eqb_spec x "<") as [-> | Hxl];
         [| destruct (Ascii.eqb_spec x ">") as [-> | Hxg]]];
    (destruct (Ascii.eqb_spec y "&") as [-> | Hya];
      [| destruct (Ascii.eqb_spec y "<") as [-> | Hyl];
         [| destruct (Ascii.eqb_spec y ">") as [-> | Hyg]]]);
    cbn [append]; intros H; try discriminate H;
    try (injection H as H; f_equal; by apply IH);
    try (injection H as -> H; (done || (f_equal; by apply IH)));
    try (injection H; intros; congruence).
Qed.

Lemma expandBytes_plain s :
  Contains s "&" = false -> Contains s "<" = false -> Contains s ">" = false ->
  expandBytes entity s = s.
Proof.
  induction s as [|x s IH]; [done |]. cbn [Contains]. rewrite !HasPrefix_byte.
  intros [Ha Hs1]%orb_false_iff [Hl Hs2]%orb_false_iff [Hg Hs3]%orb_false_iff.
  cbn [expandBytes]. rewrite IH by done. unfold entity. by rewrite Ha, Hl, Hg.
Qed.

(** X8.  [xmlEscape] replaces every [&], [<] and [>] by its entity and
    leaves every other byte, in one pass over the bytes of its argument:
    an [&] it writes is not escaped again.  So the result holds no [<]
    and no [>], a string without the three bytes comes back unchanged,
    escaping goes through concatenation, and two different strings have
    different escapes. *)
Theorem xmlEscape_entities s t :
  xmlEscape s = expandBytes entity s
  /\ Contains (xmlEscape s) "<" = false
  /\ Contains (xmlEscape s) ">" = false
  /\ (Contains s "&" = false -> Contains s "<" = false -> Contains s ">" = false ->
      xmlEscape s = s)
  /\ xmlEscape (s +:+ t) = xmlEscape s +:+ xmlEscape t
  /\ (xmlEscape s = xmlEscape t -> s = t).
Proof.
  rewrite !xmlEscape_bytes. split; [done |].
  assert (Hno : forall u, Contains (expandBytes entity u) "<" = false
                          /\ Contains (expandBytes entity u) ">" = false).
  { induction u as [|x u [IH1 IH2]]; [done |]. cbn [expandBytes].
    rewrite !Contains_app_byte, IH1, IH2.
    by destruct (entity_no_markup x) as [-> ->]. }
  split; [apply Hno |]. split; [apply Hno |].
  split; [apply expandBytes_plain |].
  split; [apply expandBytes_app | apply expandBytes_entity_inj].
Qed.

End PlistProofs.

(** ** Formatting and arguments *)

Module FormatProofs.
Import GoStrings Format StringProofs.

#[local] Arguments append !s1 s2 / : simpl nomatch.

Lemma length_slice n s : n <= String.length s -> String.length (slice n s) = n.
Proof.
  revert s. induction n as [|n IH]; intros s Hn; [done |].
  destruct s as [|c s]; cbn [String.length] in Hn; [lia |].
  cbn [slice String.length]. rewrite IH by lia. done.
Qed.

Lemma slice_prefix n s : n <= String.length s -> exists rest, s = slice n s +:+ rest.
Proof.
  revert s. induction n as [|n IH]; intros s Hn; [by exists s |].
  destruct s as [|c s]; cbn [String.length] in Hn; [lia |].
  destruct (IH s ltac:(lia)) as [rest Hrest]. exists rest.
  cbn [slice append]. by rewrite <- Hrest.
Qed.

Lemma slice_all s : slice (String.length s) s = s.
Proof. induction s as [|c s IH]; [done |]. cbn [String.length slice]. by rewrite IH. Qed.

(** X9.  [truncate(s, n)] is empty for [n <= 0] and is [s] itself when
    [s] has at most [n] bytes.  A longer [s] is cut to exactly [n]
    bytes: to its first [n] bytes when [n <= 3], and otherwise to its
    first [n - 3] bytes followed by three dots.  In no case does the
    result have more than [n] bytes, and truncating twice changes
    nothing more. *)
Theorem truncate_bytes s n :
  ((n <= 0)%Z -> truncate s n = "")
  /\ ((Z.of_nat (String.length s) <= n)%Z -> (0 < n)%Z -> truncate s n = s)
  /\ ((0 < n < Z.of_nat (String.length s))%Z ->
      Z.of_nat (String.length (truncate s n)) = n
      /\ exists head rest,
           s = head +:+ rest
           /\ truncate s n = head +:+ (if (n <=? 3)%Z then "" else "..."))
  /\ ((0 <= n)%Z -> (Z.of_nat (String.length (truncate s n)) <= n)%Z)
  /\ truncate (truncate s n) n = truncate s n.
Proof.
  assert (Hsmall : (n <= 0)%Z -> truncate s n = "").
  { intros H. unfold truncate. by destruct (Z.leb_spec n 0); [| lia]. }
  assert (Hfits : forall t, (Z.of_nat (String.length t) <= n)%Z -> (0 < n)%Z ->
                            truncate t n = t).
  { intros t H Hn. unfold truncate. destruct (Z.leb_spec n 0); [lia |].
    by destruct (Z.leb_spec (Z.of_nat (String.length t)) n); [| lia]. }
  assert (Hcut : (0 < n < Z.of_nat (String.length s))%Z ->
      Z.of_nat (String.length (truncate s n)) = n
      /\ exists head rest,
           s = head +:+ rest
           /\ truncate s n = head +:+ (if (n <=? 3)%Z then "" else "...")).
  { intros H. unfold truncate. destruct (Z.leb_spec n 0); [lia |].
    destruct (Z.leb_spec (Z.of_nat (String.length s)) n); [lia |].
    destruct (Z.leb_spec n 3).
    - rewrite length_slice by lia. split; [lia |].
      destruct (slice_prefix (Z.to_nat n) s ltac:(lia)) as [rest Hrest].
      exists (slice (Z.to_nat n) s), rest. by rewrite append_nil_r.
    - rewrite append_length, length_slice by lia. split; [cbn [String.length]; lia |].
      destruct (slice_prefix (Z.to_nat (n - 3)) s ltac:(lia)) as [rest Hrest].
      by exists (slice (Z.to_nat (n - 3)) s), rest. }
  split; [exact Hsmall |]. split; [apply Hfits |]. split; [exact Hcut |].
  assert (Hbound : (0 <= n)%Z -> (Z.of_nat (String.length (truncate s n)) <= n)%Z).
  { intros Hn. destruct (Z.leb_spec n 0) as [H0 | H0].
    - rewrite Hsmall by done. cbn. lia.
    - destruct (Z.leb_spec (Z.of_nat (String.length s)) n) as [Hs | Hs].
      + by rewrite Hfits.
      + destruct Hcut as [Hlen _]; lia. }
  split; [exact Hbound |].
  destruct (Z.leb_spec n 0) as [H0 | H0].
  - rewrite (Hsmall H0). unfold truncate. by destruct (Z.leb_spec n 0); [| lia].
  - apply Hfits; [apply Hbound; lia | done].
Qed.

End FormatProofs.

Module ArgsProofs.
Import Args.

Lemma stripBoolFlag_fold short long args out found :
  fold_left (stripStep short long) args (out, found)
  = (out ++ List.filter (fun a => negb (isFlag short long a)) args,
     found || existsb (isFlag short long) args).
Proof.
  revert out found. induction args as [|a args IH]; intros out found.
  - cbn. by rewrite app_nil_r, orb_false_r.
  - cbn [fold_left stripStep List.filter existsb]. destruct (isFlag short long a) eqn:E.
    + rewrite IH. cbn [negb]. by rewrite orb_true_r.
    + rewrite IH. cbn [negb orb]. by rewrite <- app_assoc.
Qed.

(** X10.  [stripBoolFlag] returns the arguments that are none of the four
    spellings of the flag ([-s], [--s], [-long], [--long]), in their
    order, and reports whether it met one.  Nothing it returns is a
    spelling of the flag, every other argument is kept, and stripping
    its result again changes nothing and finds no flag. *)
Theorem stripBoolFlag_filter args short long :
  let r := stripBoolFlag args short long in
  r.1 = List.filter (fun a => negb (isFlag short long a)) args
  /\ r.2 = existsb (isFlag short long) args
  /\ (forall a, In a r.1 <-> In a args /\ isFlag short long a = false)
  /\ (r.2 = false -> r.1 = args)
  /\ stripBoolFlag r.1 short long = (r.1, false).
Proof.
  cbv zeta. unfold stripBoolFlag. rewrite !stripBoolFlag_fold. cbn [fst snd app orb].
  set (keep := fun a => negb (isFlag short long a)).
  split; [done |]. split; [done |]. split.
  { intros a. rewrite filter_In. unfold keep. by rewrite negb_true_iff. }
  split.
  { intros Hnone. induction args as [|a args IH]; [done |].
    cbn [existsb] in Hnone. apply orb_false_iff in Hnone as [Ha Hrest].
    cbn [List.filter]. unfold keep at 1. rewrite Ha. cbn [negb]. by rewrite IH. }
  f_equal.
  - induction args as [|a args IH]; [done |]. cbn [List.filter].
    destruct (keep a) eqn:E; [| done]. cbn [List.filter]. by rewrite E, IH.
  - induction args as [|a args IH]; [done |]. cbn [List.filter].
    destruct (keep a) eqn:E; [| done]. cbn [existsb]. rewrite IH.
    unfold keep in E. apply negb_true_iff in E. by rewrite E.
Qed.

End ArgsProofs.

(** ** Prune *)

Module PruneProofs.
Import GoStrings Cli Prune.
Import Proto(StateExited, StateCrashed, StateKilled, StateFinished, IsTerminal).

Lemma drops_app a b : drops (a ++ b) = drops a ++ drops b.
Proof. apply omap_app. Qed.

Lemma drops_describe dead : drops (concat (map describe dead)) = [].
Proof. induction dead as [|inst dead IH]; [done |]. cbn [map concat]. by rewrite drops_app, IH. Qed.

Lemma drops_errors errors : drops (map Stderr errors ++ [Exit 1]) = [].
Proof. induction errors as [|e errors IH]; [done | exact IH]. Qed.

(** The dropping loop asks for the instances in order and stops at the
    first request that fails. *)
Lemma drops_dropAll w k dead :
  exists n, drops (dropAll w k dead) = map Proto.InstanceInfo.ID (take n dead)
            /\ ((forall j inst, dead !! j = Some inst ->
                   exists r, answer w (k + j) (AskDrop (Proto.InstanceInfo.ID inst)) = inr r) ->
                n = length dead).
Proof.
  revert k. induction dead as [|inst dead IH]; intros k.
  - by exists 0.
  - cbn [dropAll]. destruct (answer w k (AskDrop (Proto.InstanceInfo.ID inst))) as [errors | r] eqn:E.
    + exists 1. split.
      * change (drops (?x :: ?l)) with (Proto.InstanceInfo.ID inst :: drops l).
        rewrite drops_errors. reflexivity.
      * intros Hall. destruct (Hall 0 inst eq_refl) as [r Hr].
        rewrite Nat.add_0_r in Hr. congruence.
    + destruct (IH (S k)) as (n & Hn & Hall). exists (S n). split.
      * change (drops (?x :: ?y :: ?l)) with (Proto.InstanceInfo.ID inst :: drops l).
        by rewrite Hn.
      * intros Hok. cbn [length]. f_equal. apply Hall. intros j i Hj.
        destruct (Hok (S j) i Hj) as [r' Hr']. exists r'.
        by replace (S k + j) with (k + S j) by lia.
Qed.

Lemma isDead_terminal includeFinished inst :
  isDead includeFinished inst = true ->
  IsTerminal (Proto.InstanceInfo.State inst) = true
  /\ (Proto.InstanceInfo.State inst = StateFinished -> includeFinished = true).
Proof.
  unfold isDead, IsTerminal. cbv zeta.
  destruct (String.eqb_spec (Proto.InstanceInfo.State inst) StateExited) as [-> | _];
    [by split |].
  destruct (String.eqb_spec (Proto.InstanceInfo.State inst) StateCrashed) as [-> | _];
    [by split |].
  destruct (String.eqb_spec (Proto.InstanceInfo.State inst) StateKilled) as [-> | _];
    [by split |].
  cbn [orb]. destruct (String.eqb (Proto.InstanceInfo.State inst) StateFinished); [| done].
  by intros ->.
Qed.

(** X11.  Every instance [cmdPrune] asks the daemon to drop was listed by
    the daemon in a terminal state -- FINISHED only with [--finished] --
    and the user has answered [y] or [Y] before the first of them; an
    instance that is not terminal is never dropped.  The requests follow
    the order of the list, and when none of them fails all the dead
    instances of the list are dropped. *)
Theorem cmdPrune_drops_dead w includeFinished :
  let trace := cmdPrune w includeFinished in
  (drops trace <> [] -> confirmed w)
  /\ (forall resp, answer w 0 AskList = inr resp ->
        let dead := List.filter (isDead includeFinished) (Proto.Response.Instances resp) in
        (exists n, drops trace = map Proto.InstanceInfo.ID (take n dead))
        /\ (Forall (fun inst =>
                      IsTerminal (Proto.InstanceInfo.State inst) = true
                      /\ (Proto.InstanceInfo.State inst = StateFinished ->
                          includeFinished = true)) dead)
        /\ (confirmed w ->
            (forall j inst, dead !! j = Some inst ->
               exists r, answer w (1 + j) (AskDrop (Proto.InstanceInfo.ID inst)) = inr r) ->
            drops trace = map Proto.InstanceInfo.ID dead))
  /\ (forall errors, answer w 0 AskList = inl errors -> drops trace = []).
Proof.
  cbv zeta. unfold cmdPrune, confirmed.
  destruct (answer w 0 AskList) as [errors | resp] eqn:Elist.
  - change (drops (?x :: ?l)) with (drops l). rewrite drops_errors.
    split; [done |]. split; [done |]. done.
  - set (dead := List.filter (isDead includeFinished) (Proto.Response.Instances resp)).
    assert (Hterm : Forall (fun inst =>
                      IsTerminal (Proto.InstanceInfo.State inst) = true
                      /\ (Proto.InstanceInfo.State inst = StateFinished ->
                          includeFinished = true)) dead).
    { apply List.Forall_forall. intros inst [_ Hin]%filter_In. by apply isDead_terminal. }
    destruct dead as [|d0 dead'] eqn:Edead.
    { split; [done |]. split; [| done]. intros r [= <-]. fold dead. rewrite Edead.
      split; [by exists 0 |]. split; [done |]. done. }
    rewrite <- Edead in *. clear Edead d0 dead'.
    change (drops (Ask AskList :: ?x :: ?l)) with (drops l).
    rewrite !drops_app, drops_describe. cbn [app].
    change (drops (?x :: ?y :: ?l)) with (drops l).
    set (reply := TrimSpace (readString (stdin w))).
    destruct (String.eqb_spec reply "y") as [Hy | Hy];
      [| destruct (String.eqb_spec reply "Y") as [HY | HY]]; cbn [negb andb].
    + destruct (drops_dropAll w 1 dead) as (n & Hn & Hall).
      split; [by left |]. split; [| done]. intros r [= <-].
      split; [by exists n |]. split; [done |]. intros _ Hok.
      rewrite Hn, (Hall Hok). by rewrite firstn_all.
    + destruct (drops_dropAll w 1 dead) as (n & Hn & Hall).
      split; [by right |]. split; [| done]. intros r [= <-].
      split; [by exists n |]. split; [done |]. intros _ Hok.
      rewrite Hn, (Hall Hok). by rewrite firstn_all.
    + split; [done |]. split; [| done]. intros r [= <-].
      split; [by exists 0 |]. split; [done |]. intros [? | ?]; done.
Qed.

End PruneProofs.

(** ** More of the daemon *)

Module DaemonMoreProofs.
Import GoStrings GoText Daemon DaemonMore HandlerProofs.

(** *** The resilient writer *)

Lemma connFailed_app t1 t2 : connFailed (t1 ++ t2) = connFailed t1 ++ connFailed t2.
Proof. apply omap_app. Qed.

(** One [Write], by the state of the writer and of the connection. *)
Lemma run_Write rw p d c :
  Write rw p d c
  = (mkResilientWriter (log rw)
       (connOK rw && match writesLeft c with O => false | S _ => true end),
     d,
     (if connOK rw then mkConn (pred (writesLeft c)) else c),
     (if connOK rw
      then [ConnWrite p (match writesLeft c with O => false | S _ => true end)]
      else [])
     ++ match log rw with Some path => [LogWrite path p] | None => [] end).
Proof.
  unfold Write. rewrite !run_bind.
  destruct rw as [lg ok]. cbn [log connOK]. destruct ok.
  - rewrite run_bind. unfold connSend. destruct c as [[|k]]; destruct lg; reflexivity.
  - destruct c as [n]; destruct lg; reflexivity.
Qed.

(** X12.  A resilient writer with an open log and a good connection, given
    chunk after chunk: the log receives every chunk, in order, whatever
    the connection does; the connection receives the chunks until its
    first failed write and is never written to again; and the daemon is
    left as it is.  The writer is still good at the end exactly when no
    write failed. *)
Theorem resilientWriter_fanout path chunks d c :
  let r := writeAll (newResilientWriter (Some path)) chunks d c in
  logWrites (traceOf r) = chunks
  /\ connDelivered (traceOf r) = take (writesLeft c) chunks
  /\ connFailed (traceOf r) = take 1 (drop (writesLeft c) chunks)
  /\ connOK (valueOf r) = Nat.leb (length chunks) (writesLeft c)
  /\ daemonOf r = d.
Proof.
  cbv zeta. split; [by apply (logWrites_writeAll _ _ _ _ path) |].
  assert (Hbroken : forall chunks c,
    let r := writeAll (mkResilientWriter (Some path) false) chunks d c in
    connDelivered (traceOf r) = [] /\ connFailed (traceOf r) = []
    /\ connOK (valueOf r) = false).
  { clear chunks c. induction chunks as [|p chunks IH]; intros c; [done |].
    cbv zeta. cbn [writeAll]. rewrite run_bind, run_Write.
    cbn [valueOf daemonOf connOf traceOf fst snd log connOK andb].
    destruct (IH c) as (H1 & H2 & H3).
    by rewrite HandlerProofs.connDelivered_app, connFailed_app, H1, H2, H3. }
  assert (Hgood : forall chunks c,
    let r := writeAll (mkResilientWriter (Some path) true) chunks d c in
    connDelivered (traceOf r) = take (writesLeft c) chunks
    /\ connFailed (traceOf r) = take 1 (drop (writesLeft c) chunks)
    /\ connOK (valueOf r) = Nat.leb (length chunks) (writesLeft c)).
  { clear chunks c. induction chunks as [|p chunks IH]; intros c.
    - cbn. by rewrite take_nil, drop_nil.
    - cbv zeta. cbn [writeAll]. rewrite run_bind, run_Write.
      cbn [valueOf daemonOf connOf traceOf fst snd log connOK andb].
      rewrite HandlerProofs.connDelivered_app, connFailed_app.
      destruct c as [[|k]]; cbn [writesLeft pred].
      + destruct (Hbroken chunks (mkConn 0)) as (H1 & H2 & H3).
        rewrite H1, H2, H3. done.
      + destruct (IH (mkConn k)) as (H1 & H2 & H3). cbn [writesLeft] in H1, H2, H3.
        rewrite H1, H2, H3. done. }
  destruct (Hgood chunks c) as (H1 & H2 & H3).
  split; [exact H1 |]. split; [exact H2 |]. split; [exact H3 |].
  apply daemonOf_writeAll.
Qed.

(** *** The log line about the credentials *)

(** X13.  The line [logAgentCredentials] logs depends on the agent
    environment only through which of the two credential keys have a
    non-empty value: it never shows a value.  It is the warning exactly
    when neither key has one. *)
Theorem logAgentCredentials_presence id env1 env2 :
  (forall k, In k credentialKeys ->
     (default "" (env1 !! k) = "" <-> default "" (env2 !! k) = "")) ->
  logAgentCredentials id env1 = logAgentCredentials id env2
  /\ (logAgentCredentials id env1
      = "instance " +:+ id
        +:+ ": WARNING no claude credentials found — agent will show login screen"
      <-> forall k, In k credentialKeys -> default "" (env1 !! k) = "").
Proof.
  intros Hsame.
  assert (Hfilter :
    List.filter (fun k => negb (String.eqb (default "" (env1 !! k)) "")) credentialKeys
    = List.filter (fun k => negb (String.eqb (default "" (env2 !! k)) "")) credentialKeys).
  { apply filter_ext_in. intros k Hk. f_equal. specialize (Hsame k Hk).
    destruct (String.eqb_spec (default "" (env1 !! k)) "") as [E1 | E1];
      destruct (String.eqb_spec (default "" (env2 !! k)) "") as [E2 | E2]; tauto. }
  split.
  - unfold logAgentCredentials. cbv zeta. by rewrite Hfilter.
  - assert (Hcancel : forall a x y : string, a +:+ x = a +:+ y -> x = y).
    { induction a as [|ch a IH]; intros x y H; [done |]. injection H as H. by apply IH. }
    unfold logAgentCredentials, credentialKeys. cbv zeta. cbn [List.filter].
    destruct (String.eqb_spec (default "" (env1 !! "CLAUDE_CODE_OAUTH_TOKEN")) "") as [E1 | E1];
      destruct (String.eqb_spec (default "" (env1 !! "ANTHROPIC_API_KEY")) "") as [E2 | E2];
      cbn [negb length Nat.ltb Nat.leb JoinSep].
    + split; [| done]. intros _ k [<- | [<- | []]]; done.
    + split.
      * intros H. apply Hcancel, Hcancel in H. discriminate H.
      * intros H. destruct E2. apply H. right. by left.
    + split.
      * intros H. apply Hcancel, Hcancel in H. discriminate H.
      * intros H. destruct E1. apply H. by left.
    + split.
      * intros H. apply Hcancel, Hcancel in H. discriminate H.
      * intros H. destruct E1. apply H. by left.
Qed.

Lemma logAgentCredentials_presence_witness :
  logAgentCredentials "7" {[ "ANTHROPIC_API_KEY" := "sk-one" ]}
  = logAgentCredentials "7" {[ "ANTHROPIC_API_KEY" := "sk-two"; "OTHER" := "x" ]}.
Proof.
  apply (logAgentCredentials_presence "7").
  intros k [<- | [<- | []]]; vm_compute; split; intros H; discriminate H || reflexivity.
Defined.

(** *** The lowest unused ID *)

Lemma firstFree_app taken l1 l2 :
  firstFree taken (l1 ++ l2)
  = match firstFree taken l1 with Some id => Some id | None => firstFree taken l2 end.
Proof.
  induction l1 as [|x l1 IH]; [done |]. cbn [app firstFree].
  by destruct (taken !! x).
Qed.

Lemma firstFreePair_flat taken outer inner :
  firstFreePair taken outer inner
  = firstFree taken (flat_map (fun a => map (fun b => a +:+ b) inner) outer).
Proof.
  induction outer as [|a outer IH]; [done |].
  cbn [firstFreePair flat_map]. rewrite firstFree_app, IH.
  by destruct (firstFree taken (map (fun b => a +:+ b) inner)).
Qed.

Lemma nextInstanceID_order d random :
  nextInstanceID d random
  = match firstFree (instances d) idOrder with
    | Some id => id
    | None => let '(b0, b1, b2, b3) := random in EncodeToString [b0; b1; b2; b3]
    end.
Proof.
  unfold nextInstanceID, idOrder, idPairs. rewrite firstFree_app, firstFreePair_flat.
  by destruct (firstFree (instances d) idAlphabet).
Qed.

(** X14.  Over any registry: when one of the 35 one-character or 1225
    two-character IDs is unused, [nextInstanceID] returns the first
    unused one in the order of its loops, and that ID is not in the
    registry.  Only when all of them are taken does it return eight hex
    digits, for which it does not look into the registry. *)
Theorem nextInstanceID_lowest_free d random :
  (forall before id after,
     idOrder = before ++ id :: after ->
     Forall (fun x => is_Some (instances d !! x)) before ->
     instances d !! id = None ->
     nextInstanceID d random = id)
  /\ ((exists id, In id idOrder /\ instances d !! id = None) ->
      instances d !! nextInstanceID d random = None
      /\ In (nextInstanceID d random) idOrder)
  /\ (Forall (fun x => is_Some (instances d !! x)) idOrder ->
      nextInstanceID d random
      = (let '(b0, b1, b2, b3) := random in EncodeToString [b0; b1; b2; b3])).
Proof.
  rewrite nextInstanceID_order. split; [| split].
  - intros before id after Horder Htaken Hfree. rewrite Horder.
    by rewrite (AllocatorProofs.firstFree_lowest _ _ _ _ Htaken Hfree).
  - intros (id & Hin & Hfree).
    destruct (firstFree (instances d) idOrder) as [x|] eqn:E.
    + apply AllocatorProofs.firstFree_Some in E as [Hx Hnone].
      split; [done | by apply list_elem_of_In].
    + apply AllocatorProofs.firstFree_None in E. rewrite List.Forall_forall in E.
      destruct (E id Hin) as [v Hv]. congruence.
  - intros Hall. apply AllocatorProofs.firstFree_None in Hall. by rewrite Hall.
Qed.

Lemma nextInstanceID_lowest_free_witness :
  nextInstanceID (Samples.daemonWith (Samples.running "1")) Samples.random = "2".
Proof.
  apply (proj1 (nextInstanceID_lowest_free _ Samples.random) ["1"] "2"
           (List.tl (List.tl idOrder))).
  - reflexivity.
  - constructor; [| constructor]. eexists. apply lookup_insert_eq.
  - reflexivity.
Defined.

(** *** DROP *)

Lemma commandsRun_cons_Run argv t : commandsRun (Run argv :: t) = argv :: commandsRun t.
Proof. reflexivity. Qed.

Lemma run_stopContainer name project d c :
  stopContainer name project d c
  = (tt, d, c,
     if negb (String.eqb project "")
     then [Run ["docker"; "compose"; "-p"; project; "down"; "-v"]]
     else [Run ["docker"; "stop"; name]; Run ["docker"; "rm"; name]]).
Proof. unfold stopContainer. by destruct (negb (String.eqb project "")). Qed.

(** X15.  DROP on an unknown ID answers "instance not found" and does
    nothing.  On a known instance, in whatever state, it removes that
    instance from the registry and leaves every other one as it is; it
    signals the child exactly when one is alive; it runs, in this order,
    the container teardown ([docker compose down -v] for a compose
    project, otherwise [docker stop] and [docker rm]), [git worktree
    remove --force] and [git branch -D] in the project's main checkout;
    it removes the metadata file and answers OK. *)
Theorem handleDrop_removes req d c :
  let id := Proto.Request.InstanceID req in
  let r := handleDrop req d c in
  (instances d !! id = None ->
   daemonOf r = d /\ exists delivered, traceOf r = [Respond (notFound id) delivered])
  /\ (forall inst, instances d !! id = Some inst ->
      let mainDir := Join [rootDir d; "projects"; Project inst; "main"] in
      daemonOf r = mkDaemon (rootDir d) (delete id (instances d))
      /\ (forall other, other <> id ->
            instances (daemonOf r) !! other = instances d !! other)
      /\ instances (daemonOf r) !! id = None
      /\ exists delivered,
           traceOf r
           = (if childAlive inst then [Signal id] else [])
             ++ (if negb (String.eqb (ComposeProject inst) "")
                 then [Run ["docker"; "compose"; "-p"; ComposeProject inst; "down"; "-v"]]
                 else [Run ["docker"; "stop"; ContainerID inst];
                       Run ["docker"; "rm"; ContainerID inst]])
             ++ [ Run ["git"; "-C"; mainDir; "worktree"; "remove"; "--force";
                       WorktreeDir inst];
                  Run ["git"; "-C"; mainDir; "branch"; "-D"; Branch inst];
                  RemoveFile (Join [rootDir d; "instances"; id +:+ ".json"]);
                  Respond Proto.Response.ok delivered ]).
Proof.
  cbv zeta. split.
  - intros Hnone. unfold handleDrop. rewrite run_bind.
    cbn [getInstance valueOf daemonOf connOf traceOf fst snd]. rewrite Hnone.
    cbn [app]. split; [apply daemonOf_respond | apply traceOf_respond].
  - intros inst Hreg.
    assert (Hrun : exists delivered : bool,
      handleDrop req d c
      = (tt, mkDaemon (rootDir d) (delete (Proto.Request.InstanceID req) (instances d)),
         (if delivered then mkConn (pred (writesLeft c)) else c),
         (if childAlive inst then [Signal (Proto.Request.InstanceID req)] else [])
         ++ (if negb (String.eqb (ComposeProject inst) "")
             then [Run ["docker"; "compose"; "-p"; ComposeProject inst; "down"; "-v"]]
             else [Run ["docker"; "stop"; ContainerID inst];
                   Run ["docker"; "rm"; ContainerID inst]])
         ++ [ Run ["git"; "-C"; Join [rootDir d; "projects"; Project inst; "main"];
                   "worktree"; "remove"; "--force"; WorktreeDir inst];
              Run ["git"; "-C"; Join [rootDir d; "projects"; Project inst; "main"];
                   "branch"; "-D"; Branch inst];
              RemoveFile (Join [rootDir d; "instances";
                                Proto.Request.InstanceID req +:+ ".json"]);
              Respond Proto.Response.ok delivered ])).
    { unfold handleDrop, respond. unfold mbind, M_bind, bind. cbn [getInstance].
      rewrite Hreg, (run_destroy _ _ _ _ Hreg), run_stopContainer.
      cbn [getRootDir emit rootDir instances]. rewrite delete_insert_eq.
      unfold connSend. destruct c as [[|k]]; cbn [writesLeft mret M_ret ret pred].
      - exists false.
        by destruct (childAlive inst), (negb (String.eqb (ComposeProject inst) "")).
      - exists true.
        by destruct (childAlive inst), (negb (String.eqb (ComposeProject inst) "")). }
    destruct Hrun as [delivered Hrun]. rewrite Hrun.
    cbn [daemonOf traceOf fst snd instances].
    split; [done |]. split; [by intros other Hne; apply lookup_delete_ne |].
    split; [apply lookup_delete_eq |]. by exists delivered.
Qed.

Lemma handleDrop_removes_witness :
  instances (daemonOf (handleDrop (Samples.request "1")
                         (Samples.daemonWith (Samples.running "1")) Samples.client))
    !! "1" = None.
Proof.
  apply (proj2 (handleDrop_removes (Samples.request "1")
                  (Samples.daemonWith (Samples.running "1")) Samples.client)
           (Samples.running "1")).
  apply lookup_insert_eq.
Defined.

(** *** RESTART *)

(** X16.  RESTART on a registered instance answers once.  It refuses an
    instance that is not in a terminal state with "cannot restart:
    instance is <state>", and reports the error when the project does not
    load; in both cases the daemon is left as it is and nothing is
    persisted.  It answers OK exactly when the state is terminal, the
    project loads and the agent starts. *)
Theorem handleRestart_guard w req d c inst :
  instances d !! Proto.Request.InstanceID req = Some inst ->
  let r := handleRestart w req d c in
  (Proto.IsTerminal (state inst) = false ->
   daemonOf r = d
   /\ exists delivered,
        traceOf r = [Respond (Proto.Response.error
                                ("cannot restart: instance is " +:+ state inst)) delivered])
  /\ (forall err,
        Proto.IsTerminal (state inst) = true ->
        loadProject w (rootDir d) (Project inst) = inl err ->
        daemonOf r = d
        /\ exists delivered, traceOf r = [Respond (Proto.Response.error err) delivered])
  /\ (exists resp, responses (traceOf r) = [resp]
        /\ (Proto.Response.OK resp = true <->
            Proto.IsTerminal (state inst) = true
            /\ (exists p, loadProject w (rootDir d) (Project inst) = inr p)
            /\ startAgent w (Proto.Request.InstanceID req) = None)).
Proof.
  intros Hreg. cbv zeta.
  unfold handleRestart, respond, persistMeta. unfold mbind, M_bind, bind.
  cbn [getInstance getRootDir]. rewrite Hreg.
  destruct (Proto.IsTerminal (state inst)) eqn:Eterm; cbn [negb].
  - destruct (loadProject w (rootDir d) (Project inst)) as [err | p] eqn:Eload.
    + unfold connSend. destruct c as [[|k]];
        cbn [writesLeft mret M_ret ret daemonOf traceOf responses fst snd app].
      * split; [done |]. split; [intros e _ [= <-]; eauto |].
        eexists. split; [reflexivity |]. cbn. split; [done |].
        by intros (_ & [p Hp] & _).
      * split; [done |]. split; [intros e _ [= <-]; eauto |].
        eexists. split; [reflexivity |]. cbn. split; [done |].
        by intros (_ & [p Hp] & _).
    + cbn [update]. destruct (startAgent w (Proto.Request.InstanceID req)) as [err|] eqn:Estart.
      * unfold connSend. destruct c as [[|k]];
          cbn [writesLeft mret M_ret ret daemonOf traceOf responses fst snd app].
        -- split; [done |]. split; [done |].
           eexists. split; [reflexivity |]. cbn. split; [done |]. by intros (_ & _ & ?).
        -- split; [done |]. split; [done |].
           eexists. split; [reflexivity |]. cbn. split; [done |]. by intros (_ & _ & ?).
      * cbn [update getInstance instances].
        rewrite lookup_alter_eq, lookup_alter_eq, Hreg. cbn [fmap option_fmap option_map emit].
        unfold connSend. destruct c as [[|k]];
          cbn [writesLeft mret M_ret ret daemonOf traceOf fst snd app].
        -- split; [done |]. split; [done |].
           eexists. split; [reflexivity |]. cbn. split; [eauto | done].
        -- split; [done |]. split; [done |].
           eexists. split; [reflexivity |]. cbn. split; [eauto | done].
  - unfold connSend. destruct c as [[|k]];
      cbn [writesLeft mret M_ret ret daemonOf traceOf responses fst snd app].
    + split; [eauto |]. split; [done |].
      eexists. split; [reflexivity |]. cbn. split; [done | by intros (? & _)].
    + split; [eauto |]. split; [done |].
      eexists. split; [reflexivity |]. cbn. split; [done | by intros (? & _)].
Qed.

Lemma handleRestart_guard_witness :
  exists delivered,
    traceOf (handleRestart (Samples.world (inr (Samples.project [] [])) (fun _ => ([], None)))
               (Samples.request "1") (Samples.daemonWith (Samples.running "1"))
               Samples.client)
    = [Respond (Proto.Response.error "cannot restart: instance is RUNNING") delivered].
Proof.
  apply (proj1 (handleRestart_guard
                  (Samples.world (inr (Samples.project [] [])) (fun _ => ([], None)))
                  (Samples.request "1") (Samples.daemonWith (Samples.running "1"))
                  Samples.client (Samples.running "1") (lookup_insert_eq _ _ _))).
  reflexivity.
Defined.

End DaemonMoreProofs.

(** ** Following the log *)

Module FollowProofs.
Import GoStrings Daemon DaemonMore Follow HandlerProofs StringProofs DaemonMoreProofs.
Import Proto(IsTerminal).

#[local] Arguments append !s1 s2 / : simpl nomatch.

Lemma skip_append a b : skip (String.length a) (a +:+ b) = b.
Proof. induction a as [|x a IH]; [done | exact IH]. Qed.

Lemma append_eq_self a b : a +:+ b = a -> b = "".
Proof.
  intros H. apply (f_equal String.length) in H. rewrite append_length in H.
  destruct b; [done | cbn in H; lia].
Qed.

Lemma received_app t1 t2 : received (t1 ++ t2) = received t1 +:+ received t2.
Proof.
  unfold received. rewrite HandlerProofs.connDelivered_app.
  induction (connDelivered t1) as [|x l IH]; [done |].
  cbn [app fold_right]. by rewrite IH, append_assoc.
Qed.

Lemma followLoop_grows buf ticks d c :
  grows buf ticks -> length ticks <= writesLeft c ->
  let r := followLoop (String.length buf) ticks d c in
  valueOf r = (followed buf ticks).2
  /\ buf +:+ received (traceOf r) = (followed buf ticks).1
  /\ connFailed (traceOf r) = []
  /\ daemonOf r = d.
Proof.
  revert buf c. induction ticks as [|[st next] ticks IH]; intros buf c Hgrow Hconn.
  - cbn. by rewrite append_nil_r.
  - destruct Hgrow as [[more ->] Hgrow]. cbn [length] in Hconn.
    cbv zeta. cbn [followLoop followed].
    destruct (Nat.ltb_spec (String.length (buf +:+ more)) (String.length buf)) as [Hlt | _].
    { rewrite append_length in Hlt. lia. }
    rewrite skip_append.
    replace (String.length buf + String.length more)
      with (String.length (buf +:+ more)) by (by rewrite append_length).
    destruct more as [|x more].
    + rewrite append_nil_r in *.
      cbn [String.length Nat.ltb Nat.leb Nat.eqb]. rewrite andb_true_r.
      rewrite String.eqb_refl, andb_true_r.
      destruct (IsTerminal st).
      * cbn. by rewrite append_nil_r.
      * apply (IH buf c Hgrow). lia.
    + cbn [String.length Nat.ltb Nat.leb Nat.eqb]. rewrite andb_false_r.
      replace (String.eqb (buf +:+ String x more) buf) with false.
      2:{ symmetry. apply String.eqb_neq. intros H. by apply append_eq_self in H. }
      rewrite andb_false_r.
      unfold mbind, M_bind, bind, connSend.
      destruct c as [[|k]]; cbn [writesLeft] in *; [lia |].
      destruct (IH (buf +:+ String x more) (mkConn k) Hgrow ltac:(cbn; lia))
        as (H1 & H2 & H3 & H4).
      destruct (followLoop (String.length (buf +:+ String x more)) ticks d (mkConn k))
        as [[[e d1] c1] t1].
      cbn [valueOf daemonOf connOf traceOf fst snd] in *.
      split; [done |]. split; [| done].
      rewrite <- H2. change (ConnWrite (String x more) true :: t1)
        with ([ConnWrite (String x more) true] ++ t1).
      rewrite received_app. unfold received at 1. cbn [connDelivered omap fold_right].
      change (fold_right append "" (connDelivered [ConnWrite (String x more) true]))
        with (String x more +:+ "").
      by rewrite append_nil_r, append_assoc.
Qed.

(** A failed write ends the loop: it is the last thing the handler does. *)
Lemma followLoop_gone offset ticks d c :
  let r := followLoop offset ticks d c in
  daemonOf r = d
  /\ (connFailed (traceOf r) = []
      \/ valueOf r = Gone /\ exists data before,
           traceOf r = before ++ [ConnWrite data false] /\ connFailed before = []).
Proof.
  revert offset c. induction ticks as [|[st next] ticks IH]; intros offset c.
  - cbn. split; [done | by left].
  - cbv zeta. cbn [followLoop].
    set (off := if Nat.ltb (String.length next) offset then 0 else offset).
    destruct (Nat.ltb 0 (String.length (skip off next))).
    + unfold mbind, M_bind, bind, connSend. destruct c as [[|k]]; cbn [writesLeft].
      * cbn. split; [done |]. right. split; [done |]. by exists (skip off next), [].
      * destruct (IsTerminal st && Nat.eqb (String.length (skip off next)) 0).
        { cbn. split; [done | by left]. }
        destruct (IH (off + String.length (skip off next)) (mkConn k)) as [Hd Hc].
        destruct (followLoop (off + String.length (skip off next)) ticks d (mkConn k))
          as [[[e d1] c1] t1].
        cbn [valueOf daemonOf connOf traceOf fst snd] in *. split; [done |].
        destruct Hc as [Hc | (He & data & before & -> & Hb)].
        -- left. exact Hc.
        -- right. split; [done |].
           exists data, (ConnWrite (skip off next) true :: before). by split.
    + destruct (IsTerminal st && Nat.eqb (String.length (skip off next)) 0).
      * cbn. split; [done | by left].
      * apply IH.
Qed.

Lemma responses_followLoop offset ticks d c :
  responses (traceOf (followLoop offset ticks d c)) = [].
Proof.
  revert offset c. induction ticks as [|[st next] ticks IH]; intros offset c; [done |].
  cbn [followLoop].
  set (off := if Nat.ltb (String.length next) offset then 0 else offset).
  destruct (Nat.ltb 0 (String.length (skip off next))).
  - unfold mbind, M_bind, bind, connSend. destruct c as [[|k]]; [done |].
    cbn [writesLeft].
    destruct (IsTerminal st && Nat.eqb (String.length (skip off next)) 0); [done |].
    specialize (IH (off + String.length (skip off next)) (mkConn k)).
    by destruct (followLoop _ ticks d (mkConn k)) as [[[e d1] c1] t1].
  - destruct (IsTerminal st && Nat.eqb (String.length (skip off next)) 0); [done | apply IH].
Qed.

Lemma followFrom_spec initial ticks d c :
  let b := followFrom initial ticks d c in
  daemonOf b = d
  /\ responses (traceOf b) = []
  /\ (grows initial ticks -> 1 + length ticks <= writesLeft c ->
      valueOf b = (followed initial ticks).2
      /\ received (traceOf b) = (followed initial ticks).1
      /\ connFailed (traceOf b) = [])
  /\ (connFailed (traceOf b) = []
      \/ valueOf b = Gone /\ exists data before,
           traceOf b = before ++ [ConnWrite data false] /\ connFailed before = []).
Proof.
  cbv zeta. unfold followFrom.
  destruct initial as [|x initial]; cbn [String.length Nat.ltb Nat.leb].
  - destruct (followLoop_gone 0 ticks d c) as [Hd Hc].
    split; [exact Hd |]. split; [apply responses_followLoop |]. split; [| exact Hc].
    intros Hg Hlen. destruct (followLoop_grows "" ticks d c Hg ltac:(lia)) as (H1 & H2 & H3 & _).
    by split; [| split].
  - unfold mbind, M_bind, bind, connSend. destruct c as [[|k]]; cbn [writesLeft].
    + cbn [valueOf daemonOf connOf traceOf fst snd mret M_ret ret app].
      split; [done |]. split; [done |]. split; [intros _ Hlen; lia |].
      right. split; [done |]. by exists (String x initial), [].
    + destruct (followLoop_gone (S (String.length initial)) ticks d (mkConn k)) as [Hd Hc].
      pose proof (responses_followLoop (S (String.length initial)) ticks d (mkConn k)) as Hr.
      pose proof (followLoop_grows (String x initial) ticks d (mkConn k)) as Hg.
      cbv zeta in Hg. cbn [String.length writesLeft] in Hg.
      destruct (followLoop (S (String.length initial)) ticks d (mkConn k))
        as [[[e d1] c1] t1].
      cbn [valueOf daemonOf connOf traceOf fst snd mret M_ret ret app] in *.
      split; [done |]. split; [done |]. split.
      * intros Hgrow Hlen. destruct (Hg Hgrow ltac:(lia)) as (H1 & H2 & H3 & _).
        split; [done |]. split; [| exact H3]. rewrite <- H2. reflexivity.
      * destruct Hc as [Hc | (-> & data & before & -> & Hb)]; [by left |].
        right. split; [done |].
        exists data, (ConnWrite (String x initial) true :: before). by split.
Qed.

(** X17.  LOGS-FOLLOW on a registered instance answers OK and leaves the
    daemon as it is.  While the log buffer of the instance only grows and
    the client keeps reading, what the client receives after the answer
    is byte for byte the buffer as the last tick found it -- nothing is
    sent twice and nothing is left out -- and the handler returns at the
    first tick that finds the instance in a terminal state with nothing
    new to send.  Whatever the buffer does, a write that fails is the
    last thing the handler does. *)
Theorem handleLogsFollow_streams initial ticks req d c inst :
  instances d !! Proto.Request.InstanceID req = Some inst ->
  let r := handleLogsFollow initial ticks req d c in
  daemonOf r = d
  /\ responses (traceOf r) = [Proto.Response.ok]
  /\ (grows initial ticks -> 2 + length ticks <= writesLeft c ->
      valueOf r = Some (followed initial ticks).2
      /\ received (traceOf r) = (followed initial ticks).1
      /\ connFailed (traceOf r) = [])
  /\ (connFailed (traceOf r) = []
      \/ valueOf r = Some Gone /\ exists data before,
           traceOf r = before ++ [ConnWrite data false] /\ connFailed before = []).
Proof.
  intros Hreg r.
  assert (Hrun : exists delivered,
    r = (Some (valueOf (followFrom initial ticks d (mkConn (pred (writesLeft c))))),
         daemonOf (followFrom initial ticks d (mkConn (pred (writesLeft c)))),
         connOf (followFrom initial ticks d (mkConn (pred (writesLeft c)))),
         Respond Proto.Response.ok delivered
         :: traceOf (followFrom initial ticks d (mkConn (pred (writesLeft c)))))).
  { subst r. unfold handleLogsFollow, respond. unfold mbind, M_bind, bind.
    cbn [getInstance]. rewrite Hreg. unfold connSend at 1.
    destruct c as [[|k]]; cbn [writesLeft pred mret M_ret ret].
    - exists false. destruct (followFrom initial ticks d (mkConn 0)) as [[[e d1] c1] t1].
      cbn. by rewrite app_nil_r.
    - exists true. destruct (followFrom initial ticks d (mkConn k)) as [[[e d1] c1] t1].
      cbn. by rewrite app_nil_r. }
  destruct Hrun as [delivered Hrun]. rewrite Hrun. clear Hrun r.
  set (c1 := mkConn (pred (writesLeft c))).
  destruct (followFrom_spec initial ticks d c1) as (Hd & Hr & Hgrow & Hgone).
  cbn [valueOf daemonOf connOf traceOf fst snd].
  split; [exact Hd |]. split; [by rewrite responses_Respond, Hr |].
  split.
  - intros Hg Hlen. destruct (Hgrow Hg) as (H1 & H2 & H3).
    { subst c1. cbn [writesLeft]. lia. }
    split; [by rewrite H1 |]. split; [exact H2 | exact H3].
  - destruct Hgone as [Hc | (-> & data & before & -> & Hb)]; [by left |].
    right. split; [done |]. exists data, (Respond Proto.Response.ok delivered :: before).
    by split.
Qed.

Lemma handleLogsFollow_streams_witness :
  received (traceOf (handleLogsFollow "boot "
                       [("RUNNING", "boot "); ("RUNNING", "boot done "); ("EXITED", "boot done bye");
                        ("EXITED", "boot done bye"); ("EXITED", "boot done bye and more")]
                       (Samples.request "1") (Samples.daemonWith (Samples.running "1"))
                       Samples.client))
  = "boot done bye".
Proof.
  destruct (handleLogsFollow_streams "boot "
              [("RUNNING", "boot "); ("RUNNING", "boot done "); ("EXITED", "boot done bye");
               ("EXITED", "boot done bye"); ("EXITED", "boot done bye and more")]
              (Samples.request "1") (Samples.daemonWith (Samples.running "1"))
              Samples.client (Samples.running "1") (lookup_insert_eq _ _ _))
    as (_ & _ & Hgrow & _).
  destruct Hgrow as (_ & Hreceived & _).
  - cbn [grows]. repeat split; [by exists "" | by exists "done " | by exists "bye"
                                 | by exists "" | by exists " and more"].
  - cbn. lia.
  - exact Hreceived.
Defined.

End FollowProofs.

(** ** Containers *)

Module DockerProofs.
Import GoStrings GoText Daemon Docker.

(** *** The parts of a call *)

Lemma done_app a b : done (a ++ b) = done a ++ done b.
Proof. apply List.filter_app. Qed.

Lemma written_app a b : written (a ++ b) = written a ++ written b.
Proof. apply omap_app. Qed.

Lemma done_Say texts : done (map Say texts) = [].
Proof. by induction texts. Qed.

Lemma written_Say texts : written (map Say texts) = texts.
Proof. induction texts as [|t texts IH]; [done |]. cbn. by f_equal. Qed.

Ltac parts :=
  unfold resultOf, writtenBy, actionsOf, stepsOf, nextOf; cbn [fst snd];
  rewrite ?done_app, ?written_app, ?done_Say, ?written_Say; cbn.

(** *** The agent in the container *)

(** X18.  [ensureAgentInstalled] returns nil only after its last command,
    the search for the agent in the container, has succeeded.  It runs
    at most three commands, numbered from [k] on: the search, an install
    script and the search again.  It runs an install script only for
    claude and aider and only when the first search failed; for any
    other agent that is not found it runs the search alone, writes
    nothing and returns an error. *)
Theorem ensureAgentInstalled_outcome h k agentCmd containerName :
  let r := ensureAgentInstalled h k agentCmd containerName in
  let check := lookFor agentCmd containerName in
  (resultOf r = None ->
   exists before,
     actionsOf r = before ++ [Exec check]
     /\ (docker h (k + length before) check).2 = None)
  /\ (installerOf agentCmd = None ->
      actionsOf r = [Exec check] /\ writtenBy r = []
      /\ (resultOf r = None <-> (docker h k check).2 = None))
  /\ (forall argv, In (Exec argv) (actionsOf r) ->
        argv = check
        \/ (docker h k check).2 <> None
           /\ exists script snippet,
                installerOf agentCmd = Some (script, snippet)
                /\ argv = ["docker"; "exec"; containerName; "sh"; "-c"; script])
  /\ length (actionsOf r) <= 3
  /\ nextOf r = k + length (actionsOf r).
Proof.
  cbv zeta. unfold ensureAgentInstalled. cbv zeta.
  set (check := lookFor agentCmd containerName).
  destruct (docker h k check) as [out0 [e0|]] eqn:E0; cbn [snd].
  2:{ parts. split; [intros _; exists []; cbn; by rewrite Nat.add_0_r, E0 |].
      split; [by intros _ |]. split; [intros argv [[= <-] | []]; by left |].
      split; lia. }
  destruct (installerOf agentCmd) as [[script snippet]|] eqn:Ei.
  2:{ parts. split; [done |]. split; [by intros _ |].
      split; [intros argv [[= <-] | []]; by left |]. split; lia. }
  destruct (docker h (S k) ["docker"; "exec"; containerName; "sh"; "-c"; script])
    as [chunks [e1|]] eqn:E1.
  { parts. split; [done |]. split; [done |]. split; [| split; lia].
    intros argv [[= <-] | [[= <-] | []]]; [by left |].
    right. split; [done |]. by exists script, snippet. }
  destruct (docker h (S (S k)) check) as [out2 [e2|]] eqn:E2; cbn [snd].
  { parts. split; [done |]. split; [done |]. split; [| split; lia].
    intros argv [[= <-] | [[= <-] | [[= <-] | []]]]; [by left | | by left].
    right. split; [done |]. by exists script, snippet. }
  parts. split.
  { intros _. exists [Exec check; Exec ["docker"; "exec"; containerName; "sh"; "-c"; script]].
    cbn. split; [done |]. replace (k + 2) with (S (S k)) by lia. by rewrite E2. }
  split; [done |]. split; [| split; lia].
  intros argv [[= <-] | [[= <-] | [[= <-] | []]]]; [by left | | by left].
  right. split; [done |]. by exists script, snippet.
Qed.

Lemma ensureAgentInstalled_found h k agentCmd containerName :
  let r := ensureAgentInstalled h k agentCmd containerName in
  resultOf r = None ->
  In (Exec (lookFor agentCmd containerName)) (stepsOf r)
  /\ exists k', (docker h k' (lookFor agentCmd containerName)).2 = None.
Proof.
  cbv zeta. unfold ensureAgentInstalled. cbv zeta.
  set (check := lookFor agentCmd containerName).
  destruct (docker h k check) as [out0 [e0|]] eqn:E0; cbn [snd].
  2:{ intros _. split; [by left |]. exists k. by rewrite E0. }
  destruct (installerOf agentCmd) as [[script snippet]|]; [| done].
  destruct (docker h (S k) _) as [chunks [e1|]]; [done |].
  destruct (docker h (S (S k)) check) as [out2 [e2|]] eqn:E2; cbn [snd]; [done |].
  intros _. unfold stepsOf. cbn [fst snd]. split.
  - apply in_or_app. right. apply in_or_app. right. by left.
  - exists (S (S k)). by rewrite E2.
Qed.

Lemma executions_app a b : executions (a ++ b) = executions a + executions b.
Proof. unfold executions. by rewrite List.filter_app, length_app. Qed.

Lemma executions_Say texts : executions (map Say texts) = 0.
Proof. by induction texts. Qed.

(** The search that lets [ensureAgentInstalled] return nil: it is the
    last command of the call, only writes follow it, and it is the run
    of that number that succeeded. *)
Lemma ensureAgentInstalled_last h k agentCmd containerName :
  let r := ensureAgentInstalled h k agentCmd containerName in
  let check := lookFor agentCmd containerName in
  resultOf r = None ->
  exists before texts,
    stepsOf r = before ++ Exec check :: map Say texts
    /\ (docker h (k + executions before) check).2 = None.
Proof.
  cbv zeta. unfold ensureAgentInstalled. cbv zeta.
  set (check := lookFor agentCmd containerName).
  destruct (docker h k check) as [out0 [e0|]] eqn:E0; cbn [snd].
  2:{ intros _. exists [], []. split; [done |]. cbn. by rewrite Nat.add_0_r, E0. }
  destruct (installerOf agentCmd) as [[script snippet]|]; [| done].
  destruct (docker h (S k) _) as [chunks [e1|]]; [done |].
  destruct (docker h (S (S k)) check) as [out2 [e2|]] eqn:E2; cbn [snd]; [done |].
  intros _. unfold stepsOf. cbn [fst snd].
  eexists (_ ++ map Say chunks), [_]. split.
  - rewrite <- app_assoc. reflexivity.
  - rewrite executions_app, executions_Say. cbn.
    replace (k + 2) with (S (S k)) by lia. by rewrite E2.
Qed.

(** The numbering of the commands goes on by the commands run. *)
Lemma startContainer_next h k p instanceID worktreeDir :
  let r := startContainer h k p instanceID worktreeDir in
  nextOf r = k + executions (stepsOf r).
Proof.
  cbv zeta. unfold startContainer.
  destruct (negb (String.eqb (Compose p) "")).
  - unfold startComposeContainer. cbv zeta.
    destruct (buildMounts h p) as [mounts lines].
    destruct (createTemp h) as [e | path].
    { unfold nextOf, stepsOf. cbn [fst snd]. rewrite executions_Say. lia. }
    destruct (writeTemp h) as [e|].
    { unfold nextOf, stepsOf. cbn [fst snd].
      rewrite executions_app, executions_Say. cbn. lia. }
    destruct (docker h k _) as [chunks [e|]];
      unfold nextOf, stepsOf; cbn [fst snd];
      rewrite !executions_app, !executions_Say; cbn; lia.
  - destruct (String.eqb (Image p) "").
    { unfold nextOf, stepsOf. cbn. lia. }
    unfold startSingleContainer. cbv zeta.
    destruct (buildMounts h p) as [mounts lines].
    destruct (docker h k _) as [chunks [e|]];
      unfold nextOf, stepsOf; cbn [fst snd];
      rewrite !executions_app, !executions_Say;
      destruct (Nat.ltb 0 _); cbn; lia.
Qed.

Lemma seedClaudeConfig_next h k containerName :
  (seedClaudeConfig h k containerName).2
  = k + executions (seedClaudeConfig h k containerName).1.
Proof.
  unfold seedClaudeConfig. destruct (home h); [| cbn; lia].
  destruct (claudeConfig h) as [data|]; [| cbn; lia].
  destruct (jsonValid h data); cbn; lia.
Qed.

(** *** Mounts *)

Lemma credentialStep_fold h pairs mounts written :
  fold_left (credentialStep h) pairs (mounts, written)
  = (mounts ++ List.filter (fun m : string * string => stat h m.1) pairs,
     written ++ map (fun m : string * string =>
                       "Mounting credentials: " +:+ m.1 +:+ " → " +:+ m.2 +:+ nl)
                  (List.filter (fun m : string * string => stat h m.1) pairs)).
Proof.
  revert mounts written. induction pairs as [|pair pairs IH]; intros mounts written.
  - cbn. by rewrite !app_nil_r.
  - cbn [fold_left credentialStep List.filter]. destruct (stat h pair.1).
    + rewrite IH. cbn [map]. by rewrite <- !app_assoc.
    + apply IH.
Qed.

Lemma mountStep_fold h home ms mounts written :
  let resolved := map (fun m => resolveMountPath h m home) ms in
  fold_left (mountStep h home) ms (mounts, written)
  = (mounts ++ List.filter (fun m : string * string => stat h m.1) resolved,
     written ++ map (fun m =>
                       let '(src, tgt) := resolveMountPath h m home in
                       if stat h src
                       then "Mounting: " +:+ src +:+ " → " +:+ tgt +:+ nl
                       else "Warning: skipping mount " +:+ quoted h m
                            +:+ " — path not found on host" +:+ nl) ms).
Proof.
  cbv zeta. revert mounts written. induction ms as [|m ms IH]; intros mounts written.
  - cbn. by rewrite !app_nil_r.
  - cbn [fold_left mountStep map List.filter].
    destruct (resolveMountPath h m home) as [src tgt] eqn:E. cbn [fst].
    destruct (stat h src); rewrite IH; by rewrite <- !app_assoc.
Qed.

(** X19.  The mounts [buildMounts] returns are the credential mounts of
    the agent followed by the configured mounts, each resolved against
    the home directory, in their order -- but only those whose source
    exists on the host: a mount with a missing source is never
    returned.  It writes one line for every mount it returns and one
    warning for every configured mount it leaves out. *)
Theorem buildMounts_existing h p :
  let home := homeDir h in
  let present := fun m : string * string => stat h m.1 in
  let r := buildMounts h p in
  r.1 = List.filter present (agentCredentialMounts h (AgentCommand p) home)
        ++ List.filter present (map (fun m => resolveMountPath h m home) (Mounts p))
  /\ Forall (fun m : string * string => stat h m.1 = true) r.1
  /\ length r.2
     = length (List.filter present (agentCredentialMounts h (AgentCommand p) home))
       + length (Mounts p)
  /\ (forall m, In m (Mounts p) -> stat h (resolveMountPath h m home).1 = false ->
        In ("Warning: skipping mount " +:+ quoted h m +:+ " — path not found on host" +:+ nl)
           r.2).
Proof.
  cbv zeta. unfold buildMounts. cbv zeta.
  rewrite credentialStep_fold. cbn [app].
  pose proof (mountStep_fold h (homeDir h) (Mounts p)) as Hfold. cbv zeta in Hfold.
  rewrite Hfold. cbn [fst snd]. clear Hfold.
  split; [done |]. split.
  - apply Forall_app. split; apply List.Forall_forall; intros m Hm;
      by apply filter_In in Hm as [_ Hm].
  - split.
    + by rewrite length_app, !length_map.
    + intros m Hm Hmissing. apply in_or_app. right. apply in_map_iff. exists m.
      split; [| done]. destruct (resolveMountPath h m (homeDir h)) as [src tgt].
      cbn [fst] in Hmissing. by rewrite Hmissing.
Qed.

(** *** Starting the container *)

(** X20.  [startContainer] with a compose file brings up the stack
    [grove-<id>] and names the container [grove-<id>-<service>-1],
    whatever image is configured; once the override file exists, removing
    it is the last thing the call does, whether the stack came up or
    not.  Without a compose file and without an image it runs nothing
    and returns an error.  With an image alone it runs one [docker run]
    for the container [grove-<id>], which mounts the worktree at the
    work directory and then the mounts of [buildMounts], and names that
    container. *)
Theorem startContainer_target h k p instanceID worktreeDir :
  let r := startContainer h k p instanceID worktreeDir in
  (Compose p <> "" ->
   (forall name, resultOf r = inr name ->
      name = "grove-" +:+ instanceID +:+ "-" +:+ Service p +:+ "-1"
      /\ exists path content,
           actionsOf r
           = [ WriteTemp path content;
               Exec ["docker"; "compose"; "-p"; "grove-" +:+ instanceID;
                     "-f"; Compose p; "-f"; path; "up"; "-d"];
               Remove path ])
   /\ (forall path, createTemp h = inr path -> last (actionsOf r) = Some (Remove path))
   /\ (forall e, createTemp h = inl e -> actionsOf r = []))
  /\ (Compose p = "" -> Image p = "" ->
      (exists e, resultOf r = inl e) /\ actionsOf r = [] /\ writtenBy r = [] /\ nextOf r = k)
  /\ (Compose p = "" -> Image p <> "" ->
      actionsOf r
      = [Exec (["docker"; "run"; "-d"; "--name"; "grove-" +:+ instanceID;
                "-v"; worktreeDir +:+ ":" +:+ Workdir p; "-w"; Workdir p]
               ++ flat_map (fun m : string * string => ["-v"; m.1 +:+ ":" +:+ m.2])
                    (buildMounts h p).1
               ++ [Image p; "sleep"; "infinity"])]
      /\ (forall name, resultOf r = inr name -> name = "grove-" +:+ instanceID)
      /\ nextOf r = S k).
Proof.
  cbv zeta. unfold startContainer.
  destruct (String.eqb_spec (Compose p) "") as [Ec | Ec]; cbn [negb].
  - split; [done |].
    destruct (String.eqb_spec (Image p) "") as [Ei | Ei].
    + split; [| done]. intros _ _. parts. split; [eauto | done].
    + split; [done |]. intros _ _. unfold startSingleContainer. cbv zeta.
      destruct (buildMounts h p) as [mounts lines]. cbn [fst].
      destruct (docker h k _) as [chunks [e|]];
        destruct (Nat.ltb 0 _); parts; split; try done; split; try done.
      all: by intros name [= <-].
  - split; [| split; done]. intros _. unfold startComposeContainer. cbv zeta.
    destruct (buildMounts h p) as [mounts lines].
    destruct (createTemp h) as [e | path].
    { parts. split; [done |]. split; [done |]. by intros e' [= <-]. }
    destruct (writeTemp h) as [e|].
    { parts. split; [done |]. split; [| done]. by intros path' [= <-]. }
    destruct (docker h k _) as [chunks [e|]]; parts.
    + split; [done |]. split; [| done]. by intros path' [= <-].
    + split; [| split; [| done]].
      * intros name [= <-]. split; [done |]. eauto.
      * by intros path' [= <-].
Qed.

End DockerProofs.

(** ** Starting an instance *)

Module StartProofs.
Import GoStrings Daemon Start.

(** *** What a trace holds *)

Lemma answers_app a b : answers (a ++ b) = answers a ++ answers b.
Proof. apply omap_app. Qed.

Lemma streamed_app a b : streamed (a ++ b) = streamed a ++ streamed b.
Proof. apply omap_app. Qed.

Lemma logged_app a b : logged (a ++ b) = logged a ++ logged b.
Proof. apply omap_app. Qed.

Lemma buffered_app a b : buffered (a ++ b) = buffered a ++ buffered b.
Proof. apply omap_app. Qed.

Lemma answers_step s l :
  answers (s :: l)
  = match s with Handler (Respond r _) => r :: answers l | _ => answers l end.
Proof. by destruct s as [[] | | | | | | | |]. Qed.

Lemma streamed_step s l :
  streamed (s :: l)
  = match s with Handler (ConnWrite data _) => data :: streamed l | _ => streamed l end.
Proof. by destruct s as [[] | | | | | | | |]. Qed.

Lemma logged_step s l :
  logged (s :: l)
  = match s with Handler (LogWrite _ data) => data :: logged l | _ => logged l end.
Proof. by destruct s as [[] | | | | | | | |]. Qed.

Lemma buffered_step s l :
  buffered (s :: l) = match s with Buffer text => text :: buffered l | _ => buffered l end.
Proof. by destruct s as [[] | | | | | | | |]. Qed.

Lemma toLog_app logFd logFile a b :
  toLog logFd logFile (a ++ b) = toLog logFd logFile a ++ toLog logFd logFile b.
Proof. apply flat_map_app. Qed.

Lemma answers_toLog logFd logFile texts : answers (toLog logFd logFile texts) = [].
Proof. induction texts as [|t texts IH]; [done |]. cbn. by destruct logFd. Qed.

Lemma streamed_toLog logFd logFile texts : streamed (toLog logFd logFile texts) = [].
Proof. induction texts as [|t texts IH]; [done |]. cbn. by destruct logFd. Qed.

Lemma logged_toLog logFd logFile texts :
  logged (toLog logFd logFile texts) = if logFd then texts else [].
Proof.
  induction texts as [|t texts IH]; [by destruct logFd |].
  cbn [toLog flat_map app]. fold (toLog logFd logFile texts).
  rewrite logged_step. cbn beta iota. rewrite logged_app, IH.
  by destruct logFd.
Qed.

Lemma buffered_toLog logFd logFile texts : buffered (toLog logFd logFile texts) = texts.
Proof.
  induction texts as [|t texts IH]; [done |].
  cbn [toLog flat_map app]. fold (toLog logFd logFile texts).
  rewrite buffered_step. cbn beta iota. rewrite buffered_app, IH.
  by destruct logFd.
Qed.

Lemma narrate_app logFd logFile a b :
  narrate logFd logFile (a ++ b) = narrate logFd logFile a ++ narrate logFd logFile b.
Proof. apply flat_map_app. Qed.

Lemma answers_narrate logFd logFile acts : answers (narrate logFd logFile acts) = [].
Proof.
  induction acts as [|a acts IH]; [done |]. cbn [narrate flat_map].
  rewrite answers_app. fold (narrate logFd logFile acts). rewrite IH.
  destruct a; by rewrite ?answers_toLog.
Qed.

Lemma streamed_narrate logFd logFile acts : streamed (narrate logFd logFile acts) = [].
Proof.
  induction acts as [|a acts IH]; [done |]. cbn [narrate flat_map].
  rewrite streamed_app. fold (narrate logFd logFile acts). rewrite IH.
  destruct a; by rewrite ?streamed_toLog.
Qed.

Lemma logged_narrate logFd logFile acts :
  logged (narrate logFd logFile acts) = if logFd then Docker.written acts else [].
Proof.
  induction acts as [|a acts IH]; [by destruct logFd |]. cbn [narrate flat_map].
  rewrite logged_app. fold (narrate logFd logFile acts). rewrite IH.
  destruct a; rewrite ?logged_toLog; by destruct logFd.
Qed.

Lemma buffered_narrate logFd logFile acts :
  buffered (narrate logFd logFile acts) = Docker.written acts.
Proof.
  induction acts as [|a acts IH]; [done |]. cbn [narrate flat_map].
  rewrite buffered_app. fold (narrate logFd logFile acts). rewrite IH.
  destruct a; by rewrite ?buffered_toLog.
Qed.

Lemma launches_app a b : launches (a ++ b) = launches a ++ launches b.
Proof. apply omap_app. Qed.

Lemma launches_step s l :
  launches (s :: l)
  = match s with
    | StartAgent inst agentCmd args env => (inst, agentCmd, args, env) :: launches l
    | _ => launches l
    end.
Proof. by destruct s. Qed.

Lemma launches_toLog logFd logFile texts : launches (toLog logFd logFile texts) = [].
Proof. induction texts as [|t texts IH]; [done |]. cbn. by destruct logFd. Qed.

Lemma launches_narrate logFd logFile acts : launches (narrate logFd logFile acts) = [].
Proof.
  induction acts as [|a acts IH]; [done |]. cbn [narrate flat_map].
  rewrite launches_app. fold (narrate logFd logFile acts). rewrite IH.
  destruct a; by rewrite ?launches_toLog.
Qed.

Lemma launches_Host acts : launches (map Host acts) = [].
Proof. by induction acts. Qed.

Lemma launches_Handler t : launches (map Handler t) = [].
Proof. by induction t. Qed.

Lemma launches_In inst agentCmd args env trace :
  In (StartAgent inst agentCmd args env) trace ->
  In (inst, agentCmd, args, env) (launches trace).
Proof.
  induction trace as [|s trace IH]; [done |]. intros [-> | Hin].
  - by left.
  - rewrite launches_step. destruct s; try by apply IH. right. by apply IH.
Qed.

Lemma narrate_Exec logFd logFile acts argv :
  In (Docker.Exec argv) acts -> In (Host (Docker.Exec argv)) (narrate logFd logFile acts).
Proof.
  intros Hin. apply in_flat_map. exists (Docker.Exec argv). split; [done | by left].
Qed.

Lemma answers_Host acts : answers (map Host acts) = [].
Proof. by induction acts. Qed.

Lemma streamed_Host acts : streamed (map Host acts) = [].
Proof. by induction acts. Qed.

Lemma logged_Host acts : logged (map Host acts) = [].
Proof. by induction acts. Qed.

Lemma buffered_Host acts : buffered (map Host acts) = [].
Proof. by induction acts. Qed.

Lemma stopContainer_steps containerName composeProject d c :
  map Handler (traceOf (stopContainer containerName composeProject d c))
  = stopSteps containerName composeProject.
Proof.
  unfold stopContainer, stopSteps. by destruct (negb (String.eqb composeProject "")).
Qed.

Lemma answers_stopSteps n p : answers (stopSteps n p) = [].
Proof. unfold stopSteps. by destruct (negb _). Qed.

Lemma streamed_stopSteps n p : streamed (stopSteps n p) = [].
Proof. unfold stopSteps. by destruct (negb _). Qed.

Lemma logged_stopSteps n p : logged (stopSteps n p) = [].
Proof. unfold stopSteps. by destruct (negb _). Qed.

Lemma buffered_stopSteps n p : buffered (stopSteps n p) = [].
Proof. unfold stopSteps. by destruct (negb _). Qed.

Lemma launches_stopSteps n p : launches (stopSteps n p) = [].
Proof. unfold stopSteps. by destruct (negb _). Qed.

Lemma afterAnswer_app before rest :
  answers before = [] -> afterAnswer (before ++ rest) = afterAnswer rest.
Proof.
  induction before as [|s before IH]; [done |]. intros H. cbn [app afterAnswer].
  destruct s as [[] | | | | | | | |]; try (apply IH; exact H). discriminate H.
Qed.

(** *** The two ends of the handler *)

Lemma failed_steps d c before r rollbacks :
  exists c1 delivered,
    failed d c before r rollbacks
    = (d, c1, before ++ Handler (Respond r delivered) :: unwind rollbacks).
Proof.
  unfold failed, answer, respond. unfold mbind, M_bind, bind, connSend.
  destruct (writesLeft c); cbn; eauto.
Qed.

Lemma answer_steps r d c :
  exists c1 delivered, answer r d c = (c1, [Handler (Respond r delivered)]).
Proof.
  unfold answer, respond. unfold mbind, M_bind, bind, connSend.
  destruct (writesLeft c); cbn; eauto.
Qed.

Lemma stream_steps output d c :
  exists c1 delivered,
    (if Nat.ltb 0 (String.length output)
     then _ ← connSend (ConnWrite output); mret tt
     else mret tt) d c
    = (tt, d, c1, if Nat.ltb 0 (String.length output)
                  then [ConnWrite output delivered] else []).
Proof.
  destruct (Nat.ltb 0 (String.length output)).
  - unfold mbind, M_bind, bind, connSend. destruct (writesLeft c); cbn; eauto.
  - by exists c, true.
Qed.

Create Rewrite HintDb trace.

#[local] Hint Rewrite answers_app streamed_app logged_app buffered_app
  answers_step streamed_step logged_step buffered_step
  answers_toLog streamed_toLog logged_toLog buffered_toLog
  answers_narrate streamed_narrate logged_narrate buffered_narrate
  answers_Host streamed_Host logged_Host buffered_Host
  stopContainer_steps
  answers_stopSteps streamed_stopSteps logged_stopSteps buffered_stopSteps
  launches_app launches_step launches_toLog launches_narrate launches_Host
  launches_Handler launches_stopSteps
  : trace.

(** The handler, stage by stage: every way it can end. *)
Ltac walk w req d c :=
  unfold handleStart; cbv zeta;
  destruct (String.eqb_spec (Proto.Request.Project req) "") as [Hproject | Hproject];
  [| destruct (String.eqb_spec (Proto.Request.Branch req) "") as [Hbranch | Hbranch];
     [| destruct (loadProject w (rootDir d) (Proto.Request.Project req))
          as [e0 | p0] eqn:Hload;
        [| destruct (ensureMainCheckout w p0) as [out1 [e1 |]] eqn:Hclone;
           [| destruct (pullMain w p0) as [out2 e2] eqn:Hpull;
              destruct (loadInRepoConfig w p0) as [p [|]] eqn:Hconfig; cbn [negb];
              [destruct (createWorktree w p (nextInstanceID d (random w))
                           (Proto.Request.Branch req))
                 as [out3 [e3 | worktreeDir]] eqn:Hworktree;
               [| destruct (Docker.startContainer (host w) 0 p
                              (nextInstanceID d (random w)) worktreeDir)
                    as [[[e4 | containerName] steps4] k4] eqn:Hcontainer;
                  [| destruct (if String.eqb (Docker.AgentCommand p) "claude"
                                  || String.eqb (Docker.AgentCommand p) ""
                               then Docker.seedClaudeConfig (host w) k4 containerName
                               else ([], k4)) as [steps5 k5] eqn:Hseed;
                     destruct (runStart w p containerName) as [out6 [e6 |]] eqn:Hrun;
                     [| destruct (Docker.ensureAgentInstalled (host w) k5 _ containerName)
                          as [[[e7 |] steps7] k7] eqn:Hinstall;
                        [| destruct (startAgent w _ _ _ _) as [e8 |] eqn:Hagent]]]]
              |]]]]].

(** The last stage: the response and the setup output. *)
Ltac succeeded c :=
  match goal with
  | |- context [answer ?r ?d1 c] =>
      destruct (answer_steps r d1 c) as (c1 & delivered & ->);
      match goal with
      | |- context [String.length ?output] =>
          destruct (stream_steps output d1 c1) as (c2 & streamedOk & ->)
      end
  end.




(** X22.  A start that fails after the checkout and the configuration
    went through leaves nothing behind, and cleans up only after it has
    answered.  If the worktree could not be created nothing follows the
    error response.  If the container could not be started the worktree
    is removed.  If a later stage failed the container is stopped first
    -- the compose stack [grove-<id>] is taken down, or the container is
    stopped and removed -- and then the worktree is removed. *)
Theorem handleStart_rollback w req d c q0 q :
  let id := nextInstanceID d (random w) in
  let branch := Proto.Request.Branch req in
  Proto.Request.Project req <> "" ->
  branch <> "" ->
  loadProject w (rootDir d) (Proto.Request.Project req) = inr q0 ->
  (ensureMainCheckout w q0).2 = None ->
  loadInRepoConfig w q0 = (q, true) ->
  let r := handleStart w req d c in
  forall resp, In resp (answers (steps r)) -> Proto.Response.OK resp = false ->
    afterAnswer (steps r)
    = match (createWorktree w q id branch).2 with
      | inl _ => []
      | inr worktreeDir =>
          match Docker.resultOf (Docker.startContainer (host w) 0 q id worktreeDir) with
          | inl _ => [RemoveWorktree id branch]
          | inr containerName =>
              (if String.eqb (Docker.Compose q) ""
               then [Handler (Run ["docker"; "stop"; containerName]);
                     Handler (Run ["docker"; "rm"; containerName])]
               else [Handler (Run ["docker"; "compose"; "-p"; "grove-" +:+ id;
                                   "down"; "-v"])])
              ++ [RemoveWorktree id branch]
          end
      end.
Proof.
  cbv zeta. intros Hp' Hb' Hload' Hclone' Hconfig'. walk w req d c.
  all: try congruence.
  all: assert (p0 = q0) as -> by congruence.
  all: try (rewrite Hclone in Hclone'; discriminate Hclone').
  all: try congruence.
  all: assert (p = q) as -> by congruence.
  all: rewrite Hworktree; cbn [snd]; try rewrite Hcontainer;
    unfold Docker.resultOf; cbn [fst snd].
  all: try match goal with
       | |- context [failed ?d ?c ?before ?r ?rollbacks] =>
           destruct (failed_steps d c before r rollbacks) as (c1 & delivered & ->);
           intros resp _ _; unfold steps; cbn [snd];
           rewrite afterAnswer_app
             by (autorewrite with trace; cbn beta iota; by autorewrite with trace);
           cbn [afterAnswer]; unfold unwind; cbn [List.rev List.concat app];
           rewrite ?stopContainer_steps; unfold stopSteps;
           try reflexivity;
           destruct (String.eqb (Docker.Compose q) ""); reflexivity
       end.
  match goal with
  | |- context [answer ?r ?d1 c] =>
      destruct (answer_steps r d1 c) as (c1 & delivered & ->);
      match goal with
      | |- context [String.length ?output] =>
          destruct (stream_steps output d1 c1) as (c2 & streamedOk & ->)
      end
  end.
  unfold steps; cbn [snd]. intros resp Hresp Hfailed. exfalso.
  destruct (Nat.ltb 0 (String.length _)); cbn [map] in Hresp;
    autorewrite with trace in Hresp; cbn beta iota in Hresp;
    autorewrite with trace in Hresp; cbn [app] in Hresp;
    destruct Hresp as [<- | []]; discriminate Hfailed.
Qed.

Lemma handleStart_rollback_witness :
  afterAnswer (steps (handleStart (StartSamples.world (Some "exit status 125"))
                        StartSamples.request StartSamples.empty Samples.client))
  = [RemoveWorktree "1" "feature"].
Proof.
  apply (handleStart_rollback (StartSamples.world (Some "exit status 125"))
           StartSamples.request StartSamples.empty Samples.client
           StartSamples.project StartSamples.project)
    with (resp := Proto.Response.error "docker run: exit status 125").
  - discriminate.
  - discriminate.
  - reflexivity.
  - reflexivity.
  - reflexivity.
  - vm_compute. by left.
  - reflexivity.
Defined.

(** X23.  Everything the setup writes goes to the buffer, and to the
    log file of the instance exactly when that file could be opened.
    The client of a failed start gets the error response and nothing
    else: the setup output is not sent to it.  After an OK response the
    whole buffered output follows as one write, and nothing follows when
    the setup wrote nothing. *)
Theorem handleStart_output w req d c :
  let r := handleStart w req d c in
  let logFile := Join [rootDir d; "logs"; nextInstanceID d (random w) +:+ ".log"] in
  let output := fold_right append "" (buffered (steps r)) in
  logged (steps r) = (if openLog w logFile then buffered (steps r) else [])
  /\ (forall resp, In resp (answers (steps r)) ->
        if Proto.Response.OK resp
        then if Nat.ltb 0 (String.length output)
             then exists delivered,
                    afterAnswer (steps r) = [Handler (ConnWrite output delivered)]
             else afterAnswer (steps r) = []
        else streamed (steps r) = []).
Proof.
  cbv zeta. walk w req d c.
  all: try match goal with
       | |- context [failed ?d ?c ?before ?r ?rollbacks] =>
           destruct (failed_steps d c before r rollbacks) as (c1 & delivered & ->);
           unfold steps; cbn [snd];
           unfold unwind; cbn [List.rev List.concat app];
           autorewrite with trace; cbn beta iota; autorewrite with trace;
           rewrite ?app_nil_r; cbn [app];
           split;
           [ by destruct (openLog w _)
           | intros resp [<- | []]; reflexivity ]
       end.
  succeeded c. unfold steps; cbn [snd].
  set (output := foldr append "" (out1 ++ _)).
  destruct (Nat.ltb 0 (String.length output)) eqn:Hout; cbn [map].
  all: autorewrite with trace; cbn beta iota; autorewrite with trace.
  all: rewrite ?app_nil_r; cbn [app]; rewrite <- ?app_assoc.
  all: split; [by destruct (openLog w _) |].
  all: intros resp [<- | []]; cbn [Proto.Response.OK].
  all: fold output; rewrite Hout.
  all: repeat first [ rewrite afterAnswer_app by (by autorewrite with trace)
                    | progress cbn [afterAnswer app] ].
  - by exists streamedOk.
  - done.
Qed.

(** *** The commands run before the launch *)

Lemma executions_trace_app a b : executions (a ++ b) = executions a + executions b.
Proof. unfold executions. by rewrite List.filter_app, length_app. Qed.

Lemma executions_toLog logFd logFile texts : executions (toLog logFd logFile texts) = 0.
Proof. induction texts as [|t texts IH]; [done |]. cbn. by destruct logFd. Qed.

Lemma executions_narrate logFd logFile acts :
  executions (narrate logFd logFile acts) = Docker.executions acts.
Proof.
  induction acts as [|a acts IH]; [done |]. cbn [narrate flat_map].
  rewrite executions_trace_app. fold (narrate logFd logFile acts). rewrite IH.
  destruct a; rewrite ?executions_toLog; reflexivity.
Qed.

Lemma executions_Host acts : executions (map Host acts) = Docker.executions acts.
Proof.
  induction acts as [|a acts IH]; [done |].
  unfold executions, Docker.executions in *. cbn [map List.filter].
  destruct a; cbn [length]; by rewrite ?IH.
Qed.

Lemma executions_step s l :
  executions (s :: l)
  = match s with Host (Docker.Exec _) => S (executions l) | _ => executions l end.
Proof. unfold executions. cbn [List.filter]. by destruct s as [| |[]| | | | | |]. Qed.

Lemma setupOutput_toLog logFd logFile texts :
  Forall setupOutput (toLog logFd logFile texts).
Proof.
  induction texts as [|t texts IH]; [constructor |]. cbn [toLog flat_map app].
  constructor; [done |]. apply Forall_app. split; [| exact IH].
  destruct logFd; by repeat constructor.
Qed.

Lemma narrate_Say logFd logFile texts :
  narrate logFd logFile (map Docker.Say texts) = toLog logFd logFile texts.
Proof.
  induction texts as [|t texts IH]; [done |]. cbn [map narrate flat_map].
  fold (narrate logFd logFile (map Docker.Say texts)). rewrite IH.
  cbn [toLog flat_map app]. by rewrite app_nil_r.
Qed.

(** The search for the agent in a trace that goes on after
    [ensureAgentInstalled] has returned nil. *)
Lemma search_before h k agentCmd containerName steps7 k7 logFd logFile earlier :
  Docker.ensureAgentInstalled h k agentCmd containerName = (None, steps7, k7) ->
  executions earlier = k ->
  exists before between,
    earlier ++ narrate logFd logFile steps7
    = before ++ Host (Docker.Exec (Docker.lookFor agentCmd containerName)) :: between
    /\ (Docker.docker h (executions before) (Docker.lookFor agentCmd containerName)).2
       = None
    /\ Forall setupOutput between
    /\ launches before = launches earlier.
Proof.
  intros Hinstall Hearlier.
  pose proof (DockerProofs.ensureAgentInstalled_last h k agentCmd containerName) as Hlast.
  cbv zeta in Hlast. rewrite Hinstall in Hlast.
  destruct (Hlast eq_refl) as (pre & texts & Hsteps & Hdocker). clear Hlast.
  unfold Docker.stepsOf in Hsteps. cbn [fst snd] in Hsteps. subst steps7.
  exists (earlier ++ narrate logFd logFile pre), (toLog logFd logFile texts).
  split; [| split; [| split]].
  - rewrite narrate_app. cbn [narrate flat_map].
    fold (narrate logFd logFile (map Docker.Say texts)). rewrite narrate_Say.
    by rewrite <- app_assoc.
  - by rewrite executions_trace_app, executions_narrate, Hearlier.
  - apply setupOutput_toLog.
  - by rewrite launches_app, launches_narrate, app_nil_r.
Qed.

(** X24.  The agent of a start is launched under the ID the allocator
    gave, for the project and the branch of the request, with a command
    that is never empty ([sh] stands in when none is configured).  The
    last command run before the launch is the search for that command
    in the container of the instance, and that run of the search
    succeeded; between it and the launch the handler only writes setup
    output.  In the environment of the agent a variable of the request
    wins over the same variable of the env file, and every other
    variable of the env file is kept. *)
Theorem handleStart_agent w req d c inst agentCmd args env :
  let r := handleStart w req d c in
  let check := Docker.lookFor agentCmd (ContainerID inst) in
  In (StartAgent inst agentCmd args env) (steps r) ->
  agentCmd <> ""
  /\ ID inst = nextInstanceID d (random w)
  /\ Project inst = Proto.Request.Project req
  /\ Branch inst = Proto.Request.Branch req
  /\ (forall k,
        env !! k
        = match Proto.Request.AgentEnv req !! k with
          | Some v => Some v
          | None => Envfile.Load (readFile w (Join [rootDir d; "env"])) !! k
          end)
  /\ exists before between after,
       steps r
       = before ++ Host (Docker.Exec check)
                :: between ++ StartAgent inst agentCmd args env :: after
       /\ (Docker.docker (host w) (executions before) check).2 = None
       /\ Forall setupOutput between
       /\ launches before = [] /\ launches after = [].
Proof.
  cbv zeta. intros Hin. apply launches_In in Hin. revert Hin. walk w req d c.
  all: try match goal with
       | |- context [failed ?d ?c ?before ?r ?rollbacks] =>
           destruct (failed_steps d c before r rollbacks) as (c1 & delivered & ->)
       end.
  all: try succeeded c.
  all: unfold steps; cbn [snd]; unfold unwind; cbn [List.rev List.concat app].
  all: try (destruct (Nat.ltb 0 (String.length _)); cbn [map]).
  all: try (autorewrite with trace; cbn beta iota; autorewrite with trace; cbn [app];
            intros []; fail).
  all: intros Hin;
    assert (Hlaunch : (inst, agentCmd, args, env)
              = (newInstance d (nextInstanceID d (random w)) (Proto.Request.Project req)
                   (Proto.Request.Branch req) worktreeDir containerName
                   (if negb (String.eqb (Docker.Compose p) "")
                    then "grove-" +:+ nextInstanceID d (random w) else "")
                   (now w),
                 if String.eqb (Docker.AgentCommand p) "" then "sh"
                 else Docker.AgentCommand p,
                 Docker.AgentArgs p,
                 Proto.Request.AgentEnv req
                 ∪ Envfile.Load (readFile w (Join [rootDir d; "env"]))))
      by (revert Hin; autorewrite with trace; cbn beta iota; autorewrite with trace;
          cbn [app]; by intros [<- | []]);
    clear Hin; injection Hlaunch as -> -> -> ->.
  all: split; [by destruct (String.eqb_spec (Docker.AgentCommand p) "") |].
  all: do 3 (split; [done |]).
  all: split;
    [ intros k; rewrite lookup_union;
      by destruct (Proto.Request.AgentEnv req !! k), (Envfile.Load _ !! k) |].
  all: cbn [ContainerID newInstance].
  all: assert (Hk5 : k5 = Docker.executions steps4 + Docker.executions steps5)
    by (pose proof (DockerProofs.startContainer_next (host w) 0 p
                      (nextInstanceID d (random w)) worktreeDir) as Hn;
        cbv zeta in Hn; rewrite Hcontainer in Hn;
        unfold Docker.nextOf, Docker.stepsOf in Hn; cbn [fst snd] in Hn;
        destruct (String.eqb (Docker.AgentCommand p) "claude"
                  || String.eqb (Docker.AgentCommand p) "");
        [ pose proof (DockerProofs.seedClaudeConfig_next (host w) k4 containerName) as Hs;
          rewrite Hseed in Hs; cbn [fst snd] in Hs; lia
        | injection Hseed as <- <-; cbn; lia ]).
  all: match goal with
       | Hi : Docker.ensureAgentInstalled _ ?k _ ?name = (None, ?s7, ?n7)
         |- context [(?earlier ++ narrate ?logFd ?logFile ?s7) ++ [?launch]] =>
           destruct (search_before _ k _ name s7 n7 logFd logFile earlier Hi)
             as (before & between & Heq & Hdocker & Hout & Hnone);
           [ rewrite ?executions_trace_app, ?executions_step; cbn beta iota;
             rewrite ?executions_toLog, ?executions_narrate, ?executions_Host; lia
           | rewrite Heq;
             autorewrite with trace in Hnone; cbn beta iota in Hnone;
             autorewrite with trace in Hnone; cbn [app] in Hnone ]
       end.
  all: match goal with
       | |- context [EnsureMainCheckout :: (?l ++ [?launch]) ++ ?tail] =>
           exists (EnsureMainCheckout :: before), between, tail
       end.
  all: split; [cbn [app]; by rewrite <- !app_assoc |].
  all: split; [by rewrite executions_step |].
  all: split; [exact Hout |].
  all: split; [by rewrite launches_step |].
  all: autorewrite with trace; cbn beta iota; by autorewrite with trace.
Qed.

Lemma handleStart_agent_witness :
  (exists before between after,
     steps (handleStart (StartSamples.world None) StartSamples.request
              StartSamples.empty Samples.client)
     = before ++ Host (Docker.Exec (Docker.lookFor "claude" "grove-1"))
              :: between
                 ++ StartAgent StartSamples.first "claude" []
                      (Proto.Request.AgentEnv StartSamples.request
                       ∪ Envfile.Load (readFile (StartSamples.world None)
                                         (Join [rootDir StartSamples.empty; "env"])))
                 :: after)
  /\ (Proto.Request.AgentEnv StartSamples.request
      ∪ Envfile.Load (readFile (StartSamples.world None)
                        (Join [rootDir StartSamples.empty; "env"])))
     !! "ANTHROPIC_API_KEY" = Some "request".
Proof.
  destruct (handleStart_agent (StartSamples.world None) StartSamples.request
              StartSamples.empty Samples.client StartSamples.first "claude" []
              (Proto.Request.AgentEnv StartSamples.request
               ∪ Envfile.Load (readFile (StartSamples.world None)
                                 (Join [rootDir StartSamples.empty; "env"]))))
    as (_ & _ & _ & _ & Henv & before & between & after & Hsteps & _).
  - vm_compute. repeat first [left; reflexivity | right].
  - split; [by exists before, between, after |]. by rewrite Henv.
Defined.



End StartProofs.
(** ** The attach client *)

Module AttachClientProofs.
Import AttachClient.

Lemma stdinLoop_passes before rest :
  Forall passes before ->
  stdinLoop (before ++ rest)
  = ((List.filter (fun f => match f with DataFrame [] => false | _ => true end)
        (map (fun read => DataFrame (bytes read)) before)
      ++ (stdinLoop rest).1),
     (stdinLoop rest).2).
Proof.
  induction 1 as [|read before [Herr Hkey] _ IH].
  { cbn [app map List.filter]. by destruct (stdinLoop rest). }
  cbn [app stdinLoop map List.filter]. rewrite Herr, Hkey, IH.
  by destruct (bytes read).
Qed.

Lemma forwarded_app a b : forwarded (a ++ b) = forwarded a ++ forwarded b.
Proof. apply flat_map_app. Qed.

Lemma forwarded_passes before :
  forwarded (List.filter (fun f => match f with DataFrame [] => false | _ => true end)
               (map (fun read => DataFrame (bytes read)) before))
  = flat_map bytes before.
Proof.
  induction before as [|read before IH]; [done |]. cbn [map List.filter flat_map].
  destruct (bytes read) as [|b bs]; [exact IH |].
  cbn [forwarded flat_map]. f_equal. exact IH.
Qed.

(** X25.  The stdin loop of the attach client never forwards the detach
    key, and never sends an empty data frame.  When a read holds the
    detach key, the loop sends the detach frame and returns: what it has
    forwarded is exactly the bytes of the reads before that one, so the
    other bytes of that read -- typed before or after the key -- and all
    later input are dropped. *)
Theorem stdinLoop_detach reads :
  let r := stdinLoop reads in
  (forall payload, In (DataFrame payload) r.1 ->
     payload <> [] /\ ~ In detachKey payload)
  /\ (forall before read rest,
        reads = before ++ read :: rest ->
        Forall passes before ->
        holdsDetachKey (bytes read) = true ->
        r.2 = true
        /\ last r.1 = Some DetachFrame
        /\ forwarded r.1 = flat_map bytes before).
Proof.
  cbv zeta. split.
  - induction reads as [|read reads IH]; [done |]. intros payload. cbn [stdinLoop].
    destruct (Nat.ltb_spec 0 (length (bytes read))) as [Hlen | Hlen].
    + destruct (holdsDetachKey (bytes read)) eqn:Hkey.
      { intros [[=] | []]. }
      assert (bytes read <> [] /\ ~ In detachKey (bytes read)) as Hread.
      { split; [destruct (bytes read); [cbn in Hlen; lia | done] |]. intros Hin.
        assert (holdsDetachKey (bytes read) = true) as Hyes; [| congruence].
        apply existsb_exists. exists detachKey. split; [done | reflexivity]. }
      destruct (err read).
      { by intros [[= <-] | []]. }
      destruct (stdinLoop reads) as [frames returned].
      intros [[= <-] | Hin]; [done | by apply IH].
    + destruct (err read); [done | apply IH].
  - intros before read rest -> Hbefore Hkey.
    rewrite (stdinLoop_passes _ _ Hbefore). cbn [fst snd stdinLoop].
    assert (Nat.ltb 0 (length (bytes read)) = true) as ->.
    { destruct (bytes read); [discriminate Hkey | done]. }
    rewrite Hkey. cbn [fst snd]. split; [done |]. split.
    + apply last_snoc.
    + rewrite forwarded_app, forwarded_passes. cbn. by rewrite app_nil_r.
Qed.

End AttachClientProofs.
